(** * openavmkit.utilities.settings: template merge and variable resolution

    A shallow embedding of [_merge_settings], [_strip_flags], [is_key_in],
    [_replace_variables], [_do_replace_variables] and
    [_lookup_variable_in_settings] of [src/openavmkit/utilities/settings.py].

    The Python code works on the objects produced by [json.load]: dicts and
    lists are mutable objects that are shared by reference, and the functions
    above update them in place.  The embedding therefore keeps an explicit
    store: a value is a scalar or a reference into a heap of dict and list
    objects, and every function is a state-passing computation over the
    heap that either returns or raises.

    Numbers are Python's [int]s and [float]s.  A [float] is given by its
    value, a rational number: the code compares and copies numbers and
    does no arithmetic, so the rounding of doubles plays no part.  The
    [NaN] and the infinities that [json.load] accepts beyond JSON are
    outside the model. *)

From Stdlib Require Import ZArith QArith Qcanon Ascii String Lia.
From stdpp Require Import base tactics option list strings.

Set Warnings "-register-all".

Local Open Scope Z_scope.
Local Open Scope nat_scope.

(** ** Values, objects and the heap *)

Abbreviation loc := nat.

(** A Python value: [None], a [bool], an [int], a [float], a [str], or a
    reference to a [dict] or [list] object. *)
Inductive value : Type :=
| VNone
| VBool (b : bool)
| VInt (n : Z)
| VFloat (q : Qc)
| VStr (s : string)
| VRef (l : loc).

(** A [dict] keeps its keys in insertion order, a [list] its items. *)
Inductive obj : Type :=
| ODict (kvs : list (string * value))
| OList (items : list value).

Abbreviation heap := (list obj).

#[global] Instance Qc_eq_dec' : EqDecision Qc := Qc_eq_dec.

#[global] Instance value_eq_dec : EqDecision value.
Proof. solve_decision. Defined.

#[global] Instance obj_eq_dec : EqDecision obj.
Proof. solve_decision. Defined.

Inductive error : Type :=
| ValueError (var_name : string)   (* "Variable {var_name} not found in settings!" *)
| KeyError (key : string)
| IndexError
| TypeError
| RecursionError                   (* the interpreter's recursion limit *)
| HeapFault.                       (* a reference outside the heap; never built by Python *)

Inductive res (A : Type) : Type :=
| Ok (a : A)
| Raise (e : error).
Arguments Ok {A} a.
Arguments Raise {A} e.

(** ** The state-and-exception monad *)

Definition M (A : Type) : Type := heap → res (A * heap).

Definition ret {A} (a : A) : M A := λ h, Ok (a, h).
Definition raise {A} (e : error) : M A := λ _, Raise e.
Definition bind {A B} (m : M A) (k : A → M B) : M B :=
  λ h, match m h with
       | Ok (a, h') => k a h'
       | Raise e => Raise e
       end.

Notation "'let*' x ':=' m 'in' k" := (bind m (fun x => k))
  (at level 10, x pattern, m at level 200, k at level 200).

(** ** Strings *)

(** A [string] holds a Python [str] in its UTF-8 encoding.  The prefixes
    and the separator the code looks for (["+"], ["!"], ["$$"], ["__"],
    ["."]) are ASCII, so that taking them off a string that begins with
    them, or splitting at them, is the same on bytes as on characters. *)

Definition startswith (s p : string) : bool := String.prefix p s.

(** [s[1:]], for a string that begins with a flag *)
Definition tail1 (s : string) : string :=
  match s with
  | EmptyString => EmptyString
  | String _ t => t
  end.

(** [s[n:]], for a string whose first [n] characters are ASCII *)
Fixpoint drop_str (n : nat) (s : string) : string :=
  match n, s with
  | S n', String _ t => drop_str n' t
  | _, _ => s
  end.

(** [s.split(c)] for a one-character separator. *)
Fixpoint split_on (c : ascii) (s : string) : list string :=
  match s with
  | EmptyString => [EmptyString]
  | String a t =>
      if Ascii.eqb a c then EmptyString :: split_on c t
      else match split_on c t with
           | hd :: tl => String a hd :: tl
           | [] => [String a EmptyString]
           end
  end.

(** [sub in s] for two strings. *)
Fixpoint str_contains (sub s : string) : bool :=
  String.prefix sub s ||
  match s with
  | EmptyString => false
  | String _ t => str_contains sub t
  end.

(** ** Dict contents: association lists in insertion order *)

Definition dict_keys (d : list (string * value)) : list string := d.*1.

Fixpoint dict_get (k : string) (d : list (string * value)) : option value :=
  match d with
  | [] => None
  | (k', v) :: d' => if String.eqb k k' then Some v else dict_get k d'
  end.

Definition dict_has (k : string) (d : list (string * value)) : bool :=
  match dict_get k d with Some _ => true | None => false end.

(** [d[k] = v]: an existing key keeps its position, a new key goes last. *)
Fixpoint dict_set (k : string) (v : value) (d : list (string * value))
  : list (string * value) :=
  match d with
  | [] => [(k, v)]
  | (k', v') :: d' =>
      if String.eqb k k' then (k, v) :: d' else (k', v') :: dict_set k v d'
  end.

(** [del d[k]]: the binding of [k] goes (a dict binds a key once). *)
Fixpoint dict_del (k : string) (d : list (string * value))
  : list (string * value) :=
  match d with
  | [] => []
  | (k', v') :: d' =>
      if String.eqb k k' then dict_del k d' else (k', v') :: dict_del k d'
  end.

(** ** Heap primitives *)

Definition read (l : loc) : M obj :=
  λ h, match h !! l with
       | Some o => Ok (o, h)
       | None => Raise HeapFault
       end.

Definition write (l : loc) (o : obj) : M unit :=
  λ h, if decide (l < length h) then Ok (tt, <[l := o]> h) else Raise HeapFault.

Definition alloc (o : obj) : M loc :=
  λ h, Ok (length h, h ++ [o]).

Definition read_dict (l : loc) : M (list (string * value)) :=
  let* o := read l in
  match o with
  | ODict kvs => ret kvs
  | OList _ => raise TypeError
  end.

Definition read_list (l : loc) : M (list value) :=
  let* o := read l in
  match o with
  | OList items => ret items
  | ODict _ => raise TypeError
  end.

(** [k in d] *)
Definition dict_contains (l : loc) (k : string) : M bool :=
  let* kvs := read_dict l in ret (dict_has k kvs).

(** [d[k]] *)
Definition dict_getitem (l : loc) (k : string) : M value :=
  let* kvs := read_dict l in
  match dict_get k kvs with
  | Some v => ret v
  | None => raise (KeyError k)
  end.

(** [d[k] = v] *)
Definition dict_setitem (l : loc) (k : string) (v : value) : M unit :=
  let* kvs := read_dict l in write l (ODict (dict_set k v kvs)).

(** [del d[k]] *)
Definition dict_delitem (l : loc) (k : string) : M unit :=
  let* kvs := read_dict l in
  if dict_has k kvs then write l (ODict (dict_del k kvs))
  else raise (KeyError k).

(** [xs[i] = v] *)
Definition list_setitem (l : loc) (i : nat) (v : value) : M unit :=
  let* items := read_list l in
  if decide (i < length items) then write l (OList (<[i := v]> items))
  else raise IndexError.

(** [xs.append(v)] *)
Definition list_append (l : loc) (v : value) : M unit :=
  let* items := read_list l in write l (OList (items ++ [v])).

(** [isinstance(v, dict)] and [isinstance(v, list)] *)
Definition is_dict (h : heap) (v : value) : bool :=
  match v with
  | VRef l => match h !! l with Some (ODict _) => true | _ => false end
  | _ => false
  end.

Definition is_list (h : heap) (v : value) : bool :=
  match v with
  | VRef l => match h !! l with Some (OList _) => true | _ => false end
  | _ => false
  end.

Definition isinstance_dict (v : value) : M bool := λ h, Ok (is_dict h v, h).
Definition isinstance_list (v : value) : M bool := λ h, Ok (is_list h v, h).

(** ** Loops *)

(** [for x in xs: body x] over a list fixed at loop entry (the keys of a
    dict, a list of flags). *)
Fixpoint for_each {A} (xs : list A) (body : A → M unit) : M unit :=
  match xs with
  | [] => ret tt
  | x :: xs' => let* _ := body x in for_each xs' body
  end.

(** [for i, item in enumerate(xs): body i item] over the list object at [l].
    The items are read from the live object at every step; none of the
    loops below resizes the list it enumerates, so [n] is its length at
    loop entry. *)
Fixpoint enumerate_from (l : loc) (i n : nat) (body : nat → value → M unit)
  : M unit :=
  match n with
  | 0 => ret tt
  | S n' =>
      let* items := read_list l in
      match items !! i with
      | None => ret tt
      | Some item => let* _ := body i item in enumerate_from l (S i) n' body
      end
  end.

Definition enumerate (l : loc) (body : nat → value → M unit) : M unit :=
  let* items := read_list l in
  enumerate_from l 0 (length items) body.

(** ** Flags *)

(** [flags = ["+", "!"]] *)
Definition flags : list string := ["+"; "!"]%string.

(** [is_key_in(object, key)]: the first of ["+key"], ["!key"], ["key"] that
    is a key of the dict, with the flag it was found under. *)
Fixpoint is_key_in_flags (kvs : list (string * value)) (key : string)
    (fls : list string) : bool * string :=
  match fls with
  | [] => (false, EmptyString)
  | flag :: fls' =>
      if dict_has (flag +:+ key) kvs then (true, flag)
      else is_key_in_flags kvs key fls'
  end.

Definition is_key_in (object : loc) (key : string) : M (bool * string) :=
  let* kvs := read_dict object in
  ret (is_key_in_flags kvs key ["+"; "!"; ""]%string).

(** ** [_strip_flags] *)

(** The loop [for flag in flags] of the dict branch; it returns [key]. *)
Fixpoint strip_flag_loop (settings : loc) (key_ : string) (fls : list string)
    (key : string) : M string :=
  match fls with
  | [] => ret key
  | flag :: fls' =>
      if startswith key_ flag then
        let key' := tail1 key_ in
        let* v := dict_getitem settings key_ in
        let* _ := dict_setitem settings key' v in
        let* _ := dict_delitem settings key_ in
        strip_flag_loop settings key_ fls' key'
      else strip_flag_loop settings key_ fls' key
  end.

(** [for i, item in enumerate(xs): if isinstance(item, (list, dict)):
    xs[i] = _strip_flags(item)] *)
Definition strip_items (rec : value → M value) (xs : loc) : M unit :=
  enumerate xs (λ i item,
    let* il := isinstance_list item in
    let* id := isinstance_dict item in
    if il || id then
      let* r := rec item in list_setitem xs i r
    else ret tt).

(** The body of [for key_ in keys_in_settings]. *)
Definition strip_key (rec : value → M value) (settings : loc) (key_ : string)
  : M unit :=
  let* present := dict_contains settings key_ in
  if negb present then ret tt
  else
    let* entry := dict_getitem settings key_ in
    let* key := strip_flag_loop settings key_ flags key_ in
    let* ed := isinstance_dict entry in
    if ed then
      let* entry' := rec entry in
      let* _ := dict_setitem settings key entry' in
      dict_setitem settings key entry'
    else
      let* el := isinstance_list entry in
      if el then
        match entry with
        | VRef le =>
            let* _ := strip_items rec le in
            dict_setitem settings key entry
        | _ => raise TypeError
        end
      else dict_setitem settings key entry.

Definition strip_flags_body (rec : value → M value) (settings : value)
  : M value :=
  let* sl := isinstance_list settings in
  let* sd := isinstance_dict settings in
  match settings with
  | VRef l =>
      if sl then
        let* _ := strip_items rec l in ret settings
      else if sd then
        let* kvs := read_dict l in
        let* _ := for_each (dict_keys kvs) (strip_key rec l) in
        ret settings
      else ret settings
  | _ => ret settings
  end.

(** [_strip_flags(settings)]; [fuel] bounds the depth of the recursion. *)
Fixpoint strip_flags (fuel : nat) (settings : value) : M value :=
  match fuel with
  | 0 => raise RecursionError
  | S n => strip_flags_body (strip_flags n) settings
  end.

(** ** Equality and membership *)

Definition int_of_bool (b : bool) : Z := if b then 1%Z else 0%Z.

(** The value of an [int] as a [float] has it. *)
Definition float_of_int (n : Z) : Qc := Q2Qc (inject_Z n).

(** [a == b] on two scalars.  Numbers are compared by value, whatever
    their types: [True == 1], [False == 0], [2 == 2.0]. *)
Definition scalar_eqb (a b : value) : bool :=
  match a, b with
  | VNone, VNone => true
  | VBool x, VBool y => Bool.eqb x y
  | VBool x, VInt y | VInt y, VBool x => Z.eqb (int_of_bool x) y
  | VInt x, VInt y => Z.eqb x y
  | VFloat x, VFloat y => bool_decide (x = y)
  | VInt x, VFloat y | VFloat y, VInt x => bool_decide (float_of_int x = y)
  | VBool x, VFloat y | VFloat y, VBool x =>
      bool_decide (float_of_int (int_of_bool x) = y)
  | VStr x, VStr y => String.eqb x y
  | _, _ => false
  end.

(** [a is b or a == b], the test used by [in] and inside container
    comparisons; [h] is only read. *)
Fixpoint py_eqb (fuel : nat) (h : heap) (a b : value) : res bool :=
  match fuel with
  | 0 => Raise RecursionError
  | S n =>
      if decide (a = b) then Ok true
      else
        match a, b with
        | VRef la, VRef lb =>
            match h !! la, h !! lb with
            | Some (OList xs), Some (OList ys) =>
                if decide (length xs = length ys) then
                  (fix all2 (xs ys : list value) : res bool :=
                     match xs, ys with
                     | x :: xs', y :: ys' =>
                         match py_eqb n h x y with
                         | Ok true => all2 xs' ys'
                         | r => r
                         end
                     | _, _ => Ok true
                     end) xs ys
                else Ok false
            | Some (ODict xs), Some (ODict ys) =>
                (* for every key of [a]: [b] has it and the values are equal *)
                if decide (length xs = length ys) then
                  (fix allk (ks : list string) : res bool :=
                     match ks with
                     | [] => Ok true
                     | k :: ks' =>
                         match dict_get k xs, dict_get k ys with
                         | Some x, Some y =>
                             match py_eqb n h y x with
                             | Ok true => allk ks'
                             | r => r
                             end
                         | _, _ => Ok false
                         end
                     end) (dict_keys xs)
                else Ok false
            | Some _, Some _ => Ok false
            | _, _ => Raise HeapFault
            end
        | _, _ => Ok (scalar_eqb a b)
        end
  end.

(** [item in xs] for the items [xs] of a list. *)
Fixpoint py_in (fuel : nat) (h : heap) (item : value) (xs : list value)
  : res bool :=
  match xs with
  | [] => Ok false
  | x :: xs' =>
      match py_eqb fuel h x item with
      | Ok false => py_in fuel h item xs'
      | r => r
      end
  end.

Definition list_contains (fuel : nat) (xs : loc) (item : value) : M bool :=
  let* items := read_list xs in
  λ h, match py_in fuel h item items with
       | Ok b => Ok (b, h)
       | Raise e => Raise e
       end.

(** ** [_merge_settings] *)

(** The body of [for key_ in local]. *)
Definition merge_key (fuel : nat) (rec : loc → loc → M loc)
    (template local merged : loc) (key_ : string) : M unit :=
  let local_stomps := startswith key_ "!" in
  let key := if local_stomps then tail1 key_ else key_ in
  let* entry_l := dict_getitem local key_ in
  let* (key_exists, flag) := is_key_in template key in
  if key_exists then
    let local_key := flag +:+ key in
    let add_template := negb local_stomps && String.eqb flag "+" in
    let* _ :=
      if local_stomps then dict_setitem merged key entry_l
      else
        let* entry_t := dict_getitem template local_key in
        let* td := isinstance_dict entry_t in
        let* ld := isinstance_dict entry_l in
        let* tl := isinstance_list entry_t in
        let* ll := isinstance_list entry_l in
        match entry_t, entry_l with
        | VRef et, VRef el =>
            if td && ld then
              let* m := rec et el in dict_setitem merged key (VRef m)
            else if tl && ll then
              if add_template then
                let* _ := enumerate el (λ _ item,
                  let* found := list_contains fuel et item in
                  if found then ret tt else list_append et item) in
                dict_setitem merged key entry_t
              else dict_setitem merged key entry_l
            else dict_setitem merged key entry_l
        | _, _ => dict_setitem merged key entry_l
        end in
    let* still := dict_contains merged local_key in
    if negb (String.eqb flag "") && still then dict_delitem merged local_key
    else ret tt
  else dict_setitem merged key entry_l.

Definition merge_settings_body (fuel : nat) (rec : loc → loc → M loc)
    (template local : loc) : M loc :=
  let* tkvs := read_dict template in
  let* merged := alloc (ODict tkvs) in
  let* lkvs := read_dict local in
  let* _ := for_each (dict_keys lkvs) (merge_key fuel rec template local merged) in
  let* r := strip_flags fuel (VRef merged) in
  match r with
  | VRef m => ret m
  | _ => raise TypeError
  end.

(** [_merge_settings(template, local)]: the location of the merged dict. *)
Fixpoint merge_settings (fuel : nat) (template local : loc) : M loc :=
  match fuel with
  | 0 => raise RecursionError
  | S n => merge_settings_body n (merge_settings n) template local
  end.

(** ** [_lookup_variable_in_settings] *)

(** [first_bit in s] *)
Definition py_contains (s : value) (first_bit : string) : M bool :=
  match s with
  | VRef l =>
      let* o := read l in
      match o with
      | ODict kvs => ret (dict_has first_bit kvs)
      | OList items => ret (existsb (λ x, scalar_eqb x (VStr first_bit)) items)
      end
  | VStr str => ret (str_contains first_bit str)
  | _ => raise TypeError
  end.

(** [s[first_bit]] for a string index: only a dict accepts it. *)
Definition py_getitem (s : value) (first_bit : string) : M value :=
  match s with
  | VRef l => dict_getitem l first_bit
  | _ => raise TypeError
  end.

(** The recursion over [path]; Python's [None] is returned both for a path
    that is not found and for a path that leads to [None]. *)
Fixpoint lookup_path (s : value) (path : list string) : M value :=
  match path with
  | [] => ret VNone
  | first_bit :: rest =>
      let* present := py_contains s first_bit in
      if present then
        match rest with
        | [] => py_getitem s first_bit
        | _ :: _ => let* s' := py_getitem s first_bit in lookup_path s' rest
        end
      else ret VNone
  end.

(** [_lookup_variable_in_settings(s, var_name)] *)
Definition lookup_variable_in_settings (s : value) (var_name : string)
  : M value :=
  lookup_path s (split_on "." var_name).

(** ** [_do_replace_variables] *)

Definition var_token : string := "$$".

(** A loop over a fixed list that threads an accumulator. *)
Fixpoint fold_each {A St} (xs : list A) (body : A → St → M St) (s : St)
  : M St :=
  match xs with
  | [] => ret s
  | x :: xs' => let* s' := body x s in fold_each xs' body s'
  end.

(** [enumerate] with an accumulator. *)
Fixpoint enumerate_fold {St} (l : loc) (i n : nat)
    (body : nat → value → St → M St) (s : St) : M St :=
  match n with
  | 0 => ret s
  | S n' =>
      let* items := read_list l in
      match items !! i with
      | None => ret s
      | Some item =>
          let* s' := body i item s in enumerate_fold l (S i) n' body s'
      end
  end.

Definition do_replace_body (rec : value → M (value * nat))
    (settings : value) (node : value) : M (value * nat) :=
  match node with
  | VStr str_value =>
      if startswith str_value var_token then
        let var_name := drop_str (String.length var_token) str_value in
        let* var_value := lookup_variable_in_settings settings var_name in
        match var_value with
        | VNone => raise (ValueError var_name)
        | _ => ret (var_value, 1)
        end
      else ret (node, 0)
  | VRef l =>
      let* o := read l in
      match o with
      | ODict kvs =>
          let* (_replacements, changes) :=
            fold_each (dict_keys kvs)
              (λ key '(reps, changes),
                 let* entry := dict_getitem l key in
                 let* (replacement, _changes) := rec entry in
                 if decide (0 < _changes)
                 then ret (dict_set key replacement reps, changes + _changes)
                 else ret (reps, changes))
              ([], 0) in
          let* _ :=
            if decide (0 < changes)
            then for_each _replacements (λ '(key, r), dict_setitem l key r)
            else ret tt in
          ret (node, changes)
      | OList items =>
          let* (_replacements, changes) :=
            enumerate_fold l 0 (length items)
              (λ i entry '(reps, changes),
                 let* (replacement, _changes) := rec entry in
                 if decide (0 < _changes)
                 then ret (reps ++ [(i, replacement)], changes + _changes)
                 else ret (reps, changes))
              ([], 0) in
          let* _ :=
            if decide (0 < changes)
            then for_each _replacements (λ '(i, r), list_setitem l i r)
            else ret tt in
          ret (node, changes)
      end
  | _ => ret (node, 0)
  end.

(** [_do_replace_variables(node, settings)]: the replacement and the number
    of changes. *)
Fixpoint do_replace_variables (fuel : nat) (settings : value) (node : value)
  : M (value * nat) :=
  match fuel with
  | 0 => raise RecursionError
  | S n => do_replace_body (do_replace_variables n settings) settings node
  end.

(** ** [_replace_variables] *)

(** The [while changes > 0 and failsafe > 0] loop.  Besides the outcome it
    reports the number of changes of every pass it completed, in order. *)
Fixpoint replace_loop (fuel : nat) (settings : value) (failsafe : nat)
    (result : value) (changes : nat) (h : heap)
  : list nat * res (value * heap) :=
  match failsafe with
  | 0 => ([], Ok (result, h))
  | S failsafe' =>
      if decide (0 < changes) then
        match do_replace_variables fuel settings result h with
        | Ok ((result', changes'), h') =>
            let '(log, out) :=
              replace_loop fuel settings failsafe' result' changes' h' in
            (changes' :: log, out)
        | Raise e => ([], Raise e)
        end
      else ([], Ok (result, h))
  end.

Definition failsafe_cap : nat := 999.

(** [_replace_variables(settings)] with the log of its passes. *)
Definition replace_variables_log (fuel : nat) (settings : loc) (h : heap)
  : list nat * res (value * heap) :=
  match (let* kvs := read_dict settings in alloc (ODict kvs)) h with
  | Ok (result, h0) =>
      replace_loop fuel (VRef settings) failsafe_cap (VRef result) 1 h0
  | Raise e => ([], Raise e)
  end.

(** [_replace_variables(settings)] *)
Definition replace_variables (fuel : nat) (settings : loc) : M value :=
  λ h, (replace_variables_log fuel settings h).2.

(** ** Trees: what [json.load] builds and what a value denotes *)

Inductive tree : Type :=
| TNone
| TBool (b : bool)
| TInt (n : Z)
| TFloat (q : Qc)
| TStr (s : string)
| TList (ts : list tree)
| TDict (kts : list (string * tree)).

(** Allocate the objects of a tree, children first, as [json.load] does
    for a document. *)
Fixpoint alloc_tree (t : tree) : M value :=
  match t with
  | TNone => ret VNone
  | TBool b => ret (VBool b)
  | TInt n => ret (VInt n)
  | TFloat q => ret (VFloat q)
  | TStr s => ret (VStr s)
  | TList ts =>
      let* vs :=
        (fix go (ts : list tree) : M (list value) :=
           match ts with
           | [] => ret []
           | t :: ts' =>
               let* v := alloc_tree t in
               let* vs := go ts' in ret (v :: vs)
           end) ts in
      let* l := alloc (OList vs) in ret (VRef l)
  | TDict kts =>
      let* kvs :=
        (fix go (kts : list (string * tree)) : M (list (string * value)) :=
           match kts with
           | [] => ret []
           | (k, t) :: kts' =>
               let* v := alloc_tree t in
               let* kvs := go kts' in ret ((k, v) :: kvs)
           end) kts in
      let* l := alloc (ODict kvs) in ret (VRef l)
  end.

(** The tree a value unfolds to in a heap, if it is finite within [fuel].
    A dict is read as iteration over it sees it: its keys in order, each
    with the value bound to it. *)
Fixpoint read_tree (fuel : nat) (h : heap) (v : value) : option tree :=
  match fuel with
  | 0 => None
  | S n =>
      match v with
      | VNone => Some TNone
      | VBool b => Some (TBool b)
      | VInt z => Some (TInt z)
      | VFloat q => Some (TFloat q)
      | VStr s => Some (TStr s)
      | VRef l =>
          match h !! l with
          | Some (OList items) =>
              ts ← mapM (read_tree n h) items; Some (TList ts)
          | Some (ODict kvs) =>
              kts ← mapM (λ k, w ← dict_get k kvs;
                               t ← read_tree n h w; Some (k, t))
                         (dict_keys kvs);
              Some (TDict kts)
          | None => None
          end
      end
  end.

(** ** Documents: load, run, read back *)

(** The default recursion limit of the interpreter. *)
Definition recursion_limit : nat := 1000.

(** What a caller observes of [_merge_settings(template, local)] on two
    freshly loaded documents: the merged tree, and the trees the two
    arguments denote after the call.  [fuel] bounds the depth of the
    recursion and of the read-back; [merge_documents] runs at the
    recursion limit. *)
Definition merge_documents_at (fuel : nat) (template local : tree)
  : res (option tree * option tree * option tree) :=
  match (let* vt := alloc_tree template in
         let* vl := alloc_tree local in
         match vt, vl with
         | VRef t, VRef l =>
             let* m := merge_settings fuel t l in
             ret (VRef m, vt, vl)
         | _, _ => raise TypeError
         end) [] with
  | Ok ((m, vt, vl), h) =>
      Ok (read_tree fuel h m, read_tree fuel h vt, read_tree fuel h vl)
  | Raise e => Raise e
  end.

Definition merge_documents : tree → tree
  → res (option tree * option tree * option tree) :=
  merge_documents_at recursion_limit.

(** [Merge(template, local)]: the merged tree alone. *)
Definition Merge (template local : tree) : res (option tree) :=
  match merge_documents template local with
  | Ok (m, _, _) => Ok m
  | Raise e => Raise e
  end.

(** [_strip_flags(settings)] on a freshly loaded document, read back. *)
Definition strip_document_at (fuel : nat) (settings : tree)
  : res (option tree) :=
  match (let* v := alloc_tree settings in strip_flags fuel v) [] with
  | Ok (r, h) => Ok (read_tree fuel h r)
  | Raise e => Raise e
  end.

(** What a caller observes of [_replace_variables(settings)] on a freshly
    loaded document: the resolved tree and the tree the argument denotes
    after the call, with the log of the passes. *)
Definition resolve_document (settings : tree)
  : list nat * res (option tree * option tree) :=
  match alloc_tree settings [] with
  | Ok (VRef s, h0) =>
      match replace_variables_log recursion_limit s h0 with
      | (log, Ok (r, h)) =>
          (log, Ok (read_tree recursion_limit h r,
                    read_tree recursion_limit h (VRef s)))
      | (log, Raise e) => (log, Raise e)
      end
  | Ok (_, _) => ([], Raise TypeError)
  | Raise e => ([], Raise e)
  end.

(** [Resolve(tree)]: the resolved tree alone. *)
Definition Resolve (settings : tree) : res (option tree) :=
  match (resolve_document settings).2 with
  | Ok (r, _) => Ok r
  | Raise e => Raise e
  end.

(** ** Reachability *)

(** [w] is bound under some key of the dict [v], or is an item of the
    list [v]. *)
Inductive child (h : heap) : value → value → Prop :=
| child_dict l kvs k w :
    h !! l = Some (ODict kvs) → dict_get k kvs = Some w →
    child h (VRef l) w
| child_list l items i w :
    h !! l = Some (OList items) → items !! i = Some w →
    child h (VRef l) w.

(** [x] occurs in the tree below [v], at any depth. *)
Inductive reach (h : heap) : value → value → Prop :=
| reach_refl v : reach h v v
| reach_step v w x : child h v w → reach h w x → reach h v x.

(** No string below [v] is a variable reference. *)
Definition var_free (h : heap) (v : value) : Prop :=
  ∀ s, reach h v (VStr s) → startswith s var_token = false.

(** The heap and the root value that loading a document into the empty
    heap produces. *)
Definition doc_heap (t : tree) : heap :=
  match alloc_tree t [] with
  | Ok (_, h) => h
  | Raise _ => []
  end.

Definition doc_root (t : tree) : value :=
  match alloc_tree t [] with
  | Ok (v, _) => v
  | Raise _ => VNone
  end.

(** ** Flagged keys *)

(** The key begins with [+] or with [!]. *)
Definition flagged (k : string) : bool :=
  startswith k "+" || startswith k "!".

(** The key still begins with a flag after one flag is taken off. *)
Definition doubly_flagged (k : string) : bool :=
  flagged k && flagged (tail1 k).

(** No dict of the heap has a key with two leading flag characters. *)
Definition no_double_flags (h : heap) : bool :=
  forallb (λ o, match o with
                | ODict kvs => forallb (λ k, negb (doubly_flagged k)) (dict_keys kvs)
                | OList _ => true
                end) h.

(** The same, as a property of the lookups. *)
Definition ndf (h : heap) : Prop :=
  ∀ l kvs k, h !! l = Some (ODict kvs) → k ∈ dict_keys kvs →
             doubly_flagged k = false.

(** [w] is a value of the dict or an item of the list. *)
Definition obj_child (o : obj) (w : value) : Prop :=
  match o with
  | ODict kvs => ∃ k, dict_get k kvs = Some w
  | OList xs => ∃ i, xs !! i = Some w
  end.

(** A set of locations that is closed under [child] and whose dicts have
    no flagged key. *)
Definition goodset (h : heap) (R : loc → Prop) : Prop :=
  ∀ l, R l →
    (∀ kvs k, h !! l = Some (ODict kvs) → k ∈ dict_keys kvs →
              flagged k = false)
    ∧ (∀ l', child h (VRef l) (VRef l') → R l').

(** No dict at or below [v] has a flagged key. *)
Definition good (h : heap) (v : value) : Prop :=
  ∀ l, v = VRef l → ∃ R, goodset h R ∧ R l.

(** How [_strip_flags] moves a heap: objects keep their kind, lists their
    length, and every binding or item is an old one or is [good]. *)
Record stripped (h h' : heap) : Prop := {
  st_len : length h' = length h;
  st_dict : ∀ l kvs, h !! l = Some (ODict kvs) →
    ∃ kvs', h' !! l = Some (ODict kvs') ∧
      ∀ k v, dict_get k kvs' = Some v →
             dict_get k kvs = Some v ∨ (flagged k = false ∧ good h' v);
  st_list : ∀ l xs, h !! l = Some (OList xs) →
    ∃ xs', h' !! l = Some (OList xs') ∧ length xs' = length xs ∧
      ∀ i v, xs' !! i = Some v → xs !! i = Some v ∨ good h' v
}.

(** ** The successful runs of [_strip_flags], step by step *)

(** What [_strip_flags] does with the entry of a key: a dict goes through
    the recursive call, the items of a list are stripped in place, any
    other value is left alone. *)
Inductive strip_entry_run (rec : value → M value) (entry : value) (h : heap)
    (entry' : value) (h' : heap) : Prop :=
| ser_dict :
    is_dict h entry = true → rec entry h = Ok (entry', h') →
    strip_entry_run rec entry h entry' h'
| ser_list le :
    is_dict h entry = false → is_list h entry = true → entry = VRef le →
    strip_items rec le h = Ok (tt, h') → entry' = entry →
    strip_entry_run rec entry h entry' h'
| ser_other :
    is_dict h entry = false → is_list h entry = false →
    h' = h → entry' = entry →
    strip_entry_run rec entry h entry' h'.

(** One round of [for key_ in keys_in_settings]. *)
Inductive strip_key_run (rec : value → M value) (l : loc) (key_ : string)
    (h h' : heap) : Prop :=
| skr_absent kvs :
    h !! l = Some (ODict kvs) → dict_get key_ kvs = None → h' = h →
    strip_key_run rec l key_ h h'
| skr_present kvs entry key hr entry' hb kvs_b :
    h !! l = Some (ODict kvs) → dict_get key_ kvs = Some entry →
    strip_flag_loop l key_ flags key_ h = Ok (key, hr) →
    strip_entry_run rec entry hr entry' hb →
    hb !! l = Some (ODict kvs_b) →
    h' = <[l := ODict (dict_set key entry' kvs_b)]> hb →
    strip_key_run rec l key_ h h'.

(** One round of the loop over the items of a list. *)
Inductive strip_item_run (rec : value → M value) (xs : loc) (i : nat)
    (item : value) (h h' : heap) : Prop :=
| sir_scalar :
    is_list h item || is_dict h item = false → h' = h →
    strip_item_run rec xs i item h h'
| sir_container r hb items :
    is_list h item || is_dict h item = true →
    rec item h = Ok (r, hb) →
    hb !! xs = Some (OList items) → i < length items →
    h' = <[xs := OList (<[i := r]> items)]> hb →
    strip_item_run rec xs i item h h'.

(** The spec's dotted-path lookup, on a document: descend one segment at
    a time through Mapping keys; a missing segment fails. *)
Fixpoint tree_dict_get (k : string) (kts : list (string * tree)) : option tree :=
  match kts with
  | [] => None
  | (k', t) :: kts' => if String.eqb k k' then Some t else tree_dict_get k kts'
  end.

Fixpoint tree_path (t : tree) (path : list string) : option tree :=
  match path with
  | [] => Some t
  | seg :: rest =>
      match t with
      | TDict kts =>
          match tree_dict_get seg kts with
          | Some t' => tree_path t' rest
          | None => None
          end
      | _ => None
      end
  end.

(** ** Frames *)

Definition same_kind (o o' : obj) : Prop :=
  match o, o' with
  | ODict _, ODict _ => True
  | OList xs, OList xs' => length xs' = length xs
  | _, _ => False
  end.

(** [R] contains every object its objects refer to. *)
Definition closed (h : heap) (R : loc → Prop) : Prop :=
  ∀ x l', R x → child h (VRef x) (VRef l') → R l'.

Definition in_set (R : loc → Prop) (v : value) : Prop :=
  ∀ l, v = VRef l → R l.

(** How [_strip_flags] moves a heap when it runs inside [R]: every object
    keeps its kind and refers to nothing new, and the objects outside
    [R] are not written. *)
Record evolve (R : loc → Prop) (h h' : heap) : Prop := {
  ev_len : length h' = length h;
  ev_obj : ∀ x o, h !! x = Some o →
    ∃ o', h' !! x = Some o' ∧ same_kind o o' ∧
          ∀ w, obj_child o' w → obj_child o w;
  ev_frame : ∀ x, ¬ R x → h' !! x = h !! x
}.

(** What one round of the dict loop of [_strip_flags] does to the dict
    itself, and what the whole loop does. *)
Definition strip_key_pure (key_ : string) (d : list (string * value))
  : list (string * value) :=
  match dict_get key_ d with
  | None => d
  | Some entry =>
      if flagged key_
      then dict_set (tail1 key_) entry
             (dict_del key_ (dict_set (tail1 key_) entry d))
      else dict_set key_ entry d
  end.

Definition strip_keys_pure (keys : list string) (d : list (string * value))
  : list (string * value) :=
  fold_left (λ d key_, strip_key_pure key_ d) keys d.

(** A levelled heap: every reference leads to an allocated object exactly
    one level down.  Any heap that holds loaded documents is levelled, by
    the depth of the objects; a levelled heap has no cycles. *)
Definition graded (h : heap) (rk : loc → nat) : Prop :=
  ∀ x l', child h (VRef x) (VRef l') → rk x = S (rk l') ∧ l' < length h.

(** [fk] is a flagged spelling of the plain key [k]. *)
Definition spelling (k fk : string) : Prop :=
  fk = String "+" k ∨ fk = String "!" k.

(** [key] is a spelling of the plain key [k] with two flag characters:
    ["++k"], ["+!k"], ["!+k"] or ["!!k"]. *)
Definition double_spelling (k key : string) : Prop :=
  flagged key = true ∧ spelling k (tail1 key).

(** The state of the dict loop of [_strip_flags] with respect to the plain
    key [k] of the dict [kvs] it started from: [rem] are the keys still to
    visit and [d] is the dict as it stands. *)
Definition wins_inv (kvs : list (string * value)) (k : string)
    (rem : list string) (d : list (string * value)) : Prop :=
  (∀ fk x, spelling k fk → dict_get fk d = Some x →
           fk ∈ rem ∧ dict_get fk kvs = Some x)
  ∧ ((∃ fk, spelling k fk ∧ is_Some (dict_get fk d))
     ∨ (∃ fk a, spelling k fk ∧ dict_get fk kvs = Some a
                ∧ dict_get k d = Some a))
  ∧ (∀ key, key ∈ rem → ¬ double_spelling k key).

(** What [_merge_settings(template, local)] leaves behind when it is run
    in the levelled heap [h]: the heap is still levelled, the merged dict
    is the new object at [length h], on the level of the template, and no
    object on the level of the template or above has been written. *)
Definition merge_post (h : heap) (rk : loc → nat) (template : loc)
    (h' : heap) (rk' : loc → nat) : Prop :=
  graded h' rk'
  ∧ (∀ x, x < length h → rk' x = rk x)
  ∧ rk' (length h) = rk template
  ∧ length h < length h'
  ∧ (∃ kvs, h' !! length h = Some (ODict kvs))
  ∧ (∀ x, x < length h → rk template ≤ rk x → h' !! x = h !! x).

(** The region [R] is closed and holds everything [settings] refers
    to. *)
Definition frame_inv (R : loc → Prop) (settings : value) (h : heap) : Prop :=
  closed h R ∧ ∀ w, child h settings w → in_set R w.

(** What a run of [_do_replace_variables] inside [R] guarantees: the
    value it returns is in [R], [R] is still closed, and nothing outside
    [R] has been written. *)
Definition frame_post (R : loc → Prop) (settings : value)
    (h : heap) (v : value) (h' : heap) : Prop :=
  in_set R v ∧ frame_inv R settings h' ∧ length h' = length h
  ∧ ∀ x, ¬ R x → h' !! x = h !! x.

(** A check of [graded] on a given heap. *)
Definition obj_values (o : obj) : list value :=
  match o with
  | ODict kvs => kvs.*2
  | OList xs => xs
  end.

Definition gradedb (h : heap) (rk : loc → nat) : bool :=
  forallb (λ xo : nat * obj,
             forallb (λ w, match w with
                           | VRef l' =>
                               Nat.eqb (rk xo.1) (S (rk l'))
                               && Nat.ltb l' (length h)
                           | _ => true
                           end) (obj_values xo.2))
          (imap pair h).

(** The nesting depth of a document. *)
Fixpoint height (t : tree) : nat :=
  match t with
  | TList ts => S (list_max (map height ts))
  | TDict kts => S (list_max (map (λ '(_, t), height t) kts))
  | _ => 0
  end.

(** What loading a value [v] at level [r] guarantees: the heap stays
    levelled, what was there is kept, and [v], if a reference, sits at
    level [r]. *)
Definition alloc_post (h : heap) (rk : loc → nat) (r : nat)
    (v : value) (h' : heap) (rk' : loc → nat) : Prop :=
  graded h' rk'
  ∧ (∀ x, x < length h → rk' x = rk x)
  ∧ length h ≤ length h'
  ∧ (∀ x o, h !! x = Some o → h' !! x = Some o)
  ∧ (∀ l, v = VRef l → rk' l = r ∧ l < length h').

(** ** Runs in step *)

(** The heap [h2] holds, at every location of [R], the object [h1] holds
    there. *)
Definition agree (R : loc → Prop) (h1 h2 : heap) : Prop :=
  ∀ x, R x → h2 !! x = h1 !! x.

(** Two runs in step: the heaps agree on the closed region [R], the object
    at [l1] in the first is the object at [l2] in the second and refers
    into [R], and [l1] and [l2] are one location of [R] or both lie
    outside of it. *)
Definition sim (R : loc → Prop) (l1 l2 : loc) (h1 h2 : heap) : Prop :=
  agree R h1 h2
  ∧ h2 !! l2 = h1 !! l1
  ∧ ((l1 = l2 ∧ R l1) ∨ (¬ R l1 ∧ ¬ R l2))
  ∧ closed h1 R
  ∧ (∀ w, child h1 (VRef l1) w → in_set R w).

(** ** The augment rule *)

(** Every list object of [h] is the same list in [h']. *)
Definition lists_kept (h h' : heap) : Prop :=
  ∀ x items, h !! x = Some (OList items) → h' !! x = Some (OList items).

(** A value that is not a reference to a dict or a list. *)
Definition scalar (v : value) : Prop :=
  match v with VRef _ => False | _ => True end.

(** [item in xs] for a list of scalars. *)
Definition value_in (item : value) (xs : list value) : bool :=
  existsb (λ x, scalar_eqb x item) xs.

(** [item in xs] as a truth value, read in the heap [h]. *)
Definition value_in_at (fuel : nat) (h : heap) (item : value)
    (xs : list value) : bool :=
  match py_in fuel h item xs with
  | Ok b => b
  | Raise _ => false
  end.

(** The augment rule: the items of [items] that are not yet in the
    sequence, by [==] as the heap [h] has them, go after it, in their
    order. *)
Fixpoint augment_at (fuel : nat) (h : heap) (acc items : list value)
  : list value :=
  match items with
  | [] => acc
  | x :: items' =>
      if value_in_at fuel h x acc then augment_at fuel h acc items'
      else augment_at fuel h (acc ++ [x]) items'
  end.

(** [x] is an object at or below one of the [items]. *)
Definition below_items (h : heap) (items : list value) (x : loc) : Prop :=
  ∃ item, item ∈ items ∧ reach h item (VRef x).

(** [x] is an object at or below a dict that the template [tkvs] or the
    local dict [lkvs] binds to a key. *)
Definition below_dict_entries (h : heap) (tkvs lkvs : list (string * value))
    (x : loc) : Prop :=
  ∃ j v, (dict_get j tkvs = Some v ∨ dict_get j lkvs = Some v)
         ∧ is_dict h v = true ∧ reach h v (VRef x).

(** An item of the two lists: what lies below it is in the region [R],
    and the comparison has fuel for it. *)
Definition item_ok (R : loc → Prop) (h : heap) (rk : loc → nat) (n : nat)
    (item : value) : Prop :=
  in_set R item ∧ ∀ l, item = VRef l → l < length h ∧ S (rk l) < n.

(** ** The footprint of [_merge_settings] *)

Definition is_dict_obj (o : obj) : bool :=
  match o with ODict _ => true | OList _ => false end.

(** Every object of [h] is in [h'], a dict as a dict and a list as a
    list. *)
Definition kinds_kept (h h' : heap) : Prop :=
  ∀ x o, h !! x = Some o →
    ∃ o', h' !! x = Some o' ∧ is_dict_obj o' = is_dict_obj o.

(** From [h] to [h'] the objects in [P] are not written, and [h'] is
    closed in [Rf]. *)
Record step (P Rf : loc → Prop) (h h' : heap) : Prop := {
  step_kinds : kinds_kept h h';
  step_frame : ∀ x, P x → h' !! x = h !! x;
  step_closed : closed h' Rf
}.

(** What a call leaves behind that works inside the closed region [R]:
    the objects of [h] outside [R] are not written, and [R] with the new
    objects is closed. *)
Definition region_post (R : loc → Prop) (h h' : heap) : Prop :=
  kinds_kept h h'
  ∧ (∀ x, x < length h → ¬ R x → h' !! x = h !! x)
  ∧ closed h' (λ x, R x ∨ length h ≤ x).

(* ================================================================== *)
(** * Part I, continued: the rest of the module *)
(* ================================================================== *)

(** The functions below call methods on whatever the settings hold, so
    they can fail in ways the merge and the resolver cannot: with an
    [AttributeError] when a value has no such method, with a [KeyError]
    for a key that is not a string, and with [ValueError]s that carry
    their own text. *)
Inductive exn : Type :=
| Core (e : error)
| AttributeError
| KeyErrorOf (key : value)
| ValueErrorText (msg : string).

Inductive outcome (A : Type) : Type :=
| Done (a : A)
| Raised (e : exn).
Arguments Done {A} a.
Arguments Raised {A} e.

Definition Py (A : Type) : Type := heap → outcome (A * heap).

Definition pret {A} (a : A) : Py A := λ h, Done (a, h).
Definition praise {A} (e : exn) : Py A := λ _, Raised e.
Definition pbind {A B} (m : Py A) (k : A → Py B) : Py B :=
  λ h, match m h with
       | Done (a, h') => k a h'
       | Raised e => Raised e
       end.

(** A computation of the core, run as it is. *)
Definition core {A} (m : M A) : Py A :=
  λ h, match m h with
       | Ok r => Done r
       | Raise e => Raised (Core e)
       end.

Notation "'let+' x ':=' m 'in' k" := (pbind m (fun x => k))
  (at level 10, x pattern, m at level 200, k at level 200).

(** [for x in xs: body x] and the same with an accumulator, for a list
    that is fixed at loop entry. *)
Fixpoint pfor {A} (xs : list A) (body : A → Py unit) : Py unit :=
  match xs with
  | [] => pret tt
  | x :: xs' => let+ _ := body x in pfor xs' body
  end.

Fixpoint pfold {A St} (xs : list A) (body : A → St → Py St) (s : St)
  : Py St :=
  match xs with
  | [] => pret s
  | x :: xs' => let+ s' := body x s in pfold xs' body s'
  end.

(** [[x for x in xs if test x]] *)
Fixpoint pfilter {A} (xs : list A) (test : A → Py bool) : Py (list A) :=
  match xs with
  | [] => pret []
  | x :: xs' =>
      let+ b := test x in
      let+ rest := pfilter xs' test in
      pret (if b then x :: rest else rest)
  end.

(** ** Python operations on arbitrary values *)

(** The literals [{}] and [[...]]: a new object. *)
Definition new_dict : Py value :=
  let+ l := core (alloc (ODict [])) in pret (VRef l).

Definition new_list (items : list value) : Py value :=
  let+ l := core (alloc (OList items)) in pret (VRef l).

(** [d.get(k, default)]: only a dict has the method. *)
Definition py_get (d : value) (k : string) (default : value) : Py value :=
  match d with
  | VRef l =>
      let+ o := core (read l) in
      match o with
      | ODict kvs =>
          match dict_get k kvs with
          | Some v => pret v
          | None => pret default
          end
      | OList _ => praise AttributeError
      end
  | _ => praise AttributeError
  end.

(** [v.copy()]: dicts and lists have the method; the copy is shallow. *)
Definition py_copy (v : value) : Py value :=
  match v with
  | VRef l =>
      let+ o := core (read l) in
      let+ c := core (alloc o) in pret (VRef c)
  | _ => praise AttributeError
  end.

(** The position an index [i] denotes in a sequence of length [n]:
    negative indices count from the end. *)
Definition py_index (n : nat) (i : Z) : option nat :=
  if decide (0 ≤ i < Z.of_nat n)%Z then Some (Z.to_nat i)
  else if decide (- Z.of_nat n ≤ i < 0)%Z then Some (Z.to_nat (Z.of_nat n + i))
  else None.

(** A [string] holds the UTF-8 encoding of a Python [str]: a character
    (a code point) is one byte or several, and a byte [10xxxxxx] continues
    the character begun before it. *)
Definition continuation (a : ascii) : bool :=
  match a with Ascii _ _ _ _ _ _ b6 b7 => b7 && negb b6 end.

(** The characters of a string, each as a string. *)
Fixpoint code_points (s : string) : list string :=
  match s with
  | EmptyString => []
  | String a t =>
      let rest := code_points t in
      match t, rest with
      | String b _, c :: cs =>
          if continuation b then String a c :: cs
          else String a EmptyString :: rest
      | _, _ => String a EmptyString :: rest
      end
  end.

Definition chars (s : string) : list value := VStr <$> code_points s.

(** [len(s)] *)
Definition str_len (s : string) : nat := length (code_points s).

(** [c[i]] *)
Definition py_subscript (c i : value) : Py value :=
  match c with
  | VRef l =>
      let+ o := core (read l) in
      match o with
      | ODict kvs =>
          match i with
          | VStr k =>
              match dict_get k kvs with
              | Some v => pret v
              | None => praise (Core (KeyError k))
              end
          | VRef _ => praise (Core TypeError)     (* unhashable *)
          | _ => praise (KeyErrorOf i)
          end
      | OList items =>
          match i with
          | VInt z =>
              match py_index (length items) z ≫= (items !!.) with
              | Some v => pret v
              | None => praise (Core IndexError)
              end
          | VBool b =>
              match py_index (length items) (int_of_bool b) ≫= (items !!.) with
              | Some v => pret v
              | None => praise (Core IndexError)
              end
          | _ => praise (Core TypeError)
          end
      end
  | VStr s =>
      match i with
      | VInt z =>
          match py_index (str_len s) z ≫= (chars s !!.) with
          | Some v => pret v
          | None => praise (Core IndexError)
          end
      | VBool b =>
          match py_index (str_len s) (int_of_bool b) ≫= (chars s !!.) with
          | Some v => pret v
          | None => praise (Core IndexError)
          end
      | _ => praise (Core TypeError)
      end
  | _ => praise (Core TypeError)
  end.

(** What [for x in v] goes through: the keys of a dict, the items of a
    list, the characters of a string. *)
Definition py_iter (v : value) : Py (list value) :=
  match v with
  | VRef l =>
      let+ o := core (read l) in
      match o with
      | ODict kvs => pret (VStr <$> dict_keys kvs)
      | OList items => pret items
      end
  | VStr s => pret (chars s)
  | _ => praise (Core TypeError)
  end.

(** [item in xs] for a list [xs] made inside the function. *)
Definition py_in_list (fuel : nat) (item : value) (xs : list value)
  : Py bool :=
  λ h, match py_in fuel h item xs with
       | Ok b => Done (b, h)
       | Raise e => Raised (Core e)
       end.

(** [v == s] for a string [s]. *)
Definition is_str (v : value) (s : string) : bool :=
  match v with
  | VStr s' => String.eqb s' s
  | _ => false
  end.

(** [v in types] for a list of strings given by the caller. *)
Definition str_in (v : value) (types : list string) : bool :=
  existsb (is_str v) types.

(** ** [_remove_comments_from_settings] *)

Definition comment_token : string := "__".

(** The function body.  On a dict it goes through the keys the dict has at
    loop entry.  On anything else [for key in s] either has nothing to go
    through, and [s] is returned, or fails in its first round: at
    [s[key]], or at [key.startswith] when the key was accepted as a list
    index and so is no string. *)
Definition remove_comments_body (rec : value → Py value) (s : value)
  : Py value :=
  match s with
  | VRef l =>
      let+ o := core (read l) in
      match o with
      | ODict kvs =>
          let+ keys_to_remove :=
            pfold (dict_keys kvs)
              (λ key keys_to_remove,
                 let+ entry := core (dict_getitem l key) in
                 if startswith key comment_token
                 then pret (keys_to_remove ++ [key])
                 else
                   let+ ed := core (isinstance_dict entry) in
                   if ed then
                     let+ r := rec entry in
                     let+ _ := core (dict_setitem l key r) in
                     pret keys_to_remove
                   else pret keys_to_remove)
              [] in
          let+ _ := pfor keys_to_remove (λ k, core (dict_delitem l k)) in
          pret s
      | OList [] => pret s
      | OList (key :: _) =>
          let+ _ := py_subscript s key in praise AttributeError
      end
  | VStr EmptyString => pret s
  | _ => praise (Core TypeError)
  end.

(** [_remove_comments_from_settings(s)]; [fuel] bounds the depth of the
    recursion. *)
Fixpoint remove_comments_from_settings (fuel : nat) (s : value) : Py value :=
  match fuel with
  | 0 => praise (Core RecursionError)
  | S n => remove_comments_body (remove_comments_from_settings n) s
  end.

(** ** What [_remove_comments_from_settings] reaches and what it leaves *)

(** A binding that is no comment. *)
Definition live (kv : string * value) : bool :=
  negb (startswith kv.1 comment_token).

(** The bindings of a dict without the comments, in their order. *)
Definition without_comments (kvs : list (string * value))
  : list (string * value) :=
  List.filter live kvs.

(** [w] is bound in the dict [v] under a key that is no comment. *)
Inductive live_child (h : heap) : value → value → Prop :=
| live_child_intro l kvs k w :
    h !! l = Some (ODict kvs) → dict_get k kvs = Some w →
    startswith k comment_token = false →
    live_child h (VRef l) w.

(** What the recursion visits: the values below [v] along dict entries
    that are no comments.  It does not go through lists. *)
Inductive live_reach (h : heap) : value → value → Prop :=
| live_reach_refl v : live_reach h v v
| live_reach_step v w x :
    live_child h v w → live_reach h w x → live_reach h v x.

(** The dict at [x], if there is one, has no comment. *)
Definition clean (h : heap) (x : loc) : Prop :=
  ∀ kvs, h !! x = Some (ODict kvs) → without_comments kvs = kvs.

(** From [h] to [h'] bindings were only taken away, and only comments:
    every list is as it was, and every dict holds a part of the bindings
    it held, in their order, with all that are no comments; what a key is
    bound to, it was bound to before. *)
Record shrunk (h h' : heap) : Prop := {
  sh_len : length h' = length h;
  sh_list : ∀ x items, h !! x = Some (OList items) →
            h' !! x = Some (OList items);
  sh_dict : ∀ x kvs, h !! x = Some (ODict kvs) →
            ∃ kvs', h' !! x = Some (ODict kvs')
                    ∧ sublist kvs' kvs
                    ∧ without_comments kvs' = without_comments kvs
                    ∧ ∀ k v, dict_get k kvs' = Some v →
                             dict_get k kvs = Some v
}.

(** Every dict of the heap binds a key once, as a Python dict does. *)
Definition unique_keys (h : heap) : Prop :=
  ∀ x kvs, h !! x = Some (ODict kvs) → NoDup (dict_keys kvs).

Definition unique_keysb (h : heap) : bool :=
  forallb (λ o, match o with
                | ODict kvs => bool_decide (NoDup (dict_keys kvs))
                | OList _ => true
                end) h.

(** What a run of [_remove_comments_from_settings(s)] from [h] to [h']
    that returns [r] guarantees. *)
Definition remove_post (h : heap) (s r : value) (h' : heap) : Prop :=
  r = s
  ∧ shrunk h h'
  ∧ (∀ x, live_reach h s (VRef x) → clean h' x)
  ∧ (∀ x, ¬ live_reach h s (VRef x) → h' !! x = h !! x).

(** [w] is bound in the dict [v] under some key, and what can be reached
    from [v] through dicts alone. *)
Inductive dict_child (h : heap) : value → value → Prop :=
| dict_child_intro l kvs k w :
    h !! l = Some (ODict kvs) → dict_get k kvs = Some w →
    dict_child h (VRef l) w.

Inductive dict_reach (h : heap) : value → value → Prop :=
| dict_reach_refl v : dict_reach h v v
| dict_reach_step v w x :
    dict_child h v w → dict_reach h w x → dict_reach h v x.

(** ** [_process_settings] and [load_settings] *)

(** [_replace_variables(settings)] on any value: [settings.copy()], then
    the loop of passes.  On a dict this is [replace_variables]. *)
Definition replace_variables_any (fuel : nat) (settings : value) : Py value :=
  let+ result := py_copy settings in
  core (λ h, (replace_loop fuel settings failsafe_cap result 1 h).2).

(** [_process_settings(settings)] *)
Definition process_settings (fuel : nat) (settings : value) : Py value :=
  let+ s := py_copy settings in
  let+ s := remove_comments_from_settings fuel s in
  replace_variables_any fuel s.

(** [load_settings(settings_object=...)] for a settings object that is
    given, so that no file is read.  The two templates that the function
    loads from the resources of the package are the documents [template],
    a Mapping, and [data_dictionary]; [json.load] builds their objects
    anew at every call. *)
Definition load_settings (fuel : nat) (template : list (string * tree))
    (data_dictionary : tree) (settings_object : loc) : Py value :=
  let+ vt := core (alloc_tree (TDict template)) in
  match vt with
  | VRef t =>
      let+ settings := core (merge_settings fuel t settings_object) in
      let+ vdd := core (alloc_tree data_dictionary) in
      let+ base_dd := core (alloc (ODict [("data_dictionary"%string, vdd)])) in
      let+ settings := core (merge_settings fuel base_dd settings) in
      let+ settings := remove_comments_from_settings fuel (VRef settings) in
      replace_variables_any fuel settings
  | _ => praise (Core HeapFault)
  end.

(** From [h] to [h'] no dict has gained, lost or moved a key and no list
    has changed its length: only values were replaced. *)
Record same_shape (h h' : heap) : Prop := {
  ss_len : length h' = length h;
  ss_dict : ∀ x kvs, h !! x = Some (ODict kvs) →
            ∃ kvs', h' !! x = Some (ODict kvs')
                    ∧ dict_keys kvs' = dict_keys kvs;
  ss_list : ∀ x items, h !! x = Some (OList items) →
            ∃ items', h' !! x = Some (OList items')
                      ∧ length items' = length items
}.

(** From [h] to [h'] no object has gone and no dict has lost a key that
    carries no flag. *)
Definition keeps_plain (h h' : heap) : Prop :=
  length h ≤ length h'
  ∧ ∀ x kvs, h !! x = Some (ODict kvs) →
      ∃ kvs', h' !! x = Some (ODict kvs')
              ∧ ∀ k, flagged k = false → k ∈ dict_keys kvs →
                     k ∈ dict_keys kvs'.

(** [key_] as the loop of [_merge_settings] reads it: without the [!]
    that makes the local entry stomp the template's. *)
Definition merge_key_name (key_ : string) : string :=
  if startswith key_ "!" then tail1 key_ else key_.

(** ** The accessors *)

(** [get_data_dictionary(settings)] *)
Definition get_data_dictionary (settings : value) : Py value :=
  let+ d := new_dict in py_get settings "data_dictionary" d.

(** [settings.get("locality", {}).get("units", "imperial")], the
    expression each of the four unit getters begins with. *)
Definition base_units (settings : value) : Py value :=
  let+ d := new_dict in
  let+ locality := py_get settings "locality" d in
  py_get locality "units" (VStr "imperial").

(** The [if]/[elif] of a unit getter; a function that runs off its end
    returns [None]. *)
Definition unit_choice (base_units : value) (imperial metric : string)
  : value :=
  if is_str base_units "imperial" then VStr imperial
  else if is_str base_units "metric" then VStr metric
  else VNone.

Definition get_small_area_unit (settings : value) : Py value :=
  let+ base_units := base_units settings in
  pret (unit_choice base_units "sqft" "sqm").

Definition get_large_area_unit (settings : value) : Py value :=
  let+ base_units := base_units settings in
  pret (unit_choice base_units "acre" "ha").

Definition get_short_distance_unit (settings : value) : Py value :=
  let+ base_units := base_units settings in
  pret (unit_choice base_units "ft" "m").

Definition get_long_distance_unit (settings : value) : Py value :=
  let+ base_units := base_units settings in
  pret (unit_choice base_units "mile" "km").

(** [get_model_group_ids(settings)], without a data frame.  The lists the
    function builds on its way are kept as lists of values; the one it
    returns is a new object. *)
Definition get_model_group_ids (fuel : nat) (settings : value) : Py value :=
  let+ d := new_dict in
  let+ modeling := py_get settings "modeling" d in
  let+ d := new_dict in
  let+ model_groups := py_get modeling "model_groups" d in
  let+ d := new_dict in
  let+ instructions := py_get modeling "instructions" d in
  let+ l := new_list [] in
  let+ order := py_get instructions "model_group_order" l in
  let+ model_group_ids := py_iter model_groups in
  let+ order_items := py_iter order in
  let+ ordered_ids :=
    pfilter order_items (λ key, py_in_list fuel key model_group_ids) in
  let+ unordered_ids :=
    pfilter model_group_ids
      (λ key, let+ b := py_in_list fuel key ordered_ids in pret (negb b)) in
  new_list (ordered_ids ++ unordered_ids).

(** [get_grouped_fields_from_data_dictionary(dd, group, types)]; [types]
    is [None] or a list of strings. *)
Definition get_grouped_fields_from_data_dictionary (dd : value)
    (group : string) (types : option (list string)) : Py value :=
  let+ keys := py_iter dd in
  let+ result :=
    pfold keys
      (λ key result,
         let+ entry := py_subscript dd key in
         let+ l := new_list [] in
         let+ groups := py_get entry "groups" l in
         let+ found := core (py_contains groups group) in
         if found then
           match types with
           | None => pret (result ++ [key])
           | Some ts =>
               let+ type := py_get entry "type" VNone in
               if str_in type ts then pret (result ++ [key])
               else pret result
           end
         else pret result)
      [] in
  new_list result.

(** A string, as a value. *)
Definition is_vstr (v : value) : Prop := ∃ k, v = VStr k.

(** What the two comprehensions of [get_model_group_ids] come to when the
    ids are strings, so that [in] is plain membership: the entries of
    [order] that are ids, then the ids that [order] has not named. *)
Definition ordered_ids (ids order : list value) : list value :=
  List.filter (λ v, bool_decide (v ∈ ids)) order.

Definition unordered_ids (ids order : list value) : list value :=
  List.filter (λ v, negb (bool_decide (v ∈ ordered_ids ids order))) ids.

(** What [modeling.get("instructions", {}).get("model_group_order", [])]
    finds in the dict [mk] of [modeling], before the defaults: [order] is
    the value bound, or [None] when one of the two keys is missing. *)
Definition order_is (h : heap) (mk : list (string * value))
    (order : option value) : Prop :=
  match dict_get "instructions" mk with
  | None => order = None
  | Some (VRef i) =>
      ∃ ik, h !! i = Some (ODict ik)
            ∧ order = dict_get "model_group_order" ik
  | Some _ => False
  end.

(** A value that [for] can go through: a [str], a [dict] or a [list]. *)
Definition iterable (h : heap) (v : value) : Prop :=
  match v with
  | VStr _ => True
  | VRef o => o < length h
  | _ => False
  end.

(** A value that [for] cannot go through. *)
Definition not_iterable (v : value) : Prop :=
  match v with
  | VNone | VBool _ | VInt _ | VFloat _ => True
  | _ => False
  end.

(** ** The flag stripping of the specification *)

(** A flag character. *)
Definition is_flag (a : ascii) : bool :=
  Ascii.eqb a "+" || Ascii.eqb a "!".

(** The key without the flag characters it begins with. *)
Fixpoint plain_name (k : string) : string :=
  match k with
  | String a t => if is_flag a then plain_name t else k
  | EmptyString => k
  end.

(** [T] with all flags stripped from every key, at every depth. *)
Fixpoint strip_all_flags (t : tree) : tree :=
  match t with
  | TList ts => TList (map strip_all_flags ts)
  | TDict kts =>
      TDict (map (λ '(k, t), (plain_name k, strip_all_flags t)) kts)
  | _ => t
  end.

(** Equality of documents.  A Sequence is ordered; a Mapping binds a key
    once, and the order of its entries is irrelevant: two Mappings are
    equal when they bind the same keys to equal values. *)
Inductive tree_eqv : tree → tree → Prop :=
| eqv_none : tree_eqv TNone TNone
| eqv_bool b : tree_eqv (TBool b) (TBool b)
| eqv_int n : tree_eqv (TInt n) (TInt n)
| eqv_float q : tree_eqv (TFloat q) (TFloat q)
| eqv_str s : tree_eqv (TStr s) (TStr s)
| eqv_list ts us :
    Forall2 tree_eqv ts us → tree_eqv (TList ts) (TList us)
| eqv_dict kts kus :
    NoDup kts.*1 → NoDup kus.*1 →
    (∀ k, option_Forall2 tree_eqv (tree_dict_get k kts)
                                  (tree_dict_get k kus)) →
    tree_eqv (TDict kts) (TDict kus).

(** The keys of a Mapping can be stripped: none has two flag characters,
    and no two of them are spellings of one plain key. *)
Definition keys_strippable (keys : list string) : bool :=
  forallb (λ k, negb (doubly_flagged k)) keys
  && bool_decide (NoDup (plain_name <$> keys)).

(** The same for every Mapping of a document. *)
Fixpoint strippable (t : tree) : bool :=
  match t with
  | TList ts => forallb strippable ts
  | TDict kts =>
      keys_strippable kts.*1 && forallb (λ '(_, t), strippable t) kts
  | _ => true
  end.

(** The dict loop of [_strip_flags] on the whole dict, and the dict with
    every key replaced by its plain name. *)
Definition strip_dict (kvs : list (string * value)) : list (string * value) :=
  strip_keys_pure (dict_keys kvs) kvs.

Definition rename_dict (kvs : list (string * value)) : list (string * value) :=
  (λ kv, (plain_name kv.1, kv.2)) <$> kvs.

Definition strip_obj (o : obj) : obj :=
  match o with
  | ODict kvs => ODict (strip_dict kvs)
  | OList xs => OList xs
  end.

(** Every object of [h] is in [h'] as it was, or with the dict loop of
    [_strip_flags] run on it some number of times. *)
Definition strips (h h' : heap) : Prop :=
  length h' = length h
  ∧ ∀ x o, h !! x = Some o → ∃ n, h' !! x = Some (Nat.iter n strip_obj o).

(** The same for every object but [l]. *)
Definition strips_but (l : loc) (h h' : heap) : Prop :=
  length h' = length h
  ∧ ∀ x o, x ≠ l → h !! x = Some o →
           ∃ n, h' !! x = Some (Nat.iter n strip_obj o).

(** The keys of every dict of the heap can be stripped. *)
Definition heap_strippable (h : heap) : Prop :=
  ∀ l kvs, h !! l = Some (ODict kvs) →
           keys_strippable (dict_keys kvs) = true.

(* ================================================================== *)
(** * Part II: properties *)
(* ================================================================== *)

Local Open Scope string_scope.

(** ** Worked documents *)


(** C3 fails on the code in two ways.  A variable whose path leads to
    [null] is reported as not found, because [None] is also what
    [_lookup_variable_in_settings] returns for a missing path; and a path
    that runs into a number raises [TypeError] from [first_bit in s], not
    the unresolved-variable error. *)
Theorem resolve_null_variable_raises :
  (let doc := TDict [("a", TNone); ("b", TStr "$$a")] in
   tree_path doc ["a"] = Some TNone
   ∧ Resolve doc = Raise (ValueError "a"))
  ∧ (let doc := TDict [("a", TInt 5); ("b", TStr "$$a.c")] in
     tree_path doc ["a"; "c"] = None
     ∧ Resolve doc = Raise TypeError).
Proof. repeat split; by vm_compute. Qed.

(** C9 as stated fails: both functions copy only the top-level dict.
    Merge appends to the template's own list and strips flags inside the
    nested dicts of its arguments; Resolve substitutes inside the nested
    dicts of its argument. *)
Lemma merge_and_resolve_modify_their_arguments :
  merge_documents (TDict [("+x", TList [TInt 1; TInt 2])])
                  (TDict [("x", TList [TInt 2; TInt 3])])
  = Ok (Some (TDict [("x", TList [TInt 1; TInt 2; TInt 3])]),
        Some (TDict [("+x", TList [TInt 1; TInt 2; TInt 3])]),
        Some (TDict [("x", TList [TInt 2; TInt 3])]))
  ∧ merge_documents (TDict []) (TDict [("a", TDict [("+b", TInt 1)])])
    = Ok (Some (TDict [("a", TDict [("b", TInt 1)])]),
          Some (TDict []),
          Some (TDict [("a", TDict [("b", TInt 1)])]))
  ∧ (resolve_document (TDict [("a", TDict [("b", TStr "$$c")]); ("c", TInt 5)])).2
    = Ok (Some (TDict [("a", TDict [("b", TInt 5)]); ("c", TInt 5)]),
          Some (TDict [("a", TDict [("b", TInt 5)]); ("c", TInt 5)])).
Proof. repeat split; by vm_compute. Qed.

(** The worked example of C1 and the one of C10, for every pair of
    integers. *)
Lemma merge_augment_example :
  Merge (TDict [("+x", TList [TInt 1; TInt 2])])
        (TDict [("x", TList [TInt 2; TInt 3])])
  = Ok (Some (TDict [("x", TList [TInt 1; TInt 2; TInt 3])])).
Proof. by vm_compute. Qed.

(** The augment rule compares by value: [2 == 2.0], [1 == True], and
    nested items structurally. *)
Lemma merge_augment_by_value_example :
  Merge (TDict [("+x", TList [TFloat (Q2Qc 2); TDict [("a", TInt 1)]])])
        (TDict [("x", TList [TInt 2; TBool true; TDict [("a", TInt 1)];
                             TInt 1; TList []])])
  = Ok (Some (TDict [("x", TList [TFloat (Q2Qc 2); TDict [("a", TInt 1)];
                                  TBool true; TList []])])).
Proof. by vm_compute. Qed.

(** A [str] is gone through by code points, not by the bytes of its
    encoding. *)
Lemma code_points_utf8 :
  code_points "aé€" = ["a"; "é"; "€"] ∧ str_len "aé€" = 3
  ∧ String.length "aé€" = 6.
Proof. split_and!; reflexivity. Qed.

Lemma merge_flagged_local_key_example (v w : Z) :
  Merge (TDict [("x", TInt w)]) (TDict [("+x", TInt v)])
  = Ok (Some (TDict [("x", TInt v)])).
Proof. by vm_compute. Qed.

Local Close Scope string_scope.

(** ** The monad: inversion of successful runs *)

Lemma bind_ok {A B} (m : M A) (k : A → M B) h b h' :
  bind m k h = Ok (b, h') →
  ∃ a h1, m h = Ok (a, h1) ∧ k a h1 = Ok (b, h').
Proof.
  unfold bind. destruct (m h) as [[a h1]|e]; [eauto | discriminate].
Qed.

Lemma ret_ok {A} (a b : A) h h' : ret a h = Ok (b, h') → b = a ∧ h' = h.
Proof. unfold ret. by intros [= -> ->]. Qed.

Lemma read_ok l h o h' : read l h = Ok (o, h') → h' = h ∧ h !! l = Some o.
Proof. unfold read. destruct (h !! l); by intros [= -> ->]. Qed.

Lemma read_dict_ok l h kvs h' :
  read_dict l h = Ok (kvs, h') → h' = h ∧ h !! l = Some (ODict kvs).
Proof.
  unfold read_dict. intros (o & h1 & [-> Hl]%read_ok & H)%bind_ok.
  destruct o; [apply ret_ok in H as [-> ->]; done | done].
Qed.

Lemma read_list_ok l h items h' :
  read_list l h = Ok (items, h') → h' = h ∧ h !! l = Some (OList items).
Proof.
  unfold read_list. intros (o & h1 & [-> Hl]%read_ok & H)%bind_ok.
  destruct o; [done | apply ret_ok in H as [-> ->]; done].
Qed.

Lemma write_ok l o h u h' :
  write l o h = Ok (u, h') → l < length h ∧ h' = <[l := o]> h.
Proof. unfold write. case_decide; [by intros [= <- <-] | done]. Qed.

Lemma dict_getitem_ok l k h v h' :
  dict_getitem l k h = Ok (v, h') →
  h' = h ∧ ∃ kvs, h !! l = Some (ODict kvs) ∧ dict_get k kvs = Some v.
Proof.
  unfold dict_getitem. intros (kvs & h1 & [-> Hl]%read_dict_ok & H)%bind_ok.
  destruct (dict_get k kvs) eqn:E; [|done].
  apply ret_ok in H as [-> ->]. eauto.
Qed.

Lemma dict_contains_ok l k h b h' :
  dict_contains l k h = Ok (b, h') →
  h' = h ∧ ∃ kvs, h !! l = Some (ODict kvs) ∧ b = dict_has k kvs.
Proof.
  unfold dict_contains. intros (kvs & h1 & [-> Hl]%read_dict_ok & H)%bind_ok.
  apply ret_ok in H as [-> ->]. eauto.
Qed.

Lemma dict_setitem_ok l k v h u h' :
  dict_setitem l k v h = Ok (u, h') →
  ∃ kvs, h !! l = Some (ODict kvs) ∧ h' = <[l := ODict (dict_set k v kvs)]> h.
Proof.
  unfold dict_setitem. intros (kvs & h1 & [-> Hl]%read_dict_ok & H)%bind_ok.
  apply write_ok in H as [_ ->]. eauto.
Qed.

Lemma dict_delitem_ok l k h u h' :
  dict_delitem l k h = Ok (u, h') →
  ∃ kvs, h !! l = Some (ODict kvs) ∧ dict_has k kvs = true
         ∧ h' = <[l := ODict (dict_del k kvs)]> h.
Proof.
  unfold dict_delitem. intros (kvs & h1 & [-> Hl]%read_dict_ok & H)%bind_ok.
  destruct (dict_has k kvs) eqn:E; [|done].
  apply write_ok in H as [_ ->]. eauto.
Qed.

Lemma list_setitem_ok l i v h u h' :
  list_setitem l i v h = Ok (u, h') →
  ∃ items, h !! l = Some (OList items) ∧ i < length items
           ∧ h' = <[l := OList (<[i := v]> items)]> h.
Proof.
  unfold list_setitem. intros (items & h1 & [-> Hl]%read_list_ok & H)%bind_ok.
  case_decide; [|done]. apply write_ok in H as [_ ->]. eauto.
Qed.

Lemma list_append_ok l v h u h' :
  list_append l v h = Ok (u, h') →
  ∃ items, h !! l = Some (OList items)
           ∧ h' = <[l := OList (items ++ [v])]> h.
Proof.
  unfold list_append. intros (items & h1 & [-> Hl]%read_list_ok & H)%bind_ok.
  apply write_ok in H as [_ ->]. eauto.
Qed.

Lemma isinstance_dict_ok v h b h' :
  isinstance_dict v h = Ok (b, h') → h' = h ∧ b = is_dict h v.
Proof. unfold isinstance_dict. by intros [= <- <-]. Qed.

Lemma isinstance_list_ok v h b h' :
  isinstance_list v h = Ok (b, h') → h' = h ∧ b = is_list h v.
Proof. unfold isinstance_list. by intros [= <- <-]. Qed.

(** Split a successful run of a sequence of binds into its steps. *)
Ltac inv_run H :=
  lazymatch type of H with
  | bind _ _ _ = Ok _ =>
      let a := fresh "a" in let h := fresh "h" in
      let H1 := fresh "Hrun" in let H2 := fresh "Hrun" in
      apply bind_ok in H as (a & h & H1 & H2); inv_run H1; inv_run H2
  | ret _ _ = Ok _ => apply ret_ok in H as [? ?]; simplify_eq
  | raise _ _ = Ok _ => discriminate H
  | read_dict _ _ = Ok _ => apply read_dict_ok in H as [? ?]; simplify_eq
  | read_list _ _ = Ok _ => apply read_list_ok in H as [? ?]; simplify_eq
  | dict_getitem _ _ _ = Ok _ =>
      apply dict_getitem_ok in H as [? (? & ? & ?)]; simplify_eq
  | dict_contains _ _ _ = Ok _ =>
      apply dict_contains_ok in H as [? (? & ? & ?)]; simplify_eq
  | isinstance_dict _ _ = Ok _ =>
      apply isinstance_dict_ok in H as [? ?]; simplify_eq
  | isinstance_list _ _ = Ok _ =>
      apply isinstance_list_ok in H as [? ?]; simplify_eq
  | _ => idtac
  end.

(** ** A pass without replacements *)

Lemma reach_ref_inv h l x :
  reach h (VRef l) x →
  x = VRef l ∨ ∃ w, child h (VRef l) w ∧ reach h w x.
Proof. inversion 1; subst; eauto. Qed.

Lemma reach_scalar h v x :
  (∀ l, v ≠ VRef l) → reach h v x → x = v.
Proof.
  intros Hv Hr. inversion Hr as [|? w ? Hc]; subst; [done|].
  inversion Hc; subst; by destruct (Hv l).
Qed.

Lemma dict_get_keys k kvs w : dict_get k kvs = Some w → k ∈ dict_keys kvs.
Proof.
  induction kvs as [|[k' v'] kvs IH]; simpl; [done|].
  destruct (String.eqb k k') eqn:E.
  - apply String.eqb_eq in E as ->. intros _. left.
  - intros ?. right. by apply IH.
Qed.

Section zero_pass.
Context (settings : value) (rec : value → M (value * nat)).
Hypothesis rec_zero : ∀ node h v h',
  rec node h = Ok ((v, 0), h') → v = node ∧ h' = h ∧ var_free h node.

Lemma dict_fold_ge l keys reps c h reps' c' h' :
  fold_each keys
    (λ key '(reps, changes),
       let* entry := dict_getitem l key in
       let* (replacement, _changes) := rec entry in
       if decide (0 < _changes)
       then ret (dict_set key replacement reps, changes + _changes)
       else ret (reps, changes))
    (reps, c) h = Ok ((reps', c'), h') →
  (c ≤ c')%nat.
Proof.
  revert reps c h.
  induction keys as [|key keys IH]; intros reps c h H; simpl in H.
  - apply ret_ok in H as [[= <- <-] ->]. done.
  - apply bind_ok in H as ([reps1 c1] & h1 & Hstep & H).
    apply bind_ok in Hstep as (entry & h2 & _ & Hstep).
    apply bind_ok in Hstep as ([replacement _changes] & h3 & _ & Hstep).
    apply IH in H.
    case_decide; apply ret_ok in Hstep as [[= -> ->] ->]; lia.
Qed.

Lemma list_fold_ge l n i reps c h reps' c' h' :
  enumerate_fold l i n
    (λ i entry '(reps, changes),
       let* (replacement, _changes) := rec entry in
       if decide (0 < _changes)
       then ret (reps ++ [(i, replacement)], changes + _changes)
       else ret (reps, changes))
    (reps, c) h = Ok ((reps', c'), h') →
  (c ≤ c')%nat.
Proof.
  revert i reps c h.
  induction n as [|n IH]; intros i reps c h H; simpl in H.
  - apply ret_ok in H as [[= <- <-] ->]. done.
  - apply bind_ok in H as (items & h1 & [-> _]%read_list_ok & H).
    destruct (items !! i) as [item|].
    + apply bind_ok in H as ([reps1 c1] & h1 & Hstep & H).
      apply bind_ok in Hstep as ([replacement _changes] & h3 & _ & Hstep).
      apply IH in H.
      case_decide; apply ret_ok in Hstep as [[= -> ->] ->]; lia.
    + apply ret_ok in H as [[= <- <-] ->]. done.
Qed.

Lemma dict_fold_zero l kvs keys reps c h reps' h' :
  h !! l = Some (ODict kvs) →
  fold_each keys
    (λ key '(reps, changes),
       let* entry := dict_getitem l key in
       let* (replacement, _changes) := rec entry in
       if decide (0 < _changes)
       then ret (dict_set key replacement reps, changes + _changes)
       else ret (reps, changes))
    (reps, c) h = Ok ((reps', 0), h') →
  c = 0 ∧ h' = h ∧
  ∀ k w, k ∈ keys → dict_get k kvs = Some w → var_free h w.
Proof.
  intros Hl. revert reps c.
  induction keys as [|key keys IH]; intros reps c H; simpl in H.
  - apply ret_ok in H as [[= <- <-] ->]. split_and!; [done..|].
    intros k w Hk. by apply elem_of_nil in Hk.
  - apply bind_ok in H as ([reps1 c1] & h1 & Hstep & H).
    apply bind_ok in Hstep as (entry & h2 & Hget & Hstep).
    apply dict_getitem_ok in Hget as [-> (kvs' & Hl' & Hget)].
    apply bind_ok in Hstep as ([replacement _changes] & h3 & Hrec & Hstep).
    case_decide as Hc; apply ret_ok in Hstep as [[= -> ->] ->].
    + apply dict_fold_ge in H. lia.
    + assert (_changes = 0) as -> by lia.
      apply rec_zero in Hrec as (_ & -> & Hfree).
      apply IH in H as (-> & -> & Hrest).
      split_and!; [done..|]. intros k w [->|Hk]%elem_of_cons Hw; [|eauto].
      by simplify_eq.
Qed.

Lemma list_fold_zero l items n i reps c h reps' h' :
  h !! l = Some (OList items) →
  enumerate_fold l i n
    (λ i entry '(reps, changes),
       let* (replacement, _changes) := rec entry in
       if decide (0 < _changes)
       then ret (reps ++ [(i, replacement)], changes + _changes)
       else ret (reps, changes))
    (reps, c) h = Ok ((reps', 0), h') →
  c = 0 ∧ h' = h ∧
  ∀ j w, (i ≤ j < i + n)%nat → items !! j = Some w → var_free h w.
Proof.
  intros Hl. revert i reps c.
  induction n as [|n IH]; intros i reps c H; simpl in H.
  - apply ret_ok in H as [[= <- <-] ->]. split_and!; [done..|]. intros; lia.
  - apply bind_ok in H as (items' & h1 & [-> Hl']%read_list_ok & H).
    assert (items' = items) as -> by congruence.
    destruct (items !! i) as [item|] eqn:Hi.
    + apply bind_ok in H as ([reps1 c1] & h1 & Hstep & H).
      apply bind_ok in Hstep as ([replacement _changes] & h3 & Hrec & Hstep).
      case_decide as Hc; apply ret_ok in Hstep as [[= -> ->] ->].
      * apply list_fold_ge in H. lia.
      * assert (_changes = 0) as -> by lia.
        apply rec_zero in Hrec as (_ & -> & Hfree).
        apply IH in H as (-> & -> & Hrest).
        split_and!; [done..|]. intros j w Hj Hw.
        destruct (decide (j = i)) as [->|]; [by simplify_eq|].
        apply (Hrest j); [lia|done].
    + apply ret_ok in H as [[= <- <-] ->]. split_and!; [done..|].
      intros j w Hj Hw.
      apply lookup_lt_Some in Hw. apply lookup_ge_None in Hi. lia.
Qed.

Lemma do_replace_body_zero node h v h' :
  do_replace_body rec settings node h = Ok ((v, 0), h') →
  v = node ∧ h' = h ∧ var_free h node.
Proof.
  unfold do_replace_body. intros H.
  destruct node as [| | | |s|l].
  1-4: apply ret_ok in H as [[= ->] ->]; split_and!; [done..|];
       intros s Hs; apply reach_scalar in Hs; done.
  - destruct (startswith s var_token) eqn:Es.
    + apply bind_ok in H as (var_value & h1 & _ & H).
      destruct var_value; try done; by apply ret_ok in H as [[=] _].
    + apply ret_ok in H as [[= ->] ->]. split_and!; [done..|]. intros s' Hs.
      apply reach_scalar in Hs; [|done]. by simplify_eq.
  - apply bind_ok in H as (o & h1 & [-> Hl]%read_ok & H).
    destruct o as [kvs|items].
    + apply bind_ok in H as ([reps changes] & h1 & Hfold & H).
      apply bind_ok in H as (u & h2 & Hwr & H).
              apply ret_ok in H as [[= -> <-] ->].
      apply (dict_fold_zero l kvs) in Hfold as (_ & -> & Hkeys); [|done].
      case_decide; [lia|]. apply ret_ok in Hwr as [_ ->].
      split_and!; [done..|].
      intros s [?|(w & Hc & Hr)]%reach_ref_inv; [done|].
      inversion Hc; simplify_eq.
      eapply Hkeys; eauto using dict_get_keys.
    + apply bind_ok in H as ([reps changes] & h1 & Hfold & H).
      apply bind_ok in H as (u & h2 & Hwr & H).
      apply ret_ok in H as [[= -> <-] ->].
      apply (list_fold_zero l items) in Hfold as (_ & -> & Hitems); [|done].
      case_decide; [lia|]. apply ret_ok in Hwr as [_ ->].
      split_and!; [done..|].
      intros s [?|(w & Hc & Hr)]%reach_ref_inv; [done|].
      inversion Hc as [|? ? i ? ? Hi]; simplify_eq.
      eapply (Hitems i); eauto. apply lookup_lt_Some in Hi. lia.
Qed.
End zero_pass.

Lemma do_replace_variables_zero fuel settings node h v h' :
  do_replace_variables fuel settings node h = Ok ((v, 0), h') →
  v = node ∧ h' = h ∧ var_free h node.
Proof.
  revert node h v h'. induction fuel as [|n IH]; intros node h v h' H.
  - done.
  - simpl in H. eapply do_replace_body_zero; eauto.
Qed.

(** ** The pass loop *)

Lemma replace_loop_spec fuel settings failsafe result changes h :
  let run := replace_loop fuel settings failsafe result changes h in
  length run.1 ≤ failsafe
  ∧ (∀ i c, S i < length run.1 → run.1 !! i = Some c → 0 < c)
  ∧ (∀ x, run.2 = Ok x →
       0 < changes → 0 < failsafe →
       last run.1 = Some 0 ∨ length run.1 = failsafe)
  ∧ (length run.1 = failsafe → ∃ x, run.2 = Ok x)
  ∧ (∀ r h', run.2 = Ok (r, h') → last run.1 = Some 0 → var_free h' r).
Proof.
  revert result changes h.
  induction failsafe as [|fs IH]; intros result changes h; simpl.
  { split_and!; [lia | intros; simpl in *; lia | lia | eauto | done]. }
  case_decide as Hc; simpl;
    [|split_and!; [lia | intros; simpl in *; lia | lia | lia | done]].
  destruct (do_replace_variables fuel settings result h)
    as [[[result' changes'] h1]|e] eqn:Hpass; simpl;
    [|split_and!; [lia | intros; simpl in *; lia | done | lia | done]].
  specialize (IH result' changes' h1).
  destruct (replace_loop fuel settings fs result' changes' h1)
    as [log out] eqn:Hloop; simpl in *.
  destruct IH as (Hlen & Hpos & Hend & Hcap & Hfree).
  assert (changes' = 0 → log = [] ∧ out = Ok (result', h1)) as Hzero.
  { intros ->. destruct fs; simpl in Hloop; by simplify_eq. }
  split_and!.
  - lia.
  - intros [|i] c Hi Hlog; simpl in *.
    + simplify_eq. destruct (decide (0 < c)) as [|Hn]; [done|].
      destruct Hzero as [-> _]; [lia|]. simpl in Hi. lia.
    + apply (Hpos i); [lia|done].
  - intros x -> _ _.
    destruct (decide (0 < changes')) as [Hpos'|Hn].
    + destruct fs as [|fs']. 
      * right. simpl in Hloop. by simplify_eq.
      * destruct (Hend x) as [Hl|Hl]; [done|done|lia|..].
        -- left. destruct log; [done|]. done.
        -- right. by rewrite Hl.
    + destruct Hzero as [-> _]; [lia|]. left. simpl. f_equal. lia.
  - intros Hl. apply Hcap. lia.
  - intros r h' -> Hlast.
    destruct log as [|c log].
    + simpl in Hlast. simplify_eq.
      destruct Hzero as [_ [= -> ->]]; [done|].
      by apply do_replace_variables_zero in Hpass as (-> & -> & ?).
    + by apply Hfree.
Qed.

(** C4. When Resolve returns because a full pass made no replacement, no
    string reachable in the returned tree, as a dict value or a list item
    at any depth, begins with [$$]. *)
Theorem resolve_fixed_point_has_no_variables fuel settings h log r h' :
  replace_variables_log fuel settings h = (log, Ok (r, h')) →
  last log = Some 0 →
  ∀ s, reach h' r (VStr s) → startswith s var_token = false.
Proof.
  unfold replace_variables_log. intros Hrun Hlast.
  destruct (bind _ _ h) as [[result h0]|e]; [|by simplify_eq].
  pose proof (replace_loop_spec fuel (VRef settings) failsafe_cap
                (VRef result) 1 h0) as (_ & _ & _ & _ & Hfree).
  rewrite Hrun in Hfree. simpl in Hfree. by apply Hfree.
Qed.

Lemma resolve_fixed_point_has_no_variables_witness :
  let doc := TDict [("a", TStr "x"); ("b", TStr "$$a")]%string in
  let h1 := doc_heap doc ++ [ODict [("a", VStr "x"); ("b", VStr "x")]%string] in
  (replace_variables_log recursion_limit 0 (doc_heap doc)
     = ([1; 0], Ok (VRef 1, h1))
   ∧ last [1; 0] = Some 0
   ∧ reach h1 (VRef 1) (VStr "x"))
  ∧ startswith "x" var_token = false.
Proof.
  intros doc h1.
  assert (reach h1 (VRef 1) (VStr "x")) as Hreach.
  { eapply reach_step; [|apply reach_refl].
    by eapply (child_dict _ 1 _ "b"%string). }
  split; [split_and!; [by vm_compute | done | done]|].
  eapply (resolve_fixed_point_has_no_variables recursion_limit 0
            (doc_heap doc) [1; 0] (VRef 1) h1); [by vm_compute | done | done].
Defined.

Lemma replace_variables_log_spec fuel settings h :
  let run := replace_variables_log fuel settings h in
  length run.1 ≤ failsafe_cap
  ∧ (∀ i c, S i < length run.1 → run.1 !! i = Some c → 0 < c)
  ∧ (∀ x, run.2 = Ok x →
       last run.1 = Some 0 ∨ length run.1 = failsafe_cap)
  ∧ (length run.1 = failsafe_cap → ∃ x, run.2 = Ok x).
Proof.
  unfold replace_variables_log.
  destruct (bind _ _ h) as [[result h0]|e].
  - pose proof (replace_loop_spec fuel (VRef settings) failsafe_cap
                  (VRef result) 1 h0) as (Hlen & Hpos & Hend & Hcap & _).
    split_and!; [done | done | | done].
    intros x Hx. apply (Hend x Hx); unfold failsafe_cap; lia.
  - cbn [fst snd length]. 
    split_and!; [lia | intros; simpl in *; lia | done | done].
Qed.

Lemma resolve_cyclic_runs_to_cap :
  let cyclic := TDict [("a", TStr "$$b"); ("b", TStr "$$a")]%string in
  length (resolve_document cyclic).1 = failsafe_cap
  ∧ Resolve cyclic
    = Ok (Some (TDict [("a", TStr "$$a"); ("b", TStr "$$b")]%string)).
Proof. split; by vm_compute. Qed.

(** C5. Resolve makes at most 999 full passes: every pass but the last one
    it completes makes a replacement, it returns after a pass without
    replacements or after pass 999, and reaching the cap is a normal
    return, not an error.  The cyclic document
    [{"a": "$$b", "b": "$$a"}] runs all 999 passes and returns. *)
Theorem replace_variables_passes_bounded fuel settings h :
  let run := replace_variables_log fuel settings h in
  length run.1 ≤ failsafe_cap
  ∧ (∀ i c, S i < length run.1 → run.1 !! i = Some c → 0 < c)
  ∧ (∀ x, run.2 = Ok x →
       last run.1 = Some 0 ∨ length run.1 = failsafe_cap)
  ∧ (length run.1 = failsafe_cap → ∃ x, run.2 = Ok x)
  ∧ (let cyclic := TDict [("a", TStr "$$b"); ("b", TStr "$$a")]%string in
     length (resolve_document cyclic).1 = failsafe_cap
     ∧ Resolve cyclic
       = Ok (Some (TDict [("a", TStr "$$a"); ("b", TStr "$$b")]%string))).
Proof.
  intros run.
  destruct (replace_variables_log_spec fuel settings h) as (?&?&?&?).
  split_and!; [done..|]. exact resolve_cyclic_runs_to_cap.
Qed.

(** ** Dict contents *)

Lemma dict_get_set_eq k v d : dict_get k (dict_set k v d) = Some v.
Proof.
  induction d as [|[k' v'] d IH]; simpl.
  - by rewrite String.eqb_refl.
  - destruct (String.eqb k k') eqn:E; simpl; rewrite ?String.eqb_refl, ?E; done.
Qed.

Lemma dict_get_set_ne k k' v d :
  k ≠ k' → dict_get k' (dict_set k v d) = dict_get k' d.
Proof.
  intros Hne. induction d as [|[k0 v0] d IH]; simpl.
  - by apply String.eqb_neq in Hne; rewrite String.eqb_sym, Hne.
  - destruct (String.eqb k k0) eqn:E; simpl.
    + apply String.eqb_eq in E as <-.
      assert (String.eqb k' k = false) as -> by by apply String.eqb_neq.
      done.
    + by rewrite IH.
Qed.

Lemma dict_get_del_eq k d : dict_get k (dict_del k d) = None.
Proof.
  induction d as [|[k' v'] d IH]; simpl; [done|].
  destruct (String.eqb k k') eqn:E; simpl; rewrite ?E; done.
Qed.

Lemma dict_get_del_ne k k' d :
  k ≠ k' → dict_get k' (dict_del k d) = dict_get k' d.
Proof.
  intros Hne. induction d as [|[k0 v0] d IH]; simpl; [done|].
  destruct (String.eqb k k0) eqn:E; simpl.
  - apply String.eqb_eq in E as <-.
    assert (String.eqb k' k = false) as -> by by apply String.eqb_neq.
    done.
  - by rewrite IH.
Qed.

Lemma dict_keys_get k d : k ∈ dict_keys d ↔ is_Some (dict_get k d).
Proof.
  induction d as [|[k' v'] d IH]; simpl.
  - split; [by intros ?%elem_of_nil | by intros [? ?]].
  - destruct (String.eqb k k') eqn:E.
    + apply String.eqb_eq in E as ->. split; [eauto | left].
    + apply String.eqb_neq in E. rewrite elem_of_cons, IH.
      split; [by intros [?|?] | by right].
Qed.

Lemma dict_has_true k d : dict_has k d = true ↔ is_Some (dict_get k d).
Proof.
  unfold dict_has. destruct (dict_get k d).
  - split; eauto.
  - split; [done | by intros [? ?]].
Qed.

(** ** Strings and flags *)

Lemma startswith_char s c :
  startswith s (String c EmptyString) = true ↔ ∃ t, s = String c t.
Proof.
  unfold startswith. destruct s as [|a t]; simpl.
  - split; [done | by intros [? ?]].
  - destruct (ascii_dec c a) as [->|Hne].
    + split; [eauto | intros _; by destruct t].
    + split; [done | intros [t' [= <- _]]; done].
Qed.

Lemma flagged_inv k :
  flagged k = true →
  ∃ t, tail1 k = t ∧ (k = String "+" t ∨ k = String "!" t).
Proof.
  unfold flagged. intros [H|H]%orb_true_iff;
    apply startswith_char in H as [t ->]; eauto.
Qed.

Lemma flagged_tail_ne k : flagged k = true → tail1 k ≠ k.
Proof.
  intros (t & <- & [Hk|Hk])%flagged_inv Heq; rewrite Hk in Heq; simpl in Heq;
    apply (f_equal String.length) in Heq; simpl in Heq; lia.
Qed.

(** ** Runs of the loops *)

Lemma for_each_inv {A} (I : list A → heap → Prop) (body : A → M unit) xs :
  (∀ x rem h u h', I (x :: rem) h → body x h = Ok (u, h') → I rem h') →
  ∀ h u h', I xs h → for_each xs body h = Ok (u, h') → I [] h'.
Proof.
  intros Hbody. induction xs as [|x xs IH]; intros h u h' HI H; simpl in H.
  - by apply ret_ok in H as [_ ->].
  - apply bind_ok in H as (u1 & h1 & Hx & H). eauto.
Qed.

Lemma enumerate_from_inv (I : nat → heap → Prop) l body :
  (∀ i item h xs u h',
     I i h → h !! l = Some (OList xs) → xs !! i = Some item →
     body i item h = Ok (u, h') → I (S i) h') →
  ∀ n i h u h', I i h → enumerate_from l i n body h = Ok (u, h') →
    ∃ j, I j h' ∧
      (j = i + n ∨ ∃ xs, h' !! l = Some (OList xs) ∧ xs !! j = None).
Proof.
  intros Hbody. induction n as [|n IH]; intros i h u h' HI H; simpl in H.
  - apply ret_ok in H as [_ ->]. exists i. split; [done|]. left. lia.
  - apply bind_ok in H as (xs & h1 & [-> Hl]%read_list_ok & H).
    destruct (xs !! i) as [item|] eqn:Hi.
    + apply bind_ok in H as (u1 & h1 & Hx & H).
      eapply IH in H as (j & HJ & Hj); [|eauto].
      exists j. split; [done|]. destruct Hj; [left; lia | by right].
    + apply ret_ok in H as [_ ->]. exists i. eauto.
Qed.

(** The flag loop either leaves an unflagged key alone or renames a
    flagged key to its tail, once. *)
Lemma strip_flag_loop_ok l key_ h key h' :
  strip_flag_loop l key_ flags key_ h = Ok (key, h') →
  (flagged key_ = false ∧ key = key_ ∧ h' = h)
  ∨ (flagged key_ = true ∧ key = tail1 key_ ∧
     ∃ kvs v, h !! l = Some (ODict kvs) ∧ dict_get key_ kvs = Some v ∧
       h' = <[l := ODict (dict_del key_ (dict_set (tail1 key_) v kvs))]> h).
Proof.
  assert (∀ h key h', 
    (let* v := dict_getitem l key_ in
     let* _ := dict_setitem l (tail1 key_) v in
     let* _ := dict_delitem l key_ in
     ret (tail1 key_)) h = Ok (key, h') →
    key = tail1 key_ ∧
     ∃ kvs v, h !! l = Some (ODict kvs) ∧ dict_get key_ kvs = Some v ∧
       h' = <[l := ODict (dict_del key_ (dict_set (tail1 key_) v kvs))]> h)
    as Hrename.
  { clear. intros h key h' H.
    apply bind_ok in H as (v & h1 & [-> (kvs & Hl & Hv)]%dict_getitem_ok & H).
    apply bind_ok in H as (u & h1 & (kvs1 & Hl1 & ->)%dict_setitem_ok & H).
    apply bind_ok in H as (u' & h2 & (kvs2 & Hl2 & _ & ->)%dict_delitem_ok & H).
    apply ret_ok in H as [-> ->]. split; [done|].
    assert (l < length h) by by eapply lookup_lt_Some.
    rewrite list_lookup_insert_eq in Hl2 by done.
    rewrite Hl in Hl1. injection Hl1 as <-. injection Hl2 as <-.
    exists kvs, v. by rewrite list_insert_insert_eq. }
  unfold flags, flagged. simpl.
  destruct (startswith key_ "+") eqn:Hplus; simpl.
  - assert (startswith key_ "!" = false) as ->.
    { apply startswith_char in Hplus as [t ->]. done. }
    intros H. right. split; [done|].
    apply bind_ok in H as (v & h1 & Hg & H).
    apply bind_ok in H as (u & h2 & Hs & H).
    apply bind_ok in H as (u' & h3 & Hd & H).
    apply ret_ok in H as [-> ->].
    apply (Hrename h). unfold bind in *. 
    destruct (dict_getitem l key_ h) as [[? ?]|]; [|done]. simplify_eq.
    destruct (dict_setitem l (tail1 key_) v h1) as [[? ?]|]; [|done]. simplify_eq.
    by destruct (dict_delitem l key_ h2) as [[? ?]|]; simplify_eq.
  - destruct (startswith key_ "!") eqn:Hbang.
    + intros H. right. split; [done|].
      apply bind_ok in H as (v & h1 & Hg & H).
      apply bind_ok in H as (u & h2 & Hs & H).
      apply bind_ok in H as (u' & h3 & Hd & H).
      apply ret_ok in H as [-> ->].
      apply (Hrename h). unfold bind in *. 
      destruct (dict_getitem l key_ h) as [[? ?]|]; [|done]. simplify_eq.
      destruct (dict_setitem l (tail1 key_) v h1) as [[? ?]|]; [|done]. simplify_eq.
      by destruct (dict_delitem l key_ h2) as [[? ?]|]; simplify_eq.
    + intros [-> ->]%ret_ok. by left.
Qed.

Lemma dict_set_set k v d : dict_set k v (dict_set k v d) = dict_set k v d.
Proof.
  induction d as [|[k' v'] d IH]; simpl.
  - by rewrite String.eqb_refl.
  - destruct (String.eqb k k') eqn:E; simpl; rewrite ?String.eqb_refl, ?E;
      [done | by rewrite IH].
Qed.

Lemma strip_key_ok rec l key_ h u h' :
  strip_key rec l key_ h = Ok (u, h') → strip_key_run rec l key_ h h'.
Proof.
  unfold strip_key. intros H.
  apply bind_ok in H as (present & h1 & [-> (kvs & Hl & ->)]%dict_contains_ok & H).
  destruct (dict_has key_ kvs) eqn:Hhas; simpl in H.
  2:{ apply ret_ok in H as [_ ->]. eapply skr_absent; eauto.
      unfold dict_has in Hhas. by destruct (dict_get key_ kvs). }
  apply bind_ok in H as (entry & h1 & [-> (kvs' & Hl' & Hentry)]%dict_getitem_ok & H).
  rewrite Hl in Hl'. injection Hl' as <-.
  apply bind_ok in H as (key & hr & Hloop & H).
  apply bind_ok in H as (ed & h1 & [-> ->]%isinstance_dict_ok & H).
  destruct (is_dict hr entry) eqn:Hd.
  - apply bind_ok in H as (entry' & hb & Hrec & H).
    apply bind_ok in H as (u1 & h1 & (kvs_b & Hb & ->)%dict_setitem_ok & H).
    apply dict_setitem_ok in H as (kvs_c & Hc & ->).
    assert (l < length hb) by by eapply lookup_lt_Some.
    rewrite list_lookup_insert_eq in Hc by done. injection Hc as <-.
    rewrite list_insert_insert_eq, dict_set_set.
    eapply skr_present; eauto. by apply ser_dict.
  - apply bind_ok in H as (el & h1 & [-> ->]%isinstance_list_ok & H).
    destruct (is_list hr entry) eqn:Hli.
    + destruct entry as [| | | | |le]; try done.
      apply bind_ok in H as (u1 & hb & Hitems & H).
      apply dict_setitem_ok in H as (kvs_b & Hb & ->).
      destruct u1. eapply skr_present; eauto. by eapply ser_list.
    + apply dict_setitem_ok in H as (kvs_b & Hb & ->).
      eapply skr_present; eauto. by eapply ser_other.
Qed.

Lemma strip_item_ok rec xs i item h u h' :
  (let* il := isinstance_list item in
   let* id := isinstance_dict item in
   if il || id then let* r := rec item in list_setitem xs i r
   else ret tt) h = Ok (u, h') →
  strip_item_run rec xs i item h h'.
Proof.
  intros H.
  apply bind_ok in H as (il & h1 & [-> ->]%isinstance_list_ok & H).
  apply bind_ok in H as (id & h1 & [-> ->]%isinstance_dict_ok & H).
  destruct (is_list h item || is_dict h item) eqn:Hc.
  - apply bind_ok in H as (r & hb & Hrec & H).
    apply list_setitem_ok in H as (items & Hxs & Hi & ->).
    by eapply sir_container.
  - apply ret_ok in H as [_ ->]. by apply sir_scalar.
Qed.

(** ** Regions without flagged keys *)

Lemma ndf_iff h : no_double_flags h = true ↔ ndf h.
Proof.
  unfold no_double_flags, ndf. rewrite forallb_forall. split.
  - intros H l kvs k Hl Hk.
    apply list_elem_of_lookup_2, list_elem_of_In, H in Hl.
    rewrite forallb_forall in Hl.
    apply list_elem_of_In, Hl, negb_true_iff in Hk. done.
  - intros H o [l Hl]%list_elem_of_In%list_elem_of_lookup_1.
    destruct o as [kvs|]; [|done]. apply forallb_forall.
    intros k Hk%list_elem_of_In. apply negb_true_iff. eauto.
Qed.

Lemma child_obj h l w :
  child h (VRef l) w ↔ ∃ o, h !! l = Some o ∧ obj_child o w.
Proof.
  split.
  - inversion 1; subst; eexists; (split; [done|]); simpl; eauto.
  - intros ([kvs|xs] & Hl & [x Hx]); [by eapply child_dict | by eapply child_list].
Qed.

Lemma goodset_all h : goodset h (λ l, ∃ R, goodset h R ∧ R l).
Proof.
  intros l (R & HR & Hl). destruct (HR l Hl) as [Hk Hc].
  split; [done|]. intros l' Hch. exists R. split; [done|]. by apply Hc.
Qed.

Lemma good_scalar h v : (∀ l, v ≠ VRef l) → good h v.
Proof. intros Hv l ->. by destruct (Hv l). Qed.

Lemma good_intro h l :
  (∀ kvs k, h !! l = Some (ODict kvs) → k ∈ dict_keys kvs → flagged k = false) →
  (∀ w, child h (VRef l) w → good h w) →
  good h (VRef l).
Proof.
  intros Hk Hc l0 [= <-].
  exists (λ x, x = l ∨ ∃ R, goodset h R ∧ R x). split; [|by left].
  intros x [->|Hx].
  - split; [done|]. intros l' Hch. right. by apply (Hc _ Hch).
  - destruct (goodset_all h x Hx) as [Hk' Hc']. split; [done|].
    intros l' Hch. right. by apply Hc'.
Qed.

Lemma good_elim h l :
  good h (VRef l) →
  (∀ kvs k, h !! l = Some (ODict kvs) → k ∈ dict_keys kvs → flagged k = false)
  ∧ (∀ w, child h (VRef l) w → good h w).
Proof.
  intros Hg. destruct (Hg l eq_refl) as (R & HR & Hl).
  destruct (HR l Hl) as [Hk Hc]. split; [done|].
  intros w Hch l' ->. exists R. split; [done|]. by apply Hc.
Qed.

Lemma good_unallocated h v : is_list h v || is_dict h v = false → good h v.
Proof.
  intros Hv. destruct v as [| | | | |l]; try by apply good_scalar.
  apply good_intro.
  - intros kvs k Hl. simpl in Hv. rewrite Hl in Hv. done.
  - intros w (o & Hl & _)%child_obj. simpl in Hv. rewrite Hl in Hv.
    by destruct o.
Qed.

Lemma good_reach h v x : good h v → reach h v x → good h x.
Proof.
  intros Hg Hr. induction Hr as [|v w x Hc Hr IH]; [done|].
  apply IH. inversion Hc; subst; by eapply good_elim.
Qed.

Lemma good_write h l o o' w :
  h !! l = Some o →
  (∀ kvs' k, o' = ODict kvs' → k ∈ dict_keys kvs' →
     flagged k = false ∨ ∃ kvs, o = ODict kvs ∧ k ∈ dict_keys kvs) →
  (∀ x, obj_child o' x → obj_child o x ∨ good h x) →
  good h w → good (<[l := o']> h) w.
Proof.
  intros Hl Hkeys Hch Hw l0 ->. destruct (Hw l0 eq_refl) as (R & HR & Hl0).
  assert (l < length h) as Hlt by by eapply lookup_lt_Some.
  exists (λ x, ∃ R, goodset h R ∧ R x). split; [|eauto].
  intros x (R1 & HR1 & Hx). destruct (HR1 x Hx) as [Hk1 Hc1]. split.
  - intros kvs' k Hx' Hk. destruct (decide (x = l)) as [->|Hne].
    + rewrite list_lookup_insert_eq in Hx' by done. injection Hx' as ->.
      destruct (Hkeys _ _ eq_refl Hk) as [|(kvs & -> & Hk')]; [done|]. eauto.
    + rewrite list_lookup_insert_ne in Hx' by done. eauto.
  - intros l' (ox & Hox & Hc)%child_obj.
    destruct (decide (x = l)) as [->|Hne].
    + rewrite list_lookup_insert_eq in Hox by done. injection Hox as <-.
      destruct (Hch _ Hc) as [Hold|Hg]; [|by apply Hg].
      exists R1. split; [done|]. apply Hc1, child_obj. eauto.
    + rewrite list_lookup_insert_ne in Hox by done.
      exists R1. split; [done|]. apply Hc1, child_obj. eauto.
Qed.

Lemma good_write_flagged h l kvs k o' w :
  h !! l = Some (ODict kvs) → k ∈ dict_keys kvs → flagged k = true →
  good h w → good (<[l := o']> h) w.
Proof.
  intros Hl Hk Hf Hw l0 ->. destruct (Hw l0 eq_refl) as (R & HR & Hl0).
  exists (λ x, ∃ R, goodset h R ∧ R x). split; [|eauto].
  intros x (R1 & HR1 & Hx). destruct (HR1 x Hx) as [Hk1 Hc1].
  assert (x ≠ l) as Hne.
  { intros ->. specialize (Hk1 _ _ Hl Hk). congruence. }
  split.
  - intros kvs' k'. rewrite list_lookup_insert_ne by done. eauto.
  - intros l' (ox & Hox & Hc)%child_obj.
    rewrite list_lookup_insert_ne in Hox by done.
    exists R1. split; [done|]. apply Hc1, child_obj. eauto.
Qed.

Lemma stripped_refl h : stripped h h.
Proof. split; eauto. Qed.

Lemma stripped_dict_inv h h' l kvs' :
  stripped h h' → h' !! l = Some (ODict kvs') →
  ∃ kvs, h !! l = Some (ODict kvs) ∧
    ∀ k v, dict_get k kvs' = Some v →
           dict_get k kvs = Some v ∨ (flagged k = false ∧ good h' v).
Proof.
  intros [Hlen Hd Hli] Hl'.
  assert (is_Some (h !! l)) as [[kvs|xs] Hl].
  { apply lookup_lt_is_Some. rewrite <- Hlen. by eapply lookup_lt_Some. }
  - destruct (Hd _ _ Hl) as (kvs1 & Hl1 & Hp). 
    rewrite Hl' in Hl1. injection Hl1 as <-. eauto.
  - destruct (Hli _ _ Hl) as (xs1 & Hl1 & _). congruence.
Qed.

Lemma stripped_list_inv h h' l xs' :
  stripped h h' → h' !! l = Some (OList xs') →
  ∃ xs, h !! l = Some (OList xs) ∧ length xs' = length xs ∧
    ∀ i v, xs' !! i = Some v → xs !! i = Some v ∨ good h' v.
Proof.
  intros [Hlen Hd Hli] Hl'.
  assert (is_Some (h !! l)) as [[kvs|xs] Hl].
  { apply lookup_lt_is_Some. rewrite <- Hlen. by eapply lookup_lt_Some. }
  - destruct (Hd _ _ Hl) as (kvs1 & Hl1 & _). congruence.
  - destruct (Hli _ _ Hl) as (xs1 & Hl1 & Hp). 
    rewrite Hl' in Hl1. injection Hl1 as <-. eauto.
Qed.

Lemma good_mono h h' w : stripped h h' → good h w → good h' w.
Proof.
  intros Hst Hw l0 ->. destruct (Hw l0 eq_refl) as (R & HR & Hl0).
  exists (λ x, R x ∨ ∃ R', goodset h' R' ∧ R' x). split; [|by left].
  intros x [Hx|Hx].
  - destruct (HR x Hx) as [Hk Hc]. split.
    + intros kvs' k Hl' Hk'.
      destruct (stripped_dict_inv _ _ _ _ Hst Hl') as (kvs & Hl & Hp).
      apply dict_keys_get in Hk' as [v Hv].
      destruct (Hp _ _ Hv) as [Hold|[? _]]; [|done].
      eapply Hk; [done|]. apply dict_keys_get. eauto.
    + intros l' (o' & Hl' & Hc')%child_obj. destruct o' as [kvs'|xs'].
      * destruct (stripped_dict_inv _ _ _ _ Hst Hl') as (kvs & Hl & Hp).
        destruct Hc' as [k Hv].
        destruct (Hp _ _ Hv) as [Hold|[_ Hg]]; [|right; by apply Hg].
        left. apply Hc. by eapply child_dict.
      * destruct (stripped_list_inv _ _ _ _ Hst Hl') as (xs & Hl & _ & Hp).
        destruct Hc' as [i Hv].
        destruct (Hp _ _ Hv) as [Hold|Hg]; [|right; by apply Hg].
        left. apply Hc. by eapply child_list.
  - destruct (goodset_all h' x Hx) as [Hk Hc]. split; [done|].
    intros l' Hch. right. by apply Hc.
Qed.

Lemma stripped_trans h1 h2 h3 :
  stripped h1 h2 → stripped h2 h3 → stripped h1 h3.
Proof.
  intros H12 H23. split.
  - destruct H12, H23. congruence.
  - intros l kvs Hl. destruct (st_dict _ _ H12 _ _ Hl) as (kvs2 & Hl2 & Hp2).
    destruct (st_dict _ _ H23 _ _ Hl2) as (kvs3 & Hl3 & Hp3).
    exists kvs3. split; [done|]. intros k v Hv.
    destruct (Hp3 _ _ Hv) as [Hv2|?]; [|by right].
    destruct (Hp2 _ _ Hv2) as [?|[? Hg]]; [by left|right].
    split; [done|]. by eapply good_mono.
  - intros l xs Hl. destruct (st_list _ _ H12 _ _ Hl) as (xs2 & Hl2 & Hn2 & Hp2).
    destruct (st_list _ _ H23 _ _ Hl2) as (xs3 & Hl3 & Hn3 & Hp3).
    exists xs3. split_and!; [done|congruence|]. intros i v Hv.
    destruct (Hp3 _ _ Hv) as [Hv2|?]; [|by right].
    destruct (Hp2 _ _ Hv2) as [?|Hg]; [by left|right].
    by eapply good_mono.
Qed.

Lemma stripped_dict_write h l kvs kvs' :
  h !! l = Some (ODict kvs) →
  (∀ k v, dict_get k kvs' = Some v →
          dict_get k kvs = Some v ∨ (flagged k = false ∧ good h v)) →
  stripped h (<[l := ODict kvs']> h).
Proof.
  intros Hl Hp.
  assert (l < length h) as Hlt by by eapply lookup_lt_Some.
  assert (∀ w, good h w → good (<[l := ODict kvs']> h) w) as Hmono.
  { intros w. eapply good_write; [done|..].
    - intros ? k [= <-] [v Hv]%dict_keys_get.
      destruct (Hp _ _ Hv) as [Hold|[? _]]; [right|by left].
      exists kvs. split; [done|]. apply dict_keys_get. eauto.
    - intros x [k Hv]. destruct (Hp _ _ Hv) as [Hold|[_ ?]]; [left|by right].
      by exists k. }
  split.
  - by rewrite length_insert.
  - intros x kvs_x Hx. destruct (decide (x = l)) as [->|Hne].
    + rewrite list_lookup_insert_eq by done. exists kvs'. split; [done|].
      rewrite Hl in Hx. injection Hx as <-. intros k v Hv.
      destruct (Hp _ _ Hv) as [?|[? ?]]; [by left|right; eauto].
    + rewrite list_lookup_insert_ne by done. eauto.
  - intros x xs Hx. destruct (decide (x = l)) as [->|Hne]; [congruence|].
    rewrite list_lookup_insert_ne by done. eauto.
Qed.

Lemma stripped_list_write h l xs i v :
  h !! l = Some (OList xs) → good h v →
  stripped h (<[l := OList (<[i := v]> xs)]> h).
Proof.
  intros Hl Hv.
  assert (l < length h) as Hlt by by eapply lookup_lt_Some.
  assert (∀ j w, <[i := v]> xs !! j = Some w → xs !! j = Some w ∨ w = v)
    as Hitems.
  { intros j w Hw. destruct (decide (i = j)) as [->|Hne].
    - right. rewrite list_lookup_insert_eq in Hw; [congruence|].
      apply lookup_lt_Some in Hw. by rewrite length_insert in Hw.
    - left. by rewrite list_lookup_insert_ne in Hw. }
  assert (∀ w, good h w → good (<[l := OList (<[i := v]> xs)]> h) w) as Hmono.
  { intros w. eapply good_write; [done|done|].
    intros x [j Hx]. destruct (Hitems _ _ Hx) as [?| ->]; [left|by right].
    by exists j. }
  split.
  - by rewrite length_insert.
  - intros x kvs_x Hx. destruct (decide (x = l)) as [->|Hne]; [congruence|].
    rewrite list_lookup_insert_ne by done. eauto.
  - intros x xs_x Hx. destruct (decide (x = l)) as [->|Hne].
    + rewrite list_lookup_insert_eq by done. eexists. split; [done|].
      rewrite Hl in Hx. injection Hx as <-. split; [by rewrite length_insert|].
      intros j w Hw. destruct (Hitems _ _ Hw) as [?| ->]; [by left|right; eauto].
    + rewrite list_lookup_insert_ne by done. eauto.
Qed.

Lemma ndf_insert_dict h l kvs :
  ndf h → (∀ k, k ∈ dict_keys kvs → doubly_flagged k = false) →
  ndf (<[l := ODict kvs]> h).
Proof.
  intros Hn Hk x kvs_x k Hx Hkx. destruct (decide (x = l)) as [->|Hne].
  - assert (l < length h) as Hlt.
    { apply lookup_lt_Some in Hx. by rewrite length_insert in Hx. }
    rewrite list_lookup_insert_eq in Hx by done. injection Hx as <-. eauto.
  - rewrite list_lookup_insert_ne in Hx by done. eauto.
Qed.

Lemma ndf_insert_list h l xs : ndf h → ndf (<[l := OList xs]> h).
Proof.
  intros Hn x kvs_x k Hx Hkx. destruct (decide (x = l)) as [->|Hne].
  - assert (l < length h) as Hlt.
    { apply lookup_lt_Some in Hx. by rewrite length_insert in Hx. }
    rewrite list_lookup_insert_eq in Hx by done. done.
  - rewrite list_lookup_insert_ne in Hx by done. eauto.
Qed.

Lemma ndf_alloc h kvs :
  ndf h → (∀ k, k ∈ dict_keys kvs → doubly_flagged k = false) →
  ndf (h ++ [ODict kvs]).
Proof.
  intros Hn Hk x kvs_x k Hx Hkx.
  apply lookup_app_Some in Hx as [Hx|[_ Hx]]; [eauto|].
  apply list_lookup_singleton_Some in Hx as [_ [= <-]]. eauto.
Qed.

Lemma flagged_not_double k :
  flagged k = false → doubly_flagged k = false.
Proof. unfold doubly_flagged. by intros ->. Qed.

Lemma tail_not_double k :
  flagged k = true → doubly_flagged k = false →
  flagged (tail1 k) = false.
Proof. unfold doubly_flagged. intros ->. done. Qed.

Lemma ndf_stripped h h' : ndf h → stripped h h' → ndf h'.
Proof.
  intros Hn Hst l kvs' k Hl' [v Hv]%dict_keys_get.
  destruct (stripped_dict_inv _ _ _ _ Hst Hl') as (kvs & Hl & Hp).
  destruct (Hp _ _ Hv) as [Hold|[? _]]; [|by apply flagged_not_double].
  eapply Hn; [done|]. apply dict_keys_get. eauto.
Qed.

Section strip_good.
Context (rec : value → M value).
Hypothesis rec_good : ∀ v h r h',
  ndf h → rec v h = Ok (r, h') → r = v ∧ stripped h h' ∧ good h' v.

Lemma strip_item_good xs i item h h' items :
  ndf h → h !! xs = Some (OList items) → items !! i = Some item →
  (∀ j w, j < i → items !! j = Some w → good h w) →
  strip_item_run rec xs i item h h' →
  stripped h h' ∧
  ∀ items' j w, h' !! xs = Some (OList items') →
    j < S i → items' !! j = Some w → good h' w.
Proof.
  intros Hn Hxs Hitem Hprev [Hc -> | r hb items_b Hc Hrec Hxs_b Hi ->].
  - split; [apply stripped_refl|]. intros items' j w Hxs' Hj Hw.
    rewrite Hxs in Hxs'. injection Hxs' as <-.
    destruct (decide (j = i)) as [->|Hne].
    + rewrite Hitem in Hw. injection Hw as <-. by apply good_unallocated.
    + apply (Hprev j); [lia|done].
  - destruct (rec_good _ _ _ _ Hn Hrec) as (-> & Hst & Hg).
    assert (stripped hb (<[xs := OList (<[i := item]> items_b)]> hb)) as Hst'
      by by apply stripped_list_write.
    split; [by eapply stripped_trans|].
    intros items' j w Hxs' Hj Hw.
    rewrite list_lookup_insert_eq in Hxs' by by eapply lookup_lt_Some.
    injection Hxs' as <-.
    destruct (decide (j = i)) as [->|Hne].
    + rewrite list_lookup_insert_eq in Hw by done. injection Hw as <-.
      by eapply good_mono.
    + rewrite list_lookup_insert_ne in Hw by done.
      eapply good_mono; [done|].
      destruct (stripped_list_inv _ _ _ _ Hst Hxs_b) as (xs0 & Hxs0 & _ & Hp).
      rewrite Hxs in Hxs0. injection Hxs0 as <-.
      destruct (Hp _ _ Hw) as [Hold|?]; [|done].
      eapply good_mono; [done|]. apply (Hprev j); [lia|done].
Qed.

Lemma strip_items_good xs h u h' :
  ndf h → strip_items rec xs h = Ok (u, h') →
  stripped h h' ∧ good h' (VRef xs).
Proof.
  intros Hn H. unfold strip_items, enumerate in H.
  apply bind_ok in H as (items & h1 & [-> Hxs]%read_list_ok & H).
  eapply (enumerate_from_inv (λ i hc,
            stripped h hc ∧
            ∀ items' j w, hc !! xs = Some (OList items') →
              j < i → items' !! j = Some w → good hc w)) in H.
  - destruct H as (j & [Hst Hall] & Hj). split; [done|].
    destruct (st_list _ _ Hst _ _ Hxs) as (items' & Hxs' & Hlen & _).
    apply good_intro; [intros; congruence|].
    intros w (o & Ho & Hc)%child_obj. rewrite Hxs' in Ho. injection Ho as <-.
    destruct Hc as [i Hi]. eapply (Hall _ i); [done| |done].
    apply lookup_lt_Some in Hi.
    destruct Hj as [->|(items'' & Hxs'' & Hnone)]; [simpl; lia|].
    rewrite Hxs' in Hxs''. injection Hxs'' as <-.
    apply lookup_ge_None in Hnone. lia.
  - intros i item hc items_c u1 hc' [Hst Hall] Hxs_c Hitem Hbody.
    apply strip_item_ok in Hbody.
    eapply strip_item_good in Hbody as [Hst' Hall']; eauto using ndf_stripped.
    split; [by eapply stripped_trans|done].
  - split; [apply stripped_refl|]. intros; lia.
Qed.

Lemma strip_entry_good entry h entry' h' :
  ndf h → strip_entry_run rec entry h entry' h' →
  entry' = entry ∧ stripped h h' ∧ good h' entry.
Proof.
  intros Hn [Hd Hrec | le Hd Hl -> Hitems -> | Hd Hl -> ->].
  - by eapply rec_good.
  - split; [done|]. by eapply strip_items_good.
  - split_and!; [done|apply stripped_refl|].
    apply good_unallocated. by rewrite Hd, Hl.
Qed.

Lemma strip_key_good l key_ h h' :
  ndf h → strip_key_run rec l key_ h h' →
  stripped h h' ∧
  ∀ kvs' v, h' !! l = Some (ODict kvs') → dict_get key_ kvs' = Some v →
    flagged key_ = false ∧ good h' v.
Proof.
  intros Hn [kvs Hl Hnone -> | kvs entry key hr entry' hb kvs_b
                                 Hl Hentry Hloop Hrun Hb ->].
  { split; [apply stripped_refl|]. intros; congruence. }
  assert (l < length hb) as Hlt by by eapply lookup_lt_Some.
  apply strip_flag_loop_ok in Hloop
    as [(Hf & -> & ->)|(Hf & -> & kvs0 & v0 & Hl0 & Hv0 & ->)].
  - destruct (strip_entry_good _ _ _ _ Hn Hrun) as (-> & Hst & Hg).
    assert (stripped hb (<[l := ODict (dict_set key_ entry kvs_b)]> hb))
      as Hst'.
    { eapply stripped_dict_write; [done|]. intros k v Hv.
      destruct (decide (key_ = k)) as [<-|Hne].
      - rewrite dict_get_set_eq in Hv. injection Hv as <-. by right.
      - rewrite dict_get_set_ne in Hv by done. by left. }
    split; [by eapply stripped_trans|]. intros kvs' v Hl' Hv.
    rewrite list_lookup_insert_eq in Hl' by done. injection Hl' as <-.
    rewrite dict_get_set_eq in Hv. injection Hv as <-.
    split; [done|]. by eapply good_mono.
  - rewrite Hl in Hl0. injection Hl0 as <-.
    rewrite Hentry in Hv0. injection Hv0 as <-.
    assert (key_ ∈ dict_keys kvs) as Hkey by (apply dict_keys_get; eauto).
    assert (flagged (tail1 key_) = false) as Hft.
    { apply tail_not_double; [done|]. eauto. }
    pose proof (flagged_tail_ne _ Hf) as Htne.
    set (kvs_r := dict_del key_ (dict_set (tail1 key_) entry kvs)) in *.
    assert (ndf (<[l := ODict kvs_r]> h)) as Hnr.
    { apply ndf_insert_dict; [done|]. intros k [v Hv]%dict_keys_get.
      unfold kvs_r in Hv. destruct (decide (key_ = k)) as [<-|Hne1].
      { by rewrite dict_get_del_eq in Hv. }
      rewrite dict_get_del_ne in Hv by done.
      destruct (decide (tail1 key_ = k)) as [<-|Hne2].
      { by apply flagged_not_double. }
      rewrite dict_get_set_ne in Hv by done.
      eapply Hn; [done|]. apply dict_keys_get. eauto. }
    destruct (strip_entry_good _ _ _ _ Hnr Hrun) as (-> & Hst & Hg).
    assert (stripped hb (<[l := ODict (dict_set (tail1 key_) entry kvs_b)]> hb))
      as Hst'.
    { eapply stripped_dict_write; [done|]. intros k v Hv.
      destruct (decide (tail1 key_ = k)) as [<-|Hne].
      - rewrite dict_get_set_eq in Hv. injection Hv as <-. by right.
      - rewrite dict_get_set_ne in Hv by done. by left. }
    assert (∀ w, good h w → good hb w) as Hmono.
    { intros w Hw. eapply good_mono; [done|].
      eapply good_write_flagged; eauto. }
    assert (l < length h) as Hlt0 by by eapply lookup_lt_Some.
    split; [split|].
    + destruct Hst as [Hlen _ _]. 
      rewrite length_insert in *. by rewrite Hlen.
    + intros x kvs_x Hx. destruct (decide (x = l)) as [->|Hne].
      * rewrite list_lookup_insert_eq by done. eexists. split; [done|].
        rewrite Hl in Hx. injection Hx as <-. intros k v Hv.
        destruct (decide (tail1 key_ = k)) as [<-|Hne].
        { rewrite dict_get_set_eq in Hv. injection Hv as <-. right.
          split; [done|]. by eapply good_mono. }
        rewrite dict_get_set_ne in Hv by done.
        destruct (st_dict _ _ Hst l kvs_r) as (kvs_b' & Hb' & Hp).
        { by rewrite list_lookup_insert_eq. }
        rewrite Hb in Hb'. injection Hb' as <-.
        destruct (Hp _ _ Hv) as [Hold|[? ?]].
        -- left. unfold kvs_r in Hold.
           destruct (decide (key_ = k)) as [<-|Hne1].
           { by rewrite dict_get_del_eq in Hold. }
           rewrite dict_get_del_ne in Hold by done.
           by rewrite dict_get_set_ne in Hold.
        -- right. split; [done|]. by eapply good_mono.
      * rewrite list_lookup_insert_ne by done.
        destruct (st_dict _ _ Hst x kvs_x) as (kvs_x' & Hx' & Hp).
        { by rewrite list_lookup_insert_ne. }
        exists kvs_x'. split; [done|]. intros k v Hv.
        destruct (Hp _ _ Hv) as [?|[? ?]]; [by left|right].
        split; [done|]. by eapply good_mono.
    + intros x xs Hx. destruct (decide (x = l)) as [->|Hne]; [congruence|].
      rewrite list_lookup_insert_ne by done.
      destruct (st_list _ _ Hst x xs) as (xs' & Hx' & Hlen & Hp).
      { by rewrite list_lookup_insert_ne. }
      exists xs'. split_and!; [done..|]. intros i v Hv.
      destruct (Hp _ _ Hv) as [?|?]; [by left|right].
      by eapply good_mono.
    + intros kvs' v Hl' Hv.
      rewrite list_lookup_insert_eq in Hl' by done. injection Hl' as <-.
      rewrite dict_get_set_ne in Hv by done.
      destruct (st_dict _ _ Hst l kvs_r) as (kvs_b' & Hb' & Hp).
      { by rewrite list_lookup_insert_eq. }
      rewrite Hb in Hb'. injection Hb' as <-.
      destruct (Hp _ _ Hv) as [Hold|[? ?]]; [|congruence].
      unfold kvs_r in Hold. by rewrite dict_get_del_eq in Hold.
Qed.

Lemma strip_flags_body_good v h r h' :
  ndf h → strip_flags_body rec v h = Ok (r, h') →
  r = v ∧ stripped h h' ∧ good h' v.
Proof.
  intros Hn H. unfold strip_flags_body in H.
  apply bind_ok in H as (sl & h1 & [-> ->]%isinstance_list_ok & H).
  apply bind_ok in H as (sd & h1 & [-> ->]%isinstance_dict_ok & H).
  destruct v as [| | | | |l];
    try (apply ret_ok in H as [-> ->];
         split_and!; [done|apply stripped_refl|by apply good_scalar]).
  destruct (is_list h (VRef l)) eqn:Hli.
  { apply bind_ok in H as (u & h1 & Hitems & H).
    apply ret_ok in H as [-> ->]. split; [done|].
    by eapply strip_items_good. }
  destruct (is_dict h (VRef l)) eqn:Hd.
  2:{ apply ret_ok in H as [-> ->].
      split_and!; [done|apply stripped_refl|].
      apply good_unallocated. by rewrite Hli, Hd. }
  apply bind_ok in H as (kvs & h1 & [-> Hl]%read_dict_ok & H).
  apply bind_ok in H as (u & h1 & Hloop & H).
  apply ret_ok in H as [-> ->]. split; [done|].
  eapply (for_each_inv (λ rem hc,
            stripped h hc ∧
            ∀ kvs_c k v, hc !! l = Some (ODict kvs_c) →
              dict_get k kvs_c = Some v →
              k ∈ rem ∨ (flagged k = false ∧ good hc v))) in Hloop.
  - destruct Hloop as [Hst Hall]. split; [done|].
    destruct (st_dict _ _ Hst _ _ Hl) as (kvs' & Hl' & _).
    apply good_intro.
    + intros kvs'' k Hl'' [v Hv]%dict_keys_get.
      destruct (Hall _ _ _ Hl'' Hv) as [?%elem_of_nil|[? _]]; done.
    + intros w (o & Ho & Hc)%child_obj. rewrite Hl' in Ho.
      injection Ho as <-. destruct Hc as [k Hv].
      destruct (Hall _ _ _ Hl' Hv) as [?%elem_of_nil|[_ ?]]; done.
  - intros key_ rem ha u1 hc [Hst Hall] Hkey.
    apply strip_key_ok in Hkey.
    assert (ndf ha) as Hna by by eapply ndf_stripped.
    destruct (strip_key_good _ _ _ _ Hna Hkey) as [Hst' Hkey'].
    split; [by eapply stripped_trans|].
    intros kvs_c k v Hlc Hv.
    destruct (stripped_dict_inv _ _ _ _ Hst' Hlc) as (kvs_a & Hla & Hp).
    destruct (decide (k = key_)) as [->|Hne]; [right; eauto|].
    destruct (Hp _ _ Hv) as [Hold|?]; [|by right].
    destruct (Hall _ _ _ Hla Hold) as [[->|?]%elem_of_cons|[? ?]];
      [done|by left|right].
    split; [done|]. by eapply good_mono.
  - split; [apply stripped_refl|]. intros kvs_c k v Hlc Hv. left.
    rewrite Hl in Hlc. injection Hlc as <-. apply dict_keys_get. eauto.
Qed.
End strip_good.

Lemma strip_flags_good fuel v h r h' :
  ndf h → strip_flags fuel v h = Ok (r, h') →
  r = v ∧ stripped h h' ∧ good h' v.
Proof.
  revert v h r h'. induction fuel as [|n IH]; intros v h r h' Hn H; [done|].
  simpl in H. eapply strip_flags_body_good; eauto.
Qed.

(** ** [_merge_settings] keeps keys singly flagged and returns them unflagged *)

Lemma dict_keys_set k v d k' :
  k' ∈ dict_keys (dict_set k v d) → k' = k ∨ k' ∈ dict_keys d.
Proof.
  intros [w Hw]%dict_keys_get. destruct (decide (k = k')) as [->|Hne]; [by left|].
  right. rewrite dict_get_set_ne in Hw by done. apply dict_keys_get. eauto.
Qed.

Lemma dict_keys_del k d k' :
  k' ∈ dict_keys (dict_del k d) → k' ∈ dict_keys d.
Proof.
  intros [w Hw]%dict_keys_get. destruct (decide (k = k')) as [->|Hne].
  - by rewrite dict_get_del_eq in Hw.
  - rewrite dict_get_del_ne in Hw by done. apply dict_keys_get. eauto.
Qed.

Lemma ndf_setitem l key v h u h' :
  ndf h → doubly_flagged key = false →
  dict_setitem l key v h = Ok (u, h') → ndf h'.
Proof.
  intros Hn Hk (kvs & Hl & ->)%dict_setitem_ok.
  apply ndf_insert_dict; [done|]. intros k [->|Hk']%dict_keys_set; eauto.
Qed.

Lemma ndf_delitem l key h u h' :
  ndf h → dict_delitem l key h = Ok (u, h') → ndf h'.
Proof.
  intros Hn (kvs & Hl & _ & ->)%dict_delitem_ok.
  apply ndf_insert_dict; [done|]. intros k Hk%dict_keys_del; eauto.
Qed.

Lemma list_contains_ok fuel xs item h b h' :
  list_contains fuel xs item h = Ok (b, h') →
  h' = h ∧ ∃ items, h !! xs = Some (OList items) ∧ py_in fuel h item items = Ok b.
Proof.
  unfold list_contains.
  intros (items & h1 & [-> Hxs]%read_list_ok & H)%bind_ok.
  destruct (py_in fuel h item items) eqn:E; [|done].
  injection H as <- <-. eauto.
Qed.

Lemma is_key_in_ok t key h r h' :
  is_key_in t key h = Ok (r, h') →
  h' = h ∧ ∃ kvs, h !! t = Some (ODict kvs)
                  ∧ r = is_key_in_flags kvs key ["+"; "!"; ""]%string.
Proof.
  unfold is_key_in. intros (kvs & h1 & [-> Ht]%read_dict_ok & H)%bind_ok.
  apply ret_ok in H as [-> ->]. eauto.
Qed.

Lemma merge_key_ndf fuel rec t l m key_ h u h' :
  (∀ a b h r h', ndf h → rec a b h = Ok (r, h') → ndf h') →
  ndf h → doubly_flagged key_ = false →
  merge_key fuel rec t l m key_ h = Ok (u, h') → ndf h'.
Proof.
  intros Hrec Hn Hkey_ H. unfold merge_key in H.
  set (key := if startswith key_ "!" then tail1 key_ else key_) in *.
  assert (doubly_flagged key = false) as Hkey.
  { unfold key. destruct (startswith key_ "!") eqn:Hb; [|done].
    apply flagged_not_double, tail_not_double; [|done].
    unfold flagged. rewrite Hb. apply orb_true_r. }
  apply bind_ok in H as (entry_l & h1 & [-> _]%dict_getitem_ok & H).
  apply bind_ok in H as ([key_exists flag] & h1 & [-> _]%is_key_in_ok & H).
  destruct key_exists; [|by eapply ndf_setitem].
  apply bind_ok in H as (u1 & h1 & Hset & H).
  assert (ndf h1) as Hn1.
  { clear H. destruct (startswith key_ "!"); [by eapply ndf_setitem|].
    apply bind_ok in Hset as (entry_t & h2 & [-> _]%dict_getitem_ok & H).
    apply bind_ok in H as (td & h2 & [-> ->]%isinstance_dict_ok & H).
    apply bind_ok in H as (ld & h2 & [-> ->]%isinstance_dict_ok & H).
    apply bind_ok in H as (tl & h2 & [-> ->]%isinstance_list_ok & H).
    apply bind_ok in H as (ll & h2 & [-> ->]%isinstance_list_ok & H).
    destruct entry_t as [| | | | |et]; try by eapply ndf_setitem.
    destruct entry_l as [| | | | |el]; try by eapply ndf_setitem.
    destruct (is_dict h (VRef et) && is_dict h (VRef el)).
    { apply bind_ok in H as (r & h2 & Hr & H).
      eapply ndf_setitem; [|done..]. eauto. }
    destruct (is_list h (VRef et) && is_list h (VRef el));
      [|by eapply ndf_setitem].
    destruct (negb false && (flag =? "+")%string); [|by eapply ndf_setitem].
    apply bind_ok in H as (u2 & h2 & Hloop & H).
    eapply ndf_setitem; [|done..].
    unfold enumerate in Hloop.
    apply bind_ok in Hloop as (items & h3 & [-> _]%read_list_ok & Hloop).
    eapply (enumerate_from_inv (λ _ hc, ndf hc)) in Hloop as (_ & ? & _);
      [done| |done].
    intros i item hc xs u3 hc' Hnc _ _ Hbody.
    apply bind_ok in Hbody as (found & h3 & [-> _]%list_contains_ok & Hbody).
    destruct found; [by apply ret_ok in Hbody as [_ ->]|].
    apply list_append_ok in Hbody as (items' & _ & ->).
    by apply ndf_insert_list. }
  apply bind_ok in H as (still & h2 & [-> _]%dict_contains_ok & H).
  destruct (negb (flag =? "")%string && still).
  - by eapply ndf_delitem.
  - by apply ret_ok in H as [_ ->].
Qed.

Lemma merge_settings_good fuel t l h m h' :
  ndf h → merge_settings fuel t l h = Ok (m, h') →
  ndf h' ∧ good h' (VRef m).
Proof.
  revert t l h m h'. induction fuel as [|n IH]; intros t l h m h' Hn H; [done|].
  simpl in H. unfold merge_settings_body in H.
  apply bind_ok in H as (tkvs & h1 & [-> Ht]%read_dict_ok & H).
  apply bind_ok in H as (merged & h1 & Halloc & H).
  injection Halloc as <- <-.
  apply bind_ok in H as (lkvs & h1 & [-> Hl]%read_dict_ok & H).
  apply bind_ok in H as (u & h1 & Hloop & H).
  apply bind_ok in H as (r & h2 & Hstrip & H).
  assert (ndf (h ++ [ODict tkvs])) as Hn0 by (apply ndf_alloc; eauto).
  eapply (for_each_inv (λ rem hc,
            ndf hc ∧ ∀ k, k ∈ rem → doubly_flagged k = false)) in Hloop
    as [Hn1 _].
  - apply strip_flags_good in Hstrip as (-> & Hst & Hg); [|done].
    apply ret_ok in H as [-> ->]. split; [by eapply ndf_stripped|done].
  - intros key_ rem ha u1 hc [Hna Hrem] Hkey. split.
    + eapply merge_key_ndf; [|done| |done].
      * intros a b h0 r0 h0' Hn' Hr. by eapply IH.
      * apply Hrem. left.
    + intros k Hk. apply Hrem. by right.
  - split; [done|]. intros k Hk. eapply Hn0; [done|done].
Qed.

(** C6 (as amended). If no dict of the heap has a key with two leading
    flag characters, no key of any dict of the merged tree, at any depth
    and also inside lists, begins with [+] or [!]. *)
Theorem merge_result_keys_unflagged fuel template local h merged h' :
  no_double_flags h = true →
  merge_settings fuel template local h = Ok (merged, h') →
  ∀ l kvs k,
    reach h' (VRef merged) (VRef l) → h' !! l = Some (ODict kvs) →
    k ∈ dict_keys kvs → flagged k = false.
Proof.
  intros Hn%ndf_iff Hm l kvs k Hr Hl Hk.
  apply merge_settings_good in Hm as [_ Hg]; [|done].
  eapply good_reach in Hr; [|done]. by eapply good_elim.
Qed.

Lemma merge_result_keys_unflagged_witness :
  let h0 := [OList [VInt 1; VInt 2]; ODict [("+x", VRef 0)];
             OList [VInt 2; VInt 3]; ODict [("x", VRef 2)]]%string in
  let h1 := [OList [VInt 1; VInt 2; VInt 3]; ODict [("+x", VRef 0)];
             OList [VInt 2; VInt 3]; ODict [("x", VRef 2)];
             ODict [("x", VRef 0)]]%string in
  (no_double_flags h0 = true
   ∧ merge_settings recursion_limit 1 3 h0 = Ok (4, h1)
   ∧ reach h1 (VRef 4) (VRef 4)
   ∧ h1 !! 4 = Some (ODict [("x", VRef 0)]%string)
   ∧ "x"%string ∈ dict_keys [("x", VRef 0)]%string)
  ∧ flagged "x" = false.
Proof.
  intros h0 h1.
  assert ("x"%string ∈ dict_keys [("x", VRef 0)]%string) as Hk by left.
  split; [split_and!; [by vm_compute | by vm_compute | apply reach_refl
                      | done | done]|].
  eapply (merge_result_keys_unflagged recursion_limit 1 3 h0 4 h1);
    [by vm_compute | by vm_compute | apply reach_refl | done | done].
Defined.

(** C6 as stated fails: a key with two leading flag characters loses only
    the first one.  Merging [{}] over [{"++x": 1}] gives [{"+x": 1}]. *)
Lemma merge_double_flag_survives :
  Merge (TDict [("++x", TInt 1)]%string) (TDict [])
  = Ok (Some (TDict [("+x", TInt 1)]%string))
  ∧ flagged "+x" = true.
Proof. split; by vm_compute. Qed.

(** ** [_strip_flags] inside a closed region *)

Lemma evolve_refl R h : evolve R h h.
Proof. split; [done| |done]. intros x o Hx. exists o. by destruct o. Qed.

Lemma same_kind_trans o1 o2 o3 :
  same_kind o1 o2 → same_kind o2 o3 → same_kind o1 o3.
Proof. destruct o1, o2, o3; simpl; try done. congruence. Qed.

Lemma evolve_trans R h1 h2 h3 :
  evolve R h1 h2 → evolve R h2 h3 → evolve R h1 h3.
Proof.
  intros [L12 O12 F12] [L23 O23 F23]. split.
  - congruence.
  - intros x o1 Hx. destruct (O12 _ _ Hx) as (o2 & Hx2 & K12 & C12).
    destruct (O23 _ _ Hx2) as (o3 & Hx3 & K23 & C23).
    exists o3. split_and!; [done|by eapply same_kind_trans|eauto].
  - intros x Hx. by rewrite F23, F12.
Qed.

Lemma evolve_child R h h' x w :
  evolve R h h' → child h' (VRef x) w → child h (VRef x) w.
Proof.
  intros [L O F] (o' & Hx' & Hc)%child_obj.
  assert (is_Some (h !! x)) as [o Hx].
  { apply lookup_lt_is_Some. rewrite <- L. by eapply lookup_lt_Some. }
  destruct (O _ _ Hx) as (o'' & Hx'' & _ & C).
  rewrite Hx' in Hx''. injection Hx'' as <-. apply child_obj. eauto.
Qed.

Lemma evolve_closed R R' h h' : evolve R h h' → closed h R' → closed h' R'.
Proof. intros He Hc x l' Hx Hch. eapply Hc; [done|]. by eapply evolve_child. Qed.

Lemma evolve_is_dict R h h' v : evolve R h h' → is_dict h' v = is_dict h v.
Proof.
  intros [L O F]. destruct v as [| | | | |l]; simpl; try done.
  destruct (h !! l) as [o|] eqn:Hl.
  - destruct (O _ _ Hl) as (o' & -> & K & _). by destruct o, o'.
  - apply lookup_ge_None in Hl. rewrite <- L in Hl.
    apply lookup_ge_None in Hl. by rewrite Hl.
Qed.

Lemma evolve_is_list R h h' v : evolve R h h' → is_list h' v = is_list h v.
Proof.
  intros [L O F]. destruct v as [| | | | |l]; simpl; try done.
  destruct (h !! l) as [o|] eqn:Hl.
  - destruct (O _ _ Hl) as (o' & -> & K & _). by destruct o, o'.
  - apply lookup_ge_None in Hl. rewrite <- L in Hl.
    apply lookup_ge_None in Hl. by rewrite Hl.
Qed.

(** A write inside [R] that refers to nothing new, after a run from [h]. *)
Lemma evolve_write R h hb l o ob o' :
  evolve R h hb → h !! l = Some o → hb !! l = Some ob → R l →
  same_kind o o' → (∀ w, obj_child o' w → obj_child o w) →
  evolve R h (<[l := o']> hb).
Proof.
  intros [L O F] Hl Hb HR K C.
  assert (l < length hb) as Hlt by by eapply lookup_lt_Some.
  split.
  - by rewrite length_insert.
  - intros x ox Hx. destruct (decide (x = l)) as [->|Hne].
    + rewrite list_lookup_insert_eq by done. exists o'.
      rewrite Hl in Hx. injection Hx as <-. done.
    + rewrite list_lookup_insert_ne by done. eauto.
  - intros x Hx. rewrite list_lookup_insert_ne by (intros ->; done). eauto.
Qed.

Lemma in_set_child R h x w : closed h R → R x → child h (VRef x) w → in_set R w.
Proof. intros Hc Hx Hch l ->. by eapply Hc. Qed.

Section strip_evolve.
Context (R : loc → Prop) (rec : value → M value).
Hypothesis rec_evolve : ∀ v h r h',
  closed h R → in_set R v → rec v h = Ok (r, h') → r = v ∧ evolve R h h'.

Lemma strip_item_evolve xs i item h h' items :
  closed h R → R xs → h !! xs = Some (OList items) → items !! i = Some item →
  strip_item_run rec xs i item h h' → evolve R h h'.
Proof.
  intros Hc Hxs Hl Hitem [_ -> | r hb items_b _ Hrec Hb Hi ->].
  { apply evolve_refl. }
  assert (in_set R item) as Hin.
  { eapply in_set_child; [done..|]. by eapply child_list. }
  destruct (rec_evolve _ _ _ _ Hc Hin Hrec) as [-> He].
  destruct (ev_obj _ _ _ He _ _ Hl) as (o' & Hb' & K & C).
  rewrite Hb in Hb'. injection Hb' as <-. simpl in K.
  eapply evolve_write; [done..| |].
  - simpl. by rewrite length_insert.
  - intros w [j Hw]. destruct (decide (i = j)) as [->|Hne].
    + rewrite list_lookup_insert_eq in Hw by done. injection Hw as <-.
      by exists j.
    + rewrite list_lookup_insert_ne in Hw by done. apply C. by exists j.
Qed.

Lemma strip_items_evolve xs h u h' :
  closed h R → R xs → strip_items rec xs h = Ok (u, h') → evolve R h h'.
Proof.
  intros Hc Hxs H. unfold strip_items, enumerate in H.
  apply bind_ok in H as (items & h1 & [-> Hl]%read_list_ok & H).
  eapply (enumerate_from_inv (λ _ hc, evolve R h hc)) in H
    as (_ & ? & _); [done| |apply evolve_refl].
  intros i item hc items_c u1 hc' He Hlc Hitem Hbody.
  apply strip_item_ok in Hbody.
  eapply evolve_trans; [done|].
  eapply strip_item_evolve; eauto using evolve_closed.
Qed.

Lemma strip_entry_evolve entry h entry' h' :
  closed h R → in_set R entry → strip_entry_run rec entry h entry' h' →
  entry' = entry ∧ evolve R h h'.
Proof.
  intros Hc Hin [Hd Hrec | le Hd Hl -> Hitems -> | Hd Hl -> ->].
  - by eapply rec_evolve.
  - split; [done|]. eapply strip_items_evolve; eauto.
  - split; [done|apply evolve_refl].
Qed.

Lemma strip_key_evolve l key_ h h' :
  closed h R → R l → strip_key_run rec l key_ h h' → evolve R h h'.
Proof.
  intros Hc Hl [kvs Hk Hnone -> | kvs entry key hr entry' hb kvs_b
                                    Hk Hentry Hloop Hrun Hb ->].
  { apply evolve_refl. }
  assert (in_set R entry) as Hin.
  { eapply in_set_child; [done..|]. by eapply child_dict. }
  assert (evolve R h hr ∧
          ∃ kvs_r, hr !! l = Some (ODict kvs_r) ∧
            ∀ w, obj_child (ODict kvs_r) w → obj_child (ODict kvs) w)
    as (Her & kvs_r & Hr & Cr).
  { apply strip_flag_loop_ok in Hloop
      as [(Hf & -> & ->)|(Hf & -> & kvs0 & v0 & Hl0 & Hv0 & ->)].
    { split; [apply evolve_refl|]. eauto. }
    rewrite Hk in Hl0. injection Hl0 as <-.
    rewrite Hentry in Hv0. injection Hv0 as <-.
    assert (∀ w, obj_child (ODict (dict_del key_
                   (dict_set (tail1 key_) entry kvs))) w →
                 obj_child (ODict kvs) w) as C.
    { intros w [k Hw]. destruct (decide (key_ = k)) as [<-|Hne1].
      { by rewrite dict_get_del_eq in Hw. }
      rewrite dict_get_del_ne in Hw by done.
      destruct (decide (tail1 key_ = k)) as [<-|Hne2].
      - rewrite dict_get_set_eq in Hw. injection Hw as <-. by exists key_.
      - rewrite dict_get_set_ne in Hw by done. by exists k. }
    split.
    - eapply evolve_write; [apply evolve_refl|done..].
    - eexists. split; [|done].
      apply list_lookup_insert_eq. by eapply lookup_lt_Some. }
  assert (closed hr R) as Hcr by by eapply evolve_closed.
  destruct (strip_entry_evolve _ _ _ _ Hcr Hin Hrun) as [-> Heb].
  destruct (ev_obj _ _ _ Heb _ _ Hr) as (o' & Hb' & K & C).
  rewrite Hb in Hb'. injection Hb' as <-.
  eapply evolve_write; [by eapply evolve_trans|done..|].
  intros w [k Hw]. destruct (decide (key = k)) as [<-|Hne].
  - rewrite dict_get_set_eq in Hw. injection Hw as <-. by exists key_.
  - rewrite dict_get_set_ne in Hw by done. apply Cr, C. by exists k.
Qed.

Lemma strip_keys_evolve l keys h u h' :
  closed h R → R l → for_each keys (strip_key rec l) h = Ok (u, h') →
  evolve R h h'.
Proof.
  intros Hc Hl H.
  eapply (for_each_inv (λ _ hc, evolve R h hc)) in H;
    [done| |apply evolve_refl].
  intros key_ rem hc u1 hc' He Hkey. apply strip_key_ok in Hkey.
  eapply evolve_trans; [done|].
  eapply strip_key_evolve; eauto using evolve_closed.
Qed.

Lemma strip_flags_body_evolve v h r h' :
  closed h R → in_set R v → strip_flags_body rec v h = Ok (r, h') →
  r = v ∧ evolve R h h'.
Proof.
  intros Hc Hin H. unfold strip_flags_body in H.
  apply bind_ok in H as (sl & h1 & [-> ->]%isinstance_list_ok & H).
  apply bind_ok in H as (sd & h1 & [-> ->]%isinstance_dict_ok & H).
  destruct v as [| | | | |l];
    try (apply ret_ok in H as [-> ->]; split; [done|apply evolve_refl]).
  destruct (is_list h (VRef l)).
  { apply bind_ok in H as (u & h1 & Hitems & H).
    apply ret_ok in H as [-> ->]. split; [done|].
    eapply strip_items_evolve; eauto. }
  destruct (is_dict h (VRef l)).
  2:{ apply ret_ok in H as [-> ->]. split; [done|apply evolve_refl]. }
  apply bind_ok in H as (kvs & h1 & [-> Hl]%read_dict_ok & H).
  apply bind_ok in H as (u & h1 & Hloop & H).
  apply ret_ok in H as [-> ->]. split; [done|].
  eapply strip_keys_evolve; eauto.
Qed.
End strip_evolve.

Lemma strip_flags_evolve fuel R v h r h' :
  closed h R → in_set R v → strip_flags fuel v h = Ok (r, h') →
  r = v ∧ evolve R h h'.
Proof.
  revert v h r h'. induction fuel as [|n IH]; intros v h r h' Hc Hin H; [done|].
  simpl in H. eapply strip_flags_body_evolve; eauto.
Qed.

(** ** The dict loop of [_strip_flags], seen from the dict *)

Lemma strip_key_pure_get key_ d k' :
  dict_get k' (strip_key_pure key_ d) =
  match dict_get key_ d with
  | Some entry =>
      if flagged key_ then
        if decide (k' = tail1 key_) then Some entry
        else if decide (k' = key_) then None else dict_get k' d
      else dict_get k' d
  | None => dict_get k' d
  end.
Proof.
  unfold strip_key_pure. destruct (dict_get key_ d) as [entry|] eqn:He; [|done].
  destruct (flagged key_) eqn:Hf.
  - destruct (decide (k' = tail1 key_)) as [->|Hne1].
    { by rewrite dict_get_set_eq. }
    rewrite dict_get_set_ne by done.
    destruct (decide (k' = key_)) as [->|Hne2].
    { by rewrite dict_get_del_eq. }
    rewrite dict_get_del_ne by done. by rewrite dict_get_set_ne.
  - destruct (decide (key_ = k')) as [<-|Hne].
    + by rewrite dict_get_set_eq.
    + by rewrite dict_get_set_ne.
Qed.

Section strip_top.
Context (rec : value → M value).
Hypothesis rec_evolve : ∀ R v h r h',
  closed h R → in_set R v → rec v h = Ok (r, h') → r = v ∧ evolve R h h'.

Lemma strip_key_top R l key_ d h h' :
  closed h R → ¬ R l → h !! l = Some (ODict d) →
  (∀ w, obj_child (ODict d) w → in_set R w) →
  strip_key_run rec l key_ h h' →
  h' !! l = Some (ODict (strip_key_pure key_ d))
  ∧ evolve (λ x, R x ∨ x = l) h h'.
Proof.
  intros Hc Hnl Hl Hch Hrun.
  assert (closed h (λ x, R x ∨ x = l)) as Hc'.
  { intros x l' [Hx| ->] Hchild; left; [by eapply Hc|].
    apply child_obj in Hchild as (o & Ho & Hw).
    rewrite Hl in Ho. injection Ho as <-. by apply (Hch _ Hw). }
  split; [|eapply strip_key_evolve; eauto].
  destruct Hrun as [kvs Hk Hnone -> | kvs entry key hr entry' hb kvs_b
                                      Hk Hentry Hloop Hrun Hb ->];
    rewrite Hl in Hk; injection Hk as <-; unfold strip_key_pure.
  { by rewrite Hnone. }
  rewrite Hentry.
  assert (in_set R entry) as Hin by (apply Hch; by exists key_).
  assert (l < length hb) as Hlt by by eapply lookup_lt_Some.
  apply strip_flag_loop_ok in Hloop
    as [(Hf & -> & ->)|(Hf & -> & kvs0 & v0 & Hl0 & Hv0 & ->)]; rewrite Hf.
  - destruct (strip_entry_evolve R rec (rec_evolve R) _ _ _ _ Hc Hin Hrun)
      as [-> He].
    rewrite (ev_frame _ _ _ He l Hnl), Hl in Hb. injection Hb as <-.
    by rewrite list_lookup_insert_eq.
  - rewrite Hl in Hl0. injection Hl0 as <-.
    rewrite Hentry in Hv0. injection Hv0 as <-.
    assert (l < length h) as Hlt0 by by eapply lookup_lt_Some.
    assert (closed (<[l := ODict (dict_del key_
              (dict_set (tail1 key_) entry d))]> h) R) as Hcr.
    { intros x l' Hx (o & Ho & Hw)%child_obj. eapply Hc; [done|].
      rewrite list_lookup_insert_ne in Ho by (intros ->; done).
      apply child_obj. eauto. }
    destruct (strip_entry_evolve R rec (rec_evolve R) _ _ _ _ Hcr Hin Hrun)
      as [-> He].
    rewrite (ev_frame _ _ _ He l Hnl), list_lookup_insert_eq in Hb by done.
    injection Hb as <-. by rewrite list_lookup_insert_eq.
Qed.

Lemma strip_keys_top R l keys d h u h' :
  closed h R → ¬ R l → h !! l = Some (ODict d) →
  (∀ w, obj_child (ODict d) w → in_set R w) →
  for_each keys (strip_key rec l) h = Ok (u, h') →
  h' !! l = Some (ODict (strip_keys_pure keys d))
  ∧ evolve (λ x, R x ∨ x = l) h h'.
Proof.
  revert d h. induction keys as [|key_ keys IH]; intros d h Hc Hnl Hl Hch H;
    simpl in H.
  { apply ret_ok in H as [_ ->]. split; [done|apply evolve_refl]. }
  apply bind_ok in H as (u1 & h1 & Hkey%strip_key_ok & H).
  destruct (strip_key_top R l key_ d h h1 Hc Hnl Hl Hch Hkey) as [Hl1 He1].
  destruct (IH (strip_key_pure key_ d) h1) as [Hl' He']; [|done|done| |done|].
  - intros x l' Hx Hchild. eapply Hc; [done|]. by eapply evolve_child.
  - intros w Hw. apply Hch.
    destruct (ev_obj _ _ _ He1 _ _ Hl) as (o' & Ho' & _ & C).
    rewrite Hl1 in Ho'. injection Ho' as <-. by apply C.
  - split; [done|by eapply evolve_trans].
Qed.
End strip_top.

Lemma strip_flags_top fuel R l d h r h' :
  closed h R → ¬ R l → h !! l = Some (ODict d) →
  (∀ w, obj_child (ODict d) w → in_set R w) →
  strip_flags fuel (VRef l) h = Ok (r, h') →
  r = VRef l
  ∧ h' !! l = Some (ODict (strip_keys_pure (dict_keys d) d))
  ∧ evolve (λ x, R x ∨ x = l) h h'.
Proof.
  intros Hc Hnl Hl Hch H. destruct fuel as [|n]; [done|].
  simpl in H. unfold strip_flags_body in H.
  apply bind_ok in H as (sl & h1 & [-> ->]%isinstance_list_ok & H).
  apply bind_ok in H as (sd & h1 & [-> ->]%isinstance_dict_ok & H).
  simpl in H. rewrite Hl in H.
  apply bind_ok in H as (kvs & h1 & [-> Hl']%read_dict_ok & H).
  rewrite Hl in Hl'. injection Hl' as <-.
  apply bind_ok in H as (u & h1 & Hloop & H).
  apply ret_ok in H as [-> ->]. split; [done|].
  eapply (strip_keys_top (strip_flags n)); [|done..].
  intros. by eapply strip_flags_evolve.
Qed.

(** In a levelled heap the objects strictly below a level form a closed
    region. *)
Lemma graded_closed h rk n : graded h rk → closed h (λ x, rk x < n).
Proof. intros Hg x l' Hx [Hr _]%Hg. lia. Qed.

Lemma graded_child_below h rk l d w :
  graded h rk → h !! l = Some (ODict d) → obj_child (ODict d) w →
  in_set (λ x, rk x < rk l) w.
Proof.
  intros Hg Hl [k Hw] l' ->.
  destruct (Hg l l') as [Hr _]; [by eapply child_dict|lia].
Qed.

(** ** A flagged spelling wins over the plain key *)

Lemma flagged_plus k : flagged (String "+" k) = true.
Proof. unfold flagged, startswith. simpl. by destruct k. Qed.

Lemma flagged_bang k : flagged (String "!" k) = true.
Proof. unfold flagged, startswith. simpl. by destruct k. Qed.

Lemma flagged_tail_inv key_ k :
  flagged key_ = true → tail1 key_ = k →
  key_ = String "+" k ∨ key_ = String "!" k.
Proof. intros (t & Ht & Hk)%flagged_inv <-. by rewrite Ht. Qed.

Section flagged_wins.
Context (kvs : list (string * value)) (k : string).
Hypothesis k_plain : flagged k = false.

Local Abbreviation spelling := (spelling k).
Local Abbreviation Inv := (wins_inv kvs k).

Lemma spelling_flagged fk : spelling fk → flagged fk = true ∧ tail1 fk = k.
Proof. intros [-> | ->]; split; auto using flagged_plus, flagged_bang. Qed.

Lemma flagged_wins_step key_ rem d :
  Inv (key_ :: rem) d → Inv rem (strip_key_pure key_ d).
Proof.
  intros (HA & HB & HC).
  assert (∀ key, key ∈ rem → ¬ double_spelling k key) as HC'.
  { intros key Hk. apply HC. by right. }
  destruct (dict_get key_ d) as [entry|] eqn:He.
  2:{ assert (∀ k', dict_get k' (strip_key_pure key_ d) = dict_get k' d) as Hsame.
      { intros k'. by rewrite strip_key_pure_get, He. }
      split_and!; [|by setoid_rewrite Hsame|done].
      intros fk x Hs. rewrite Hsame. intros Hx.
      destruct (HA _ _ Hs Hx) as [[->|?]%elem_of_cons ?]; [congruence|done]. }
  destruct (flagged key_) eqn:Hf.
  2:{ assert (∀ k', dict_get k' (strip_key_pure key_ d) = dict_get k' d) as Hsame.
      { intros k'. by rewrite strip_key_pure_get, He, Hf. }
      split_and!; [|by setoid_rewrite Hsame|done].
      intros fk x Hs. rewrite Hsame. intros Hx.
      destruct (HA _ _ Hs Hx) as [[->|?]%elem_of_cons ?]; [|done].
      apply spelling_flagged in Hs as [? _]. congruence. }
  assert (∀ fk, spelling fk → fk ≠ tail1 key_) as Hnt.
  { intros fk Hfk ->. by apply (HC key_); [left|]. }
  split_and!; [| |done].
  - intros fk x Hs. rewrite strip_key_pure_get, He, Hf.
    rewrite decide_False by by apply Hnt.
    destruct (decide (fk = key_)) as [->|Hne]; [done|]. intros Hx.
    destruct (HA _ _ Hs Hx) as [[->|?]%elem_of_cons ?]; done.
  - destruct (decide (tail1 key_ = k)) as [Hk|Hk].
    + right. exists key_, entry.
      assert (spelling key_) as Hs by by apply flagged_tail_inv.
      split_and!; [done|by eapply HA|].
      rewrite strip_key_pure_get, He, Hf. by rewrite decide_True.
    + assert (∀ k', (spelling k' ∧ k' ≠ key_) ∨ k' = k →
                dict_get k' (strip_key_pure key_ d) = dict_get k' d) as Hsame.
      { intros k' Hk'. rewrite strip_key_pure_get, He, Hf.
        rewrite decide_False.
        - rewrite decide_False; [done|].
          destruct Hk' as [[_ ?]| ->]; [done|]. intros <-. congruence.
        - destruct Hk' as [[Hs _]| ->]; [by apply Hnt|done]. }
      assert (∀ fk, spelling fk → fk ≠ key_) as Hnk.
      { intros fk [_ Ht]%spelling_flagged ->. done. }
      destruct HB as [(fk & Hs & Hx)|(fk & a & Hs & Ha & Hk')].
      * left. exists fk. split; [done|]. rewrite Hsame; [done|]. left. eauto.
      * right. exists fk, a. split_and!; [done..|]. rewrite Hsame; eauto.
Qed.

Lemma flagged_wins_loop rem d :
  Inv rem d →
  let d' := strip_keys_pure rem d in
  ∃ fk a, spelling fk ∧ dict_get fk kvs = Some a ∧ dict_get k d' = Some a
          ∧ dict_get (String "+" k) d' = None
          ∧ dict_get (String "!" k) d' = None.
Proof.
  revert d. induction rem as [|key_ rem IH]; intros d HI; simpl.
  - destruct HI as (HA & HB & _).
    assert (∀ fk, spelling fk → dict_get fk d = None) as Hnone.
    { intros fk Hs. destruct (dict_get fk d) as [x|] eqn:Hx; [|done].
      by destruct (HA _ _ Hs Hx) as [?%elem_of_nil _]. }
    destruct HB as [(fk & Hs & [x Hx])|(fk & a & Hs & Ha & Hk)].
    + rewrite Hnone in Hx by done. done.
    + exists fk, a. split_and!; [done..| |]; apply Hnone; [by left|by right].
  - apply IH. by apply flagged_wins_step.
Qed.

Lemma flagged_wins_pure :
  (∀ key, key ∈ dict_keys kvs → ¬ double_spelling k key) →
  is_Some (dict_get (String "+" k) kvs) ∨ is_Some (dict_get (String "!" k) kvs) →
  let d' := strip_keys_pure (dict_keys kvs) kvs in
  ∃ fk a, (fk = String "+" k ∨ fk = String "!" k)
          ∧ dict_get fk kvs = Some a ∧ dict_get k d' = Some a
          ∧ dict_get (String "+" k) d' = None
          ∧ dict_get (String "!" k) d' = None.
Proof.
  intros Hndf Hsome. apply flagged_wins_loop. split_and!; [| |done].
  - intros fk x _ Hx. split; [|done]. apply dict_keys_get. eauto.
  - left. destruct Hsome as [H|H]; eexists; (split; [|exact H]);
      [by left|by right].
Qed.
End flagged_wins.

(** C10 (as amended). When [_strip_flags] runs on a dict that has a
    flagged spelling ["+k"] or ["!k"] of a plain key [k], and no spelling
    of [k] with two flag characters, the value of a flagged spelling ends
    up under [k] and no flagged spelling is left, so a value the dict had
    under [k] is gone.  Merging [{"+x": v}] over [{"x": w}] gives
    [{"x": v}]. *)
Theorem strip_flags_flagged_spelling_wins :
  (∀ fuel h rk l kvs k r h',
     graded h rk → h !! l = Some (ODict kvs) →
     (∀ key, key ∈ dict_keys kvs → ¬ double_spelling k key) →
     flagged k = false →
     is_Some (dict_get ("+" +:+ k) kvs) ∨ is_Some (dict_get ("!" +:+ k) kvs) →
     strip_flags fuel (VRef l) h = Ok (r, h') →
     ∃ kvs' fk a,
       h' !! l = Some (ODict kvs')
       ∧ (fk = "+" +:+ k ∨ fk = "!" +:+ k)
       ∧ dict_get fk kvs = Some a
       ∧ dict_get k kvs' = Some a
       ∧ dict_get ("+" +:+ k) kvs' = None
       ∧ dict_get ("!" +:+ k) kvs' = None)
  ∧ (∀ v w : Z,
       Merge (TDict [("x", TInt w)]%string) (TDict [("+x", TInt v)]%string)
       = Ok (Some (TDict [("x", TInt v)]%string))).
Proof.
  split; [|exact merge_flagged_local_key_example].
  intros fuel h rk l kvs k r h' Hg Hl Hndf Hk Hsome Hrun.
  eapply (strip_flags_top fuel (λ x, rk x < rk l)) in Hrun
    as (_ & Hl' & _); [|by apply graded_closed|lia|done|].
  2:{ intros w Hw. by eapply graded_child_below. }
  destruct (flagged_wins_pure kvs k Hk Hndf Hsome)
    as (fk & a & Hs & Ha & Hget & Hp & Hb).
  exists (strip_keys_pure (dict_keys kvs) kvs), fk, a. done.
Qed.

Lemma strip_flags_flagged_spelling_wins_witness :
  let h := [ODict [("x", VInt 1); ("+x", VInt 2); ("++y", VInt 3)]%string] in
  ∃ kvs',
    strip_flags recursion_limit (VRef 0) h = Ok (VRef 0, [ODict kvs'])
    ∧ dict_get "x" kvs' = Some (VInt 2)
    ∧ dict_get "+x" kvs' = None.
Proof.
  intros h.
  destruct (proj1 strip_flags_flagged_spelling_wins recursion_limit h
              (λ _, 0) 0
              [("x", VInt 1); ("+x", VInt 2); ("++y", VInt 3)]%string
              "x"%string (VRef 0)
              [ODict [("x", VInt 2); ("+y", VInt 3)]%string])
    as (kvs' & fk & a & Hl & Hfk & Ha & Hx & Hp & _).
  - intros x l' Hc. inversion Hc as [? kvs k w Hx Hw|? xs i w Hx Hw]; subst.
    + destruct x as [|x]; [|done]. injection Hx as <-.
      simpl in Hw. repeat case_match; simplify_eq.
    + by destruct x.
  - done.
  - intros key Hin [Hf [Hs|Hs]];
      repeat (apply elem_of_cons in Hin as [->|Hin]; [done|]);
      by apply elem_of_nil in Hin.
  - done.
  - left. by eexists.
  - by vm_compute.
  - injection Hl as <-. exists [("x", VInt 2); ("+y", VInt 3)]%string.
    split_and!; [by vm_compute|..].
    + destruct Hfk as [-> | ->]; simpl in Ha; by simplify_eq.
    + done.
Defined.

(** C10 as stated fails when the dict also has a spelling of the key with
    two flag characters.  A ["++x"] that comes before ["+x"] is renamed to
    ["+x"] first, so ["x"] ends with the value of ["++x"] and not with the
    one of the flagged spelling; a ["++x"] that comes after ["+x"] is
    renamed to ["+x"] when that key is gone, so a flagged spelling stays
    in the dict. *)
Lemma strip_flags_double_spelling_wins :
  strip_document_at recursion_limit
    (TDict [("++x", TInt 3); ("x", TInt 1); ("+x", TInt 2)]%string)
  = Ok (Some (TDict [("x", TInt 3)]%string))
  ∧ strip_document_at recursion_limit
      (TDict [("x", TInt 1); ("+x", TInt 2); ("++x", TInt 3)]%string)
    = Ok (Some (TDict [("x", TInt 2); ("+x", TInt 3)]%string))
  ∧ Merge (TDict [("++x", TInt 3); ("x", TInt 1); ("+x", TInt 2)]%string)
          (TDict [])
    = Ok (Some (TDict [("x", TInt 3)]%string))
  ∧ Merge (TDict [("x", TInt 1)]%string)
          (TDict [("+x", TInt 2); ("++x", TInt 3)]%string)
    = Ok (Some (TDict [("x", TInt 2); ("+x", TInt 3)]%string)).
Proof. split_and!; by vm_compute. Qed.

(** ** Running the primitives forward *)

Lemma bind_eq {A B} (m : M A) (k : A → M B) h a h1 :
  m h = Ok (a, h1) → bind m k h = k a h1.
Proof. unfold bind. by intros ->. Qed.

Lemma read_dict_eq l h kvs :
  h !! l = Some (ODict kvs) → read_dict l h = Ok (kvs, h).
Proof. intros Hl. unfold read_dict, bind, read. by rewrite Hl. Qed.

Lemma read_list_eq l h xs :
  h !! l = Some (OList xs) → read_list l h = Ok (xs, h).
Proof. intros Hl. unfold read_list, bind, read. by rewrite Hl. Qed.

Lemma write_eq l o h : l < length h → write l o h = Ok (tt, <[l := o]> h).
Proof. intros Hl. unfold write. by rewrite decide_True. Qed.

Lemma dict_getitem_eq l k h kvs v :
  h !! l = Some (ODict kvs) → dict_get k kvs = Some v →
  dict_getitem l k h = Ok (v, h).
Proof.
  intros Hl Hv. unfold dict_getitem.
  rewrite (bind_eq _ _ _ _ _ (read_dict_eq _ _ _ Hl)). by rewrite Hv.
Qed.

Lemma dict_contains_eq l k h kvs :
  h !! l = Some (ODict kvs) → dict_contains l k h = Ok (dict_has k kvs, h).
Proof.
  intros Hl. unfold dict_contains.
  by rewrite (bind_eq _ _ _ _ _ (read_dict_eq _ _ _ Hl)).
Qed.

Lemma dict_setitem_eq l k v h kvs :
  h !! l = Some (ODict kvs) →
  dict_setitem l k v h = Ok (tt, <[l := ODict (dict_set k v kvs)]> h).
Proof.
  intros Hl. unfold dict_setitem.
  rewrite (bind_eq _ _ _ _ _ (read_dict_eq _ _ _ Hl)).
  apply write_eq. by eapply lookup_lt_Some.
Qed.

Lemma dict_delitem_eq l k h kvs :
  h !! l = Some (ODict kvs) → dict_has k kvs = true →
  dict_delitem l k h = Ok (tt, <[l := ODict (dict_del k kvs)]> h).
Proof.
  intros Hl Hk. unfold dict_delitem.
  rewrite (bind_eq _ _ _ _ _ (read_dict_eq _ _ _ Hl)), Hk.
  apply write_eq. by eapply lookup_lt_Some.
Qed.

Lemma list_setitem_eq l i v h xs :
  h !! l = Some (OList xs) → i < length xs →
  list_setitem l i v h = Ok (tt, <[l := OList (<[i := v]> xs)]> h).
Proof.
  intros Hl Hi. unfold list_setitem.
  rewrite (bind_eq _ _ _ _ _ (read_list_eq _ _ _ Hl)), decide_True by done.
  apply write_eq. by eapply lookup_lt_Some.
Qed.

Lemma list_append_eq l v h xs :
  h !! l = Some (OList xs) →
  list_append l v h = Ok (tt, <[l := OList (xs ++ [v])]> h).
Proof.
  intros Hl. unfold list_append.
  rewrite (bind_eq _ _ _ _ _ (read_list_eq _ _ _ Hl)).
  apply write_eq. by eapply lookup_lt_Some.
Qed.

Lemma is_dict_true h v :
  is_dict h v = true ↔ ∃ l kvs, v = VRef l ∧ h !! l = Some (ODict kvs).
Proof.
  split.
  - destruct v as [| | | | |l]; simpl; try done.
    destruct (h !! l) as [[kvs|]|] eqn:Hl; try done. eauto.
  - intros (l & kvs & -> & Hl). simpl. by rewrite Hl.
Qed.

Lemma is_list_true h v :
  is_list h v = true ↔ ∃ l xs, v = VRef l ∧ h !! l = Some (OList xs).
Proof.
  split.
  - destruct v as [| | | | |l]; simpl; try done.
    destruct (h !! l) as [[|xs]|] eqn:Hl; try done. eauto.
  - intros (l & xs & -> & Hl). simpl. by rewrite Hl.
Qed.

(** ** Loops that run to the end *)

Lemma for_each_total {A} (I : list A → heap → Prop) (body : A → M unit) xs :
  (∀ x rem h, I (x :: rem) h → ∃ h', body x h = Ok (tt, h') ∧ I rem h') →
  ∀ h, I xs h → ∃ h', for_each xs body h = Ok (tt, h') ∧ I [] h'.
Proof.
  intros Hbody. induction xs as [|x xs IH]; intros h HI; simpl.
  - by exists h.
  - destruct (Hbody _ _ _ HI) as (h1 & Hx & HI1).
    destruct (IH _ HI1) as (h' & Hxs & HI').
    exists h'. by rewrite (bind_eq _ _ _ _ _ Hx).
Qed.

Lemma enumerate_from_total (I : nat → heap → Prop) l body :
  (∀ i h, I i h → ∃ xs, h !! l = Some (OList xs)) →
  (∀ i item h xs, I i h → h !! l = Some (OList xs) → xs !! i = Some item →
     ∃ h', body i item h = Ok (tt, h') ∧ I (S i) h') →
  ∀ n i h, I i h →
    ∃ h' j, enumerate_from l i n body h = Ok (tt, h') ∧ I j h'.
Proof.
  intros Hlist Hbody. induction n as [|n IH]; intros i h HI; simpl.
  - by exists h, i.
  - destruct (Hlist _ _ HI) as [xs Hl].
    rewrite (bind_eq _ _ _ _ _ (read_list_eq _ _ _ Hl)).
    destruct (xs !! i) as [item|] eqn:Hi; [|by exists h, i].
    destruct (Hbody _ _ _ _ HI Hl Hi) as (h1 & Hx & HI1).
    rewrite (bind_eq _ _ _ _ _ Hx). eauto.
Qed.

(** ** Levelled heaps *)

Lemma graded_evolve R h h' rk : graded h rk → evolve R h h' → graded h' rk.
Proof.
  intros Hg He x l' Hc%(evolve_child _ _ _ _ _ He).
  destruct (Hg _ _ Hc) as [? ?]. split; [done|]. by rewrite (ev_len _ _ _ He).
Qed.

Lemma closed_true h : closed h (λ _, True).
Proof. done. Qed.

Lemma in_set_true v : in_set (λ _, True) v.
Proof. done. Qed.

(** A write of an object whose references all go one level down. *)
Lemma graded_write h rk l o :
  graded h rk → 
  (∀ l', obj_child o (VRef l') → rk l = S (rk l') ∧ l' < length h) →
  graded (<[l := o]> h) rk.
Proof.
  intros Hg Ho x l' (ox & Hx & Hw)%child_obj. rewrite length_insert.
  destruct (decide (x = l)) as [->|Hne].
  - assert (l < length h) as Hlt.
    { apply lookup_lt_Some in Hx. by rewrite length_insert in Hx. }
    rewrite list_lookup_insert_eq in Hx by done. injection Hx as <-. eauto.
  - rewrite list_lookup_insert_ne in Hx by done.
    apply Hg, child_obj. eauto.
Qed.

Lemma strip_flag_loop_total l key_ h kvs v :
  h !! l = Some (ODict kvs) → dict_get key_ kvs = Some v →
  ∃ key hr, strip_flag_loop l key_ flags key_ h = Ok (key, hr).
Proof.
  intros Hl Hv.
  assert (flagged key_ = true →
    (let* v := dict_getitem l key_ in
     let* _ := dict_setitem l (tail1 key_) v in
     let* _ := dict_delitem l key_ in
     ret (tail1 key_)) h =
    Ok (tail1 key_,
        <[l := ODict (dict_del key_ (dict_set (tail1 key_) v kvs))]> h))
    as Hrename.
  { intros Hf.
    rewrite (bind_eq _ _ _ _ _ (dict_getitem_eq _ _ _ _ _ Hl Hv)).
    rewrite (bind_eq _ _ _ _ _ (dict_setitem_eq _ _ _ _ _ Hl)).
    erewrite bind_eq.
    2:{ apply dict_delitem_eq.
        - apply list_lookup_insert_eq. by eapply lookup_lt_Some.
        - apply dict_has_true.
          rewrite dict_get_set_ne by by apply flagged_tail_ne. eauto. }
    by rewrite list_insert_insert_eq. }
  unfold flags. simpl.
  destruct (startswith key_ "+") eqn:Hplus.
  - assert (startswith key_ "!" = false) as ->.
    { apply startswith_char in Hplus as [t ->]. done. }
    eexists _, _. apply Hrename. unfold flagged. by rewrite Hplus.
  - destruct (startswith key_ "!") eqn:Hbang.
    + eexists _, _. apply Hrename. unfold flagged. by rewrite Hbang, orb_true_r.
    + by eexists _, _.
Qed.

Lemma strip_flag_loop_evolve R l key_ h key hr kvs :
  h !! l = Some (ODict kvs) → R l →
  strip_flag_loop l key_ flags key_ h = Ok (key, hr) →
  evolve R h hr ∧ ∃ kvs_r, hr !! l = Some (ODict kvs_r).
Proof.
  intros Hl HR Hloop.
  apply strip_flag_loop_ok in Hloop
    as [(Hf & -> & ->)|(Hf & -> & kvs0 & v0 & Hl0 & Hv0 & ->)].
  { split; [apply evolve_refl|eauto]. }
  rewrite Hl in Hl0. injection Hl0 as <-. split.
  - eapply evolve_write; [apply evolve_refl|done..|].
    intros w [k Hw]. destruct (decide (key_ = k)) as [<-|Hne1].
    { by rewrite dict_get_del_eq in Hw. }
    rewrite dict_get_del_ne in Hw by done.
    destruct (decide (tail1 key_ = k)) as [<-|Hne2].
    + rewrite dict_get_set_eq in Hw. injection Hw as <-. by exists key_.
    + rewrite dict_get_set_ne in Hw by done. by exists k.
  - eexists. apply list_lookup_insert_eq. by eapply lookup_lt_Some.
Qed.

Lemma evolve_dict R h h' l kvs :
  evolve R h h' → h !! l = Some (ODict kvs) →
  ∃ kvs', h' !! l = Some (ODict kvs').
Proof.
  intros He Hl. destruct (ev_obj _ _ _ He _ _ Hl) as ([kvs'|] & Hl' & K & _);
    [eauto|done].
Qed.

Lemma evolve_list R h h' l xs :
  evolve R h h' → h !! l = Some (OList xs) →
  ∃ xs', h' !! l = Some (OList xs') ∧ length xs' = length xs.
Proof.
  intros He Hl. destruct (ev_obj _ _ _ He _ _ Hl) as ([|xs'] & Hl' & K & _);
    [done|eauto].
Qed.

Section strip_total.
Context (rk : loc → nat) (n : nat) (rec : value → M value).
Hypothesis rec_total : ∀ l h,
  graded h rk → rk l < n → ∃ h', rec (VRef l) h = Ok (VRef l, h').
Hypothesis rec_evolve : ∀ R v h r h',
  closed h R → in_set R v → rec v h = Ok (r, h') → r = v ∧ evolve R h h'.

Lemma strip_item_total xs i item h items :
  graded h rk → h !! xs = Some (OList items) → items !! i = Some item →
  rk xs ≤ n →
  ∃ h', (let* il := isinstance_list item in
         let* id := isinstance_dict item in
         if il || id then let* r := rec item in list_setitem xs i r
         else ret tt) h = Ok (tt, h').
Proof.
  intros Hg Hxs Hitem Hrk.
  rewrite (bind_eq _ _ _ (is_list h item) h) by done.
  rewrite (bind_eq _ _ _ (is_dict h item) h) by done.
  destruct (is_list h item || is_dict h item) eqn:Hc; [|by eexists].
  assert (∃ l', item = VRef l') as [l' ->].
  { apply orb_true_iff in Hc as [(l' & ? & -> & _)%is_list_true
                                |(l' & ? & -> & _)%is_dict_true]; eauto. }
  destruct (Hg xs l') as [Hr _]; [by eapply child_list|].
  destruct (rec_total l' h Hg) as [hb Hrec]; [lia|].
  rewrite (bind_eq _ _ _ _ _ Hrec).
  destruct (rec_evolve _ _ _ _ _ (closed_true h) (in_set_true _) Hrec)
    as [_ He].
  destruct (evolve_list _ _ _ _ _ He Hxs) as (items_b & Hb & Hlen).
  eexists. apply list_setitem_eq; [done|].
  rewrite Hlen. by eapply lookup_lt_Some.
Qed.

Lemma strip_items_total xs h items :
  graded h rk → h !! xs = Some (OList items) → rk xs ≤ n →
  ∃ h', strip_items rec xs h = Ok (tt, h').
Proof.
  intros Hg Hxs Hrk. unfold strip_items, enumerate.
  rewrite (bind_eq _ _ _ _ _ (read_list_eq _ _ _ Hxs)).
  edestruct (enumerate_from_total
    (λ _ hc, graded hc rk ∧ ∃ xs_c, hc !! xs = Some (OList xs_c)))
    as (h' & j & Hrun & _); [| |split; [exact Hg|eauto]|eauto].
  - intros i hc [_ ?]. done.
  - intros i item hc xs_c [Hgc _] Hxs_c Hitem.
    destruct (strip_item_total xs i item hc xs_c) as [hc' Hbody]; [done..|].
    exists hc'. split; [done|].
    pose proof (strip_item_ok _ _ _ _ _ _ _ Hbody) as Hr.
    eapply (strip_item_evolve (λ _, True)) in Hr; [|eauto..]; [|done].
    split; [by eapply graded_evolve|].
    destruct (evolve_list _ _ _ _ _ Hr Hxs_c) as (? & ? & _). eauto.
Qed.

Lemma strip_key_total l key_ h kvs :
  graded h rk → h !! l = Some (ODict kvs) → rk l ≤ n →
  ∃ h', strip_key rec l key_ h = Ok (tt, h').
Proof.
  intros Hg Hl Hrk. unfold strip_key.
  rewrite (bind_eq _ _ _ _ _ (dict_contains_eq _ key_ _ _ Hl)).
  destruct (dict_has key_ kvs) eqn:Hhas; simpl; [|by eexists].
  apply dict_has_true in Hhas as [entry Hentry].
  rewrite (bind_eq _ _ _ _ _ (dict_getitem_eq _ _ _ _ _ Hl Hentry)).
  destruct (strip_flag_loop_total _ _ _ _ _ Hl Hentry) as (key & hr & Hloop).
  rewrite (bind_eq _ _ _ _ _ Hloop).
  destruct (strip_flag_loop_evolve (λ _, True) _ _ _ _ _ _ Hl I Hloop)
    as (Her & kvs_r & Hr).
  assert (graded hr rk) as Hgr by by eapply graded_evolve.
  assert (∀ l', entry = VRef l' → rk l' < n) as Hrank.
  { intros l' ->. destruct (Hg l l') as [? _]; [by eapply child_dict|lia]. }
  rewrite (bind_eq _ _ _ (is_dict hr entry) hr) by done.
  destruct (is_dict hr entry) eqn:Hd.
  - apply is_dict_true in Hd as (le & ? & -> & _).
    destruct (rec_total le hr Hgr) as [hb Hrec]; [eauto|].
    rewrite (bind_eq _ _ _ _ _ Hrec).
    destruct (rec_evolve _ _ _ _ _ (closed_true hr) (in_set_true _) Hrec)
      as [_ He].
    destruct (evolve_dict _ _ _ _ _ He Hr) as (kvs_b & Hb).
    rewrite (bind_eq _ _ _ _ _ (dict_setitem_eq _ _ _ _ _ Hb)).
    eexists. apply dict_setitem_eq.
    apply list_lookup_insert_eq. by eapply lookup_lt_Some.
  - rewrite (bind_eq _ _ _ (is_list hr entry) hr) by done.
    destruct (is_list hr entry) eqn:Hli.
    + apply is_list_true in Hli as (le & items & -> & Hle).
      destruct (strip_items_total le hr items) as [hb Hitems]; [done..| |].
      { specialize (Hrank le eq_refl). lia. }
      rewrite (bind_eq _ _ _ _ _ Hitems).
      pose proof (strip_items_evolve (λ _, True) rec (rec_evolve _)
                    _ _ _ _ (closed_true hr) I Hitems) as He.
      destruct (evolve_dict _ _ _ _ _ He Hr) as (kvs_b & Hb).
      eexists. by apply dict_setitem_eq.
    + eexists. by apply dict_setitem_eq.
Qed.

Lemma strip_flags_body_total l h :
  graded h rk → rk l ≤ n →
  ∃ h', strip_flags_body rec (VRef l) h = Ok (VRef l, h').
Proof.
  intros Hg Hrk. unfold strip_flags_body.
  rewrite (bind_eq _ _ _ (is_list h (VRef l)) h) by done.
  rewrite (bind_eq _ _ _ (is_dict h (VRef l)) h) by done.
  destruct (is_list h (VRef l)) eqn:Hli.
  { apply is_list_true in Hli as (? & items & [= <-] & Hl).
    destruct (strip_items_total l h items) as [h' Hitems]; [done..|].
    rewrite (bind_eq _ _ _ _ _ Hitems). by eexists. }
  destruct (is_dict h (VRef l)) eqn:Hd; [|by eexists].
  apply is_dict_true in Hd as (? & kvs & [= <-] & Hl).
  rewrite (bind_eq _ _ _ _ _ (read_dict_eq _ _ _ Hl)).
  edestruct (for_each_total
    (λ _ hc, graded hc rk ∧ ∃ kvs_c, hc !! l = Some (ODict kvs_c))
    (strip_key rec l) (dict_keys kvs)) as (h' & Hrun & _);
    [|split; [exact Hg|eauto]|].
  - intros key_ rem hc [Hgc [kvs_c Hlc]].
    destruct (strip_key_total l key_ hc kvs_c) as [hc' Hkey]; [done..|].
    exists hc'. split; [done|].
    pose proof (strip_key_ok _ _ _ _ _ _ Hkey) as Hr.
    eapply (strip_key_evolve (λ _, True)) in Hr; [|eauto..]; [|done].
    split; [by eapply graded_evolve|by eapply evolve_dict].
  - rewrite (bind_eq _ _ _ _ _ Hrun). by eexists.
Qed.
End strip_total.

Lemma strip_flags_total fuel rk l h :
  graded h rk → rk l < fuel →
  ∃ h', strip_flags fuel (VRef l) h = Ok (VRef l, h').
Proof.
  revert l h. induction fuel as [|n IH]; intros l h Hg Hrk; [lia|].
  simpl. eapply strip_flags_body_total; eauto; [|lia].
  intros. by eapply strip_flags_evolve.
Qed.

(** ** Comparisons run to the end *)

Lemma py_eqb_total fuel h rk a b :
  graded h rk → 0 < fuel →
  (∀ l, a = VRef l → l < length h ∧ S (rk l) < fuel) →
  (∀ l, b = VRef l → l < length h ∧ S (rk l) < fuel) →
  ∃ r, py_eqb fuel h a b = Ok r.
Proof.
  intros Hg. revert a b. induction fuel as [|n IH]; intros a b Hn Ha Hb; [lia|].
  simpl. case_decide; [by eexists|].
  destruct a as [| | | | |la]; try by eexists.
  destruct b as [| | | | |lb]; try by eexists.
  destruct (Ha la eq_refl) as [Hla Hra]. destruct (Hb lb eq_refl) as [Hlb Hrb].
  apply lookup_lt_is_Some in Hla as [oa Hoa].
  apply lookup_lt_is_Some in Hlb as [ob Hob].
  rewrite Hoa, Hob.
  assert (∀ x, obj_child oa x → ∀ l, x = VRef l → l < length h ∧ S (rk l) < n)
    as Hca.
  { intros x Hx l ->. destruct (Hg la l) as [? ?]; [|split; [done|lia]].
    apply child_obj. eauto. }
  assert (∀ y, obj_child ob y → ∀ l, y = VRef l → l < length h ∧ S (rk l) < n)
    as Hcb.
  { intros y Hy l ->. destruct (Hg lb l) as [? ?]; [|split; [done|lia]].
    apply child_obj. eauto. }
  assert (0 < n) as Hn' by lia.
  destruct oa as [xs|xs], ob as [ys|ys]; try by eexists.
  - case_decide; [|by eexists]. clear Hoa.
    assert (∀ k x, dict_get k xs = Some x → obj_child (ODict xs) x) as Hget
      by (intros; by eexists).
    generalize (dict_keys xs). intros ks.
    induction ks as [|k ks IHks]; [by eexists|].
    simpl. destruct (dict_get k xs) as [x|] eqn:Hx; [|by eexists].
    destruct (dict_get k ys) as [y|] eqn:Hy; [|by eexists].
    destruct (IH y x) as [[] Hr]; [done| | |rewrite Hr; eauto..].
    + apply Hcb. by eexists.
    + apply Hca. by eexists.
  - case_decide as Hlen; [|by eexists]. clear Hoa Hob.
    assert (∀ i x, xs !! i = Some x → obj_child (OList xs) x) as Hgx
      by (intros; by eexists).
    assert (∀ i y, ys !! i = Some y → obj_child (OList ys) y) as Hgy
      by (intros; by eexists).
    clear Hlen. revert ys Hcb Hgy.
    induction xs as [|x xs IHxs]; intros ys Hcb Hgy; [by eexists|].
    destruct ys as [|y ys]; [by eexists|]. simpl.
    destruct (IH x y) as [[] Hr]; [done| | | |by rewrite Hr; eexists].
    + apply Hca. by exists 0.
    + apply Hcb. by exists 0.
    + rewrite Hr. apply IHxs.
      * intros x' [i Hx']. apply Hca. by exists (S i).
      * intros i x' Hx'. by exists i.
      * intros y' [i Hy']. apply Hcb. by exists (S i).
      * intros i y' Hy'. by exists i.
Qed.

Lemma py_in_total fuel h rk item xs :
  graded h rk → 0 < fuel →
  (∀ l, item = VRef l → l < length h ∧ S (rk l) < fuel) →
  (∀ x l, x ∈ xs → x = VRef l → l < length h ∧ S (rk l) < fuel) →
  ∃ r, py_in fuel h item xs = Ok r.
Proof.
  intros Hg Hn Hitem Hxs. induction xs as [|x xs IH]; simpl; [by eexists|].
  destruct (py_eqb_total fuel h rk x item) as [[] Hr]; [done|done| |done|..].
  - intros l. apply Hxs. left.
  - rewrite Hr. by eexists.
  - rewrite Hr. apply IH. intros x' l Hx'. apply Hxs. by right.
Qed.

(** ** [_merge_settings] on a levelled heap *)

Lemma is_key_in_flags_found kvs key fls flag :
  is_key_in_flags kvs key fls = (true, flag) →
  dict_has (flag +:+ key) kvs = true.
Proof.
  induction fls as [|f fls IH]; simpl; [done|].
  destruct (dict_has (f +:+ key) kvs) eqn:Hf; [|done]. by intros [= <-].
Qed.

Lemma is_key_in_eq t key h kvs :
  h !! t = Some (ODict kvs) →
  is_key_in t key h = Ok (is_key_in_flags kvs key ["+"; "!"; ""]%string, h).
Proof.
  intros Ht. unfold is_key_in.
  by rewrite (bind_eq _ _ _ _ _ (read_dict_eq _ _ _ Ht)).
Qed.

Lemma merge_post_write h rk t hc rkc x o :
  merge_post h rk t hc rkc → x < length hc →
  rkc x < rk t ∨ (x = length h ∧ ∃ kvs, o = ODict kvs) →
  (∀ l', obj_child o (VRef l') → rkc x = S (rkc l') ∧ l' < length hc) →
  merge_post h rk t (<[x := o]> hc) rkc.
Proof.
  intros (Hg & Hrk & Hm & Hlen & Hd & Hfr) Hx Hcase Ho.
  split_and!; [by apply graded_write|done|done|by rewrite length_insert| |].
  - destruct (decide (x = length h)) as [->|Hne].
    + destruct Hcase as [?|[_ [kvs ->]]]; [lia|].
      exists kvs. by apply list_lookup_insert_eq.
    + by rewrite list_lookup_insert_ne.
  - intros y Hy Hry. rewrite list_lookup_insert_ne; [by apply Hfr|].
    intros ->. destruct Hcase as [?|[? _]]; [|lia].
    rewrite Hrk in * by done. lia.
Qed.

Lemma merge_post_setitem h rk t hc rkc key v :
  merge_post h rk t hc rkc →
  (∀ l', v = VRef l' → rk t = S (rkc l') ∧ l' < length hc) →
  ∃ hc', dict_setitem (length h) key v hc = Ok (tt, hc')
         ∧ merge_post h rk t hc' rkc.
Proof.
  intros Hp Hv. pose proof Hp as (Hg & Hrk & Hm & Hlen & [kvs Hd] & Hfr).
  eexists. split; [by apply dict_setitem_eq|].
  apply merge_post_write; [done|lia|right; eauto|].
  intros l' [k Hk]. destruct (decide (key = k)) as [<-|Hne].
  - rewrite dict_get_set_eq in Hk. injection Hk as ->. rewrite Hm. eauto.
  - rewrite dict_get_set_ne in Hk by done. apply Hg. by eapply child_dict.
Qed.

Lemma merge_post_delitem h rk t hc rkc key kvs :
  merge_post h rk t hc rkc →
  hc !! length h = Some (ODict kvs) → dict_has key kvs = true →
  ∃ hc', dict_delitem (length h) key hc = Ok (tt, hc')
         ∧ merge_post h rk t hc' rkc.
Proof.
  intros Hp Hd Hk. pose proof Hp as (Hg & Hrk & Hm & Hlen & _ & Hfr).
  eexists. split; [by apply dict_delitem_eq|].
  apply merge_post_write; [done|lia|right; eauto|].
  intros l' [k Hget]. destruct (decide (key = k)) as [<-|Hne].
  - by rewrite dict_get_del_eq in Hget.
  - rewrite dict_get_del_ne in Hget by done. apply Hg. by eapply child_dict.
Qed.

Lemma merge_post_alloc h rk t tkvs :
  graded h rk → h !! t = Some (ODict tkvs) →
  merge_post h rk t (h ++ [ODict tkvs])
    (λ x, if decide (x = length h) then rk t else rk x).
Proof.
  intros Hg Ht. split_and!.
  - intros x l' (o & Hx & Hw)%child_obj. rewrite length_app. simpl.
    apply lookup_app_Some in Hx as [Hx|[Hge Hx]].
    + destruct (Hg x l') as [Hr Hl']; [apply child_obj; eauto|].
      apply lookup_lt_Some in Hx.
      rewrite !decide_False by lia. split; [done|lia].
    + apply list_lookup_singleton_Some in Hx as [Hx <-].
      assert (x = length h) as -> by lia.
      destruct (Hg t l') as [Hr Hl']; [apply child_obj; eauto|].
      rewrite decide_True, decide_False by lia. split; [done|lia].
  - intros x Hx. by rewrite decide_False by lia.
  - by rewrite decide_True.
  - rewrite length_app. simpl. lia.
  - exists tkvs. rewrite lookup_app_r by done.
    by rewrite Nat.sub_diag.
  - intros x Hx _. by apply lookup_app_l.
Qed.

Lemma merge_post_child h rk t hc rkc x l' :
  merge_post h rk t hc rkc → x < length h → rk x = rk t →
  child hc (VRef x) (VRef l') → rk t = S (rkc l') ∧ l' < length hc.
Proof.
  intros (Hg & Hrk & _) Hx Hr Hc. destruct (Hg _ _ Hc) as [Hr' ?].
  rewrite Hrk in Hr' by done. split; [lia|done].
Qed.

Lemma list_contains_total fuel h rk xs items item :
  graded h rk → 0 < fuel → h !! xs = Some (OList items) →
  S (rk xs) < S fuel →
  (∀ l, item = VRef l → l < length h ∧ S (rk l) < fuel) →
  ∃ b, list_contains fuel xs item h = Ok (b, h).
Proof.
  intros Hg Hn Hxs Hr Hitem. unfold list_contains.
  rewrite (bind_eq _ _ _ _ _ (read_list_eq _ _ _ Hxs)).
  destruct (py_in_total fuel h rk item items) as [b Hb]; [done..| |].
  - intros x l [i Hx]%list_elem_of_lookup_1 ->.
    destruct (Hg xs l) as [? ?]; [by eapply child_list|]. split; [done|lia].
  - rewrite Hb. by eexists.
Qed.

(** The loop [for item in entry_l: if item not in entry_t:
    entry_t.append(item)]. *)
Lemma append_loop_total fuel h rk t hc rkc et el xs_t xs_l :
  merge_post h rk t hc rkc → rk t ≤ fuel →
  hc !! et = Some (OList xs_t) → hc !! el = Some (OList xs_l) →
  rk t = S (rkc et) → rk t = S (rkc el) →
  ∃ hc', enumerate el (λ _ item,
           let* found := list_contains fuel et item in
           if found then ret tt else list_append et item) hc = Ok (tt, hc')
         ∧ merge_post h rk t hc' rkc
         ∧ ∃ xs, hc' !! et = Some (OList xs).
Proof.
  intros Hp Hfuel Het Hel Hrt Hrl. unfold enumerate.
  rewrite (bind_eq _ _ _ _ _ (read_list_eq _ _ _ Hel)).
  edestruct (enumerate_from_total
    (λ _ hcc, merge_post h rk t hcc rkc
              ∧ (∃ xs, hcc !! et = Some (OList xs))
              ∧ (∃ xs, hcc !! el = Some (OList xs))))
    as (hc' & j & Hrun & Hp' & Het' & _);
    [| |split_and!; [exact Hp|eauto..]|eauto].
  - intros i hcc (_ & _ & ?). done.
  - intros i item hcc xs (Hpc & [xs_tc Hetc] & _) Helc Hitem.
    pose proof Hpc as (Hg & _).
    assert (∀ l, item = VRef l → rkc el = S (rkc l) ∧ l < length hcc) as Hit.
    { intros l ->. apply Hg. by eapply child_list. }
    destruct (list_contains_total fuel hcc rkc et xs_tc item) as [b Hb];
      [done|lia|done|lia| |].
    { intros l Hl. destruct (Hit l Hl). split; [done|lia]. }
    rewrite (bind_eq _ _ _ _ _ Hb). destruct b.
    { exists hcc. split; [done|]. split_and!; eauto. }
    eexists. split; [by apply list_append_eq|].
    assert (et < length hcc) as Hlt by by eapply lookup_lt_Some.
    split_and!.
    + apply merge_post_write; [done|done|left; lia|].
      intros l' [k Hk]. apply lookup_app_Some in Hk as [Hk|[_ Hk]].
      * apply Hg. by eapply child_list.
      * apply list_lookup_singleton_Some in Hk as [_ ->].
        destruct (Hit l' eq_refl). split; [lia|done].
    + eexists. by apply list_lookup_insert_eq.
    + destruct (decide (el = et)) as [->|Hne].
      * eexists. by apply list_lookup_insert_eq.
      * exists xs. by rewrite list_lookup_insert_ne.
Qed.

Section merge_total.
Context (n : nat) (rec : loc → loc → M loc).
Hypothesis rec_spec : ∀ rk h t l tkvs lkvs,
  graded h rk → rk t = rk l → rk t + 2 ≤ n →
  h !! t = Some (ODict tkvs) → h !! l = Some (ODict lkvs) →
  ∃ h' rk', rec t l h = Ok (length h, h') ∧ merge_post h rk t h' rk'.

Lemma merge_key_total h rk t l tkvs lkvs key_ hc rkc :
  h !! t = Some (ODict tkvs) → h !! l = Some (ODict lkvs) →
  rk t = rk l → rk t + 1 ≤ n → key_ ∈ dict_keys lkvs →
  merge_post h rk t hc rkc →
  ∃ hc' rkc', merge_key n rec t l (length h) key_ hc = Ok (tt, hc')
              ∧ merge_post h rk t hc' rkc'.
Proof.
  intros Ht Hl Hrk Hfuel Hkey Hp.
  pose proof Hp as (Hg & Hagree & Hm & Hlen & [mkvs Hmd] & Hfr).
  assert (t < length h) as Htlt by by eapply lookup_lt_Some.
  assert (l < length h) as Hllt by by eapply lookup_lt_Some.
  assert (hc !! t = Some (ODict tkvs)) as Htc by (rewrite Hfr; [done|done|lia]).
  assert (hc !! l = Some (ODict lkvs)) as Hlc by (rewrite Hfr; [done|done|lia]).
  apply dict_keys_get in Hkey as [entry_l Hentry_l].
  assert (∀ l', entry_l = VRef l' → rk t = S (rkc l') ∧ l' < length hc) as Hel.
  { intros l' ->. eapply (merge_post_child _ _ _ _ _ l); [done..|lia|].
    by eapply child_dict. }
  unfold merge_key. cbv zeta.
  set (key := if startswith key_ "!" then tail1 key_ else key_).
  rewrite (bind_eq _ _ _ _ _ (dict_getitem_eq _ _ _ _ _ Hlc Hentry_l)).
  rewrite (bind_eq _ _ _ _ _ (is_key_in_eq _ key _ _ Htc)).
  destruct (is_key_in_flags tkvs key ["+"; "!"; ""]%string)
    as [key_exists flag] eqn:Hfound.
  destruct key_exists.
  2:{ destruct (merge_post_setitem _ _ _ _ _ key entry_l Hp Hel) as (hc' & ? & ?).
      by exists hc', rkc. }
  apply is_key_in_flags_found, dict_has_true in Hfound as [entry_t Hentry_t].
  assert (∀ l', entry_t = VRef l' → rk t = S (rkc l') ∧ l' < length hc) as Het.
  { intros l' ->. eapply (merge_post_child _ _ _ _ _ t); [done..|].
    by eapply child_dict. }
  match goal with
  | |- ∃ _ _, bind ?m _ _ = _ ∧ _ =>
      assert (∃ h1 rk1, m hc = Ok (tt, h1) ∧ merge_post h rk t h1 rk1)
        as (h1 & rk1 & Hinner & Hp1)
  end.
  { destruct (startswith key_ "!").
    { destruct (merge_post_setitem _ _ _ _ _ key entry_l Hp Hel)
        as (hc' & ? & ?). by exists hc', rkc. }
    rewrite (bind_eq _ _ _ _ _ (dict_getitem_eq _ _ _ _ _ Htc Hentry_t)).
    rewrite (bind_eq _ _ _ (is_dict hc entry_t) hc) by done.
    rewrite (bind_eq _ _ _ (is_dict hc entry_l) hc) by done.
    rewrite (bind_eq _ _ _ (is_list hc entry_t) hc) by done.
    rewrite (bind_eq _ _ _ (is_list hc entry_l) hc) by done.
    assert (∃ hc', dict_setitem (length h) key entry_l hc = Ok (tt, hc')
                   ∧ merge_post h rk t hc' rkc) as (hc0 & Hset0 & Hp0)
      by by apply merge_post_setitem.
    destruct entry_t as [| | | | |et]; try by exists hc0, rkc.
    destruct entry_l as [| | | | |el]; try by exists hc0, rkc.
    destruct (Het et eq_refl) as [Hret Hetlt].
    destruct (Hel el eq_refl) as [Hrel Hellt].
    destruct (is_dict hc (VRef et) && is_dict hc (VRef el)) eqn:Hdd.
    { apply andb_true_iff in Hdd
        as [(? & tk & [= <-] & Htk)%is_dict_true
            (? & lk & [= <-] & Hlk)%is_dict_true].
      destruct (rec_spec rkc hc et el tk lk) as (h1 & rk1 & Hrec & Hp1);
        [done|lia|lia|done|done|].
      rewrite (bind_eq _ _ _ _ _ Hrec).
      destruct Hp1 as (Hg1 & Hagree1 & Hm1 & Hlen1 & _ & Hfr1).
      assert (h1 !! length h = Some (ODict mkvs)) as Hmd1.
      { rewrite Hfr1; [done|lia|]. rewrite Hm. lia. }
      exists (<[length h := ODict (dict_set key (VRef (length hc)) mkvs)]> h1),
             rk1.
      split; [by apply dict_setitem_eq|].
      assert (merge_post h rk t h1 rk1) as Hp1.
      { split_and!; [done| |by rewrite Hagree1, Hm by lia|lia|eauto|].
        - intros x Hx. rewrite Hagree1 by lia. by apply Hagree.
        - intros x Hx Hr. rewrite Hfr1; [by apply Hfr|lia|].
          rewrite (Hagree x) by done. lia. }
      apply merge_post_write; [done|lia|right; eauto|].
      intros l' [k Hk]. destruct (decide (key = k)) as [<-|Hne].
      - rewrite dict_get_set_eq in Hk. injection Hk as <-.
        rewrite Hagree1, Hm, Hm1 by lia. split; [lia|done].
      - rewrite dict_get_set_ne in Hk by done.
        apply Hg1. by eapply child_dict. }
    destruct (is_list hc (VRef et) && is_list hc (VRef el)) eqn:Hll;
      [|by exists hc0, rkc].
    destruct (negb false && (flag =? "+")%string); [|by exists hc0, rkc].
    apply andb_true_iff in Hll
      as [(? & xs_t & [= <-] & Hxt)%is_list_true
          (? & xs_l & [= <-] & Hxl)%is_list_true].
    destruct (append_loop_total n h rk t hc rkc et el xs_t xs_l)
      as (h1 & Hloop & Hp1 & [xs_t1 Hxt1]); [done|lia|done..|].
    rewrite (bind_eq _ _ _ _ _ Hloop).
    destruct (merge_post_setitem _ _ _ _ _ key (VRef et) Hp1) as (h2 & ? & ?).
    { intros l' [= <-]. split; [done|]. by eapply lookup_lt_Some. }
    by exists h2, rkc. }
  rewrite (bind_eq _ _ _ _ _ Hinner).
  destruct Hp1 as (Hg1 & Hagree1 & Hm1 & Hlen1 & [mkvs1 Hmd1] & Hfr1).
  rewrite (bind_eq _ _ _ _ _ (dict_contains_eq _ (flag +:+ key) _ _ Hmd1)).
  destruct (negb (flag =? "")%string && dict_has (flag +:+ key) mkvs1) eqn:Hdel.
  - apply andb_true_iff in Hdel as [_ Hstill].
    destruct (merge_post_delitem h rk t h1 rk1 (flag +:+ key) mkvs1)
      as (h2 & ? & ?); [by split_and!; eauto|done..|].
    by exists h2, rk1.
  - exists h1, rk1. split; [done|]. by split_and!; eauto.
Qed.

Lemma merge_settings_body_total h rk t l tkvs lkvs :
  graded h rk → rk t = rk l → rk t + 1 ≤ n →
  h !! t = Some (ODict tkvs) → h !! l = Some (ODict lkvs) →
  ∃ h' rk', merge_settings_body n rec t l h = Ok (length h, h')
            ∧ merge_post h rk t h' rk'.
Proof.
  intros Hg Hrk Hfuel Ht Hl. unfold merge_settings_body.
  rewrite (bind_eq _ _ _ _ _ (read_dict_eq _ _ _ Ht)).
  rewrite (bind_eq _ _ _ (length h) (h ++ [ODict tkvs])) by done.
  assert (l < length h) as Hllt by by eapply lookup_lt_Some.
  rewrite (bind_eq _ _ _ lkvs (h ++ [ODict tkvs]))
    by (apply read_dict_eq; by rewrite lookup_app_l).
  edestruct (for_each_total
    (λ rem hc, (∃ rkc, merge_post h rk t hc rkc)
               ∧ ∀ k, k ∈ rem → k ∈ dict_keys lkvs)
    (merge_key n rec t l (length h)) (dict_keys lkvs))
    as (h1 & Hloop & [rk1 Hp1] & _).
  { intros key_ rem hc [[rkc Hp] Hrem].
    destruct (merge_key_total h rk t l tkvs lkvs key_ hc rkc)
      as (hc' & rkc' & Hkey & Hp'); [done..|apply Hrem; left|done|].
    exists hc'. split; [done|]. split; [eauto|].
    intros k Hk. apply Hrem. by right. }
  { split; [|done]. eexists. by apply merge_post_alloc. }
  rewrite (bind_eq _ _ _ _ _ Hloop).
  destruct Hp1 as (Hg1 & Hagree1 & Hm1 & Hlen1 & [mkvs1 Hmd1] & Hfr1).
  destruct (strip_flags_total n rk1 (length h) h1) as [h2 Hstrip];
    [done|lia|].
  rewrite (bind_eq _ _ _ _ _ Hstrip). simpl.
  exists h2, rk1. split; [done|].
  eapply (strip_flags_evolve n (λ x, rk1 x < rk t ∨ x = length h))
    in Hstrip as [_ He].
  - split_and!; [by eapply graded_evolve|done|done
                |by rewrite (ev_len _ _ _ He)|by eapply evolve_dict|].
    intros x Hx Hr. rewrite (ev_frame _ _ _ He); [by apply Hfr1|].
    intros [?| ->]; [|lia]. rewrite Hagree1 in * by done. lia.
  - intros x l' Hx [Hr _]%Hg1. left. destruct Hx as [?| ->]; lia.
  - intros ? [= <-]. by right.
Qed.
End merge_total.

Lemma merge_settings_total fuel rk h t l tkvs lkvs :
  graded h rk → rk t = rk l → rk t + 2 ≤ fuel →
  h !! t = Some (ODict tkvs) → h !! l = Some (ODict lkvs) →
  ∃ h' rk', merge_settings fuel t l h = Ok (length h, h')
            ∧ merge_post h rk t h' rk'.
Proof.
  revert rk h t l tkvs lkvs.
  induction fuel as [|n IH]; intros rk h t l tkvs lkvs Hg Hrk Hfuel Ht Hl; [lia|].
  simpl. eapply merge_settings_body_total; eauto. lia.
Qed.

(** ** [_replace_variables] writes inside a closed region *)

Lemma frame_inv_write R settings h l o :
  frame_inv R settings h → R l →
  (∀ w, obj_child o w → in_set R w) →
  frame_inv R settings (<[l := o]> h).
Proof.
  intros [Hc Hs] Hl Ho.
  assert (∀ x w, child (<[l := o]> h) (VRef x) w →
            (x = l ∧ obj_child o w) ∨ child h (VRef x) w) as Hch.
  { intros x w (ox & Hx & Hw)%child_obj.
    destruct (decide (x = l)) as [->|Hne].
    - left. split; [done|].
      assert (l < length h) as Hlt.
      { apply lookup_lt_Some in Hx. by rewrite length_insert in Hx. }
      rewrite list_lookup_insert_eq in Hx by done. by injection Hx as <-.
    - right. rewrite list_lookup_insert_ne in Hx by done.
      apply child_obj. eauto. }
  split.
  - intros x l' Hx [[-> Hw]|Hw]%Hch; [by apply (Ho _ Hw)|by eapply Hc].
  - intros w Hw. destruct settings as [| | | | |s]; try by inversion Hw.
    apply Hch in Hw as [[-> Hw]|Hw]; [by apply Ho|by apply Hs].
Qed.

Lemma in_set_scalar R v : (∀ l, v ≠ VRef l) → in_set R v.
Proof. intros Hv l ->. by destruct (Hv l). Qed.

Lemma py_contains_ok s first_bit h b h' :
  py_contains s first_bit h = Ok (b, h') → h' = h.
Proof.
  unfold py_contains. destruct s as [| | | |str|l]; try done.
  - by intros [_ ->]%ret_ok.
  - intros (o & h1 & [-> _]%read_ok & H)%bind_ok.
    destruct o; by apply ret_ok in H as [_ ->].
Qed.

Lemma py_getitem_ok s first_bit h v h' :
  py_getitem s first_bit h = Ok (v, h') → h' = h ∧ child h s v.
Proof.
  unfold py_getitem. destruct s as [| | | | |l]; try done.
  intros [-> (kvs & Hl & Hv)]%dict_getitem_ok. split; [done|].
  by eapply child_dict.
Qed.

Lemma lookup_path_frame R s path h v h' :
  closed h R → (∀ w, child h s w → in_set R w) →
  lookup_path s path h = Ok (v, h') → h' = h ∧ in_set R v.
Proof.
  intros Hc. revert s. induction path as [|first_bit rest IH]; intros s Hs H;
    simpl in H.
  { apply ret_ok in H as [-> ->]. split; [done|by apply in_set_scalar]. }
  apply bind_ok in H as (present & h1 & ->%py_contains_ok & H).
  destruct present.
  2:{ apply ret_ok in H as [-> ->]. split; [done|by apply in_set_scalar]. }
  destruct rest as [|seg rest].
  - apply py_getitem_ok in H as [-> Hch]. split; [done|by apply Hs].
  - apply bind_ok in H as (s' & h1 & [-> Hch]%py_getitem_ok & H).
    apply IH in H; [done|]. intros w Hw l ->.
    destruct s' as [| | | | |l']; try by inversion Hw.
    eapply Hc; [|done]. by apply (Hs _ Hch).
Qed.

Lemma frame_post_refl R settings h v :
  frame_inv R settings h → in_set R v → frame_post R settings h v h.
Proof. by intros. Qed.

Lemma frame_post_trans R settings h1 h2 h3 v w :
  frame_post R settings h1 v h2 → frame_post R settings h2 w h3 →
  frame_post R settings h1 w h3.
Proof.
  intros (_ & _ & L12 & F12) (Hw & Hi & L23 & F23).
  split_and!; [done|done|congruence|]. intros x Hx. by rewrite F23, F12.
Qed.

Lemma frame_post_setitem R settings h l key r u h' :
  frame_inv R settings h → R l → in_set R r →
  dict_setitem l key r h = Ok (u, h') →
  frame_post R settings h (VRef l) h'.
Proof.
  intros Hi Hl Hr (kvs & Hk & ->)%dict_setitem_ok.
  split_and!; [by intros ? [= <-]| |by rewrite length_insert|].
  - apply frame_inv_write; [done..|]. intros w [k Hw].
    destruct (decide (key = k)) as [<-|Hne].
    + rewrite dict_get_set_eq in Hw. by injection Hw as <-.
    + rewrite dict_get_set_ne in Hw by done. intros l' ->.
      eapply (proj1 Hi); [done|]. by eapply child_dict.
  - intros x Hx. by rewrite list_lookup_insert_ne by (intros ->; done).
Qed.

Lemma frame_post_list_setitem R settings h l i r u h' :
  frame_inv R settings h → R l → in_set R r →
  list_setitem l i r h = Ok (u, h') →
  frame_post R settings h (VRef l) h'.
Proof.
  intros Hi Hl Hr (xs & Hk & Hlt & ->)%list_setitem_ok.
  split_and!; [by intros ? [= <-]| |by rewrite length_insert|].
  - apply frame_inv_write; [done..|]. intros w [j Hw].
    destruct (decide (i = j)) as [<-|Hne].
    + rewrite list_lookup_insert_eq in Hw by done. by injection Hw as <-.
    + rewrite list_lookup_insert_ne in Hw by done. intros l' ->.
      eapply (proj1 Hi); [done|]. by eapply child_list.
  - intros x Hx. by rewrite list_lookup_insert_ne by (intros ->; done).
Qed.

Lemma dict_set_elem k v d k' v' :
  (k', v') ∈ dict_set k v d → (k', v') = (k, v) ∨ (k', v') ∈ d.
Proof.
  induction d as [|[k0 v0] d IH]; simpl.
  - intros ->%list_elem_of_singleton. by left.
  - destruct (String.eqb k k0).
    + intros [->|?]%elem_of_cons; [by left|right; by right].
    + intros [->|[?|?]%IH]%elem_of_cons; [right; left|by left|right; by right].
Qed.

Section resolve_frame.
Context (R : loc → Prop) (settings : value) (rec : value → M (value * nat)).
Hypothesis rec_frame : ∀ node h v c h',
  frame_inv R settings h → in_set R node →
  rec node h = Ok ((v, c), h') → frame_post R settings h v h'.

Lemma dict_fold_frame l keys reps c h reps' c' h' :
  frame_inv R settings h → R l →
  (∀ k r, (k, r) ∈ reps → in_set R r) →
  fold_each keys
    (λ key '(reps, changes),
       let* entry := dict_getitem l key in
       let* (replacement, _changes) := rec entry in
       if decide (0 < _changes)
       then ret (dict_set key replacement reps, changes + _changes)
       else ret (reps, changes))
    (reps, c) h = Ok ((reps', c'), h') →
  frame_post R settings h (VRef l) h'
  ∧ ∀ k r, (k, r) ∈ reps' → in_set R r.
Proof.
  intros Hi Hl. revert reps c h Hi.
  induction keys as [|key keys IH]; intros reps c h Hi Hreps H; simpl in H.
  { apply ret_ok in H as [[= <- <-] ->]. split; [|done].
    apply frame_post_refl; [done|]. by intros ? [= <-]. }
  apply bind_ok in H as ([reps1 c1] & h1 & Hstep & H).
  apply bind_ok in Hstep as (entry & h2 & [-> (kvs & Hk & Hget)]%dict_getitem_ok
                             & Hstep).
  apply bind_ok in Hstep as ([replacement _changes] & h3 & Hrec & Hstep).
  assert (in_set R entry) as Hentry.
  { intros l' ->. eapply (proj1 Hi); [done|]. by eapply child_dict. }
  pose proof (rec_frame _ _ _ _ _ Hi Hentry Hrec) as Hpost.
  assert (h1 = h3 ∧ ∀ k r, (k, r) ∈ reps1 → in_set R r) as [-> Hreps1].
  { case_decide; apply ret_ok in Hstep as [[= -> ->] ->]; (split; [done|]);
      [|done].
    intros k r [[= -> ->]|?]%dict_set_elem; [apply (proj1 Hpost)|eauto]. }
  apply IH in H as [Hpost' Hreps']; [|apply (proj1 (proj2 Hpost))|done].
  split; [by eapply frame_post_trans|done].
Qed.

Lemma list_fold_frame l n i (reps : list (nat * value)) c h reps' c' h' :
  frame_inv R settings h → R l →
  (∀ k r, (k, r) ∈ reps → in_set R r) →
  enumerate_fold l i n
    (λ i entry '(reps, changes),
       let* (replacement, _changes) := rec entry in
       if decide (0 < _changes)
       then ret (reps ++ [(i, replacement)], changes + _changes)
       else ret (reps, changes))
    (reps, c) h = Ok ((reps', c'), h') →
  frame_post R settings h (VRef l) h'
  ∧ ∀ k r, (k, r) ∈ reps' → in_set R r.
Proof.
  intros Hi Hl. revert i reps c h Hi.
  induction n as [|n IH]; intros i reps c h Hi Hreps H; simpl in H.
  { apply ret_ok in H as [[= <- <-] ->]. split; [|done].
    apply frame_post_refl; [done|]. by intros ? [= <-]. }
  apply bind_ok in H as (items & h1 & [-> Hk]%read_list_ok & H).
  destruct (items !! i) as [entry|] eqn:Hentry_i.
  2:{ apply ret_ok in H as [[= <- <-] ->]. split; [|done].
      apply frame_post_refl; [done|]. by intros ? [= <-]. }
  apply bind_ok in H as ([reps1 c1] & h1 & Hstep & H).
  apply bind_ok in Hstep as ([replacement _changes] & h3 & Hrec & Hstep).
  assert (in_set R entry) as Hentry.
  { intros l' ->. eapply (proj1 Hi); [done|]. by eapply child_list. }
  pose proof (rec_frame _ _ _ _ _ Hi Hentry Hrec) as Hpost.
  assert (h1 = h3 ∧ ∀ k r, (k, r) ∈ reps1 → in_set R r) as [-> Hreps1].
  { case_decide; apply ret_ok in Hstep as [[= -> ->] ->]; (split; [done|]);
      [|done].
    intros k r [?|[= -> ->]%list_elem_of_singleton]%elem_of_app;
      [eauto|apply (proj1 Hpost)]. }
  apply IH in H as [Hpost' Hreps']; [|apply (proj1 (proj2 Hpost))|done].
  split; [by eapply frame_post_trans|done].
Qed.

Lemma write_back_dict_frame l (reps : list (string * value)) h u h' :
  frame_inv R settings h → R l → (∀ k r, (k, r) ∈ reps → in_set R r) →
  for_each reps (λ '(key, r), dict_setitem l key r) h = Ok (u, h') →
  frame_post R settings h (VRef l) h'.
Proof.
  intros Hi Hl Hreps H.
  eapply (for_each_inv (λ rem hc,
            frame_post R settings h (VRef l) hc
            ∧ ∀ k r, (k, r) ∈ rem → in_set R r)) in H as [? _]; [done| |].
  - intros [key r] rem hc u1 hc' [Hp Hrem] Hset. split.
    + eapply frame_post_trans; [exact Hp|].
      eapply frame_post_setitem; [apply Hp|done| |done].
      apply (Hrem key). left.
    + intros k' r' ?. apply (Hrem k'). by right.
  - split; [|done]. apply frame_post_refl; [done|]. by intros ? [= <-].
Qed.

Lemma write_back_list_frame l (reps : list (nat * value)) h u h' :
  frame_inv R settings h → R l → (∀ k r, (k, r) ∈ reps → in_set R r) →
  for_each reps (λ '(i, r), list_setitem l i r) h = Ok (u, h') →
  frame_post R settings h (VRef l) h'.
Proof.
  intros Hi Hl Hreps H.
  eapply (for_each_inv (λ rem hc,
            frame_post R settings h (VRef l) hc
            ∧ ∀ k r, (k, r) ∈ rem → in_set R r)) in H as [? _]; [done| |].
  - intros [i r] rem hc u1 hc' [Hp Hrem] Hset. split.
    + eapply frame_post_trans; [exact Hp|].
      eapply frame_post_list_setitem; [apply Hp|done| |done].
      apply (Hrem i). left.
    + intros k' r' ?. apply (Hrem k'). by right.
  - split; [|done]. apply frame_post_refl; [done|]. by intros ? [= <-].
Qed.

Lemma do_replace_body_frame node h v c h' :
  frame_inv R settings h → in_set R node →
  do_replace_body rec settings node h = Ok ((v, c), h') →
  frame_post R settings h v h'.
Proof.
  intros Hi Hnode H. unfold do_replace_body in H.
  destruct node as [| | | |s|l].
  1-4: apply ret_ok in H as [[= -> _] ->]; by apply frame_post_refl.
  - destruct (startswith s var_token).
    + apply bind_ok in H as (var_value & h1 & Hlook & H).
      unfold lookup_variable_in_settings in Hlook.
      eapply lookup_path_frame in Hlook as [-> Hv];
        [|apply (proj1 Hi)|apply (proj2 Hi)].
      destruct var_value; try done; apply ret_ok in H as [[= -> _] ->];
        by apply frame_post_refl.
    + apply ret_ok in H as [[= -> _] ->]. by apply frame_post_refl.
  - specialize (Hnode l eq_refl).
    apply bind_ok in H as (o & h1 & [-> Hl]%read_ok & H).
    destruct o as [kvs|items].
    + apply bind_ok in H as ([reps changes] & h1 & Hfold & H).
      apply bind_ok in H as (u & h2 & Hwr & H).
      apply ret_ok in H as [[= -> _] ->].
      eapply dict_fold_frame in Hfold as [Hpost Hreps];
        [|done|done|by intros ?? ?%elem_of_nil].
      eapply frame_post_trans; [exact Hpost|].
      case_decide.
      * eapply write_back_dict_frame; [apply Hpost|done..].
      * apply ret_ok in Hwr as [_ ->].
        apply frame_post_refl; [apply Hpost|]. by intros ? [= <-].
    + apply bind_ok in H as ([reps changes] & h1 & Hfold & H).
      apply bind_ok in H as (u & h2 & Hwr & H).
      apply ret_ok in H as [[= -> _] ->].
      eapply list_fold_frame in Hfold as [Hpost Hreps];
        [|done|done|by intros ?? ?%elem_of_nil].
      eapply frame_post_trans; [exact Hpost|].
      case_decide.
      * eapply write_back_list_frame; [apply Hpost|done..].
      * apply ret_ok in Hwr as [_ ->].
        apply frame_post_refl; [apply Hpost|]. by intros ? [= <-].
Qed.
End resolve_frame.

Lemma do_replace_variables_frame fuel R settings node h v c h' :
  frame_inv R settings h → in_set R node →
  do_replace_variables fuel settings node h = Ok ((v, c), h') →
  frame_post R settings h v h'.
Proof.
  revert node h v c h'.
  induction fuel as [|n IH]; intros node h v c h' Hi Hnode H; [done|].
  simpl in H. eapply do_replace_body_frame; eauto.
Qed.

Lemma replace_loop_frame fuel R settings failsafe result changes h log r h' :
  frame_inv R settings h → in_set R result →
  replace_loop fuel settings failsafe result changes h = (log, Ok (r, h')) →
  frame_post R settings h r h'.
Proof.
  revert result changes h log.
  induction failsafe as [|fs IH]; intros result changes h log Hi Hres H;
    simpl in H.
  { injection H as _ <- <-. by apply frame_post_refl. }
  case_decide.
  2:{ injection H as _ <- <-. by apply frame_post_refl. }
  destruct (do_replace_variables fuel settings result h)
    as [[[result' changes'] h1]|e] eqn:Hpass; [|done].
  destruct (replace_loop fuel settings fs result' changes' h1)
    as [log1 out] eqn:Hloop.
  injection H as _ ->.
  apply do_replace_variables_frame with (R := R) in Hpass; [|done..].
  eapply frame_post_trans; [exact Hpass|].
  destruct Hpass as (Hres' & Hi' & _). by eapply IH.
Qed.

Lemma do_replace_variables_ref fuel settings l h v c h' :
  do_replace_variables fuel settings (VRef l) h = Ok ((v, c), h') →
  v = VRef l.
Proof.
  destruct fuel as [|n]; [done|]. simpl. unfold do_replace_body.
  intros (o & h1 & _ & H)%bind_ok. destruct o.
  - apply bind_ok in H as ([reps changes] & h2 & _ & H).
    apply bind_ok in H as (u & h3 & _ & H).
    by apply ret_ok in H as [[= -> _] _].
  - apply bind_ok in H as ([reps changes] & h2 & _ & H).
    apply bind_ok in H as (u & h3 & _ & H).
    by apply ret_ok in H as [[= -> _] _].
Qed.

Lemma replace_loop_ref fuel settings failsafe l changes h log r h' :
  replace_loop fuel settings failsafe (VRef l) changes h = (log, Ok (r, h')) →
  r = VRef l.
Proof.
  revert changes h log.
  induction failsafe as [|fs IH]; intros changes h log H; simpl in H.
  { by injection H as _ <- _. }
  case_decide; [|by injection H as _ <- _].
  destruct (do_replace_variables fuel settings (VRef l) h)
    as [[[result' changes'] h1]|e] eqn:Hpass; [|done].
  apply do_replace_variables_ref in Hpass as ->.
  destruct (replace_loop fuel settings fs (VRef l) changes' h1)
    as [log1 out] eqn:Hloop.
  injection H as _ ->. eauto.
Qed.

(** Resolve works on a new top-level dict and leaves the dict it was
    given as it was, in a heap where that dict is not below itself. *)
Lemma replace_variables_frame fuel h rk s log r h' :
  graded h rk →
  replace_variables_log fuel s h = (log, Ok (r, h')) →
  r = VRef (length h) ∧ h' !! s = h !! s.
Proof.
  intros Hg H. unfold replace_variables_log in H.
  destruct (bind _ _ h) as [[result h0]|e] eqn:Hcopy; [|by simplify_eq].
  apply bind_ok in Hcopy as (kvs & h1 & [-> Hs]%read_dict_ok & Halloc).
  injection Halloc as <- <-.
  assert (s < length h) as Hlt by by eapply lookup_lt_Some.
  split; [by eapply replace_loop_ref|].
  eapply (replace_loop_frame _ (λ x, rk x < rk s ∨ x = length h) (VRef s))
    in H as (_ & _ & _ & Hfr).
  - rewrite Hfr by (intros [?| ->]; lia). by apply lookup_app_l.
  - assert (∀ w, child h (VRef s) w → in_set (λ x, rk x < rk s ∨ x = length h) w)
      as Hbelow.
    { intros w Hw l' ->. left. destruct (Hg _ _ Hw). lia. }
    split.
    + intros x l' Hx (o & Ho & Hw)%child_obj.
      apply lookup_app_Some in Ho as [Ho|[Hge Ho]].
      * destruct (Hg x l') as [Hr _]; [apply child_obj; eauto|].
        destruct Hx as [?| ->]; [left; lia|].
        apply lookup_lt_Some in Ho. lia.
      * apply list_lookup_singleton_Some in Ho as [_ <-].
        apply (Hbelow (VRef l')); [|done]. apply child_obj. eauto.
    + intros w (o & Ho & Hw)%child_obj. rewrite lookup_app_l in Ho by done.
      apply Hbelow, child_obj. eauto.
  - intros ? [= <-]. by right.
Qed.

(** ** Loaded documents are levelled *)

Lemma dict_get_values k kvs w : dict_get k kvs = Some w → w ∈ kvs.*2.
Proof.
  induction kvs as [|[k' v'] kvs IH]; simpl; [done|].
  destruct (String.eqb k k'); [intros [= ->]; left|right; eauto].
Qed.

Lemma obj_child_values o w : obj_child o w → w ∈ obj_values o.
Proof.
  destruct o as [kvs|xs]; intros [x Hx]; simpl.
  - by eapply dict_get_values.
  - by eapply list_elem_of_lookup_2.
Qed.

Lemma gradedb_sound h rk : gradedb h rk = true → graded h rk.
Proof.
  unfold gradedb. rewrite forallb_forall. intros H x l' (o & Hx & Hw)%child_obj.
  specialize (H (x, o)). rewrite forallb_forall in H.
  apply obj_child_values, list_elem_of_In, H in Hw.
  - apply andb_true_iff in Hw as [?%Nat.eqb_eq ?%Nat.ltb_lt]. done.
  - apply list_elem_of_In, list_elem_of_lookup. exists x.
    rewrite list_lookup_imap, Hx. done.
Qed.

(** What allocating a document adds to a levelled heap. *)
Lemma graded_alloc h rk r o :
  graded h rk →
  (∀ l', VRef l' ∈ obj_values o → r = S (rk l') ∧ l' < length h) →
  alloc_post h rk r (VRef (length h)) (h ++ [o])
    (λ x, if decide (x = length h) then r else rk x).
Proof.
  intros Hg Ho. split_and!.
  - intros x l' (ox & Hx & Hw)%child_obj. rewrite length_app. simpl.
    apply lookup_app_Some in Hx as [Hx|[Hge Hx]].
    + destruct (Hg x l') as [Hr Hl']; [apply child_obj; eauto|].
      apply lookup_lt_Some in Hx.
      rewrite !decide_False by lia. split; [done|lia].
    + apply list_lookup_singleton_Some in Hx as [Hx <-].
      assert (x = length h) as -> by lia.
      destruct (Ho l') as [Hr Hl']; [by apply obj_child_values|].
      rewrite decide_True, decide_False by lia. split; [done|lia].
  - intros x Hx. by rewrite decide_False by lia.
  - rewrite length_app. lia.
  - intros x ox Hx. by apply lookup_app_l_Some.
  - intros l [= <-]. rewrite decide_True by done. rewrite length_app. simpl.
    split; [done|lia].
Qed.

Lemma alloc_post_trans h rk r v h1 rk1 r' v' h2 rk2 :
  alloc_post h rk r v h1 rk1 → alloc_post h1 rk1 r' v' h2 rk2 →
  (∀ l, v = VRef l → rk2 l = r ∧ l < length h2)
  ∧ (∀ x, x < length h → rk2 x = rk x)
  ∧ length h ≤ length h2
  ∧ (∀ x o, h !! x = Some o → h2 !! x = Some o).
Proof.
  intros (G1 & A1 & L1 & P1 & V1) (G2 & A2 & L2 & P2 & V2). split_and!.
  - intros l Hl. destruct (V1 l Hl) as [? ?]. rewrite A2 by done.
    split; [done|lia].
  - intros x Hx. rewrite A2 by lia. by apply A1.
  - lia.
  - eauto.
Qed.

Lemma list_max_le_elem (ns : list nat) n m : n ∈ ns → list_max ns ≤ m → n ≤ m.
Proof.
  intros Hn Hm. apply list_max_le in Hm.
  rewrite List.Forall_forall in Hm. by apply Hm, list_elem_of_In.
Qed.

Lemma alloc_tree_graded r t h rk :
  height t ≤ r → graded h rk →
  ∃ v h' rk', alloc_tree t h = Ok (v, h') ∧ alloc_post h rk r v h' rk'.
Proof.
  assert (∀ (v : value) h rk r, (∀ l, v ≠ VRef l) → graded h rk →
            alloc_post h rk r v h rk) as Hscalar.
  { intros v h0 rk0 r0 Hv Hg0. split_and!; [done..|].
    intros l ->. by destruct (Hv l). }
  revert t h rk. induction r as [|r IH]; intros t h rk Ht Hg.
  { destruct t; simpl in Ht; try lia; eexists _, h, rk;
      (split; [done|]); by apply Hscalar. }
  destruct t as [| | | | |ts|kts];
    try (eexists _, h, rk; (split; [done|]); by apply Hscalar).
  - simpl in Ht. apply le_S_n in Ht. simpl.
    match goal with
    | |- ∃ _ _ _, bind (?g ts) _ _ = _ ∧ _ =>
        assert (∀ ts h rk,
          (∀ t, t ∈ ts → height t ≤ r) → graded h rk →
          ∃ vs h1 rk1, g ts h = Ok (vs, h1)
            ∧ graded h1 rk1
            ∧ (∀ x, x < length h → rk1 x = rk x)
            ∧ length h ≤ length h1
            ∧ (∀ x o, h !! x = Some o → h1 !! x = Some o)
            ∧ (∀ l, VRef l ∈ vs → rk1 l = r ∧ l < length h1)) as Hgo
    end.
    { clear ts Ht h rk Hg. intros ts.
      induction ts as [|t ts IHts]; intros h rk Hts Hg.
      { exists [], h, rk. split_and!; [done..|]. by intros l ?%elem_of_nil. }
      destruct (IH t h rk) as (v & h1 & rk1 & Hv & Hp1);
        [apply Hts; left|done|].
      destruct (IHts h1 rk1) as (vs & h2 & rk2 & Hvs & G2 & A2 & L2 & P2 & V2).
      { intros t' Ht'. apply Hts. by right. }
      { apply Hp1. }
      exists (v :: vs), h2, rk2. rewrite (bind_eq _ _ _ _ _ Hv).
      rewrite (bind_eq _ _ _ _ _ Hvs).
      destruct Hp1 as (G1 & A1 & L1 & P1 & V1).
      split_and!; [done|done| |lia|eauto|].
      - intros x Hx. rewrite A2 by lia. by apply A1.
      - intros l [[= <-]|Hl]%elem_of_cons; [|by apply V2].
        destruct (V1 l eq_refl). rewrite A2 by done. split; [done|lia]. }
    destruct (Hgo ts h rk) as (vs & h1 & rk1 & Hvs & G1 & A1 & L1 & P1 & V1);
      [|done|].
    { intros t Ht'. eapply list_max_le_elem; [|done].
      apply list_elem_of_fmap. eauto. }
    rewrite (bind_eq _ _ _ _ _ Hvs).
    rewrite (bind_eq _ _ _ (length h1) (h1 ++ [OList vs])) by done.
    eexists _, _, _. split; [done|].
    destruct (graded_alloc h1 rk1 (S r) (OList vs) G1)
      as (G2 & A2 & L2 & P2 & V2).
    { intros l' Hl'. destruct (V1 l' Hl'). split; [lia|done]. }
    split_and!; [done| |lia|eauto|done].
    intros x Hx. trans (rk1 x); [apply A2; lia|by apply A1].
  - simpl in Ht. apply le_S_n in Ht. simpl.
    match goal with
    | |- ∃ _ _ _, bind (?g kts) _ _ = _ ∧ _ =>
        assert (∀ (kts : list (string * tree)) h rk,
          (∀ k t, (k, t) ∈ kts → height t ≤ r) → graded h rk →
          ∃ kvs h1 rk1, g kts h = Ok (kvs, h1)
            ∧ graded h1 rk1
            ∧ (∀ x, x < length h → rk1 x = rk x)
            ∧ length h ≤ length h1
            ∧ (∀ x o, h !! x = Some o → h1 !! x = Some o)
            ∧ (∀ l, VRef l ∈ kvs.*2 → rk1 l = r ∧ l < length h1)) as Hgo
    end.
    { clear kts Ht h rk Hg. intros kts.
      induction kts as [|[k t] kts IHts]; intros h rk Hts Hg.
      { exists [], h, rk. split_and!; [done..|]. by intros l ?%elem_of_nil. }
      destruct (IH t h rk) as (v & h1 & rk1 & Hv & Hp1);
        [apply (Hts k); left|done|].
      destruct (IHts h1 rk1) as (vs & h2 & rk2 & Hvs & G2 & A2 & L2 & P2 & V2).
      { intros k' t' Ht'. apply (Hts k'). by right. }
      { apply Hp1. }
      exists ((k, v) :: vs), h2, rk2. rewrite (bind_eq _ _ _ _ _ Hv).
      rewrite (bind_eq _ _ _ _ _ Hvs).
      destruct Hp1 as (G1 & A1 & L1 & P1 & V1).
      split_and!; [done|done| |lia|eauto|].
      - intros x Hx. rewrite A2 by lia. by apply A1.
      - intros l [[= <-]|Hl]%elem_of_cons; [|by apply V2].
        destruct (V1 l eq_refl). rewrite A2 by done. split; [done|lia]. }
    destruct (Hgo kts h rk) as (vs & h1 & rk1 & Hvs & G1 & A1 & L1 & P1 & V1);
      [|done|].
    { intros k t Ht'. eapply list_max_le_elem; [|done].
      apply list_elem_of_fmap. by exists (k, t). }
    rewrite (bind_eq _ _ _ _ _ Hvs).
    rewrite (bind_eq _ _ _ (length h1) (h1 ++ [ODict vs])) by done.
    eexists _, _, _. split; [done|].
    destruct (graded_alloc h1 rk1 (S r) (ODict vs) G1)
      as (G2 & A2 & L2 & P2 & V2).
    { intros l' Hl'. destruct (V1 l' Hl'). split; [lia|done]. }
    split_and!; [done| |lia|eauto|done].
    intros x Hx. trans (rk1 x); [apply A2; lia|by apply A1].
Qed.

(** ** Reading a levelled heap back *)

Lemma read_tree_total fuel h rk v :
  graded h rk →
  (∀ l, v = VRef l → S (rk l) < fuel ∧ l < length h) →
  0 < fuel →
  is_Some (read_tree fuel h v).
Proof.
  intros Hg. revert v. induction fuel as [|n IH]; intros v Hv Hpos; [lia|].
  destruct v as [| | | | |l]; simpl; try done.
  destruct (Hv l eq_refl) as [Hrk Hl].
  destruct (lookup_lt_is_Some_2 h l Hl) as [o Ho]. rewrite Ho.
  assert (∀ w, obj_child o w → is_Some (read_tree n h w)) as Hkids.
  { intros w Hw. apply IH; [|lia].
    intros l' ->. destruct (Hg l l') as [Hr Hl']; [apply child_obj; eauto|].
    split; [lia|done]. }
  destruct o as [kvs|items].
  - assert (is_Some (mapM (λ k, w ← dict_get k kvs;
              t ← read_tree n h w; Some (k, t)) (dict_keys kvs))) as [kts ->];
      [|done].
    apply mapM_is_Some, Forall_forall. intros k Hk. simpl.
    destruct (proj1 (dict_keys_get _ _) Hk) as [w Hw]. rewrite Hw. simpl.
    destruct (Hkids w) as [t ->]; [by exists k|done].
  - assert (is_Some (mapM (read_tree n h) items)) as [ts ->]; [|done].
    apply mapM_is_Some, Forall_forall. intros w Hw. simpl.
    apply Hkids. by apply list_elem_of_lookup_1.
Qed.

(** C8. The Merger is total: on any two Mapping-rooted documents, with
    fuel for their nesting depth, [_merge_settings] returns, and what it
    returns reads back as a document. *)
Theorem merge_is_total fuel tk lk :
  height (TDict tk) + 2 ≤ fuel → height (TDict lk) + 2 ≤ fuel →
  ∃ m a b, merge_documents_at fuel (TDict tk) (TDict lk) = Ok (Some m, a, b).
Proof.
  intros Ht Hl. unfold merge_documents_at.
  set (R := height (TDict tk) `max` height (TDict lk)).
  assert (graded [] (λ _, 0)) as G0.
  { intros x l' (o & Ho & _)%child_obj. by rewrite lookup_nil in Ho. }
  destruct (alloc_tree_graded R (TDict tk) [] (λ _, 0)) as
    (vt & h1 & rk1 & Hvt & Hp1); [lia|done|].
  destruct (alloc_tree_graded R (TDict lk) h1 rk1) as
    (vl & h2 & rk2 & Hvl & Hp2); [lia|apply Hp1|].
  rewrite (bind_eq _ _ _ _ _ Hvt), (bind_eq _ _ _ _ _ Hvl).
  destruct (alloc_post_trans _ _ _ _ _ _ _ _ _ _ Hp1 Hp2) as (V1 & _ & _ & _).
  destruct Hp2 as (G2 & A2 & L2 & P2 & V2).
  assert (∃ t tkvs, vt = VRef t ∧ h1 !! t = Some (ODict tkvs)) as
    (t & tkvs & -> & Htd).
  { simpl in Hvt. apply bind_ok in Hvt as (kvs & h' & _ & Hvt).
    apply bind_ok in Hvt as (x & h'' & Ha & Hr).
    unfold alloc in Ha. unfold ret in Hr. simplify_eq.
    eexists _, _. split; [done|]. by rewrite lookup_app_r, Nat.sub_diag. }
  assert (∃ l lkvs, vl = VRef l ∧ h2 !! l = Some (ODict lkvs)) as
    (l & lkvs & -> & Hld).
  { simpl in Hvl. apply bind_ok in Hvl as (kvs & h' & _ & Hvl).
    apply bind_ok in Hvl as (x & h'' & Ha & Hr).
    unfold alloc in Ha. unfold ret in Hr. simplify_eq.
    eexists _, _. split; [done|]. by rewrite lookup_app_r, Nat.sub_diag. }
  destruct (V1 t eq_refl) as [Hrt _]. destruct (V2 l eq_refl) as [Hrl _].
  destruct (merge_settings_total fuel rk2 h2 t l tkvs lkvs)
    as (h3 & rk3 & Hm & Hpost); [done|congruence|lia|by apply P2|done|].
  rewrite (bind_eq _ _ _ _ _ Hm). simpl.
  destruct Hpost as (G3 & A3 & R3 & L3 & _ & _).
  destruct (read_tree_total fuel h3 rk3 (VRef (length h2))) as [m ->];
    [done| |lia|by eauto].
  intros ? [= <-]. split; [lia|done].
Qed.

Lemma merge_is_total_witness :
  ∃ m a b,
    merge_documents_at recursion_limit
      (TDict [("+x"%string, TList [TInt 1]); ("y"%string, TInt 2)])
      (TDict [("x"%string, TInt 3); ("y"%string, TDict [])])
    = Ok (Some m, a, b).
Proof.
  apply merge_is_total; apply Nat.leb_le; vm_compute; reflexivity.
Defined.

(** C9, as the code has it. Both functions return a newly made top-level
    Mapping and never write the top-level Mapping object of an argument:
    after [_merge_settings(template, local)] the objects [template] and
    [local] hold the bindings they held before, and after
    [_replace_variables(settings)] so does [settings]. Nested Mappings
    and Sequences are shared with the result and are written in place. *)
Theorem top_level_arguments_are_not_written fuel h rk :
  graded h rk →
  (∀ t l tkvs lkvs,
      rk t = rk l → rk t + 2 ≤ fuel →
      h !! t = Some (ODict tkvs) → h !! l = Some (ODict lkvs) →
      ∃ h', merge_settings fuel t l h = Ok (length h, h')
            ∧ h' !! t = Some (ODict tkvs) ∧ h' !! l = Some (ODict lkvs))
  ∧ (∀ s log r h',
      replace_variables_log fuel s h = (log, Ok (r, h')) →
      r = VRef (length h) ∧ h' !! s = h !! s).
Proof.
  intros Hg. split.
  - intros t l tkvs lkvs Hrk Hfuel Ht Hl.
    destruct (merge_settings_total fuel rk h t l tkvs lkvs)
      as (h' & rk' & Hm & Hpost); [done..|].
    exists h'. split; [done|].
    destruct Hpost as (_ & _ & _ & _ & _ & Hframe).
    rewrite !Hframe; [done| |lia| |lia].
    + by apply lookup_lt_Some in Hl.
    + by apply lookup_lt_Some in Ht.
  - intros s log r h' Hrun. by eapply replace_variables_frame.
Qed.

Lemma top_level_arguments_are_not_written_witness :
  let h := [ OList [VInt 1; VInt 2];
             ODict [("+x"%string, VRef 0); ("v"%string, VStr "$$w")];
             OList [VInt 2; VInt 3];
             ODict [("x"%string, VRef 2); ("w"%string, VInt 5)] ] in
  (∃ h', merge_settings recursion_limit 1 3 h = Ok (length h, h')
         ∧ h' !! 1 = h !! 1 ∧ h' !! 3 = h !! 3)
  ∧ (∀ log r h',
       replace_variables_log recursion_limit 3 h = (log, Ok (r, h')) →
       r = VRef (length h) ∧ h' !! 3 = h !! 3).
Proof.
  intros h.
  assert (graded h (λ x, if decide (x = 1 ∨ x = 3) then 1 else 0)) as Hg.
  { apply gradedb_sound. vm_compute. reflexivity. }
  destruct (top_level_arguments_are_not_written recursion_limit h _ Hg)
    as [Hmerge Hres].
  split.
  - edestruct (Hmerge 1 3) as (h' & Hm & H1 & H3);
      [reflexivity|apply Nat.leb_le; vm_compute; reflexivity
      |reflexivity|reflexivity|].
    exists h'. by rewrite H1, H3.
  - intros log r h'. apply Hres.
Defined.

(** ** Two runs of [_strip_flags] in step *)

Lemma closed_agree R h1 h2 : closed h1 R → agree R h1 h2 → closed h2 R.
Proof.
  intros Hc Ha x l' Hx (o & Ho & Hw)%child_obj.
  rewrite (Ha x Hx) in Ho. eapply Hc; [done|]. apply child_obj. eauto.
Qed.

Lemma is_dict_agree R h1 h2 v :
  agree R h1 h2 → in_set R v → is_dict h2 v = is_dict h1 v.
Proof.
  intros Ha Hv. destruct v as [| | | | |l]; try done.
  simpl. by rewrite (Ha l (Hv l eq_refl)).
Qed.

Lemma is_list_agree R h1 h2 v :
  agree R h1 h2 → in_set R v → is_list h2 v = is_list h1 v.
Proof.
  intros Ha Hv. destruct v as [| | | | |l]; try done.
  simpl. by rewrite (Ha l (Hv l eq_refl)).
Qed.

Lemma sim_same R l h1 h2 :
  agree R h1 h2 → closed h1 R → R l → sim R l l h1 h2.
Proof.
  intros Ha Hc Hl. split_and!; [done|by apply Ha|by left|done|].
  intros w Hw. by eapply in_set_child.
Qed.

Lemma sim_write R l1 l2 h1 h2 o :
  sim R l1 l2 h1 h2 → is_Some (h1 !! l1) →
  (∀ w, obj_child o w → in_set R w) →
  sim R l1 l2 (<[l1 := o]> h1) (<[l2 := o]> h2).
Proof.
  intros (Ha & Hl & Hcase & Hc & Hch) [o1 Ho1] Ho.
  assert (l1 < length h1) as Hlt1 by by eapply lookup_lt_Some.
  assert (l2 < length h2) as Hlt2.
  { rewrite <- Hl in Ho1. by eapply lookup_lt_Some. }
  assert (∀ x w, child (<[l1 := o]> h1) (VRef x) w →
            (x = l1 ∧ obj_child o w) ∨ (x ≠ l1 ∧ child h1 (VRef x) w)) as Hw.
  { intros x w (ox & Hx & Hw)%child_obj.
    destruct (decide (x = l1)) as [->|Hne].
    - left. rewrite list_lookup_insert_eq in Hx by done. by injection Hx as <-.
    - right. rewrite list_lookup_insert_ne in Hx by done.
      split; [done|]. apply child_obj. eauto. }
  split_and!.
  - intros x Hx. destruct (decide (x = l1)) as [->|Hne].
    + destruct Hcase as [[<- _]|[? _]]; [|done].
      by rewrite !list_lookup_insert_eq.
    + assert (x ≠ l2) as Hne2.
      { intros ->. destruct Hcase as [[-> _]|[_ ?]]; done. }
      rewrite !list_lookup_insert_ne by done. by apply Ha.
  - by rewrite !list_lookup_insert_eq.
  - done.
  - intros x l' Hx [[-> Hc']|[_ Hc']]%Hw; [by apply (Ho _ Hc')|by eapply Hc].
  - intros w [[_ Hc']|[? _]]%Hw; [by apply Ho|done].
Qed.

Lemma sim_frame R l1 l2 h1 h2 h1' h2' :
  sim R l1 l2 h1 h2 → agree R h1' h2' →
  evolve R h1 h1' → evolve R h2 h2' →
  sim R l1 l2 h1' h2'.
Proof.
  intros (Ha & Hl & Hcase & Hc & Hch) Ha' He1 He2. split_and!; [done| |done| |].
  - destruct Hcase as [[<- Hr]|[Hn1 Hn2]]; [by apply Ha'|].
    by rewrite (ev_frame _ _ _ He1 _ Hn1), (ev_frame _ _ _ He2 _ Hn2).
  - by eapply evolve_closed.
  - intros w Hw. apply Hch. by eapply evolve_child.
Qed.

Lemma obj_child_set k v d w :
  obj_child (ODict (dict_set k v d)) w → w = v ∨ obj_child (ODict d) w.
Proof.
  intros [k' Hw]. destruct (decide (k = k')) as [<-|Hne].
  - rewrite dict_get_set_eq in Hw. injection Hw as <-. by left.
  - rewrite dict_get_set_ne in Hw by done. right. by exists k'.
Qed.

Lemma obj_child_del k d w :
  obj_child (ODict (dict_del k d)) w → obj_child (ODict d) w.
Proof.
  intros [k' Hw]. destruct (decide (k = k')) as [<-|Hne].
  - by rewrite dict_get_del_eq in Hw.
  - rewrite dict_get_del_ne in Hw by done. by exists k'.
Qed.

Lemma for_each_sim {A} (I : heap → heap → Prop) (body1 body2 : A → M unit) xs :
  (∀ x hc1 hc2 u hc1', I hc1 hc2 → body1 x hc1 = Ok (u, hc1') →
     ∃ hc2', body2 x hc2 = Ok (tt, hc2') ∧ I hc1' hc2') →
  ∀ h1 h2 u h1', I h1 h2 → for_each xs body1 h1 = Ok (u, h1') →
    ∃ h2', for_each xs body2 h2 = Ok (tt, h2') ∧ I h1' h2'.
Proof.
  intros Hbody. induction xs as [|x xs IH]; intros h1 h2 u h1' HI H;
    simpl in *.
  - apply ret_ok in H as [_ ->]. by exists h2.
  - apply bind_ok in H as (u1 & hc1 & Hx & H).
    destruct (Hbody _ _ _ _ _ HI Hx) as (hc2 & Hx2 & HI').
    rewrite (bind_eq _ _ _ _ _ Hx2). by eapply IH.
Qed.

Lemma enumerate_from_sim (I : heap → heap → Prop) l1 l2 body1 body2 :
  (∀ hc1 hc2, I hc1 hc2 → hc2 !! l2 = hc1 !! l1) →
  (∀ i item hc1 hc2 xs u hc1',
     I hc1 hc2 → hc1 !! l1 = Some (OList xs) → xs !! i = Some item →
     body1 i item hc1 = Ok (u, hc1') →
     ∃ hc2', body2 i item hc2 = Ok (tt, hc2') ∧ I hc1' hc2') →
  ∀ n i h1 h2 u h1', I h1 h2 →
    enumerate_from l1 i n body1 h1 = Ok (u, h1') →
    ∃ h2', enumerate_from l2 i n body2 h2 = Ok (tt, h2') ∧ I h1' h2'.
Proof.
  intros Hl Hbody. induction n as [|n IH]; intros i h1 h2 u h1' HI H;
    simpl in *.
  - apply ret_ok in H as [_ ->]. by exists h2.
  - apply bind_ok in H as (items & hc & [-> Hitems]%read_list_ok & H).
    rewrite (bind_eq _ _ _ items h2)
      by (apply read_list_eq; by rewrite (Hl _ _ HI)).
    destruct (items !! i) as [item|] eqn:Hi.
    + apply bind_ok in H as (u1 & hc1 & Hb & H).
      destruct (Hbody _ _ _ _ _ _ _ HI Hitems Hi Hb) as (hc2 & Hb2 & HI').
      rewrite (bind_eq _ _ _ _ _ Hb2). by eapply IH.
    + apply ret_ok in H as [_ ->]. by exists h2.
Qed.

Section strip_sim.
Context (R : loc → Prop) (rec1 rec2 : value → M value).
Hypothesis rec_sim : ∀ v h1 h2 r h1',
  closed h1 R → in_set R v → agree R h1 h2 →
  rec1 v h1 = Ok (r, h1') →
  ∃ h2', rec2 v h2 = Ok (r, h2') ∧ agree R h1' h2'.
Hypothesis rec1_evolve : ∀ v h r h',
  closed h R → in_set R v → rec1 v h = Ok (r, h') → r = v ∧ evolve R h h'.
Hypothesis rec2_evolve : ∀ v h r h',
  closed h R → in_set R v → rec2 v h = Ok (r, h') → r = v ∧ evolve R h h'.

Lemma rec_sim_frame l1 l2 v h1 h2 r h1' :
  sim R l1 l2 h1 h2 → in_set R v → rec1 v h1 = Ok (r, h1') →
  r = v ∧ ∃ h2', rec2 v h2 = Ok (v, h2') ∧ sim R l1 l2 h1' h2'.
Proof.
  intros Hs Hv Hrec. pose proof Hs as (Ha & _ & _ & Hc & _).
  destruct (rec1_evolve _ _ _ _ Hc Hv Hrec) as [-> He1].
  destruct (rec_sim _ _ h2 _ _ Hc Hv Ha Hrec) as (h2' & Hrec2 & Ha').
  split; [done|]. exists h2'. split; [done|].
  eapply sim_frame; [done..|].
  eapply rec2_evolve; [by eapply closed_agree|done..].
Qed.

Lemma strip_item_sim l1 l2 i item h1 h2 u h1' :
  sim R l1 l2 h1 h2 → in_set R item →
  (let* il := isinstance_list item in
   let* id := isinstance_dict item in
   if il || id then let* r := rec1 item in list_setitem l1 i r
   else ret tt) h1 = Ok (u, h1') →
  ∃ h2',
    (let* il := isinstance_list item in
     let* id := isinstance_dict item in
     if il || id then let* r := rec2 item in list_setitem l2 i r
     else ret tt) h2 = Ok (tt, h2')
    ∧ sim R l1 l2 h1' h2'.
Proof.
  intros Hs Hitem H. pose proof Hs as (Ha & Hl & _ & Hc & Hch).
  apply strip_item_ok in H.
  rewrite (bind_eq _ _ _ (is_list h2 item) h2) by done.
  rewrite (bind_eq _ _ _ (is_dict h2 item) h2) by done.
  rewrite (is_list_agree R h1 h2), (is_dict_agree R h1 h2) by done.
  destruct H as [-> -> | r hb items -> Hrec Hb Hi ->].
  { by exists h2. }
  destruct (rec_sim_frame l1 l2 _ _ _ _ _ Hs Hitem Hrec)
    as (-> & hb2 & Hrec2 & Hsb).
  rewrite (bind_eq _ _ _ _ _ Hrec2).
  pose proof Hsb as (_ & Hlb & _ & _ & Hchb).
  rewrite Hb in Hlb.
  eexists. split; [by apply list_setitem_eq|].
  apply sim_write; [done|by rewrite Hb|].
  intros w [j Hw]. destruct (decide (i = j)) as [->|Hne].
  - rewrite list_lookup_insert_eq in Hw by done. by injection Hw as <-.
  - rewrite list_lookup_insert_ne in Hw by done.
    apply Hchb. by eapply child_list.
Qed.

Lemma strip_items_sim l1 l2 h1 h2 u h1' :
  sim R l1 l2 h1 h2 → strip_items rec1 l1 h1 = Ok (u, h1') →
  ∃ h2', strip_items rec2 l2 h2 = Ok (tt, h2') ∧ sim R l1 l2 h1' h2'.
Proof.
  intros Hs H. unfold strip_items, enumerate in *.
  apply bind_ok in H as (items & hc & [-> Hitems]%read_list_ok & H).
  pose proof Hs as (_ & Hl & _).
  rewrite (bind_eq _ _ _ items h2) by (apply read_list_eq; by rewrite Hl).
  eapply (enumerate_from_sim (sim R l1 l2)); [| |done|done].
  - by intros hc1 hc2 (_ & ? & _).
  - intros i item hc1 hc2 xs u1 hc1' Hsc Hxs Hi Hbody.
    eapply strip_item_sim; [done| |done].
    destruct Hsc as (_ & _ & _ & _ & Hch). apply Hch. by eapply child_list.
Qed.

Lemma strip_flag_loop_sim l1 l2 key_ h1 h2 key h1' kvs v :
  sim R l1 l2 h1 h2 →
  h1 !! l1 = Some (ODict kvs) → dict_get key_ kvs = Some v →
  strip_flag_loop l1 key_ flags key_ h1 = Ok (key, h1') →
  ∃ h2', strip_flag_loop l2 key_ flags key_ h2 = Ok (key, h2')
         ∧ sim R l1 l2 h1' h2'.
Proof.
  intros Hs Hkvs Hv H. pose proof Hs as (_ & Hl & _ & _ & Hch).
  assert (h2 !! l2 = Some (ODict kvs)) as Hkvs2 by by rewrite Hl.
  destruct (strip_flag_loop_total l2 key_ h2 kvs v) as (key2 & h2' & H2);
    [done..|].
  exists h2'. pose proof H2 as H2'.
  apply strip_flag_loop_ok in H
    as [(Hf & -> & ->)|(Hf & -> & kvs0 & v0 & Hl0 & Hv0 & ->)];
  apply strip_flag_loop_ok in H2'
    as [(Hf2 & -> & ->)|(Hf2 & -> & kvs2 & v2 & Hl2 & Hv2 & ->)];
    try congruence.
  { done. }
  split; [done|]. simplify_eq.
  apply sim_write; [done|by rewrite Hkvs|].
  intros w [Hw|Hw]%obj_child_del%obj_child_set; apply Hch.
  - subst w. by eapply child_dict.
  - destruct Hw as [k Hk]. by eapply child_dict.
Qed.

Lemma strip_key_sim l1 l2 key_ h1 h2 u h1' :
  sim R l1 l2 h1 h2 → strip_key rec1 l1 key_ h1 = Ok (u, h1') →
  ∃ h2', strip_key rec2 l2 key_ h2 = Ok (tt, h2') ∧ sim R l1 l2 h1' h2'.
Proof.
  intros Hs H. pose proof Hs as (Ha & Hl & _ & Hc & Hch).
  apply strip_key_ok in H. unfold strip_key.
  destruct H as [kvs Hk Hnone -> | kvs entry key hr entry' hb kvs_b
                                   Hk Hentry Hloop Hrun Hb ->].
  { rewrite (bind_eq _ _ _ (dict_has key_ kvs) h2)
      by (apply dict_contains_eq; by rewrite Hl).
    unfold dict_has. rewrite Hnone. by exists h2. }
  rewrite (bind_eq _ _ _ (dict_has key_ kvs) h2)
    by (apply dict_contains_eq; by rewrite Hl).
  unfold dict_has. rewrite Hentry. simpl.
  rewrite (bind_eq _ _ _ entry h2)
    by (eapply dict_getitem_eq; [by rewrite Hl|done]).
  assert (in_set R entry) as Hin by (apply Hch; by eapply child_dict).
  destruct (strip_flag_loop_sim l1 l2 key_ h1 h2 key hr kvs entry)
    as (hr2 & Hloop2 & Hsr); [done..|].
  rewrite (bind_eq _ _ _ _ _ Hloop2).
  pose proof Hsr as (Har & Hlr & _ & Hcr & Hchr).
  rewrite (bind_eq _ _ _ (is_dict hr2 entry) hr2) by done.
  rewrite (is_dict_agree R hr hr2) by done.
  assert (∀ hb2, sim R l1 l2 hb hb2 → entry' = entry →
    ∃ h2', dict_setitem l2 key entry hb2 = Ok (tt, h2')
           ∧ sim R l1 l2 (<[l1 := ODict (dict_set key entry' kvs_b)]> hb) h2')
    as Hset.
  { intros hb2 Hsb ->. pose proof Hsb as (_ & Hlb & _ & _ & Hchb).
    rewrite Hb in Hlb. eexists. split; [by apply dict_setitem_eq|].
    apply sim_write; [done|by rewrite Hb|].
    intros w [->|[k Hw]]%obj_child_set; [done|].
    apply Hchb. by eapply child_dict. }
  destruct Hrun as [Hd Hrec | le Hd Hli -> Hitems -> | Hd Hli -> ->];
    rewrite Hd.
  - destruct (rec_sim_frame l1 l2 _ _ _ _ _ Hsr Hin Hrec)
      as (-> & hb2 & Hrec2 & Hsb).
    rewrite (bind_eq _ _ _ _ _ Hrec2).
    destruct (Hset hb2 Hsb eq_refl) as (h2' & Hset2 & Hs').
    rewrite (bind_eq _ _ _ _ _ Hset2).
    pose proof Hs' as (_ & Hl' & _).
    assert (l1 < length hb) as Hlt by by eapply lookup_lt_Some.
    rewrite list_lookup_insert_eq in Hl' by done.
    eexists. split; [by apply dict_setitem_eq|].
    rewrite dict_set_set.
    apply dict_setitem_ok in Hset2 as (kvs2 & Hkvs2 & ->).
    rewrite list_insert_insert_eq.
    pose proof Hsb as (_ & Hlb & _). rewrite Hb, Hkvs2 in Hlb.
    injection Hlb as ->. done.
  - rewrite (bind_eq _ _ _ (is_list hr2 (VRef le)) hr2) by done.
    rewrite (is_list_agree R hr hr2), Hli by done.
    assert (R le) as Hle by by apply Hin.
    destruct (strip_items_sim le le hr hr2 tt hb) as (hb2 & Hitems2 & Hsl);
      [by apply sim_same|done|].
    rewrite (bind_eq _ _ _ _ _ Hitems2).
    apply Hset; [|done].
    eapply sim_frame; [done|apply Hsl|..].
    + by apply (strip_items_evolve R rec1 rec1_evolve le hr tt hb).
    + apply (strip_items_evolve R rec2 rec2_evolve le hr2 tt hb2); [|done..].
      by eapply closed_agree.
  - rewrite (bind_eq _ _ _ (is_list hr2 entry) hr2) by done.
    rewrite (is_list_agree R hr hr2), Hli by done.
    by apply Hset.
Qed.

Lemma strip_flags_body_sim l1 l2 h1 h2 r h1' :
  sim R l1 l2 h1 h2 → strip_flags_body rec1 (VRef l1) h1 = Ok (r, h1') →
  ∃ h2', strip_flags_body rec2 (VRef l2) h2 = Ok (VRef l2, h2')
         ∧ sim R l1 l2 h1' h2'.
Proof.
  intros Hs H. pose proof Hs as (_ & Hl & _). unfold strip_flags_body in *.
  apply bind_ok in H as (sl & hx & [-> ->]%isinstance_list_ok & H).
  apply bind_ok in H as (sd & hx & [-> ->]%isinstance_dict_ok & H).
  rewrite (bind_eq _ _ _ (is_list h2 (VRef l2)) h2) by done.
  rewrite (bind_eq _ _ _ (is_dict h2 (VRef l2)) h2) by done.
  simpl in *. rewrite Hl.
  destruct (h1 !! l1) as [[kvs|items]|] eqn:Ho.
  - apply bind_ok in H as (kvs' & hx & [-> Hl']%read_dict_ok & H).
    rewrite Ho in Hl'. injection Hl' as <-.
    apply bind_ok in H as (u & hx & Hloop & H).
    apply ret_ok in H as [-> <-].
    rewrite (bind_eq _ _ _ kvs h2) by (apply read_dict_eq; by rewrite Hl).
    destruct (for_each_sim (sim R l1 l2) (strip_key rec1 l1)
                (strip_key rec2 l2) (dict_keys kvs)) with (h1 := h1) (h2 := h2)
                (u := u) (h1' := h1') as (h2' & Hloop2 & Hs'); [|done|done|].
    { intros. by eapply strip_key_sim. }
    rewrite (bind_eq _ _ _ _ _ Hloop2). by exists h2'.
  - apply bind_ok in H as (u & hx & Hitems & H).
    apply ret_ok in H as [-> <-].
    destruct u.
    destruct (strip_items_sim l1 l2 h1 h2 tt h1') as (h2' & Hitems2 & Hs');
      [done..|].
    rewrite (bind_eq _ _ _ _ _ Hitems2). by exists h2'.
  - apply ret_ok in H as [-> ->]. by exists h2.
Qed.
End strip_sim.

Lemma strip_flags_scalar n v h :
  (∀ l, v ≠ VRef l) → strip_flags (S n) v h = Ok (v, h).
Proof. intros Hv. destruct v as [| | | | |l]; try done. by destruct (Hv l). Qed.

Lemma strip_flags_sim n1 n2 R l1 l2 h1 h2 r h1' :
  n1 ≤ n2 → sim R l1 l2 h1 h2 →
  strip_flags n1 (VRef l1) h1 = Ok (r, h1') →
  ∃ h2', strip_flags n2 (VRef l2) h2 = Ok (VRef l2, h2')
         ∧ sim R l1 l2 h1' h2'.
Proof.
  revert n2 l1 l2 h1 h2 r h1'.
  induction n1 as [|n1 IH]; intros n2 l1 l2 h1 h2 r h1' Hn Hs H; [done|].
  destruct n2 as [|n2]; [lia|]. simpl in *.
  eapply (strip_flags_body_sim R (strip_flags n1)); [| | |done|done].
  - intros v g1 g2 r' g1' Hc Hv Ha Hrec.
    destruct (strip_flags_evolve _ _ _ _ _ _ Hc Hv Hrec) as [-> _].
    destruct v as [| | | | |l].
    1-5: destruct n1 as [|n1']; [done|]; destruct n2 as [|n2']; [lia|];
      rewrite strip_flags_scalar in Hrec by done; injection Hrec as <-;
      exists g2; by rewrite strip_flags_scalar.
    destruct (IH n2 l l g1 g2 (VRef l) g1') as (g2' & Hrec2 & Hs');
      [lia|apply sim_same; [done..|by apply Hv]|done|].
    exists g2'. split; [done|apply Hs'].
  - intros. by eapply strip_flags_evolve.
  - intros. by eapply strip_flags_evolve.
Qed.

(** ** Reading back from two heaps in step *)

Lemma read_tree_sim n R l1 l2 h1 h2 :
  sim R l1 l2 h1 h2 →
  read_tree n h2 (VRef l2) = read_tree n h1 (VRef l1).
Proof.
  revert l1 l2. induction n as [|n IH]; intros l1 l2 Hs; [done|].
  destruct Hs as (Ha & Hl & _ & Hc & Hch). simpl. rewrite Hl.
  assert (∀ w, child h1 (VRef l1) w → read_tree n h2 w = read_tree n h1 w)
    as Hkids.
  { intros w Hw. destruct w as [| | | | |l]; try by destruct n.
    apply IH, sim_same; [done..|]. by apply (Hch _ Hw). }
  destruct (h1 !! l1) as [[kvs|items]|] eqn:Ho; [| |done].
  - erewrite Forall_mapM_ext; [done|].
    apply Forall_forall. intros k Hk.
    destruct (dict_get k kvs) as [w|] eqn:Hw; [|done]. simpl.
    rewrite Hkids; [done|]. by eapply child_dict.
  - erewrite Forall_mapM_ext; [done|].
    apply Forall_forall. intros w [i Hw]%list_elem_of_lookup_1.
    apply Hkids. by eapply child_list.
Qed.

Lemma alloc_tree_dict kts h v h' :
  alloc_tree (TDict kts) h = Ok (v, h') →
  ∃ t kvs, v = VRef t ∧ h' !! t = Some (ODict kvs).
Proof.
  intros H. simpl in H. apply bind_ok in H as (kvs & h1 & _ & H).
  apply bind_ok in H as (x & h2 & Ha & Hr).
  unfold alloc in Ha. unfold ret in Hr. simplify_eq.
  eexists _, _. split; [done|]. by rewrite lookup_app_r, Nat.sub_diag.
Qed.

(** Merging the empty local mapping over a template [T] gives what
    [_strip_flags] gives on [T]: with fuel for the nesting depth of [T],
    [_merge_settings(T, {})] and [_strip_flags(T)] both return, and they
    read back as the same document. *)
Lemma merge_empty_local_is_strip fuel tk :
  height (TDict tk) + 2 ≤ fuel →
  ∃ m a b,
    merge_documents_at fuel (TDict tk) (TDict []) = Ok (Some m, a, b)
    ∧ strip_document_at fuel (TDict tk) = Ok (Some m).
Proof.
  intros Hfuel. unfold merge_documents_at, strip_document_at.
  set (r0 := height (TDict tk)) in *.
  assert (graded [] (λ _, 0)) as G0.
  { intros x l' (o & Ho & _)%child_obj. by rewrite lookup_nil in Ho. }
  destruct (alloc_tree_graded r0 (TDict tk) [] (λ _, 0)) as
    (vt & h1 & rk1 & Hvt & G1 & _ & _ & _ & V1); [done..|].
  destruct (alloc_tree_dict _ _ _ _ Hvt) as (t & tkvs & -> & Ht).
  destruct (V1 t eq_refl) as [Hrt Htlt].
  rewrite !(bind_eq _ _ _ _ _ Hvt).
  rewrite (bind_eq _ _ _ (VRef (length h1)) (h1 ++ [ODict []])) by done.
  destruct fuel as [|n]; [lia|].
  set (h2 := h1 ++ [ODict []]).
  set (rk2 := λ x, if decide (x = length h1) then r0 else rk1 x).
  assert (graded h2 rk2) as G2.
  { apply (graded_alloc h1 rk1 r0 (ODict []) G1).
    intros l' Hl'. by apply elem_of_nil in Hl'. }
  assert (h2 !! t = Some (ODict tkvs)) as Ht2 by by apply lookup_app_l_Some.
  assert (rk2 t = r0) as Hrt2.
  { unfold rk2. by rewrite decide_False by lia. }
  destruct (merge_post_alloc h2 rk2 t tkvs G2 Ht2)
    as (G3 & A3 & M3 & L3 & _ & F3).
  set (h3 := h2 ++ [ODict tkvs]) in *.
  set (rk3 := λ x, if decide (x = length h2) then rk2 t else rk2 x) in *.
  assert (h3 !! length h2 = Some (ODict tkvs)) as Hm3.
  { unfold h3. by rewrite lookup_app_r, Nat.sub_diag. }
  assert (rk3 (length h2) = r0) as Hrm.
  { unfold rk3. by rewrite decide_True. }
  destruct (strip_flags_total n rk3 (length h2) h3) as [h4 Hstrip];
    [done|lia|].
  assert (merge_settings (S n) t (length h1) h2 = Ok (length h2, h4))
    as Hmerge.
  { simpl. unfold merge_settings_body.
    rewrite (bind_eq _ _ _ _ _ (read_dict_eq _ _ _ Ht2)).
    rewrite (bind_eq _ _ _ (length h2) h3) by done.
    rewrite (bind_eq _ _ _ [] h3).
    2:{ apply read_dict_eq. unfold h3, h2.
        rewrite lookup_app_l by (rewrite length_app; simpl; lia).
        by rewrite lookup_app_r, Nat.sub_diag. }
    simpl. rewrite (bind_eq _ _ _ tt h3) by done.
    by rewrite (bind_eq _ _ _ _ _ Hstrip). }
  rewrite (bind_eq _ _ _ _ _ Hmerge). unfold ret.
  set (R := λ x, x < length h1 ∧ rk1 x < r0).
  assert (sim R (length h2) t h3 h1) as Hs.
  { split_and!.
    - intros x [Hx _]. unfold h3, h2.
      rewrite !lookup_app_l; [done|lia|rewrite length_app; lia].
    - by rewrite Hm3.
    - right. split; intros [? ?]; [|lia]. unfold h2 in *.
      rewrite length_app in *. lia.
    - intros x l' [Hx Hr] (o & Ho & Hw)%child_obj.
      unfold h3, h2 in Ho.
      rewrite !lookup_app_l in Ho by (rewrite ?length_app; lia).
      destruct (G1 x l') as [? ?]; [apply child_obj; eauto|].
      split; lia.
    - intros w (o & Ho & Hw)%child_obj l' ->.
      rewrite Hm3 in Ho. injection Ho as <-.
      destruct (G1 t l') as [? ?]; [apply child_obj; eauto|].
      split; lia. }
  destruct (strip_flags_sim n (S n) R _ _ _ _ _ _ (Nat.le_succ_diag_r n)
              Hs Hstrip) as (h1' & Hstrip2 & Hs').
  rewrite Hstrip2.
  rewrite (read_tree_sim (S n) R _ _ _ _ Hs').
  destruct (strip_flags_evolve n (λ _, True) _ _ _ _
              (closed_true h3) (in_set_true _) Hstrip) as [_ He].
  destruct (read_tree_total (S n) h4 rk3 (VRef (length h2))) as [m ->];
    [by eapply graded_evolve| |lia|by eauto].
  intros ? [= <-]. rewrite (ev_len _ _ _ He). split; lia.
Qed.

(** ** [_strip_flags] leaves every list as it is *)

Lemma lists_kept_refl h : lists_kept h h.
Proof. by intros x items. Qed.

Lemma lists_kept_trans h1 h2 h3 :
  lists_kept h1 h2 → lists_kept h2 h3 → lists_kept h1 h3.
Proof. intros H1 H2 x items Hx. by apply H2, H1. Qed.

Lemma lists_kept_write_dict h l kvs kvs' :
  h !! l = Some (ODict kvs) → lists_kept h (<[l := ODict kvs']> h).
Proof.
  intros Hl x items Hx. rewrite list_lookup_insert_ne; [done|].
  intros ->. by rewrite Hl in Hx.
Qed.

Section strip_lists.
Context (rec : value → M value).
Hypothesis rec_lists : ∀ v h r h',
  rec v h = Ok (r, h') → r = v ∧ lists_kept h h'.

Lemma strip_item_lists xs i item h h' items :
  h !! xs = Some (OList items) → items !! i = Some item →
  strip_item_run rec xs i item h h' → lists_kept h h'.
Proof.
  intros Hxs Hi [_ -> | r hb items_b _ Hrec Hb Hlt ->].
  { apply lists_kept_refl. }
  destruct (rec_lists _ _ _ _ Hrec) as [-> Hk].
  rewrite (Hk _ _ Hxs) in Hb. injection Hb as <-.
  rewrite (list_insert_id _ _ _ Hi).
  rewrite list_insert_id by by apply Hk. done.
Qed.

Lemma strip_items_lists xs h u h' :
  strip_items rec xs h = Ok (u, h') → lists_kept h h'.
Proof.
  intros H. unfold strip_items, enumerate in H.
  apply bind_ok in H as (items & h1 & [-> Hl]%read_list_ok & H).
  eapply (enumerate_from_inv (λ _ hc, lists_kept h hc)) in H
    as (_ & ? & _); [done| |apply lists_kept_refl].
  intros i item hc items_c u1 hc' Hk Hlc Hitem Hbody.
  apply strip_item_ok in Hbody.
  eapply lists_kept_trans; [done|]. by eapply strip_item_lists.
Qed.

Lemma strip_key_lists l key_ h h' :
  strip_key_run rec l key_ h h' → lists_kept h h'.
Proof.
  intros [kvs Hk Hnone -> | kvs entry key hr entry' hb kvs_b
                            Hk Hentry Hloop Hrun Hb ->].
  { apply lists_kept_refl. }
  assert (lists_kept h hr) as K1.
  { apply strip_flag_loop_ok in Hloop
      as [(_ & _ & ->)|(_ & _ & kvs0 & v0 & Hl0 & _ & ->)].
    - apply lists_kept_refl.
    - by eapply lists_kept_write_dict. }
  assert (lists_kept hr hb) as K2.
  { destruct Hrun as [_ Hrec | le _ _ _ Hitems _ | _ _ -> _].
    - by apply rec_lists in Hrec as [_ ?].
    - by eapply strip_items_lists.
    - apply lists_kept_refl. }
  eapply lists_kept_trans; [done|]. eapply lists_kept_trans; [done|].
  by eapply lists_kept_write_dict.
Qed.

Lemma strip_flags_body_lists v h r h' :
  strip_flags_body rec v h = Ok (r, h') → lists_kept h h'.
Proof.
  intros H. unfold strip_flags_body in H.
  apply bind_ok in H as (sl & h1 & [-> ->]%isinstance_list_ok & H).
  apply bind_ok in H as (sd & h1 & [-> ->]%isinstance_dict_ok & H).
  destruct v as [| | | | |l];
    try (apply ret_ok in H as [_ ->]; apply lists_kept_refl).
  destruct (is_list h (VRef l)).
  { apply bind_ok in H as (u & h1 & Hitems & H).
    apply ret_ok in H as [_ ->]. by eapply strip_items_lists. }
  destruct (is_dict h (VRef l)).
  2:{ apply ret_ok in H as [_ ->]. apply lists_kept_refl. }
  apply bind_ok in H as (kvs & h1 & [-> Hl]%read_dict_ok & H).
  apply bind_ok in H as (u & h1 & Hloop & H).
  apply ret_ok in H as [_ ->].
  eapply (for_each_inv (λ _ hc, lists_kept h hc)) in Hloop;
    [done| |apply lists_kept_refl].
  intros key_ rem hc u1 hc' Hk Hkey. apply strip_key_ok in Hkey.
  eapply lists_kept_trans; [done|]. by eapply strip_key_lists.
Qed.
End strip_lists.

Lemma strip_flags_lists fuel v h r h' :
  strip_flags fuel v h = Ok (r, h') → lists_kept h h'.
Proof.
  revert v h r h'. induction fuel as [|n IH]; intros v h r h' H; [done|].
  simpl in H. eapply (strip_flags_body_lists (strip_flags n)); [|done].
  intros v' g r' g' Hrec. split; [|by eapply IH].
  by eapply (strip_flags_evolve n (λ _, True));
    [apply closed_true|apply in_set_true|].
Qed.

(** The plain key [k] keeps its value through the dict loop of
    [_strip_flags] when no flagged spelling of it is among the keys. *)
Lemma strip_keys_pure_plain k keys d :
  flagged k = false →
  (∀ key_, key_ ∈ keys → key_ ≠ String "+" k ∧ key_ ≠ String "!" k) →
  dict_get k (strip_keys_pure keys d) = dict_get k d.
Proof.
  intros Hk. revert d. induction keys as [|key_ keys IH]; intros d Hkeys;
    [done|].
  unfold strip_keys_pure in *. simpl. rewrite IH.
  2:{ intros ? ?. apply Hkeys. by right. }
  rewrite strip_key_pure_get.
  destruct (dict_get key_ d) as [entry|]; [|done].
  destruct (flagged key_) eqn:Hf; [|done].
  destruct (decide (k = tail1 key_)) as [Heq|_].
  { destruct (flagged_tail_inv key_ k Hf) as [->| ->]; [done|..];
      by destruct (Hkeys _ (list_elem_of_here _ _)). }
  destruct (decide (k = key_)) as [->|_]; [congruence|done].
Qed.

(** ** Comparisons of scalars *)

Lemma py_eqb_scalar n h x item :
  scalar x → py_eqb (S n) h x item = Ok (scalar_eqb x item).
Proof.
  intros Hx. simpl. destruct (decide (x = item)) as [<-|Hne].
  - destruct x as [|[]| | | |]; simpl;
      rewrite ?Z.eqb_refl, ?String.eqb_refl; try done.
    by rewrite bool_decide_eq_true_2.
  - by destruct x, item.
Qed.

Lemma py_in_scalar n h item xs :
  Forall scalar xs → py_in (S n) h item xs = Ok (value_in item xs).
Proof.
  induction 1 as [|x xs Hx _ IH]; [done|].
  cbn [py_in]. rewrite py_eqb_scalar by done. unfold value_in. simpl.
  destruct (scalar_eqb x item); [done|]. by rewrite IH.
Qed.

(** On scalars [in] comes to [scalar_eqb], whatever the heap holds. *)
Lemma value_in_at_scalar n h item xs :
  Forall scalar xs → value_in_at (S n) h item xs = value_in item xs.
Proof. intros Hxs. unfold value_in_at. by rewrite py_in_scalar. Qed.

Lemma is_key_in_flags_flag kvs key flag :
  is_key_in_flags kvs key ["+"; "!"; ""]%string = (true, flag) →
  flag = "+"%string ∨ flag = "!"%string ∨ flag = ""%string.
Proof.
  simpl. repeat case_match; intros [= <-]; eauto.
Qed.

(** ** What one round of the merge loop leaves alone *)

Lemma merge_settings_post fuel rk h t l tkvs lkvs m h' :
  graded h rk → rk t = rk l → rk t + 2 ≤ fuel →
  h !! t = Some (ODict tkvs) → h !! l = Some (ODict lkvs) →
  merge_settings fuel t l h = Ok (m, h') →
  m = length h ∧ ∃ rk', merge_post h rk t h' rk'.
Proof.
  intros Hg Hrk Hfuel Ht Hl H.
  destruct (merge_settings_total fuel rk h t l tkvs lkvs)
    as (h'' & rk' & Hrun & Hpost); [done..|].
  rewrite Hrun in H. injection H as <- <-. eauto.
Qed.

Lemma append_loop_frame fuel et el h u h' x :
  enumerate el (λ _ item,
    let* found := list_contains fuel et item in
    if found then ret tt else list_append et item) h = Ok (u, h') →
  x ≠ et → h' !! x = h !! x.
Proof.
  intros H Hne. unfold enumerate in H.
  apply bind_ok in H as (items & h1 & [-> _]%read_list_ok & H).
  eapply (enumerate_from_inv (λ _ hc, hc !! x = h !! x)) in H
    as (_ & ? & _); [done| |done].
  intros i item hc xs u1 hc' Hinv _ _ Hbody.
  apply bind_ok in Hbody as (found & h2 & [-> _]%list_contains_ok & Hbody).
  destruct found.
  - by apply ret_ok in Hbody as [_ ->].
  - apply list_append_ok in Hbody as (its & _ & ->).
    by rewrite list_lookup_insert_ne.
Qed.

Lemma merge_key_frame n h rk t l tkvs lkvs key_ hc rkc mkvs u hc' :
  h !! t = Some (ODict tkvs) → h !! l = Some (ODict lkvs) →
  rk t = rk l → rk t + 1 ≤ n →
  merge_post h rk t hc rkc → hc !! length h = Some (ODict mkvs) →
  merge_key n (merge_settings n) t l (length h) key_ hc = Ok (u, hc') →
  let key := if startswith key_ "!" then tail1 key_ else key_ in
  (∃ mkvs', hc' !! length h = Some (ODict mkvs')
     ∧ ∀ q, q ≠ key →
         dict_get q mkvs' = dict_get q mkvs
         ∨ (dict_get q mkvs' = None ∧ flagged q = true))
  ∧ (∀ x, x < length h → rk t ≤ S (rk x) →
       dict_get (String "+" key) tkvs ≠ Some (VRef x) →
       hc' !! x = hc !! x).
Proof.
  intros Ht Hl Hrk Hfuel Hp Hm H key.
  pose proof Hp as (Hg & Hagree & Hmr & Hlen & _ & Hfr).
  assert (t < length h) as Htlt by by eapply lookup_lt_Some.
  assert (l < length h) as Hllt by by eapply lookup_lt_Some.
  assert (hc !! t = Some (ODict tkvs)) as Htc by (rewrite Hfr; [done|done|lia]).
  assert (hc !! l = Some (ODict lkvs)) as Hlc by (rewrite Hfr; [done|done|lia]).
  set (P := λ x, x < length h ∧ rk t ≤ S (rk x)
                 ∧ dict_get (String "+" key) tkvs ≠ Some (VRef x)).
  assert (∀ v (g : heap) u' g',
    g !! length h = Some (ODict mkvs) → (∀ x, P x → g !! x = hc !! x) →
    dict_setitem (length h) key v g = Ok (u', g') →
    ∃ v', g' !! length h = Some (ODict (dict_set key v' mkvs))
          ∧ ∀ x, P x → g' !! x = hc !! x) as Hset.
  { intros v g u' g' Hgm Hgf (kvs & Hkvs & ->)%dict_setitem_ok.
    rewrite Hgm in Hkvs. injection Hkvs as <-.
    assert (length h < length g) by by eapply lookup_lt_Some.
    exists v. split; [by apply list_lookup_insert_eq|].
    intros x Hx. rewrite list_lookup_insert_ne; [by apply Hgf|].
    destruct Hx as [? _]. lia. }
  assert (∀ mk1 (g : heap),
    g !! length h = Some (ODict mk1) → (∀ x, P x → g !! x = hc !! x) →
    (∀ q, q ≠ key → dict_get q mk1 = dict_get q mkvs
                    ∨ (dict_get q mk1 = None ∧ flagged q = true)) →
    (∃ mkvs', g !! length h = Some (ODict mkvs')
       ∧ ∀ q, q ≠ key →
           dict_get q mkvs' = dict_get q mkvs
           ∨ (dict_get q mkvs' = None ∧ flagged q = true))
    ∧ (∀ x, x < length h → rk t ≤ S (rk x) →
         dict_get (String "+" key) tkvs ≠ Some (VRef x) →
         g !! x = hc !! x)) as Hfin.
  { intros mk1 g Hg1 Hgf Hq. split; [eauto|]. intros x ? ? ?. by apply Hgf. }
  unfold merge_key in H. cbv zeta in H. fold key in H.
  apply bind_ok in H
    as (entry_l & hx & [-> (lk & Hlk & Hentry_l)]%dict_getitem_ok & H).
  rewrite Hlc in Hlk. injection Hlk as <-.
  apply bind_ok in H
    as ([key_exists flag] & hx & [-> (tk & Htk & Hfound)]%is_key_in_ok & H).
  rewrite Htc in Htk. injection Htk as <-. symmetry in Hfound.
  destruct key_exists.
  2:{ destruct (Hset _ _ _ _ Hm (λ _ _, eq_refl) H) as (v' & Hm' & Hf').
      eapply Hfin; [done..|]. intros q Hq. left. by apply dict_get_set_ne. }
  apply bind_ok in H as (u1 & h1 & Hinner & H).
  assert (∃ v', h1 !! length h = Some (ODict (dict_set key v' mkvs))
                ∧ ∀ x, P x → h1 !! x = hc !! x) as (v' & Hm1 & Hf1).
  { destruct (startswith key_ "!").
    { by eapply Hset. }
    apply bind_ok in Hinner
      as (entry_t & hx & [-> (tk & Htk & Hentry_t)]%dict_getitem_ok & Hinner).
    rewrite Htc in Htk. injection Htk as <-.
    apply bind_ok in Hinner as (td & hx & [-> ->]%isinstance_dict_ok & Hinner).
    apply bind_ok in Hinner as (ld & hx & [-> ->]%isinstance_dict_ok & Hinner).
    apply bind_ok in Hinner as (tl & hx & [-> ->]%isinstance_list_ok & Hinner).
    apply bind_ok in Hinner as (ll & hx & [-> ->]%isinstance_list_ok & Hinner).
    destruct entry_t as [| | | | |et]; try by eapply Hset.
    destruct entry_l as [| | | | |el]; try by eapply Hset.
    assert (rk t = S (rkc et) ∧ et < length hc) as [Hret Hetlt].
    { eapply (merge_post_child _ _ _ _ _ t); [done..|]. by eapply child_dict. }
    assert (rk t = S (rkc el) ∧ el < length hc) as [Hrel Hellt].
    { eapply (merge_post_child _ _ _ _ _ l); [done..|lia|].
      by eapply child_dict. }
    destruct (is_dict hc (VRef et) && is_dict hc (VRef el)) eqn:Hdd.
    { apply andb_true_iff in Hdd
        as [(? & tk & [= <-] & Htk)%is_dict_true
            (? & lk & [= <-] & Hlk)%is_dict_true].
      apply bind_ok in Hinner as (m' & h1a & Hrec & Hinner).
      destruct (merge_settings_post n rkc hc et el tk lk m' h1a)
        as (-> & rk1 & _ & _ & _ & _ & _ & Hfr1); [done|lia|lia|done..|].
      eapply Hset; [| |done].
      - rewrite Hfr1; [done|lia|]. rewrite Hmr. lia.
      - intros x (Hx & Hr & _). apply Hfr1; [lia|].
        rewrite (Hagree x) by done. lia. }
    destruct (is_list hc (VRef et) && is_list hc (VRef el)) eqn:Hll;
      [|by eapply Hset].
    destruct (negb false && (flag =? "+")%string) eqn:Hadd;
      [|by eapply Hset].
    apply andb_true_iff in Hadd as [_ ->%String.eqb_eq].
    apply andb_true_iff in Hll as [(? & xs_t & [= <-] & Hxt)%is_list_true _].
    apply bind_ok in Hinner as (u2 & h1a & Hloop & Hinner).
    eapply Hset; [| |done].
    - rewrite (append_loop_frame _ _ _ _ _ _ _ Hloop); [done|].
      intros Heq. rewrite Heq in Hm. congruence.
    - intros x (_ & _ & Hx). apply (append_loop_frame _ _ _ _ _ _ _ Hloop).
      intros ->. by apply Hx. }
  apply bind_ok in H
    as (still & hx & [-> (mk1 & Hmk1 & ->)]%dict_contains_ok & H).
  rewrite Hm1 in Hmk1. injection Hmk1 as <-.
  destruct (negb (flag =? "")%string
            && dict_has (flag +:+ key) (dict_set key v' mkvs)) eqn:Hdel.
  2:{ apply ret_ok in H as [_ ->]. eapply Hfin; [done..|].
      intros q Hq. left. by apply dict_get_set_ne. }
  apply andb_true_iff in Hdel as [Hflag _].
  apply dict_delitem_ok in H as (kvs & Hkvs & _ & ->).
  rewrite Hm1 in Hkvs. injection Hkvs as <-.
  assert (length h < length h1) by by eapply lookup_lt_Some.
  eapply Hfin.
  - by apply list_lookup_insert_eq.
  - intros x Hx. rewrite list_lookup_insert_ne; [by apply Hf1|].
    destruct Hx as [? _]. lia.
  - intros q Hq. destruct (decide (q = flag +:+ key)) as [->|Hne].
    + right. split; [apply dict_get_del_eq|].
      destruct (is_key_in_flags_flag _ _ _ Hfound) as [->|[->| ->]];
        [apply flagged_plus|apply flagged_bang|done].
    + left. rewrite dict_get_del_ne by done. by apply dict_get_set_ne.
Qed.

(** The key a round of the merge loop writes, for a local key other
    than [k] when the local dict has no second spelling of [k]. *)
Lemma merge_key_other k lkvs j :
  (∀ s, s ∈ [String "!" k; String "+" k; String "!" (String "+" k);
             String "!" (String "!" k)] → dict_get s lkvs = None) →
  j ∈ dict_keys lkvs → j ≠ k →
  let key := if startswith j "!" then tail1 j else j in
  key ≠ k ∧ key ≠ String "+" k ∧ key ≠ String "!" k.
Proof.
  intros Hno Hj Hne key.
  assert (∀ s, s ∈ [String "!" k; String "+" k; String "!" (String "+" k);
                    String "!" (String "!" k)] → j ≠ s) as Hj'.
  { intros s Hs ->. apply dict_keys_get in Hj as [v Hv].
    by rewrite (Hno _ Hs) in Hv. }
  subst key. destruct (startswith j "!") eqn:Hbang.
  - apply startswith_char in Hbang as [s ->]. simpl.
    split_and!; intros ->.
    + apply (Hj' (String "!" k)); [by left|done].
    + apply (Hj' (String "!" (String "+" k))); [by do 2 right; left|done].
    + apply (Hj' (String "!" (String "!" k))); [by do 3 right; left|done].
  - split_and!; [done|intros ->..].
    + apply (Hj' (String "+" k)); [by right; left|done].
    + by rewrite (proj2 (startswith_char _ _) (ex_intro _ k eq_refl)) in Hbang.
Qed.

(** ** The monad of the accessors: inversion and forward rules *)

Lemma pbind_ok {A B} (m : Py A) (k : A → Py B) h b h' :
  pbind m k h = Done (b, h') →
  ∃ a h1, m h = Done (a, h1) ∧ k a h1 = Done (b, h').
Proof.
  unfold pbind. destruct (m h) as [[a h1]|e]; [|done]. eauto.
Qed.

Lemma pret_ok {A} (a b : A) h h' : pret a h = Done (b, h') → b = a ∧ h' = h.
Proof. by intros [= -> ->]. Qed.

Lemma core_ok {A} (m : M A) h a h' : core m h = Done (a, h') → m h = Ok (a, h').
Proof. unfold core. destruct (m h) as [[? ?]|]; [|done]. by intros [= -> ->]. Qed.

Lemma pbind_eq {A B} (m : Py A) (k : A → Py B) h a h1 :
  m h = Done (a, h1) → pbind m k h = k a h1.
Proof. unfold pbind. by intros ->. Qed.

Lemma core_eq {A} (m : M A) h a h1 : m h = Ok (a, h1) → core m h = Done (a, h1).
Proof. unfold core. by intros ->. Qed.

Lemma pfold_inv {A St} (I : list A → St → heap → Prop)
    (body : A → St → Py St) xs :
  (∀ x rem s h s' h', I (x :: rem) s h → body x s h = Done (s', h') →
                      I rem s' h') →
  ∀ s h s' h', I xs s h → pfold xs body s h = Done (s', h') → I [] s' h'.
Proof.
  intros Hbody. induction xs as [|x xs IH]; intros s h s' h' HI H; simpl in H.
  - by apply pret_ok in H as [-> ->].
  - apply pbind_ok in H as (s1 & h1 & Hx & H). eauto.
Qed.

Lemma pfor_inv {A} (I : list A → heap → Prop) (body : A → Py unit) xs :
  (∀ x rem h u h', I (x :: rem) h → body x h = Done (u, h') → I rem h') →
  ∀ h u h', I xs h → pfor xs body h = Done (u, h') → I [] h'.
Proof.
  intros Hbody. induction xs as [|x xs IH]; intros h u h' HI H; simpl in H.
  - by apply pret_ok in H as [_ ->].
  - apply pbind_ok in H as (u1 & h1 & Hx & H). eauto.
Qed.

(** ** Dicts without their comments *)

Lemma dict_set_same k v d : dict_get k d = Some v → dict_set k v d = d.
Proof.
  induction d as [|[k' v'] d IH]; simpl; [done|].
  destruct (String.eqb_spec k k') as [->|Hne]; [by intros [= ->]|].
  intros ?. by rewrite IH.
Qed.

Lemma dict_del_sublist k d : sublist (dict_del k d) d.
Proof.
  induction d as [|[k' v'] d IH]; simpl; [done|].
  destruct (String.eqb k k'); by constructor.
Qed.

Lemma dict_del_comment k d :
  startswith k comment_token = true →
  without_comments (dict_del k d) = without_comments d.
Proof.
  intros Hk. unfold without_comments.
  induction d as [|[k' v'] d IH]; [done|].
  cbn [dict_del List.filter].
  destruct (String.eqb_spec k k') as [<-|Hne].
  - unfold live at 2. simpl. by rewrite Hk.
  - cbn [List.filter]. by rewrite IH.
Qed.

Lemma dict_get_without k d :
  startswith k comment_token = false →
  dict_get k (without_comments d) = dict_get k d.
Proof.
  intros Hk. induction d as [|[k' v'] d IH]; simpl; [done|].
  unfold live. simpl.
  destruct (String.eqb_spec k k') as [<-|Hne].
  - rewrite Hk. simpl. by rewrite String.eqb_refl.
  - destruct (startswith k' comment_token); simpl; [done|].
    by destruct (String.eqb_spec k k').
Qed.

Lemma without_comments_keys kvs :
  without_comments kvs = kvs ↔
  ∀ k, k ∈ dict_keys kvs → startswith k comment_token = false.
Proof.
  unfold without_comments, dict_keys. induction kvs as [|[k v] kvs IH]; simpl.
  { split; [|done]. by intros _ k ?%elem_of_nil. }
  unfold live at 1. simpl. destruct (startswith k comment_token) eqn:Hk; simpl.
  - split.
    + intros Heq. exfalso.
      assert (length (List.filter live kvs) ≤ length kvs) as Hlen
        by apply List.filter_length_le.
      rewrite Heq in Hlen. simpl in Hlen. lia.
    + intros Hall. specialize (Hall k (list_elem_of_here _ _)). congruence.
  - split.
    + intros [= Heq] k' [->|Hk']%elem_of_cons; [done|]. by apply IH.
    + intros Hall. f_equal. apply IH. intros k' Hk'. apply Hall. by right.
Qed.

Lemma sublist_keys (kvs' kvs : list (string * value)) k :
  sublist kvs' kvs → k ∈ dict_keys kvs' → k ∈ dict_keys kvs.
Proof.
  intros Hs. unfold dict_keys. intros Hk.
  eapply elem_of_sublist; [done|]. by apply fmap_sublist.
Qed.

Lemma without_comments_sublist kvs' kvs :
  sublist kvs' kvs → without_comments kvs = kvs →
  without_comments kvs' = kvs'.
Proof.
  rewrite !without_comments_keys. intros Hs Hall k Hk.
  apply Hall. by eapply sublist_keys.
Qed.

(** ** Heaps that only lose comments *)

Lemma dict_del_get k d k' v :
  dict_get k' (dict_del k d) = Some v → dict_get k' d = Some v.
Proof.
  destruct (decide (k = k')) as [->|Hne].
  - by rewrite dict_get_del_eq.
  - by rewrite dict_get_del_ne.
Qed.

Lemma shrunk_refl h : shrunk h h.
Proof. split; [done|done|]. intros x kvs Hx. by exists kvs. Qed.

Lemma shrunk_trans h1 h2 h3 : shrunk h1 h2 → shrunk h2 h3 → shrunk h1 h3.
Proof.
  intros [L1 I1 D1] [L2 I2 D2]. split.
  - congruence.
  - intros x items Hx. by apply I2, I1.
  - intros x kvs Hx. destruct (D1 _ _ Hx) as (kvs2 & Hx2 & S2 & W2 & B2).
    destruct (D2 _ _ Hx2) as (kvs3 & Hx3 & S3 & W3 & B3).
    exists kvs3. split; [done|]. split_and!; [by etrans|congruence|eauto].
Qed.

Lemma shrunk_write h l kvs kvs' :
  h !! l = Some (ODict kvs) → sublist kvs' kvs →
  without_comments kvs' = without_comments kvs →
  (∀ k v, dict_get k kvs' = Some v → dict_get k kvs = Some v) →
  shrunk h (<[l := ODict kvs']> h).
Proof.
  intros Hl Hs Hw Hb. assert (l < length h) by by eapply lookup_lt_Some.
  split.
  - by rewrite length_insert.
  - intros x items Hx. rewrite list_lookup_insert_ne; [done|congruence].
  - intros x d Hx. destruct (decide (x = l)) as [->|Hne].
    + rewrite Hl in Hx. injection Hx as <-. exists kvs'.
      by rewrite list_lookup_insert_eq.
    + exists d. by rewrite list_lookup_insert_ne.
Qed.

Lemma shrunk_dict_inv h h' x kvs' :
  shrunk h h' → h' !! x = Some (ODict kvs') →
  ∃ kvs, h !! x = Some (ODict kvs) ∧ sublist kvs' kvs
         ∧ without_comments kvs' = without_comments kvs
         ∧ ∀ k v, dict_get k kvs' = Some v → dict_get k kvs = Some v.
Proof.
  intros [L I D] Hx. destruct (h !! x) as [[kvs|items]|] eqn:Ho.
  - destruct (D _ _ Ho) as (kvs2 & Hx2 & ? & ? & ?).
    rewrite Hx in Hx2. injection Hx2 as <-. eauto 6.
  - rewrite (I _ _ Ho) in Hx. done.
  - apply lookup_lt_Some in Hx. apply lookup_ge_None in Ho. lia.
Qed.

Lemma shrunk_is_dict h h' v : shrunk h h' → is_dict h' v = is_dict h v.
Proof.
  intros Hs. destruct v as [| | | | |l]; try done. simpl.
  destruct (h' !! l) as [[kvs'|items']|] eqn:Ho'.
  - by destruct (shrunk_dict_inv _ _ _ _ Hs Ho') as (kvs & -> & _).
  - destruct (h !! l) as [[kvs|items]|] eqn:Ho; [|done..].
    destruct (sh_dict _ _ Hs _ _ Ho) as (? & ? & _). congruence.
  - destruct (h !! l) as [[kvs|items]|] eqn:Ho; [| |done].
    + destruct (sh_dict _ _ Hs _ _ Ho) as (? & ? & _). congruence.
    + rewrite (sh_list _ _ Hs _ _ Ho) in Ho'. done.
Qed.

Lemma shrunk_get h h' x kvs kvs' k :
  shrunk h h' → h !! x = Some (ODict kvs) → h' !! x = Some (ODict kvs') →
  startswith k comment_token = false →
  dict_get k kvs' = dict_get k kvs.
Proof.
  intros Hs Hx Hx' Hk.
  destruct (sh_dict _ _ Hs _ _ Hx) as (d & Hd & _ & Hw & _).
  rewrite Hx' in Hd. injection Hd as <-.
  by rewrite <- (dict_get_without k kvs'), Hw, dict_get_without.
Qed.

Lemma shrunk_live_child h h' v w :
  shrunk h h' → live_child h v w ↔ live_child h' v w.
Proof.
  intros Hs. split.
  - intros [l kvs k w' Hl Hw Hk].
    destruct (sh_dict _ _ Hs _ _ Hl) as (kvs' & Hl' & _).
    econstructor; [done| |done]. by erewrite shrunk_get.
  - intros [l kvs' k w' Hl' Hw Hk].
    destruct (shrunk_dict_inv _ _ _ _ Hs Hl') as (kvs & Hl & _).
    econstructor; [done| |done]. by erewrite <- shrunk_get.
Qed.

Lemma shrunk_live_reach h h' v x :
  shrunk h h' → live_reach h v x ↔ live_reach h' v x.
Proof.
  intros Hs. split.
  - induction 1 as [|v w x Hc _ IH]; [constructor|].
    econstructor; [|done]. by apply (shrunk_live_child h h').
  - induction 1 as [|v w x Hc _ IH]; [constructor|].
    econstructor; [|done]. by apply (shrunk_live_child h h').
Qed.

Lemma shrunk_clean h h' x : shrunk h h' → clean h x → clean h' x.
Proof.
  intros Hs Hc kvs' Hx.
  destruct (shrunk_dict_inv _ _ _ _ Hs Hx) as (kvs & Hk & Hsub & _).
  eapply without_comments_sublist; [done|]. by apply Hc.
Qed.

Lemma live_reach_not_dict h v x :
  is_dict h v = false → live_reach h v (VRef x) → v = VRef x.
Proof.
  intros Hd. inversion 1 as [|? w ? Hc _]; [done|subst].
  destruct Hc as [l kvs k w' Hl _ _]. simpl in Hd. by rewrite Hl in Hd.
Qed.

Lemma remove_post_refl h s :
  is_dict h s = false → remove_post h s s h.
Proof.
  intros Hd. split_and!; [done|apply shrunk_refl| |done].
  intros x ->%live_reach_not_dict kvs Hx; [|done].
  simpl in Hd. by rewrite Hx in Hd.
Qed.

(** ** What a run of [_remove_comments_from_settings] does *)

Section remove_sound.
Context (rec : value → Py value).
Hypothesis rec_post : ∀ s h r h',
  rec s h = Done (r, h') → remove_post h s r h'.

Lemma remove_comments_body_post s h r h' :
  remove_comments_body rec s h = Done (r, h') → remove_post h s r h'.
Proof.
  unfold remove_comments_body. intros H.
  destruct s as [| | | |str|l]; try done.
  { destruct str; [|done]. apply pret_ok in H as [-> ->].
    by apply remove_post_refl. }
  apply pbind_ok in H as (o & hx & [-> Hl]%core_ok%read_ok & H).
  destruct o as [kvs|[|key items]].
  2:{ apply pret_ok in H as [-> ->]. apply remove_post_refl.
      simpl. by rewrite Hl. }
  2:{ by apply pbind_ok in H as (? & ? & _ & ?). }
  apply pbind_ok in H as (ktr & h1 & Hloop & H).
  apply pbind_ok in H as (u & h2 & Hdel & H).
  apply pret_ok in H as [-> ->].
  assert (live_reach h (VRef l) (VRef l)) as Hself by constructor.
  (* the loop over the keys *)
  eapply (pfold_inv (λ rem acc hc,
    shrunk h hc
    ∧ (∀ x, ¬ live_reach h (VRef l) (VRef x) → hc !! x = h !! x)
    ∧ (∀ c, c ∈ dict_keys kvs → startswith c comment_token = true →
            c ∈ rem ∨ c ∈ acc)
    ∧ (∀ c, c ∈ acc → startswith c comment_token = true)
    ∧ (∀ k w x, dict_get k kvs = Some w →
         startswith k comment_token = false →
         live_reach h w (VRef x) → k ∈ rem ∨ clean hc x))) in Hloop
    as (S1 & F1 & C1 & A1 & V1).
  2:{ clear Hloop Hdel.
      intros key rem acc hc acc' hc' (Sc & Fc & Cc & Ac & Vc) Hbody.
      apply pbind_ok in Hbody
        as (entry & hx & [-> (kvs_c & Hlc & Hentry)]%core_ok%dict_getitem_ok
            & Hbody).
      destruct (startswith key comment_token) eqn:Hkey.
      { apply pret_ok in Hbody as [-> ->]. split_and!; [done|done| | |].
        - intros c Hc Hcc.
          destruct (Cc c Hc Hcc) as [[->|?]%elem_of_cons|?];
            [right|by left|right]; apply elem_of_app; [right|by left].
          by left.
        - intros c [?| ->%list_elem_of_singleton]%elem_of_app; [by apply Ac|done].
        - intros k w x Hw Hk Hr.
          destruct (Vc k w x Hw Hk Hr) as [[->|?]%elem_of_cons|?];
            [congruence|by left|by right]. }
      assert (dict_get key kvs = Some entry) as Hentry0
        by by rewrite <- (shrunk_get h hc l kvs kvs_c key).
      apply pbind_ok in Hbody
        as (ed & hx & [-> ->]%core_ok%isinstance_dict_ok & Hbody).
      assert (∀ c, c ∈ dict_keys kvs → startswith c comment_token = true →
                c ∈ rem ∨ c ∈ acc) as Cc'.
      { intros c Hc Hcc.
        destruct (Cc c Hc Hcc) as [[->|?]%elem_of_cons|?];
          [congruence|by left|by right]. }
      destruct (is_dict hc entry) eqn:Hd.
      - apply pbind_ok in Hbody as (r & hc1 & Hrec & Hbody).
        apply rec_post in Hrec as (-> & Sr & Vr & Fr).
        apply pbind_ok in Hbody
          as (u1 & hx & (kvs1 & Hl1 & ->)%core_ok%dict_setitem_ok & Hbody).
        apply pret_ok in Hbody as [-> ->].
        rewrite dict_set_same, list_insert_id by
          (try done; by rewrite (shrunk_get hc hc1 l kvs_c kvs1 key)).
        split_and!; [by eapply shrunk_trans| |done|done|].
        + intros x Hx. rewrite Fr; [by apply Fc|].
          intros Hr%(shrunk_live_reach h hc); [|done]. apply Hx.
          econstructor; [|done]. by econstructor.
        + intros k w x Hw Hk Hr.
          destruct (Vc k w x Hw Hk Hr) as [[->|?]%elem_of_cons|?];
            [|by left|right; by eapply shrunk_clean].
          right. rewrite Hentry0 in Hw. injection Hw as <-.
          apply Vr. by apply (shrunk_live_reach h hc).
      - apply pret_ok in Hbody as [-> ->]. split_and!; [done..|].
        intros k w x Hw Hk Hr.
        destruct (Vc k w x Hw Hk Hr) as [[->|?]%elem_of_cons|?];
          [|by left|by right].
        right. rewrite Hentry0 in Hw. injection Hw as <-.
        apply (shrunk_live_reach h hc) in Hr; [|done].
        apply live_reach_not_dict in Hr as ->; [|done].
        intros d Hx. simpl in Hd. by rewrite Hx in Hd. }
  2:{ split_and!; [apply shrunk_refl|done| |by intros ? ?%elem_of_nil|].
      - intros c Hc _. by left.
      - intros k w x Hw _ _. left. apply dict_keys_get. by eexists. }
  (* the loop that deletes *)
  eapply (pfor_inv (λ rem hc,
    shrunk h hc ∧ shrunk h1 hc
    ∧ (∀ x, ¬ live_reach h (VRef l) (VRef x) → hc !! x = h !! x)
    ∧ (∀ c, c ∈ rem → startswith c comment_token = true)
    ∧ (∀ c, c ∈ dict_keys kvs → startswith c comment_token = true →
            c ∈ rem ∨ ∀ d, hc !! l = Some (ODict d) → c ∉ dict_keys d)))
    in Hdel as (S2 & S12 & F2 & _ & C2).
  2:{ clear Hdel.
      intros k rem hc u1 hc' (Sc & S1c & Fc & Ac & Cc)
        (d & Hd & _ & ->)%core_ok%dict_delitem_ok.
      assert (startswith k comment_token = true) as Hk by (apply Ac; by left).
      assert (l < length hc) as Hlt by by eapply lookup_lt_Some.
      assert (shrunk hc (<[l := ODict (dict_del k d)]> hc)) as Sstep.
      { eapply shrunk_write;
          [done|apply dict_del_sublist|by apply dict_del_comment|].
        apply dict_del_get. }
      split_and!; [by eapply shrunk_trans|by eapply shrunk_trans| | |].
      - intros x Hx. rewrite list_lookup_insert_ne; [by apply Fc|].
        by intros <-.
      - intros c Hc. apply Ac. by right.
      - intros c Hc Hcc. rewrite list_lookup_insert_eq by done.
        destruct (Cc c Hc Hcc) as [[->|?]%elem_of_cons|Habs]; [|by left|].
        + right. intros ? [= <-] [v Hv]%dict_keys_get.
          by rewrite dict_get_del_eq in Hv.
        + right. intros ? [= <-] Hin%dict_keys_del. by eapply Habs. }
  2:{ split_and!; [done|apply shrunk_refl|done|done|].
      intros c Hc Hcc. destruct (C1 c Hc Hcc) as [?%elem_of_nil|?]; [done|].
      by left. }
  assert (clean h2 l) as Hcl.
  { intros d Hd. apply without_comments_keys. intros k Hk.
    destruct (startswith k comment_token) eqn:Hkc; [|done].
    destruct (shrunk_dict_inv _ _ _ _ S2 Hd) as (kvs0 & Hl0 & Hsub & _).
    rewrite Hl in Hl0. injection Hl0 as <-.
    destruct (C2 k (sublist_keys _ _ _ Hsub Hk) Hkc) as [?%elem_of_nil|Habs];
      [done|]. by destruct (Habs d Hd). }
  split_and!; [done|done| |done].
  intros x Hr. inversion Hr as [|? w ? Hc Hr']; [by subst|].
  inversion Hc as [l0 kvs0 k w0 Hl0 Hw Hk]. subst.
  rewrite Hl in Hl0. injection Hl0 as <-.
  destruct (V1 k w x Hw Hk Hr') as [?%elem_of_nil|?]; [done|].
  by eapply shrunk_clean.
Qed.
End remove_sound.

Lemma remove_comments_post fuel s h r h' :
  remove_comments_from_settings fuel s h = Done (r, h') →
  remove_post h s r h'.
Proof.
  revert s h r h'. induction fuel as [|n IH]; intros s h r h' H; [done|].
  simpl in H. by eapply remove_comments_body_post.
Qed.

Lemma live_reach_snoc h v w x :
  live_reach h v w → live_child h w x → live_reach h v x.
Proof.
  induction 1 as [|v w' w Hc _ IH]; intros Hx.
  - econstructor; [done|constructor].
  - econstructor; [done|]. by apply IH.
Qed.

(** X1. After [_remove_comments_from_settings] has returned, no dict that
    can be reached from the result through dicts has a key that begins
    with [__]. *)
Theorem remove_comments_leaves_no_comment fuel s h r h' x kvs k :
  remove_comments_from_settings fuel s h = Done (r, h') →
  dict_reach h' r (VRef x) → h' !! x = Some (ODict kvs) →
  k ∈ dict_keys kvs →
  startswith k comment_token = false.
Proof.
  intros (-> & Hs & Hclean & _)%remove_comments_post Hreach Hx Hk.
  assert (live_reach h s (VRef x)) as Hlive.
  { assert (∀ v w, dict_reach h' v w → live_reach h s v → live_reach h s w)
      as Hgo; [|by eapply Hgo; [done|constructor]].
    induction 1 as [|v w y Hc _ IH]; intros Hv; [done|]. apply IH.
    destruct Hc as [l d k' w Hl Hw].
    eapply live_reach_snoc; [done|].
    apply (shrunk_live_child h h'); [done|].
    econstructor; [done..|].
    apply (proj1 (without_comments_keys d) (Hclean l Hv d Hl)).
    apply dict_keys_get. by eexists. }
  by apply (proj1 (without_comments_keys kvs) (Hclean x Hlive kvs Hx)).
Qed.

Lemma remove_comments_leaves_no_comment_witness :
  let h := [ ODict [("__b"%string, VInt 2); ("c"%string, VInt 3)];
             ODict [("__note"%string, VStr "x"); ("a"%string, VRef 0)] ] in
  startswith "a" comment_token = false
  ∧ startswith "c" comment_token = false.
Proof.
  intros h.
  pose (h' := [ ODict [("c"%string, VInt 3)]; ODict [("a"%string, VRef 0)] ]).
  assert (remove_comments_from_settings 5 (VRef 1) h = Done (VRef 1, h'))
    as Hrun by (vm_compute; reflexivity).
  split.
  - apply (remove_comments_leaves_no_comment 5 (VRef 1) h (VRef 1) h' 1
             [("a"%string, VRef 0)] "a"%string Hrun);
      [constructor|reflexivity|by left].
  - apply (remove_comments_leaves_no_comment 5 (VRef 1) h (VRef 1) h' 0
             [("c"%string, VInt 3)] "c"%string Hrun); [|reflexivity|by left].
    econstructor; [|constructor]. by eapply (dict_child_intro _ 1 _ "a"%string).
Defined.

(** X2. [_remove_comments_from_settings] returns its argument, and every
    dict it visits, that is the argument and what is below it along keys
    that are no comments, ends up with the bindings it had minus the
    comments, in the same order and with the same values. *)
Theorem remove_comments_keeps_the_rest fuel s h r h' x kvs :
  remove_comments_from_settings fuel s h = Done (r, h') →
  live_reach h s (VRef x) → h !! x = Some (ODict kvs) →
  r = s ∧ h' !! x = Some (ODict (without_comments kvs)).
Proof.
  intros (-> & Hs & Hclean & _)%remove_comments_post Hreach Hx.
  split; [done|].
  destruct (sh_dict _ _ Hs _ _ Hx) as (kvs' & Hx' & _ & Hw & _).
  by rewrite Hx', <- Hw, (Hclean x Hreach kvs' Hx').
Qed.

Lemma remove_comments_keeps_the_rest_witness :
  let h := [ ODict [("__b"%string, VInt 2); ("c"%string, VInt 3)];
             ODict [("z"%string, VNone); ("__note"%string, VStr "x");
                    ("a"%string, VRef 0)] ] in
  ∃ h', remove_comments_from_settings 5 (VRef 1) h = Done (VRef 1, h')
        ∧ h' !! 0 = Some (ODict [("c"%string, VInt 3)])
        ∧ h' !! 1 = Some (ODict [("z"%string, VNone); ("a"%string, VRef 0)]).
Proof.
  intros h.
  destruct (remove_comments_from_settings 5 (VRef 1) h) as [[r h']|e] eqn:Hrun;
    [|by vm_compute in Hrun].
  exists h'.
  edestruct (remove_comments_keeps_the_rest 5 (VRef 1) h r h' 1) as [-> H1];
    [exact Hrun|constructor|reflexivity|].
  edestruct (remove_comments_keeps_the_rest 5 (VRef 1) h (VRef 1) h' 0)
    as [_ H0]; [exact Hrun| |reflexivity|].
  { econstructor; [|constructor].
    by eapply (live_child_intro _ 1 _ "a"%string). }
  done.
Defined.

(** X3. [_remove_comments_from_settings] writes nothing but the dicts it
    visits: every list is left as it is, and so is every object that is
    not below the argument along dict keys that are no comments.  A dict
    that sits in a list keeps its comments. *)
Theorem remove_comments_frame fuel s h r h' :
  remove_comments_from_settings fuel s h = Done (r, h') →
  length h' = length h
  ∧ (∀ x items, h !! x = Some (OList items) → h' !! x = Some (OList items))
  ∧ (∀ x, ¬ live_reach h s (VRef x) → h' !! x = h !! x).
Proof.
  intros (_ & Hs & _ & Hf)%remove_comments_post.
  split_and!; [apply Hs|apply Hs|done].
Qed.

Lemma remove_comments_frame_witness :
  let h := [ ODict [("__kept"%string, VInt 1)];
             OList [VRef 0];
             ODict [("__gone"%string, VInt 2); ("xs"%string, VRef 1)] ] in
  ∃ h', remove_comments_from_settings 5 (VRef 2) h = Done (VRef 2, h')
        ∧ h' !! 0 = Some (ODict [("__kept"%string, VInt 1)])
        ∧ h' !! 1 = Some (OList [VRef 0])
        ∧ h' !! 2 = Some (ODict [("xs"%string, VRef 1)]).
Proof.
  intros h.
  destruct (remove_comments_from_settings 5 (VRef 2) h) as [[r h']|e] eqn:Hrun;
    [|by vm_compute in Hrun].
  destruct (remove_comments_frame 5 (VRef 2) h r h' Hrun) as (_ & Hl & Hf).
  assert (r = VRef 2 ∧ h' !! 2 = Some (ODict [("xs"%string, VRef 1)]))
    as [-> H2] by (vm_compute in Hrun; by simplify_eq).
  exists h'. split_and!; [done| |by apply (Hl 1)|done].
  rewrite (Hf 0); [done|].
  intros Hr. inversion Hr as [|? w ? Hc Hr']; subst.
  inversion Hc as [l kvs k w' Hlk Hw Hk]; subst.
  injection Hlk as <-. simpl in Hw.
  destruct (String.eqb k "__gone") eqn:E1.
  { apply String.eqb_eq in E1 as ->. done. }
  destruct (String.eqb k "xs") eqn:E2; [|done]. injection Hw as <-.
  apply live_reach_not_dict in Hr'; done.
Defined.

(** ** [_remove_comments_from_settings] returns on a levelled heap *)

Lemma pfold_total {A St} (I : list A → St → heap → Prop)
    (body : A → St → Py St) xs :
  (∀ x rem s h, I (x :: rem) s h →
     ∃ s' h', body x s h = Done (s', h') ∧ I rem s' h') →
  ∀ s h, I xs s h → ∃ s' h', pfold xs body s h = Done (s', h') ∧ I [] s' h'.
Proof.
  intros Hbody. induction xs as [|x xs IH]; intros s h HI; simpl.
  - by exists s, h.
  - destruct (Hbody _ _ _ _ HI) as (s1 & h1 & Hx & HI1).
    rewrite (pbind_eq _ _ _ _ _ Hx). by apply IH.
Qed.

Lemma pfor_total {A} (I : list A → heap → Prop) (body : A → Py unit) xs :
  (∀ x rem h, I (x :: rem) h → ∃ h', body x h = Done (tt, h') ∧ I rem h') →
  ∀ h, I xs h → ∃ h', pfor xs body h = Done (tt, h') ∧ I [] h'.
Proof.
  intros Hbody. induction xs as [|x xs IH]; intros h HI; simpl.
  - by exists h.
  - destruct (Hbody _ _ _ HI) as (h1 & Hx & HI1).
    rewrite (pbind_eq _ _ _ _ _ Hx). by apply IH.
Qed.

Lemma dict_get_elem k kvs w : dict_get k kvs = Some w → (k, w) ∈ kvs.
Proof.
  induction kvs as [|[k' v'] kvs IH]; simpl; [done|].
  destruct (String.eqb_spec k k') as [->|Hne].
  - intros [= ->]. by left.
  - intros ?. right. by apply IH.
Qed.

Lemma dict_get_unique k kvs w :
  NoDup (dict_keys kvs) → (k, w) ∈ kvs → dict_get k kvs = Some w.
Proof.
  unfold dict_keys. induction kvs as [|[k' v'] kvs IH]; simpl.
  { by intros _ ?%elem_of_nil. }
  intros [Hk' Hnd]%NoDup_cons [[= -> ->]|Hin]%elem_of_cons.
  - by rewrite String.eqb_refl.
  - destruct (String.eqb_spec k k') as [->|Hne]; [|by apply IH].
    destruct Hk'. apply list_elem_of_fmap. by exists (k', w).
Qed.

Lemma shrunk_child h h' x w :
  shrunk h h' → child h' (VRef x) w → child h (VRef x) w.
Proof.
  intros Hs (o & Ho & Hw)%child_obj. apply child_obj.
  destruct o as [kvs'|items].
  - destruct (shrunk_dict_inv _ _ _ _ Hs Ho) as (kvs & Hk & _ & _ & Hb).
    exists (ODict kvs). split; [done|]. destruct Hw as [k Hw]. exists k.
    by apply Hb.
  - exists (OList items). split; [|done].
    destruct (h !! x) as [[kvs|items0]|] eqn:Hx.
    + destruct (sh_dict _ _ Hs _ _ Hx) as (? & ? & _). congruence.
    + rewrite (sh_list _ _ Hs _ _ Hx) in Ho. by injection Ho as ->.
    + apply lookup_lt_Some in Ho. apply lookup_ge_None in Hx.
      rewrite (sh_len _ _ Hs) in Ho. lia.
Qed.

Lemma shrunk_graded h h' rk : shrunk h h' → graded h rk → graded h' rk.
Proof.
  intros Hs Hg x l' Hc. rewrite (sh_len _ _ Hs).
  apply Hg. by eapply shrunk_child.
Qed.

Lemma shrunk_unique_keys h h' : shrunk h h' → unique_keys h → unique_keys h'.
Proof.
  intros Hs Hu x kvs' Hx.
  destruct (shrunk_dict_inv _ _ _ _ Hs Hx) as (kvs & Hk & Hsub & _).
  eapply (sublist_NoDup (dict_keys kvs') (dict_keys kvs));
    [by eapply Hu|by apply fmap_sublist].
Qed.

Lemma live_reach_rank h rk a b :
  graded h rk → live_reach h (VRef a) (VRef b) → rk b ≤ rk a.
Proof.
  intros Hg. remember (VRef a) as va eqn:Ha. remember (VRef b) as vb eqn:Hb.
  intros Hr. revert a Ha. induction Hr as [|v w x Hc Hr IH]; intros a ->.
  - by injection Hb as ->.
  - inversion Hc as [l kvs k w' Hl Hw Hk]; subst.
    destruct w as [| | | | |c].
    1-5: inversion Hr as [|? ? ? Hc']; subst; try done; inversion Hc'.
    destruct (Hg a c) as [? _]; [by eapply child_dict|].
    specialize (IH eq_refl c eq_refl). lia.
Qed.

Section remove_total.
Context (n : nat) (rk : loc → nat) (rec : value → Py value).
Hypothesis rec_post : ∀ s h r h',
  rec s h = Done (r, h') → remove_post h s r h'.
Hypothesis rec_total : ∀ l h kvs,
  graded h rk → unique_keys h → rk l < n → h !! l = Some (ODict kvs) →
  ∃ h', rec (VRef l) h = Done (VRef l, h').

Lemma remove_comments_body_total l h kvs :
  graded h rk → unique_keys h → rk l < S n → h !! l = Some (ODict kvs) →
  ∃ h', remove_comments_body rec (VRef l) h = Done (VRef l, h').
Proof.
  intros Hg Hu Hrk Hl. unfold remove_comments_body.
  rewrite (pbind_eq _ _ _ (ODict kvs) h) by (unfold core, read; by rewrite Hl).
  set (isc := λ k, startswith k comment_token).
  match goal with
  | |- ∃ _, pbind (pfold ?xs ?body ?s0) _ _ = _ =>
      destruct (pfold_total (λ rem acc hc,
        shrunk h hc ∧ hc !! l = Some (ODict kvs)
        ∧ (∀ k, k ∈ rem → k ∈ dict_keys kvs)
        ∧ acc ++ List.filter isc rem = List.filter isc (dict_keys kvs))
        body xs) with (s := s0) (h := h)
        as (ktr & h1 & Hloop & S1 & Hl1 & _ & Hktr);
        [|split_and!; [apply shrunk_refl|exact Hl|done|done]|]
  end.
  { intros key rem acc hc (Sc & Hlc & Hrem & Hacc).
    destruct (proj1 (dict_keys_get key kvs)) as [entry Hentry];
      [apply Hrem; by left|].
    rewrite (pbind_eq _ _ _ entry hc)
      by (apply core_eq; by eapply dict_getitem_eq).
    assert (∀ k, k ∈ rem → k ∈ dict_keys kvs) as Hrem'.
    { intros k ?. apply Hrem. by right. }
    simpl in Hacc. fold (isc key). destruct (isc key) eqn:Hkey.
    { eexists _, hc. split; [done|]. split_and!; [done..|].
      by rewrite <- app_assoc. }
    rewrite (pbind_eq _ _ _ (is_dict hc entry) hc) by done.
    destruct (is_dict hc entry) eqn:Hd.
    2:{ eexists _, hc. split; [done|]. by split_and!. }
    apply is_dict_true in Hd as (e & kvs_e & -> & He).
    assert (graded hc rk) as Hgc by by eapply shrunk_graded.
    destruct (Hgc l e) as [Hre _]; [by eapply child_dict|].
    destruct (rec_total e hc kvs_e) as [hc1 Hrec];
      [done|by eapply shrunk_unique_keys|lia|done|].
    rewrite (pbind_eq _ _ _ _ _ Hrec).
    apply rec_post in Hrec as (_ & Sr & _ & Fr).
    assert (hc1 !! l = Some (ODict kvs)) as Hl1.
    { rewrite Fr; [done|]. intros Hr%(live_reach_rank _ rk); [lia|done]. }
    rewrite (pbind_eq _ _ _ tt hc1).
    2:{ apply core_eq. rewrite (dict_setitem_eq _ _ _ _ _ Hl1).
        by rewrite dict_set_same, list_insert_id. }
    eexists _, hc1. split; [done|]. split_and!; [|done..].
    by eapply shrunk_trans. }
  rewrite (pbind_eq _ _ _ _ _ Hloop). simpl in Hktr. rewrite app_nil_r in Hktr.
  edestruct (pfor_total (λ rem hc,
      ∃ d, hc !! l = Some (ODict d) ∧ NoDup rem
           ∧ ∀ k, k ∈ rem → dict_has k d = true)
      (λ k, core (dict_delitem l k)) ktr) as (h2 & Hdel & _);
    [| |by rewrite (pbind_eq _ _ _ _ _ Hdel); eexists].
  - intros k rem hc (d & Hd & [Hk Hnd]%NoDup_cons & Hall).
    eexists. split.
    { apply core_eq, dict_delitem_eq; [done|]. apply Hall. by left. }
    exists (dict_del k d). split_and!; [|done|].
    + apply list_lookup_insert_eq. by eapply lookup_lt_Some.
    + intros k' Hk'. unfold dict_has.
      rewrite dict_get_del_ne by (intros ->; done).
      apply (Hall k'). by right.
  - exists kvs. split; [done|]. rewrite Hktr. split.
    + apply NoDup_ListNoDup, List.NoDup_filter, NoDup_ListNoDup.
      by eapply Hu.
    + intros k [Hk _]%list_elem_of_In%List.filter_In.
      by apply dict_has_true, dict_keys_get, list_elem_of_In.
Qed.
End remove_total.

Lemma remove_comments_total_levelled fuel rk l h kvs :
  graded h rk → unique_keys h → rk l < fuel → h !! l = Some (ODict kvs) →
  ∃ h', remove_comments_from_settings fuel (VRef l) h = Done (VRef l, h').
Proof.
  revert l h kvs. induction fuel as [|n IH]; intros l h kvs Hg Hu Hrk Hl; [lia|].
  simpl. eapply (remove_comments_body_total n rk); eauto.
  intros. by eapply remove_comments_post.
Qed.

Lemma unique_keysb_sound h : unique_keysb h = true → unique_keys h.
Proof.
  unfold unique_keysb. rewrite forallb_forall.
  intros Hall x kvs Hx.
  assert (In (ODict kvs) h) as Hin.
  { apply list_elem_of_In. by eapply list_elem_of_lookup_2. }
  specialize (Hall _ Hin). simpl in Hall.
  by apply bool_decide_eq_true in Hall.
Qed.

(** X4. On settings that are nested to a depth the recursion limit
    allows, with no dict holding a key twice, [_remove_comments_from_settings]
    raises nothing and returns the dict it was given. *)
Theorem remove_comments_returns fuel rk l h kvs :
  graded h rk → unique_keys h → rk l < fuel → h !! l = Some (ODict kvs) →
  ∃ h', remove_comments_from_settings fuel (VRef l) h = Done (VRef l, h')
        ∧ h' !! l = Some (ODict (without_comments kvs)).
Proof.
  intros Hg Hu Hrk Hl.
  destruct (remove_comments_total_levelled fuel rk l h kvs) as [h' Hrun];
    [done..|].
  exists h'. split; [done|].
  apply remove_comments_post in Hrun as (_ & Hs & Hclean & _).
  destruct (sh_dict _ _ Hs _ _ Hl) as (kvs' & Hx' & _ & Hw & _).
  rewrite Hx', <- Hw. f_equal. f_equal. symmetry.
  apply (Hclean l); [constructor|done].
Qed.

Lemma remove_comments_returns_witness :
  let h := [ ODict [("__b"%string, VInt 2); ("c"%string, VInt 3)];
             ODict [("__note"%string, VStr "x"); ("a"%string, VRef 0);
                    ("n"%string, VInt 1)] ] in
  ∃ h', remove_comments_from_settings recursion_limit (VRef 1) h
        = Done (VRef 1, h')
        ∧ h' !! 1 = Some (ODict [("a"%string, VRef 0); ("n"%string, VInt 1)]).
Proof.
  intros h.
  apply (remove_comments_returns recursion_limit (λ x, x) 1 h
           [("__note"%string, VStr "x"); ("a"%string, VRef 0);
            ("n"%string, VInt 1)]).
  - apply gradedb_sound. vm_compute. reflexivity.
  - apply unique_keysb_sound. vm_compute. reflexivity.
  - apply Nat.ltb_lt. vm_compute. reflexivity.
  - reflexivity.
Defined.

(** ** Running [_remove_comments_from_settings] again *)

Lemma delete_loop_shrunk l ktr h u h' :
  (∀ c, c ∈ ktr → startswith c comment_token = true) →
  pfor ktr (λ k, core (dict_delitem l k)) h = Done (u, h') →
  shrunk h h'.
Proof.
  intros Hall Hdel.
  eapply (pfor_inv (λ rem hc,
    shrunk h hc ∧ ∀ c, c ∈ rem → startswith c comment_token = true))
    in Hdel as [? _]; [done| |by split; [apply shrunk_refl|]].
  intros k rem hc u1 hc' (Sc & Ac) (d & Hd & _ & ->)%core_ok%dict_delitem_ok.
  split; [|intros c ?; apply Ac; by right].
  eapply shrunk_trans; [done|].
  eapply shrunk_write; [done|apply dict_del_sublist| |apply dict_del_get].
  apply dict_del_comment, Ac. by left.
Qed.

Lemma pfold_fixed {A St} (xs : list A) (body : A → St → Py St) s h :
  (∀ x, x ∈ xs → body x s h = Done (s, h)) →
  pfold xs body s h = Done (s, h).
Proof.
  induction xs as [|x xs IH]; intros Hall; simpl; [done|].
  rewrite (pbind_eq _ _ _ s h) by (apply Hall; by left).
  apply IH. intros y ?. apply Hall. by right.
Qed.

Section remove_again.
Context (rec : value → Py value).
Hypothesis rec_post : ∀ s h r h',
  rec s h = Done (r, h') → remove_post h s r h'.
Hypothesis rec_again : ∀ s h r h1 g,
  rec s h = Done (r, h1) → shrunk h1 g → rec s g = Done (s, g).

Lemma remove_comments_body_again s h r h1 g :
  remove_comments_body rec s h = Done (r, h1) → shrunk h1 g →
  remove_comments_body rec s g = Done (s, g).
Proof.
  intros Hrun Hg.
  pose proof (remove_comments_body_post rec rec_post _ _ _ _ Hrun)
    as (_ & Hs & Hclean & _).
  assert (shrunk h g) as Hsg by by eapply shrunk_trans.
  unfold remove_comments_body in *.
  destruct s as [| | | |str|l]; try done.
  { by destruct str. }
  apply pbind_ok in Hrun as (o & hx & [-> Hl]%core_ok%read_ok & Hrun).
  destruct o as [kvs|[|key items]].
  2:{ rewrite (pbind_eq _ _ _ (OList []) g); [done|].
      unfold core, read. by rewrite (sh_list _ _ Hsg _ _ Hl). }
  2:{ by apply pbind_ok in Hrun as (? & ? & _ & ?). }
  destruct (sh_dict _ _ Hsg _ _ Hl) as (d & Hd & Hsub & Hw & _).
  rewrite (pbind_eq _ _ _ (ODict d) g) by (unfold core, read; by rewrite Hd).
  assert (without_comments d = d) as Hcd.
  { eapply shrunk_clean; [exact Hg| |exact Hd]. apply Hclean. constructor. }
  apply pbind_ok in Hrun as (ktr & h2 & Hloop & Hrun).
  apply pbind_ok in Hrun as (u & h3 & Hdel & Hrun).
  apply pret_ok in Hrun as [_ <-].
  eapply (pfold_inv (λ rem acc hc,
    shrunk h hc
    ∧ (∀ c, c ∈ acc → startswith c comment_token = true)
    ∧ ∀ k e, dict_get k kvs = Some e →
        startswith k comment_token = false → is_dict h e = true →
        k ∈ rem ∨ ∀ g', shrunk hc g' → rec e g' = Done (e, g'))) in Hloop
    as (S2 & A2 & Hdone).
  2:{ clear Hloop Hdel.
      intros key rem acc hc acc' hc' (Sc & Ac & Vc) Hbody.
      apply pbind_ok in Hbody
        as (entry & hx & [-> (kvs_c & Hlc & Hentry)]%core_ok%dict_getitem_ok
            & Hbody).
      destruct (startswith key comment_token) eqn:Hkey.
      { apply pret_ok in Hbody as [-> ->]. split_and!; [done| |].
        - intros c [?| ->%list_elem_of_singleton]%elem_of_app;
            [by apply Ac|done].
        - intros k e He Hk Hde.
          destruct (Vc k e He Hk Hde) as [[->|?]%elem_of_cons|?];
            [congruence|by left|by right]. }
      assert (dict_get key kvs = Some entry) as Hentry0
        by by rewrite <- (shrunk_get h hc l kvs kvs_c key).
      apply pbind_ok in Hbody
        as (ed & hx & [-> ->]%core_ok%isinstance_dict_ok & Hbody).
      destruct (is_dict hc entry) eqn:Hdc.
      - apply pbind_ok in Hbody as (r' & hc1 & Hrec & Hbody).
        pose proof (rec_post _ _ _ _ Hrec) as (-> & Sr & _ & _).
        apply pbind_ok in Hbody
          as (u1 & hx & (kvs1 & Hl1 & ->)%core_ok%dict_setitem_ok & Hbody).
        apply pret_ok in Hbody as [-> ->].
        rewrite dict_set_same, list_insert_id by
          (try done; by rewrite (shrunk_get hc hc1 l kvs_c kvs1 key)).
        split_and!; [by eapply shrunk_trans|done|].
        intros k e He Hk Hde.
        destruct (Vc k e He Hk Hde) as [[->|?]%elem_of_cons|Hq];
          [|by left|].
        + right. rewrite Hentry0 in He. injection He as <-.
          intros g' Hg'. by eapply rec_again.
        + right. intros g' Hg'. apply Hq. by eapply shrunk_trans.
      - apply pret_ok in Hbody as [-> ->]. split_and!; [done..|].
        intros k e He Hk Hde.
        destruct (Vc k e He Hk Hde) as [[->|?]%elem_of_cons|?];
          [|by left|by right].
        rewrite Hentry0 in He. injection He as <-.
        rewrite (shrunk_is_dict h hc) in Hdc by done. congruence. }
  2:{ split_and!; [apply shrunk_refl|by intros ? ?%elem_of_nil|].
      intros k e He _ _. left. apply dict_keys_get. by eexists. }
  assert (shrunk h2 g) as Hs2g.
  { eapply shrunk_trans; [|exact Hg]. by eapply delete_loop_shrunk. }
  rewrite (pbind_eq _ _ _ [] g); [done|].
  apply pfold_fixed. intros k Hk.
  pose proof (proj1 (without_comments_keys d) Hcd k Hk) as Hlive.
  apply dict_keys_get in Hk as [e He].
  rewrite (pbind_eq _ _ _ e g) by (apply core_eq; by eapply dict_getitem_eq).
  rewrite Hlive.
  rewrite (pbind_eq _ _ _ (is_dict g e) g) by done.
  destruct (is_dict g e) eqn:Hde; [|done].
  assert (dict_get k kvs = Some e) as He0
    by by rewrite <- (shrunk_get h g l kvs d k).
  rewrite (shrunk_is_dict h g) in Hde by done.
  destruct (Hdone k e He0 Hlive Hde) as [?%elem_of_nil|Hq]; [done|].
  rewrite (pbind_eq _ _ _ _ _ (Hq g Hs2g)).
  rewrite (pbind_eq _ _ _ tt g); [done|].
  apply core_eq. rewrite (dict_setitem_eq _ _ _ _ _ Hd).
  by rewrite dict_set_same, list_insert_id.
Qed.
End remove_again.

Lemma remove_comments_again fuel s h r h1 g :
  remove_comments_from_settings fuel s h = Done (r, h1) → shrunk h1 g →
  remove_comments_from_settings fuel s g = Done (s, g).
Proof.
  revert s h r h1 g. induction fuel as [|n IH]; intros s h r h1 g H Hg; [done|].
  simpl in *. eapply (remove_comments_body_again
                        (remove_comments_from_settings n)); [|done|done|done].
  intros. by eapply remove_comments_post.
Qed.

(** X5. [_remove_comments_from_settings] is idempotent: run on its own
    result it returns it again and changes nothing. *)
Theorem remove_comments_idempotent fuel s h r h' :
  remove_comments_from_settings fuel s h = Done (r, h') →
  remove_comments_from_settings fuel r h' = Done (r, h').
Proof.
  intros Hrun.
  pose proof (remove_comments_post _ _ _ _ _ Hrun) as (-> & _).
  eapply remove_comments_again; [done|apply shrunk_refl].
Qed.

Lemma remove_comments_idempotent_witness :
  let h := [ ODict [("__b"%string, VInt 2); ("c"%string, VInt 3)];
             ODict [("__note"%string, VStr "x"); ("a"%string, VRef 0)] ] in
  let h' := [ ODict [("c"%string, VInt 3)]; ODict [("a"%string, VRef 0)] ] in
  remove_comments_from_settings 5 (VRef 1) h' = Done (VRef 1, h').
Proof.
  intros h h'.
  apply (remove_comments_idempotent 5 (VRef 1) h (VRef 1) h').
  vm_compute. reflexivity.
Defined.

(** ** [_replace_variables] keeps the shape of every object *)

Lemma dict_keys_set_in k v d :
  k ∈ dict_keys d → dict_keys (dict_set k v d) = dict_keys d.
Proof.
  unfold dict_keys. induction d as [|[k' v'] d IH]; simpl.
  { by intros ?%elem_of_nil. }
  destruct (String.eqb_spec k k') as [->|Hne]; [done|].
  intros [?|?]%elem_of_cons; [done|]. simpl. f_equal. by apply IH.
Qed.

Lemma same_shape_refl h : same_shape h h.
Proof. split; [done|intros x kvs ?; by exists kvs|intros x xs ?; by exists xs]. Qed.

Lemma same_shape_trans h1 h2 h3 :
  same_shape h1 h2 → same_shape h2 h3 → same_shape h1 h3.
Proof.
  intros [L1 D1 I1] [L2 D2 I2]. split.
  - congruence.
  - intros x kvs Hx. destruct (D1 _ _ Hx) as (k2 & H2 & E2).
    destruct (D2 _ _ H2) as (k3 & H3 & E3). exists k3. split; congruence.
  - intros x xs Hx. destruct (I1 _ _ Hx) as (k2 & H2 & E2).
    destruct (I2 _ _ H2) as (k3 & H3 & E3). exists k3. split; congruence.
Qed.

Lemma same_shape_setitem h l kvs k v :
  h !! l = Some (ODict kvs) → k ∈ dict_keys kvs →
  same_shape h (<[l := ODict (dict_set k v kvs)]> h).
Proof.
  intros Hl Hk. assert (l < length h) by by eapply lookup_lt_Some.
  split.
  - by rewrite length_insert.
  - intros x d Hx. destruct (decide (x = l)) as [->|Hne].
    + rewrite Hl in Hx. injection Hx as <-. eexists.
      split; [by apply list_lookup_insert_eq|by apply dict_keys_set_in].
    + exists d. by rewrite list_lookup_insert_ne.
  - intros x xs Hx. exists xs. rewrite list_lookup_insert_ne; [done|congruence].
Qed.

Lemma same_shape_list_setitem h l items i v :
  h !! l = Some (OList items) →
  same_shape h (<[l := OList (<[i := v]> items)]> h).
Proof.
  intros Hl. assert (l < length h) by by eapply lookup_lt_Some.
  split.
  - by rewrite length_insert.
  - intros x d Hx. exists d. rewrite list_lookup_insert_ne; [done|congruence].
  - intros x xs Hx. destruct (decide (x = l)) as [->|Hne].
    + rewrite Hl in Hx. injection Hx as <-. eexists.
      split; [by apply list_lookup_insert_eq|by rewrite length_insert].
    + exists xs. by rewrite list_lookup_insert_ne.
Qed.

Lemma lookup_path_heap s path h v h' :
  lookup_path s path h = Ok (v, h') → h' = h.
Proof.
  revert s. induction path as [|first_bit rest IH]; intros s H; simpl in H.
  { by apply ret_ok in H as [_ ->]. }
  apply bind_ok in H as (present & h1 & ->%py_contains_ok & H).
  destruct present; [|by apply ret_ok in H as [_ ->]].
  destruct rest as [|seg rest].
  - by apply py_getitem_ok in H as [-> _].
  - apply bind_ok in H as (s' & h1 & [-> _]%py_getitem_ok & H). eauto.
Qed.

Lemma fold_each_inv {A St} (I : list A → St → heap → Prop)
    (body : A → St → M St) xs :
  (∀ x rem s h s' h', I (x :: rem) s h → body x s h = Ok (s', h') →
                      I rem s' h') →
  ∀ s h s' h', I xs s h → fold_each xs body s h = Ok (s', h') → I [] s' h'.
Proof.
  intros Hbody. induction xs as [|x xs IH]; intros s h s' h' HI H; simpl in H.
  - by apply ret_ok in H as [-> ->].
  - apply bind_ok in H as (s1 & h1 & Hx & H). eauto.
Qed.

Lemma enumerate_fold_inv {St} (I : St → heap → Prop) l
    (body : nat → value → St → M St) :
  (∀ i item s h s' h', I s h → body i item s h = Ok (s', h') → I s' h') →
  ∀ n i s h s' h', I s h → enumerate_fold l i n body s h = Ok (s', h') →
    I s' h'.
Proof.
  intros Hbody. induction n as [|n IH]; intros i s h s' h' HI H; simpl in H.
  - by apply ret_ok in H as [-> ->].
  - apply bind_ok in H as (items & h1 & [-> _]%read_list_ok & H).
    destruct (items !! i) as [item|].
    + apply bind_ok in H as (s1 & h1 & Hx & H). eauto.
    + by apply ret_ok in H as [-> ->].
Qed.

Section replace_shape.
Context (settings : value) (rec : value → M (value * nat)).
Hypothesis rec_shape : ∀ node h v c h',
  rec node h = Ok ((v, c), h') → same_shape h h'.

Lemma do_replace_body_shape node h v c h' :
  do_replace_body rec settings node h = Ok ((v, c), h') → same_shape h h'.
Proof.
  intros H. unfold do_replace_body in H.
  destruct node as [| | | |s|l].
  1-4: apply ret_ok in H as [_ ->]; apply same_shape_refl.
  - destruct (startswith s var_token).
    + apply bind_ok in H as (var_value & h1 & ->%lookup_path_heap & H).
      destruct var_value; try done; apply ret_ok in H as [_ ->];
        apply same_shape_refl.
    + apply ret_ok in H as [_ ->]. apply same_shape_refl.
  - apply bind_ok in H as (o & h1 & [-> Hl]%read_ok & H).
    destruct o as [kvs|items].
    + apply bind_ok in H as ([reps changes] & h1 & Hfold & H).
      apply bind_ok in H as (u & h2 & Hwrite & H).
      apply ret_ok in H as [_ ->].
      eapply (fold_each_inv (λ _ '(reps, _) hc,
        same_shape h hc ∧ ∀ k r, (k, r) ∈ reps → k ∈ dict_keys kvs))
        in Hfold as [S1 K1].
      2:{ intros key rem [reps0 c0] hc [reps1 c1] hc' [Sc Kc] Hbody.
          apply bind_ok in Hbody
            as (entry & hx & [-> (d & Hd & Hentry)]%dict_getitem_ok & Hbody).
          apply bind_ok in Hbody as ([replacement ch] & hc1 & Hrec & Hbody).
          apply rec_shape in Hrec.
          assert (key ∈ dict_keys kvs) as Hkey.
          { destruct (ss_dict _ _ Sc _ _ Hl) as (d' & Hd' & <-).
            rewrite Hd in Hd'. injection Hd' as <-.
            apply dict_keys_get. by eexists. }
          case_decide; apply ret_ok in Hbody as [[= -> ->] ->];
            (split; [by eapply same_shape_trans|]); [|done].
          intros k r [[= -> ->]|?]%dict_set_elem; eauto. }
      2:{ split; [apply same_shape_refl|]. by intros k r ?%elem_of_nil. }
      case_decide; [|apply ret_ok in Hwrite as [_ ->]; done].
      eapply (for_each_inv (λ rem hc,
        same_shape h hc ∧ ∀ k r, (k, r) ∈ rem → k ∈ dict_keys kvs))
        in Hwrite as [? _]; [done| |done].
      intros [key r] rem hc u1 hc' [Sc Kc] (d & Hd & ->)%dict_setitem_ok.
      split; [|intros k' r' ?; apply (Kc k' r'); by right].
      eapply same_shape_trans; [done|].
      apply same_shape_setitem; [done|].
      destruct (ss_dict _ _ Sc _ _ Hl) as (d' & Hd' & Heq).
      rewrite Hd in Hd'. injection Hd' as <-. rewrite Heq.
      apply (Kc key r). by left.
    + apply bind_ok in H as ([reps changes] & h1 & Hfold & H).
      apply bind_ok in H as (u & h2 & Hwrite & H).
      apply ret_ok in H as [_ ->].
      eapply (enumerate_fold_inv (λ _ hc, same_shape h hc)) in Hfold.
      2:{ intros i item [reps0 c0] hc [reps1 c1] hc' Sc Hbody.
          apply bind_ok in Hbody as ([replacement ch] & hc1 & Hrec & Hbody).
          apply rec_shape in Hrec.
          case_decide; apply ret_ok in Hbody as [_ ->];
            by eapply same_shape_trans. }
      2:{ apply same_shape_refl. }
      case_decide; [|apply ret_ok in Hwrite as [_ ->]; done].
      eapply (for_each_inv (λ _ hc, same_shape h hc)) in Hwrite; [done| |done].
      intros [i r] rem hc u1 hc' Sc (xs & Hxs & _ & ->)%list_setitem_ok.
      eapply same_shape_trans; [done|]. by apply same_shape_list_setitem.
Qed.
End replace_shape.

Lemma do_replace_variables_shape fuel settings node h v c h' :
  do_replace_variables fuel settings node h = Ok ((v, c), h') →
  same_shape h h'.
Proof.
  revert node h v c h'. induction fuel as [|n IH]; intros node h v c h' H;
    [done|].
  simpl in H. eapply do_replace_body_shape; eauto.
Qed.

Lemma replace_loop_shape fuel settings failsafe result changes h log r h' :
  replace_loop fuel settings failsafe result changes h = (log, Ok (r, h')) →
  same_shape h h'.
Proof.
  revert result changes h log.
  induction failsafe as [|fs IH]; intros result changes h log H; simpl in H.
  { injection H as _ _ <-. apply same_shape_refl. }
  case_decide; [|injection H as _ _ <-; apply same_shape_refl].
  destruct (do_replace_variables fuel settings result h)
    as [[[result' changes'] h1]|e] eqn:Hpass; [|done].
  destruct (replace_loop fuel settings fs result' changes' h1)
    as [log1 out] eqn:Hloop.
  injection H as _ ->.
  eapply same_shape_trans; [by eapply do_replace_variables_shape|eauto].
Qed.

(** X6. [_replace_variables] replaces values and nothing else: it returns
    a new dict with the keys of its argument, in their order, and in the
    objects that were there no dict has gained, lost or moved a key and no
    list has changed its length. *)
Theorem replace_variables_keeps_shape fuel s h kvs log r h' :
  h !! s = Some (ODict kvs) →
  replace_variables_log fuel s h = (log, Ok (r, h')) →
  r = VRef (length h)
  ∧ (∃ kvs', h' !! length h = Some (ODict kvs')
             ∧ dict_keys kvs' = dict_keys kvs)
  ∧ (∀ x d, h !! x = Some (ODict d) →
       ∃ d', h' !! x = Some (ODict d') ∧ dict_keys d' = dict_keys d)
  ∧ (∀ x items, h !! x = Some (OList items) →
       ∃ items', h' !! x = Some (OList items')
                 ∧ length items' = length items).
Proof.
  intros Hs H. unfold replace_variables_log in H.
  destruct (bind _ _ h) as [[result h0]|e] eqn:Hcopy; [|by simplify_eq].
  apply bind_ok in Hcopy as (kvs0 & h1 & [-> Hs0]%read_dict_ok & Halloc).
  injection Halloc as <- <-. rewrite Hs in Hs0. injection Hs0 as <-.
  pose proof (replace_loop_shape _ _ _ _ _ _ _ _ _ H) as [L D I].
  split_and!.
  - by eapply replace_loop_ref.
  - apply D. by rewrite lookup_app_r, Nat.sub_diag.
  - intros x d Hx. apply D. by apply lookup_app_l_Some.
  - intros x xs Hx. apply I. by apply lookup_app_l_Some.
Qed.

Lemma replace_variables_keeps_shape_witness :
  let h := [ OList [VStr "$$b"; VInt 0];
             ODict [("a"%string, VRef 0); ("b"%string, VInt 5)] ] in
  ∃ log h',
    replace_variables_log recursion_limit 1 h = (log, Ok (VRef 2, h'))
    ∧ (∃ kvs', h' !! 2 = Some (ODict kvs')
               ∧ dict_keys kvs' = ["a"; "b"]%string)
    ∧ (∃ items', h' !! 0 = Some (OList items') ∧ length items' = 2).
Proof.
  intros h.
  destruct (replace_variables_log recursion_limit 1 h)
    as [log [[r h']|e]] eqn:Hrun; [|by vm_compute in Hrun].
  destruct (replace_variables_keeps_shape recursion_limit 1 h
              [("a"%string, VRef 0); ("b"%string, VInt 5)] log r h')
    as (-> & Hk & _ & Hi); [reflexivity|exact Hrun|].
  exists log, h'. split_and!; [done|done|].
  by apply (Hi 0 [VStr "$$b"; VInt 0]).
Defined.

(** ** Comments cannot be referred to *)

Lemma remove_post_dict h s r h' x kvs :
  remove_post h s r h' → live_reach h s (VRef x) →
  h !! x = Some (ODict kvs) →
  h' !! x = Some (ODict (without_comments kvs)).
Proof.
  intros (_ & Hs & Hclean & _) Hreach Hx.
  destruct (sh_dict _ _ Hs _ _ Hx) as (kvs' & Hx' & _ & Hw & _).
  by rewrite Hx', <- Hw, (Hclean x Hreach kvs' Hx').
Qed.

Lemma split_on_comment var :
  startswith var comment_token = true →
  ∃ first rest, split_on "." var = first :: rest
                ∧ startswith first comment_token = true.
Proof.
  unfold startswith, comment_token.
  destruct var as [|a [|b t]]; cbn [String.prefix].
  - done.
  - by destruct (ascii_dec "_" a).
  - destruct (ascii_dec "_" a) as [<-|]; [|done].
    destruct (ascii_dec "_" b) as [<-|]; [|done]. intros _.
    cbn [split_on]. change (Ascii.eqb "_" ".") with false. cbn iota.
    destruct (split_on "." t) as [|[|c hd] tl]; eexists _, _;
      (split; [reflexivity|]); reflexivity.
Qed.

Lemma comment_not_in_clean first kvs :
  startswith first comment_token = true → without_comments kvs = kvs →
  dict_has first kvs = false.
Proof.
  intros Hf Hc. unfold dict_has.
  destruct (dict_get first kvs) as [v|] eqn:Hv; [|done].
  assert (first ∈ dict_keys kvs) as Hin by (apply dict_keys_get; by eexists).
  apply (proj1 (without_comments_keys kvs) Hc) in Hin. congruence.
Qed.

Lemma comment_not_in_str first :
  startswith first comment_token = true → str_contains first "" = false.
Proof.
  unfold startswith, comment_token. destruct first as [|a t]; [done|]. done.
Qed.

Lemma remove_comments_hides fuel s h r h' first :
  remove_comments_from_settings fuel s h = Done (r, h') →
  startswith first comment_token = true →
  py_contains r first h' = Ok (false, h').
Proof.
  intros Hrun Hf. pose proof (remove_comments_post _ _ _ _ _ Hrun) as Hpost.
  destruct Hpost as (-> & Hs & Hclean & _).
  destruct fuel as [|n]; [done|]. simpl in Hrun.
  unfold remove_comments_body in Hrun.
  destruct s as [| | | |str|l]; try done.
  { destruct str; [|done]. unfold py_contains, ret.
    by rewrite comment_not_in_str. }
  apply pbind_ok in Hrun as (o & hx & [-> Hl]%core_ok%read_ok & Hrun).
  unfold py_contains. destruct o as [kvs|[|key items]].
  - destruct (sh_dict _ _ Hs _ _ Hl) as (kvs' & Hl' & _).
    rewrite (bind_eq _ _ _ (ODict kvs') h') by (unfold read; by rewrite Hl').
    unfold ret. rewrite comment_not_in_clean; [done..|].
    apply (Hclean l); [constructor|done].
  - rewrite (bind_eq _ _ _ (OList []) h'); [done|].
    unfold read. by rewrite (sh_list _ _ Hs _ _ Hl).
  - by apply pbind_ok in Hrun as (? & ? & _ & ?).
Qed.

(** X7. What [_remove_comments_from_settings] returns has no variable
    whose name begins with [__]: the lookup finds nothing, and a
    reference [$$__...] to a comment raises [ValueError]. *)
Theorem comment_variables_are_not_found fuel s h r h' var :
  remove_comments_from_settings fuel s h = Done (r, h') →
  startswith var comment_token = true →
  lookup_variable_in_settings r var h' = Ok (VNone, h')
  ∧ ∀ n, do_replace_variables (S n) r (VStr (var_token +:+ var)) h'
         = Raise (ValueError var).
Proof.
  intros Hrun Hvar.
  assert (lookup_variable_in_settings r var h' = Ok (VNone, h')) as Hlook.
  { unfold lookup_variable_in_settings.
    destruct (split_on_comment var Hvar) as (first & rest & -> & Hf).
    simpl. by rewrite (bind_eq _ _ _ _ _
                         (remove_comments_hides _ _ _ _ _ _ Hrun Hf)). }
  split; [done|]. intros n. cbn [do_replace_variables].
  unfold do_replace_body.
  change (startswith (var_token +:+ var) var_token) with (String.prefix "" var).
  assert (String.prefix "" var = true) as -> by by destruct var.
  change (drop_str (String.length var_token) (var_token +:+ var))
    with (drop_str 0 var).
  assert (drop_str 0 var = var) as -> by by destruct var.
  by rewrite (bind_eq _ _ _ _ _ Hlook).
Qed.

Lemma comment_variables_are_not_found_witness :
  let h := [ ODict [("__rate"%string, VInt 7); ("a"%string, VStr "$$__rate")] ] in
  ∃ h', remove_comments_from_settings 5 (VRef 0) h = Done (VRef 0, h')
        ∧ lookup_variable_in_settings (VRef 0) "__rate" h' = Ok (VNone, h').
Proof.
  intros h. exists [ ODict [("a"%string, VStr "$$__rate")] ].
  assert (remove_comments_from_settings 5 (VRef 0) h
          = Done (VRef 0, [ ODict [("a"%string, VStr "$$__rate")] ])) as Hrun
    by (vm_compute; reflexivity).
  split; [exact Hrun|].
  apply (comment_variables_are_not_found 5 (VRef 0) h _ _ "__rate" Hrun).
  reflexivity.
Defined.

(** ** [_process_settings] *)

Lemma py_copy_dict l h kvs :
  h !! l = Some (ODict kvs) →
  py_copy (VRef l) h = Done (VRef (length h), h ++ [ODict kvs]).
Proof. intros Hl. unfold py_copy, pbind, core, read. by rewrite Hl. Qed.

Lemma replace_variables_any_dict fuel s h kvs :
  h !! s = Some (ODict kvs) →
  replace_variables_any fuel (VRef s) h = core (replace_variables fuel s) h.
Proof.
  intros Hs. unfold replace_variables_any.
  rewrite (pbind_eq _ _ _ _ _ (py_copy_dict _ _ _ Hs)).
  unfold core, replace_variables, replace_variables_log.
  by rewrite (bind_eq _ _ _ kvs h) by by apply read_dict_eq.
Qed.

Lemma replace_variables_any_ok fuel s h kvs r h' :
  h !! s = Some (ODict kvs) →
  replace_variables_any fuel (VRef s) h = Done (r, h') →
  r = VRef (length h)
  ∧ same_shape (h ++ [ODict kvs]) h'
  ∧ ∃ log, replace_variables_log fuel s h = (log, Ok (r, h')).
Proof.
  intros Hs H. rewrite (replace_variables_any_dict _ _ _ _ Hs) in H.
  apply core_ok in H. unfold replace_variables in H.
  destruct (replace_variables_log fuel s h) as [log out] eqn:Hlog.
  simpl in H. subst out. pose proof Hlog as Hrun.
  unfold replace_variables_log in Hlog.
  rewrite (bind_eq _ _ _ kvs h) in Hlog by by apply read_dict_eq.
  unfold alloc in Hlog. split_and!; [|by eapply replace_loop_shape|by exists log].
  by eapply replace_loop_ref.
Qed.

Lemma live_child_app h o v w : live_child h v w → live_child (h ++ [o]) v w.
Proof.
  intros [l kvs k w' Hl Hw Hk]. econstructor; [|done..].
  by apply lookup_app_l_Some.
Qed.

Lemma live_reach_app h o v w : live_reach h v w → live_reach (h ++ [o]) v w.
Proof.
  induction 1 as [|v w x Hc _ IH]; [constructor|].
  econstructor; [|done]. by apply live_child_app.
Qed.

(** The three steps of [_process_settings] on a dict. *)
Lemma process_settings_steps fuel l h kvs r h' :
  h !! l = Some (ODict kvs) →
  process_settings fuel (VRef l) h = Done (r, h') →
  ∃ h2 log,
    remove_post (h ++ [ODict kvs]) (VRef (length h)) (VRef (length h)) h2
    ∧ h2 !! length h = Some (ODict (without_comments kvs))
    ∧ replace_variables_log fuel (length h) h2 = (log, Ok (r, h'))
    ∧ r = VRef (S (length h))
    ∧ same_shape (h2 ++ [ODict (without_comments kvs)]) h'.
Proof.
  intros Hl H. unfold process_settings in H.
  rewrite (pbind_eq _ _ _ _ _ (py_copy_dict _ _ _ Hl)) in H.
  apply pbind_ok in H as (s2 & h2 & Hrem & H).
  apply remove_comments_post in Hrem. pose proof Hrem as (-> & Hs & _).
  assert (h2 !! length h = Some (ODict (without_comments kvs))) as Hc.
  { eapply remove_post_dict; [done|constructor|].
    by rewrite lookup_app_r, Nat.sub_diag. }
  destruct (replace_variables_any_ok _ _ _ _ _ _ Hc H) as (-> & Hsh & log & Hlog).
  exists h2, log. split_and!; [done..| |done].
  rewrite (sh_len _ _ Hs), length_app. simpl. f_equal. lia.
Qed.

(** X8. [_process_settings] returns a new dict whose keys are the keys of
    its argument that are no comments, in their order. *)
Theorem process_settings_result fuel l h kvs r h' :
  h !! l = Some (ODict kvs) →
  process_settings fuel (VRef l) h = Done (r, h') →
  r = VRef (S (length h))
  ∧ ∃ kvs', h' !! S (length h) = Some (ODict kvs')
            ∧ dict_keys kvs' = dict_keys (without_comments kvs).
Proof.
  intros Hl H.
  destruct (process_settings_steps _ _ _ _ _ _ Hl H)
    as (h2 & log & (_ & Hs & _) & Hc & _ & -> & [L D I]).
  split; [done|]. apply D.
  assert (length h2 = S (length h)) as <-.
  { rewrite (sh_len _ _ Hs), length_app. simpl. lia. }
  by rewrite lookup_app_r, Nat.sub_diag.
Qed.

Lemma process_settings_result_witness :
  let h := [ ODict [("__note"%string, VStr "x"); ("a"%string, VStr "$$b");
                    ("b"%string, VInt 5)] ] in
  ∃ h' kvs', process_settings recursion_limit (VRef 0) h = Done (VRef 2, h')
             ∧ h' !! 2 = Some (ODict kvs')
             ∧ dict_keys kvs' = ["a"; "b"]%string.
Proof.
  intros h.
  destruct (process_settings recursion_limit (VRef 0) h)
    as [[r h']|e] eqn:Hrun; [|by vm_compute in Hrun].
  destruct (process_settings_result recursion_limit 0 h
              [("__note"%string, VStr "x"); ("a"%string, VStr "$$b");
               ("b"%string, VInt 5)] r h')
    as (-> & kvs' & Hk & Hkeys); [reflexivity|exact Hrun|].
  by exists h', kvs'.
Defined.

(** X9. The copy [_process_settings] works on is shallow: the dicts below
    the argument, along keys that are no comments, are the caller's own,
    and they lose their comments. *)
Theorem process_settings_strips_nested fuel l h kvs r h' k w x d :
  h !! l = Some (ODict kvs) →
  process_settings fuel (VRef l) h = Done (r, h') →
  dict_get k kvs = Some w → startswith k comment_token = false →
  live_reach h w (VRef x) → h !! x = Some (ODict d) →
  ∃ d', h' !! x = Some (ODict d')
        ∧ dict_keys d' = dict_keys (without_comments d).
Proof.
  intros Hl H Hw Hk Hr Hx.
  destruct (process_settings_steps _ _ _ _ _ _ Hl H)
    as (h2 & log & Hrem & _ & _ & _ & [L D I]).
  apply D, lookup_app_l_Some. eapply remove_post_dict; [done| |].
  - econstructor; [|by apply live_reach_app].
    econstructor; [|done..]. by rewrite lookup_app_r, Nat.sub_diag.
  - by apply lookup_app_l_Some.
Qed.

Lemma process_settings_strips_nested_witness :
  let h := [ ODict [("__b"%string, VInt 2); ("c"%string, VInt 3)];
             ODict [("a"%string, VRef 0)] ] in
  ∃ d', (∃ r h', process_settings recursion_limit (VRef 1) h = Done (r, h')
                 ∧ h' !! 0 = Some (ODict d'))
        ∧ dict_keys d' = ["c"]%string.
Proof.
  intros h.
  destruct (process_settings recursion_limit (VRef 1) h)
    as [[r h']|e] eqn:Hrun; [|by vm_compute in Hrun].
  destruct (process_settings_strips_nested recursion_limit 1 h
              [("a"%string, VRef 0)] r h' "a"%string (VRef 0) 0
              [("__b"%string, VInt 2); ("c"%string, VInt 3)])
    as (d' & Hd & Hkeys);
    [reflexivity|exact Hrun|reflexivity|reflexivity|constructor|reflexivity|].
  exists d'. split; [|done]. by exists r, h'.
Defined.

Lemma replace_variables_frame_level fuel h rk s log r h' x :
  graded h rk →
  replace_variables_log fuel s h = (log, Ok (r, h')) →
  x < length h → rk s ≤ rk x → h' !! x = h !! x.
Proof.
  intros Hg H Hx Hrk. unfold replace_variables_log in H.
  destruct (bind _ _ h) as [[result h0]|e] eqn:Hcopy; [|by simplify_eq].
  apply bind_ok in Hcopy as (kvs & h1 & [-> Hs]%read_dict_ok & Halloc).
  injection Halloc as <- <-.
  assert (s < length h) as Hlt by by eapply lookup_lt_Some.
  eapply (replace_loop_frame _ (λ y, rk y < rk s ∨ y = length h) (VRef s))
    in H as (_ & _ & _ & Hfr).
  - rewrite Hfr by (intros [?| ->]; lia). by apply lookup_app_l.
  - assert (∀ w, child h (VRef s) w →
                 in_set (λ y, rk y < rk s ∨ y = length h) w) as Hbelow.
    { intros w Hw l' ->. left. destruct (Hg _ _ Hw). lia. }
    split.
    + intros y l' Hy (o & Ho & Hw)%child_obj.
      apply lookup_app_Some in Ho as [Ho|[Hge Ho]].
      * destruct (Hg y l') as [Hr _]; [apply child_obj; eauto|].
        destruct Hy as [?| ->]; [left; lia|].
        apply lookup_lt_Some in Ho. lia.
      * apply list_lookup_singleton_Some in Ho as [_ <-].
        apply (Hbelow (VRef l')); [|done]. apply child_obj. eauto.
    + intros w (o & Ho & Hw)%child_obj. rewrite lookup_app_l in Ho by done.
      apply Hbelow, child_obj. eauto.
  - intros ? [= <-]. by right.
Qed.

Lemma live_reach_below h rk a b :
  graded h rk → live_reach h (VRef a) (VRef b) → a = b ∨ rk b < rk a.
Proof.
  intros Hg Hr. inversion Hr as [|? w ? Hc Hr']; [by left|subst]. right.
  inversion Hc as [l kvs k w' Hl Hw Hk]; subst.
  destruct w as [| | | | |c].
  1-5: inversion Hr' as [|? ? ? Hc']; subst; inversion Hc'.
  destruct (Hg a c) as [? _]; [by eapply child_dict|].
  pose proof (live_reach_rank _ _ _ _ Hg Hr'). lia.
Qed.

(** X10. On a levelled heap [_process_settings] leaves the dict it is
    given as it is, comments included: what it removes at the top it
    removes from its copy. *)
Theorem process_settings_keeps_top_level fuel rk l h kvs r h' :
  graded h rk → h !! l = Some (ODict kvs) →
  process_settings fuel (VRef l) h = Done (r, h') →
  h' !! l = Some (ODict kvs).
Proof.
  intros Hg Hl H.
  destruct (process_settings_steps _ _ _ _ _ _ Hl H)
    as (h2 & log & Hrem & _ & Hlog & _ & _).
  assert (l < length h) as Hlt by by eapply lookup_lt_Some.
  destruct (merge_post_alloc h rk l kvs Hg Hl) as (Hg1 & _).
  set (rk1 := λ x, if decide (x = length h) then rk l else rk x) in *.
  assert (rk1 l = rk l) as Hrl by (unfold rk1; by rewrite decide_False by lia).
  assert (rk1 (length h) = rk l) as Hrc by (unfold rk1; by rewrite decide_True).
  destruct Hrem as (_ & Hs & _ & Hfr).
  assert (graded h2 rk1) as Hg2 by by eapply shrunk_graded.
  rewrite (replace_variables_frame_level _ _ _ _ _ _ _ l Hg2 Hlog).
  - rewrite Hfr; [by apply lookup_app_l_Some|].
    intros [?|?]%(live_reach_below _ rk1); [lia|lia|done].
  - rewrite (sh_len _ _ Hs), length_app. simpl. lia.
  - lia.
Qed.

Lemma process_settings_keeps_top_level_witness :
  let h := [ ODict [("__note"%string, VStr "x"); ("a"%string, VStr "$$b");
                    ("b"%string, VInt 5)] ] in
  ∃ r h', process_settings recursion_limit (VRef 0) h = Done (r, h')
          ∧ h' !! 0 = h !! 0.
Proof.
  intros h.
  destruct (process_settings recursion_limit (VRef 0) h)
    as [[r h']|e] eqn:Hrun; [|by vm_compute in Hrun].
  exists r, h'. split; [done|].
  apply (process_settings_keeps_top_level recursion_limit (λ _, 0) 0 h
           [("__note"%string, VStr "x"); ("a"%string, VStr "$$b");
            ("b"%string, VInt 5)] r h').
  - apply gradedb_sound. vm_compute. reflexivity.
  - reflexivity.
  - exact Hrun.
Defined.

(** ** Keys without a flag are never lost *)

Lemma dict_keys_set_mono k v d k' :
  k' ∈ dict_keys d → k' ∈ dict_keys (dict_set k v d).
Proof.
  intros [w Hw]%dict_keys_get. apply dict_keys_get.
  destruct (decide (k = k')) as [->|Hne].
  - rewrite dict_get_set_eq. by eexists.
  - rewrite dict_get_set_ne by done. by eexists.
Qed.

Lemma dict_keys_set_self k v d : k ∈ dict_keys (dict_set k v d).
Proof. apply dict_keys_get. rewrite dict_get_set_eq. by eexists. Qed.

Lemma dict_keys_del_other k d k' :
  k' ≠ k → k' ∈ dict_keys d → k' ∈ dict_keys (dict_del k d).
Proof.
  intros Hne [w Hw]%dict_keys_get. apply dict_keys_get.
  rewrite dict_get_del_ne by done. by eexists.
Qed.

Lemma keeps_plain_refl h : keeps_plain h h.
Proof. split; [done|]. intros x kvs Hx. by exists kvs. Qed.

Lemma keeps_plain_trans h1 h2 h3 :
  keeps_plain h1 h2 → keeps_plain h2 h3 → keeps_plain h1 h3.
Proof.
  intros [L12 H12] [L23 H23]. split; [lia|]. intros x kvs Hx.
  destruct (H12 _ _ Hx) as (kvs2 & Hx2 & K2).
  destruct (H23 _ _ Hx2) as (kvs3 & Hx3 & K3). exists kvs3. eauto.
Qed.

Lemma keeps_plain_dict h l kvs kvs' :
  h !! l = Some (ODict kvs) →
  (∀ k, flagged k = false → k ∈ dict_keys kvs → k ∈ dict_keys kvs') →
  keeps_plain h (<[l := ODict kvs']> h).
Proof.
  intros Hl Hk. split; [by rewrite length_insert|]. intros x d Hx.
  assert (l < length h) by by eapply lookup_lt_Some.
  destruct (decide (x = l)) as [->|Hne].
  - rewrite Hl in Hx. injection Hx as <-. exists kvs'.
    by rewrite list_lookup_insert_eq.
  - exists d. by rewrite list_lookup_insert_ne.
Qed.

Lemma keeps_plain_list h l items items' :
  h !! l = Some (OList items) → keeps_plain h (<[l := OList items']> h).
Proof.
  intros Hl. split; [by rewrite length_insert|].
  intros x d Hx. exists d. split; [|done].
  rewrite list_lookup_insert_ne; [done|congruence].
Qed.

Lemma keeps_plain_alloc h o : keeps_plain h (h ++ [o]).
Proof.
  split; [rewrite length_app; lia|].
  intros x d Hx. exists d. split; [by apply lookup_app_l_Some|done].
Qed.

Lemma keeps_plain_setitem l k v h u h' :
  dict_setitem l k v h = Ok (u, h') →
  keeps_plain h h'
  ∧ ∃ kvs', h' !! l = Some (ODict kvs') ∧ k ∈ dict_keys kvs'.
Proof.
  intros (kvs & Hl & ->)%dict_setitem_ok. split.
  - eapply keeps_plain_dict; [done|]. intros ? _ ?. by apply dict_keys_set_mono.
  - eexists. split; [|apply dict_keys_set_self].
    apply list_lookup_insert_eq. by eapply lookup_lt_Some.
Qed.

Lemma keeps_plain_delitem l k h u h' :
  flagged k = true → dict_delitem l k h = Ok (u, h') → keeps_plain h h'.
Proof.
  intros Hk (kvs & Hl & _ & ->)%dict_delitem_ok.
  eapply keeps_plain_dict; [done|]. intros k' Hk' Hin.
  apply dict_keys_del_other; [|done]. intros ->. congruence.
Qed.

Lemma keeps_plain_bound h h' x kvs k :
  keeps_plain h h' → h !! x = Some (ODict kvs) → flagged k = false →
  k ∈ dict_keys kvs →
  ∃ kvs', h' !! x = Some (ODict kvs') ∧ k ∈ dict_keys kvs'.
Proof.
  intros [_ Hp] Hx Hk Hin. destruct (Hp _ _ Hx) as (kvs' & Hx' & K). eauto.
Qed.

Section strip_plain.
Context (rec : value → M value).
Hypothesis rec_plain : ∀ v h r h', rec v h = Ok (r, h') → keeps_plain h h'.

Lemma strip_items_plain xs h u h' :
  strip_items rec xs h = Ok (u, h') → keeps_plain h h'.
Proof.
  unfold strip_items, enumerate. intros H.
  apply bind_ok in H as (items & h1 & [-> Hl]%read_list_ok & H).
  eapply (enumerate_from_inv (λ _ hc, keeps_plain h hc)) in H
    as (_ & ? & _); [done| |apply keeps_plain_refl].
  intros i item hc items_c u1 hc' He Hlc Hitem Hbody.
  apply strip_item_ok in Hbody as [_ -> | r hb items_b _ Hrec Hb Hi ->];
    [done|].
  eapply keeps_plain_trans; [done|].
  eapply keeps_plain_trans; [by eapply rec_plain|].
  by eapply keeps_plain_list.
Qed.

Lemma strip_key_plain l key_ h u h' :
  strip_key rec l key_ h = Ok (u, h') → keeps_plain h h'.
Proof.
  intros [kvs Hk Hnone -> | kvs entry key hr entry' hb kvs_b
                             Hk Hentry Hloop Hrun Hb ->]%strip_key_ok.
  { apply keeps_plain_refl. }
  assert (keeps_plain h hr) as H1.
  { apply strip_flag_loop_ok in Hloop
      as [(Hf & -> & ->)|(Hf & -> & kvs0 & v0 & Hl0 & Hv0 & ->)].
    - apply keeps_plain_refl.
    - eapply keeps_plain_dict; [done|]. intros k Hpk Hin.
      apply dict_keys_del_other; [intros ->; congruence|].
      by apply dict_keys_set_mono. }
  assert (keeps_plain hr hb) as H2.
  { destruct Hrun as [Hd Hrec | le Hd Hl -> Hitems -> | Hd Hl -> ->].
    - by eapply rec_plain.
    - by eapply strip_items_plain.
    - apply keeps_plain_refl. }
  eapply keeps_plain_trans; [done|]. eapply keeps_plain_trans; [done|].
  eapply keeps_plain_dict; [done|]. intros k _ Hin. by apply dict_keys_set_mono.
Qed.

Lemma strip_flags_body_plain v h r h' :
  strip_flags_body rec v h = Ok (r, h') → keeps_plain h h'.
Proof.
  intros H. unfold strip_flags_body in H.
  apply bind_ok in H as (sl & h1 & [-> ->]%isinstance_list_ok & H).
  apply bind_ok in H as (sd & h1 & [-> ->]%isinstance_dict_ok & H).
  destruct v as [| | | | |l];
    try (apply ret_ok in H as [-> ->]; apply keeps_plain_refl).
  destruct (is_list h (VRef l)).
  { apply bind_ok in H as (u & h1 & Hitems & H).
    apply ret_ok in H as [-> ->]. by eapply strip_items_plain. }
  destruct (is_dict h (VRef l)).
  2:{ apply ret_ok in H as [-> ->]. apply keeps_plain_refl. }
  apply bind_ok in H as (kvs & h1 & [-> Hl]%read_dict_ok & H).
  apply bind_ok in H as (u & h1 & Hloop & H).
  apply ret_ok in H as [-> ->].
  eapply (for_each_inv (λ _ hc, keeps_plain h hc)) in Hloop;
    [done| |apply keeps_plain_refl].
  intros key_ rem hc u1 hc' He Hkey.
  eapply keeps_plain_trans; [done|]. by eapply strip_key_plain.
Qed.
End strip_plain.

Lemma strip_flags_plain fuel v h r h' :
  strip_flags fuel v h = Ok (r, h') → keeps_plain h h'.
Proof.
  revert v h r h'. induction fuel as [|n IH]; intros v h r h' H; [done|].
  simpl in H. eapply strip_flags_body_plain; eauto.
Qed.

Lemma strip_flags_returns_argument fuel v h r h' :
  strip_flags fuel v h = Ok (r, h') → r = v.
Proof.
  intros H. eapply (strip_flags_evolve fuel (λ _, True)) in H as [-> _];
    [done|done|done].
Qed.

(** X11. [_strip_flags] never takes a key without a flag from a dict:
    every dict of the heap is a dict afterwards, with every unflagged key
    it had. *)
Theorem strip_flags_keeps_plain_keys fuel v h r h' x kvs k :
  strip_flags fuel v h = Ok (r, h') →
  h !! x = Some (ODict kvs) → k ∈ dict_keys kvs → flagged k = false →
  ∃ kvs', h' !! x = Some (ODict kvs') ∧ k ∈ dict_keys kvs'.
Proof.
  intros H%strip_flags_plain Hx Hin Hk. by eapply keeps_plain_bound.
Qed.

Lemma strip_flags_keeps_plain_keys_witness :
  let h := [ ODict [("+a"%string, VInt 1); ("a"%string, VInt 2);
                    ("b"%string, VInt 3)] ] in
  ∃ r h' kvs', strip_flags 5 (VRef 0) h = Ok (r, h')
               ∧ h' !! 0 = Some (ODict kvs') ∧ "b"%string ∈ dict_keys kvs'.
Proof.
  intros h.
  destruct (strip_flags 5 (VRef 0) h) as [[r h']|e] eqn:Hrun;
    [|by vm_compute in Hrun].
  destruct (strip_flags_keeps_plain_keys 5 (VRef 0) h r h' 0
              [("+a"%string, VInt 1); ("a"%string, VInt 2);
               ("b"%string, VInt 3)] "b"%string Hrun)
    as (kvs' & Hk & Hin);
    [reflexivity|by do 2 right; left|reflexivity|].
  by exists r, h', kvs'.
Defined.

Lemma flagged_flag_key flag key :
  flag = "+"%string ∨ flag = "!"%string → flagged (flag +:+ key) = true.
Proof. intros [-> | ->]; by destruct key. Qed.

Section merge_plain.
Context (fuel : nat) (rec : loc → loc → M loc).
Hypothesis rec_plain : ∀ a b h r h', rec a b h = Ok (r, h') → keeps_plain h h'.

Lemma merge_key_plain t l m key_ h u h' :
  merge_key fuel rec t l m key_ h = Ok (u, h') →
  keeps_plain h h'
  ∧ (flagged (merge_key_name key_) = false →
     ∃ mkvs, h' !! m = Some (ODict mkvs)
             ∧ merge_key_name key_ ∈ dict_keys mkvs).
Proof.
  intros H. unfold merge_key in H. unfold merge_key_name.
  set (key := if startswith key_ "!" then tail1 key_ else key_) in *.
  apply bind_ok in H as (entry_l & h1 & [-> _]%dict_getitem_ok & H).
  apply bind_ok in H
    as ([key_exists flag] & h1 & [-> (tk & _ & Hflag)]%is_key_in_ok & H).
  destruct key_exists.
  2:{ apply keeps_plain_setitem in H as [? ?]. eauto. }
  symmetry in Hflag. apply is_key_in_flags_flag in Hflag.
  apply bind_ok in H as (u1 & h1 & Hset & H).
  assert (keeps_plain h h1
          ∧ ∃ mkvs, h1 !! m = Some (ODict mkvs) ∧ key ∈ dict_keys mkvs)
    as (P1 & mkvs & Hm & Hin).
  { clear H. destruct (startswith key_ "!"); [by eapply keeps_plain_setitem|].
    apply bind_ok in Hset as (entry_t & h2 & [-> _]%dict_getitem_ok & H).
    apply bind_ok in H as (td & h2 & [-> ->]%isinstance_dict_ok & H).
    apply bind_ok in H as (ld & h2 & [-> ->]%isinstance_dict_ok & H).
    apply bind_ok in H as (tl & h2 & [-> ->]%isinstance_list_ok & H).
    apply bind_ok in H as (ll & h2 & [-> ->]%isinstance_list_ok & H).
    destruct entry_t as [| | | | |et]; try by eapply keeps_plain_setitem.
    destruct entry_l as [| | | | |el]; try by eapply keeps_plain_setitem.
    destruct (is_dict h (VRef et) && is_dict h (VRef el)).
    { apply bind_ok in H as (r & h2 & Hr & H).
      apply keeps_plain_setitem in H as [? ?]. split; [|done].
      eapply keeps_plain_trans; [|done]. by eapply rec_plain. }
    destruct (is_list h (VRef et) && is_list h (VRef el));
      [|by eapply keeps_plain_setitem].
    destruct (negb false && (flag =? "+")%string);
      [|by eapply keeps_plain_setitem].
    apply bind_ok in H as (u2 & h2 & Hloop & H).
    apply keeps_plain_setitem in H as [? ?]. split; [|done].
    eapply keeps_plain_trans; [|done].
    unfold enumerate in Hloop.
    apply bind_ok in Hloop as (items & h3 & [-> _]%read_list_ok & Hloop).
    eapply (enumerate_from_inv (λ _ hc, keeps_plain h hc)) in Hloop
      as (_ & ? & _); [done| |apply keeps_plain_refl].
    intros i item hc xs u3 hc' Hnc _ _ Hbody.
    apply bind_ok in Hbody as (found & h3 & [-> _]%list_contains_ok & Hbody).
    destruct found; [by apply ret_ok in Hbody as [_ ->]|].
    apply list_append_ok in Hbody as (items' & ? & ->).
    eapply keeps_plain_trans; [done|]. by eapply keeps_plain_list. }
  apply bind_ok in H as (still & h2 & [-> _]%dict_contains_ok & H).
  destruct (negb (flag =? "")%string && still) eqn:Hdel.
  - apply andb_true_iff in Hdel as [Hne%negb_true_iff%String.eqb_neq _].
    assert (flagged (flag +:+ key) = true) as Hfl.
    { apply flagged_flag_key. by destruct Hflag as [?|[?|?]]; eauto. }
    apply keeps_plain_delitem in H; [|done]. split.
    + by eapply keeps_plain_trans.
    + intros Hk. by eapply keeps_plain_bound.
  - apply ret_ok in H as [_ ->]. eauto.
Qed.

Lemma merge_settings_body_plain t l h m h' :
  merge_settings_body fuel rec t l h = Ok (m, h') →
  m = length h ∧ keeps_plain h h'
  ∧ ∀ tkvs lkvs,
      h !! t = Some (ODict tkvs) → h !! l = Some (ODict lkvs) →
      ∃ mkvs,
        h' !! m = Some (ODict mkvs)
        ∧ (∀ k, flagged k = false → k ∈ dict_keys tkvs → k ∈ dict_keys mkvs)
        ∧ (∀ key_, key_ ∈ dict_keys lkvs →
             flagged (merge_key_name key_) = false →
             merge_key_name key_ ∈ dict_keys mkvs).
Proof.
  intros H. unfold merge_settings_body in H.
  apply bind_ok in H as (tkvs & h1 & [-> Ht]%read_dict_ok & H).
  apply bind_ok in H as (merged & h1 & Halloc & H).
  injection Halloc as <- <-.
  apply bind_ok in H as (lkvs & h1 & [-> Hl]%read_dict_ok & H).
  apply bind_ok in H as (u & h1 & Hloop & H).
  apply bind_ok in H as (r & h2 & Hstrip & H).
  pose proof (strip_flags_returns_argument _ _ _ _ _ Hstrip) as ->.
  apply ret_ok in H as [-> ->]. apply strip_flags_plain in Hstrip.
  eapply (for_each_inv (λ rem hc,
    keeps_plain (h ++ [ODict tkvs]) hc
    ∧ ∀ key_, key_ ∈ dict_keys lkvs →
        key_ ∈ rem
        ∨ (flagged (merge_key_name key_) = false →
           ∃ mkvs, hc !! length h = Some (ODict mkvs)
                   ∧ merge_key_name key_ ∈ dict_keys mkvs))) in Hloop
    as [P1 B1]; [| |split; [apply keeps_plain_refl|by left]].
  2:{ intros key_ rem hc u1 hc' [Pc Bc] Hkey.
      apply merge_key_plain in Hkey as [Pk Bk].
      split; [by eapply keeps_plain_trans|].
      intros k Hk. destruct (Bc k Hk) as [[->|?]%elem_of_cons|Hb];
        [by right|by left|].
      right. intros Hf. destruct (Hb Hf) as (mkvs & Hm & Hin).
      by eapply keeps_plain_bound. }
  assert (keeps_plain (h ++ [ODict tkvs]) h2) as P2
    by by eapply keeps_plain_trans.
  destruct (proj2 P2 (length h) tkvs) as (mkvs & Hm & Km).
  { by rewrite lookup_app_r, Nat.sub_diag. }
  split; [done|]. split.
  { eapply keeps_plain_trans; [apply keeps_plain_alloc|done]. }
  intros tkvs0 lkvs0 Ht0 Hl0. rewrite Ht in Ht0. injection Ht0 as <-.
  rewrite (lookup_app_l_Some _ _ _ _ Hl0) in Hl. injection Hl as <-.
  exists mkvs. split_and!; [done..|].
  intros key_ Hin Hf. destruct (B1 key_ Hin) as [?%elem_of_nil|Hb]; [done|].
  destruct (Hb Hf) as (mk1 & Hm1 & Hin1).
  destruct (keeps_plain_bound _ _ _ _ _ Hstrip Hm1 Hf Hin1) as (mk2 & Hm2 & ?).
  rewrite Hm in Hm2. by injection Hm2 as <-.
Qed.
End merge_plain.

Lemma merge_settings_plain fuel t l h m h' :
  merge_settings fuel t l h = Ok (m, h') →
  m = length h ∧ keeps_plain h h'
  ∧ ∀ tkvs lkvs,
      h !! t = Some (ODict tkvs) → h !! l = Some (ODict lkvs) →
      ∃ mkvs,
        h' !! m = Some (ODict mkvs)
        ∧ (∀ k, flagged k = false → k ∈ dict_keys tkvs → k ∈ dict_keys mkvs)
        ∧ (∀ key_, key_ ∈ dict_keys lkvs →
             flagged (merge_key_name key_) = false →
             merge_key_name key_ ∈ dict_keys mkvs).
Proof.
  revert t l h m h'. induction fuel as [|n IH]; intros t l h m h' H; [done|].
  simpl in H. eapply merge_settings_body_plain; [|done].
  intros a b h0 r h0' Hr. by apply IH in Hr as (_ & ? & _).
Qed.

(** X12. [_merge_settings] never takes a key without a flag from a dict
    that was there: the template, the local settings and everything below
    them keep their unflagged keys. *)
Theorem merge_keeps_plain_keys fuel t l h m h' x kvs k :
  merge_settings fuel t l h = Ok (m, h') →
  h !! x = Some (ODict kvs) → k ∈ dict_keys kvs → flagged k = false →
  ∃ kvs', h' !! x = Some (ODict kvs') ∧ k ∈ dict_keys kvs'.
Proof.
  intros (_ & Hp & _)%merge_settings_plain Hx Hin Hk.
  by eapply keeps_plain_bound.
Qed.

Lemma merge_keeps_plain_keys_witness :
  let h := [ ODict [("a"%string, VInt 1); ("+b"%string, VInt 2)];
             ODict [("!a"%string, VInt 3)] ] in
  ∃ m h' kvs', merge_settings 5 0 1 h = Ok (m, h')
               ∧ h' !! 0 = Some (ODict kvs') ∧ "a"%string ∈ dict_keys kvs'.
Proof.
  intros h.
  destruct (merge_settings 5 0 1 h) as [[m h']|e] eqn:Hrun;
    [|by vm_compute in Hrun].
  destruct (merge_keeps_plain_keys 5 0 1 h m h' 0
              [("a"%string, VInt 1); ("+b"%string, VInt 2)] "a"%string Hrun)
    as (kvs' & Hk & Hin); [reflexivity|by left|reflexivity|].
  by exists m, h', kvs'.
Defined.

(** X13. The dict [_merge_settings] returns is a new one; it has every
    unflagged key of the template, and every key of the local settings
    that has no flag, or no flag behind the [!] that makes it stomp. *)
Theorem merge_result_has_plain_keys fuel t l h m h' tkvs lkvs :
  merge_settings fuel t l h = Ok (m, h') →
  h !! t = Some (ODict tkvs) → h !! l = Some (ODict lkvs) →
  m = length h
  ∧ ∃ mkvs, h' !! m = Some (ODict mkvs)
      ∧ (∀ k, k ∈ dict_keys tkvs → flagged k = false → k ∈ dict_keys mkvs)
      ∧ (∀ k, k ∈ dict_keys lkvs → flagged k = false → k ∈ dict_keys mkvs)
      ∧ (∀ k, String "!" k ∈ dict_keys lkvs → flagged k = false →
              k ∈ dict_keys mkvs).
Proof.
  intros (-> & _ & K)%merge_settings_plain Ht Hl.
  destruct (K _ _ Ht Hl) as (mkvs & Hm & Kt & Kl).
  split; [done|]. exists mkvs. split_and!; [done|eauto| |].
  - intros k Hin Hk. specialize (Kl k Hin). unfold merge_key_name in Kl.
    assert (startswith k "!" = false) as Hb.
    { unfold flagged in Hk. by apply orb_false_iff in Hk as [_ ?]. }
    rewrite Hb in Kl. by apply Kl.
  - intros k Hin Hk. specialize (Kl _ Hin).
    assert (merge_key_name (String "!" k) = k) as Hn
      by (unfold merge_key_name, startswith; by destruct k).
    rewrite Hn in Kl. by apply Kl.
Qed.

Lemma merge_result_has_plain_keys_witness :
  let h := [ ODict [("a"%string, VInt 1); ("+b"%string, VInt 2)];
             ODict [("!c"%string, VInt 3); ("d"%string, VInt 4)] ] in
  ∃ h' mkvs, merge_settings 5 0 1 h = Ok (2, h')
             ∧ h' !! 2 = Some (ODict mkvs)
             ∧ "a"%string ∈ dict_keys mkvs ∧ "c"%string ∈ dict_keys mkvs
             ∧ "d"%string ∈ dict_keys mkvs.
Proof.
  intros h.
  destruct (merge_settings 5 0 1 h) as [[m h']|e] eqn:Hrun;
    [|by vm_compute in Hrun].
  destruct (merge_result_has_plain_keys 5 0 1 h m h'
              [("a"%string, VInt 1); ("+b"%string, VInt 2)]
              [("!c"%string, VInt 3); ("d"%string, VInt 4)] Hrun)
    as (-> & mkvs & Hm & Kt & Kl & Ks); [reflexivity|reflexivity|].
  exists h', mkvs. split_and!; [done|done| | |].
  - apply Kt; [by left|reflexivity].
  - apply Ks; [by left|reflexivity].
  - apply Kl; [by right; left|reflexivity].
Defined.

(** ** [load_settings] *)

Lemma alloc_tree_prefix r t h v h' :
  height t ≤ r → alloc_tree t h = Ok (v, h') →
  h `prefix_of` h'
  ∧ ∀ kts, t = TDict kts →
      ∃ l kvs, v = VRef l ∧ h' !! l = Some (ODict kvs)
               ∧ dict_keys kvs = kts.*1.
Proof.
  revert t h v h'. induction r as [|r IH]; intros t h v h' Ht H.
  { destruct t; simpl in Ht; try lia; apply ret_ok in H as [-> ->];
      by split. }
  destruct t as [| | | | |ts|kts];
    try (apply ret_ok in H as [-> ->]; by split).
  - simpl in Ht. apply le_S_n in Ht. simpl in H.
    apply bind_ok in H as (vs & h1 & Hgo & H).
    apply bind_ok in H as (l & h2 & Ha & H).
    injection Ha as <- <-. apply ret_ok in H as [-> ->].
    split; [|done]. trans h1; [|by apply prefix_app_r].
    assert (∀ t, t ∈ ts → height t ≤ r) as Hts.
    { intros t Ht'. eapply list_max_le_elem; [|done].
      apply list_elem_of_fmap. eauto. }
    clear Ht. revert h vs h1 Hgo.
    induction ts as [|t ts IHts]; intros h vs h1 Hgo.
    { by apply ret_ok in Hgo as [_ ->]. }
    apply bind_ok in Hgo as (v & ha & Hv & Hgo).
    apply bind_ok in Hgo as (vs' & hb & Hvs & Hgo).
    apply ret_ok in Hgo as [_ ->].
    trans ha; [eapply IH; [|done]; apply Hts; by left|].
    eapply IHts; [|done]. intros t' ?. apply Hts. by right.
  - simpl in Ht. apply le_S_n in Ht. simpl in H.
    apply bind_ok in H as (kvs & h1 & Hgo & H).
    apply bind_ok in H as (l & h2 & Ha & H).
    injection Ha as <- <-. apply ret_ok in H as [-> ->].
    assert (∀ k t, (k, t) ∈ kts → height t ≤ r) as Hts.
    { intros k t Ht'. eapply list_max_le_elem; [|done].
      apply list_elem_of_fmap. by exists (k, t). }
    assert (h `prefix_of` h1 ∧ dict_keys kvs = kts.*1) as [Hp Hk].
    { clear Ht. revert h kvs h1 Hgo.
      induction kts as [|[k t] kts IHts]; intros h kvs h1 Hgo.
      { by apply ret_ok in Hgo as [-> ->]. }
      apply bind_ok in Hgo as (v & ha & Hv & Hgo).
      apply bind_ok in Hgo as (vs' & hb & Hvs & Hgo).
      apply ret_ok in Hgo as [-> ->].
      destruct (IHts (λ k' t' Hin, Hts k' t' (list_elem_of_further _ _ _ Hin))
                  ha vs' hb Hvs) as [Hp' Hk'].
      split; [|simpl; by f_equal].
      trans ha; [|done]. eapply IH; [|done]. apply (Hts k). by left. }
    split; [trans h1; [done|by apply prefix_app_r]|].
    intros ? [= <-]. eexists _, _. split; [done|].
    by rewrite lookup_app_r, Nat.sub_diag.
Qed.

Lemma without_comments_elem k kvs :
  k ∈ dict_keys (without_comments kvs)
  ↔ k ∈ dict_keys kvs ∧ startswith k comment_token = false.
Proof.
  unfold dict_keys, without_comments. rewrite !list_elem_of_fmap. split.
  - intros ([k' v] & -> & [Hl Hin]%list_elem_of_In%List.filter_In).
    split; [exists (k', v); split; [done|by apply list_elem_of_In]|].
    unfold live in Hin. by apply negb_true_iff in Hin.
  - intros [([k' v] & -> & Hin) Hk]. exists (k', v). split; [done|].
    apply list_elem_of_In, List.filter_In. split; [by apply list_elem_of_In|].
    unfold live. by apply negb_true_iff.
Qed.

Lemma merge_key_name_plain k : flagged k = false → merge_key_name k = k.
Proof.
  unfold flagged, merge_key_name. by intros [_ ->]%orb_false_iff.
Qed.

Lemma load_settings_keys fuel template dd so h lkvs r h' :
  h !! so = Some (ODict lkvs) →
  load_settings fuel template dd so h = Done (r, h') →
  ∃ c kvs',
    r = VRef c ∧ length h ≤ c ∧ h' !! c = Some (ODict kvs')
    ∧ (∀ k, k ∈ dict_keys kvs' → startswith k comment_token = false)
    ∧ "data_dictionary"%string ∈ dict_keys kvs'
    ∧ (∀ k, k ∈ template.*1 ∨ k ∈ dict_keys lkvs →
            flagged k = false → startswith k comment_token = false →
            k ∈ dict_keys kvs').
Proof.
  intros Hso H. unfold load_settings in H.
  apply pbind_ok in H as (vt & h1 & Hvt%core_ok & H).
  destruct (alloc_tree_prefix _ _ _ _ _ (Nat.le_refl _) Hvt) as [P1 D1].
  destruct (D1 template eq_refl) as (t & tkvs & -> & Ht & Htk).
  apply pbind_ok in H as (m1 & h2 & Hm1%core_ok & H).
  apply merge_settings_plain in Hm1 as (-> & Q1 & K1).
  destruct (K1 tkvs lkvs) as (mk1 & Hmk1 & Kt1 & Kl1);
    [done|by eapply prefix_lookup_Some|].
  apply pbind_ok in H as (vdd & h3 & Hdd%core_ok & H).
  destruct (alloc_tree_prefix _ _ _ _ _ (Nat.le_refl _) Hdd) as [P3 _].
  apply pbind_ok in H as (base_dd & h4 & Hb%core_ok & H).
  injection Hb as <- <-.
  apply pbind_ok in H as (m2 & h5 & Hm2%core_ok & H).
  apply merge_settings_plain in Hm2 as (-> & Q2 & K2).
  destruct (K2 [("data_dictionary"%string, vdd)] mk1)
    as (mk2 & Hmk2 & Kt2 & Kl2).
  { by rewrite lookup_app_r, Nat.sub_diag. }
  { apply lookup_app_l_Some. by eapply prefix_lookup_Some. }
  apply pbind_ok in H as (s6 & h6 & Hrem & H).
  apply remove_comments_post in Hrem. pose proof Hrem as (-> & S6 & _).
  assert (h6 !! length (h3 ++ [ODict [("data_dictionary"%string, vdd)]])
          = Some (ODict (without_comments mk2))) as Hc
    by (eapply remove_post_dict; [done|constructor|done]).
  destruct (replace_variables_any_ok _ _ _ _ _ _ Hc H)
    as (-> & [_ D _] & _).
  destruct (D (length h6) (without_comments mk2)) as (kvs' & Hk' & Hkeys).
  { by rewrite lookup_app_r, Nat.sub_diag. }
  exists (length h6), kvs'. split_and!; [done| |done| | |].
  - rewrite (sh_len _ _ S6). destruct Q1 as [L1 _], Q2 as [L2 _].
    apply prefix_length in P1, P3. rewrite length_app in L2. simpl in L2. lia.
  - intros k Hk. rewrite Hkeys in Hk. by apply without_comments_elem in Hk as [_ ?].
  - rewrite Hkeys. apply without_comments_elem. split; [|done].
    apply Kt2; [done|by left].
  - intros k Hin Hf Hc'. rewrite Hkeys. apply without_comments_elem.
    split; [|done].
    rewrite <- (merge_key_name_plain k Hf). apply Kl2.
    2:{ by rewrite merge_key_name_plain. }
    destruct Hin as [Hin|Hin].
    + apply Kt1; [done|]. by rewrite Htk.
    + rewrite <- (merge_key_name_plain k Hf). apply Kl1; [done|].
      by rewrite merge_key_name_plain.
Qed.

(** X14. The settings [load_settings] returns are a new dict.  It has no
    key that begins with [__]; it has the key [data_dictionary]; and it
    has every key of the template and of the settings object that carries
    no flag and is no comment. *)
Theorem load_settings_result fuel template dd so h lkvs r h' :
  h !! so = Some (ODict lkvs) →
  load_settings fuel template dd so h = Done (r, h') →
  ∃ c kvs',
    r = VRef c ∧ length h ≤ c ∧ h' !! c = Some (ODict kvs')
    ∧ (∀ k, k ∈ dict_keys kvs' → startswith k comment_token = false)
    ∧ "data_dictionary"%string ∈ dict_keys kvs'
    ∧ (∀ k, k ∈ template.*1 ∨ k ∈ dict_keys lkvs →
            flagged k = false → startswith k comment_token = false →
            k ∈ dict_keys kvs').
Proof. apply load_settings_keys. Qed.

Lemma load_settings_result_witness :
  let h := [ ODict [("__note"%string, VStr "x"); ("name"%string, VStr "n")] ] in
  ∃ c kvs' h',
    load_settings recursion_limit [("unit"%string, TStr "ft")] (TDict []) 0 h
    = Done (VRef c, h')
    ∧ h' !! c = Some (ODict kvs')
    ∧ "data_dictionary"%string ∈ dict_keys kvs'
    ∧ "unit"%string ∈ dict_keys kvs' ∧ "name"%string ∈ dict_keys kvs'.
Proof.
  intros h.
  destruct (load_settings recursion_limit [("unit"%string, TStr "ft")]
              (TDict []) 0 h) as [[r h']|e] eqn:Hrun; [|by vm_compute in Hrun].
  destruct (load_settings_result recursion_limit [("unit"%string, TStr "ft")]
              (TDict []) 0 h
              [("__note"%string, VStr "x"); ("name"%string, VStr "n")] r h')
    as (c & kvs' & -> & _ & Hc & _ & Hdd & Hk); [reflexivity|exact Hrun|].
  exists c, kvs', h'. split_and!; [done|done|done| |].
  - apply Hk; [left; by left|reflexivity|reflexivity].
  - apply Hk; [right; by right; left|reflexivity|reflexivity].
Defined.

(** ** The accessors *)

Lemma new_dict_ok h v h' :
  new_dict h = Done (v, h') → v = VRef (length h) ∧ h' = h ++ [ODict []].
Proof. by intros [= <- <-]. Qed.

Lemma new_list_ok items h v h' :
  new_list items h = Done (v, h') →
  v = VRef (length h) ∧ h' = h ++ [OList items].
Proof. by intros [= <- <-]. Qed.

Lemma py_get_ok d k default h v h' :
  py_get d k default h = Done (v, h') →
  h' = h ∧ ∃ l kvs, d = VRef l ∧ h !! l = Some (ODict kvs)
                    ∧ v = from_option id default (dict_get k kvs).
Proof.
  unfold py_get. destruct d as [| | | | |l]; try done.
  intros (o & h1 & [-> Hl]%core_ok%read_ok & H)%pbind_ok.
  destruct o as [kvs|]; [|done].
  destruct (dict_get k kvs) as [w|] eqn:Hw; apply pret_ok in H as [-> ->];
    (split; [done|]); exists l, kvs; by rewrite Hw.
Qed.

Lemma py_get_eq l k default h kvs :
  h !! l = Some (ODict kvs) →
  py_get (VRef l) k default h
  = Done (from_option id default (dict_get k kvs), h).
Proof.
  intros Hl. unfold py_get, pbind, core, read. rewrite Hl.
  by destruct (dict_get k kvs).
Qed.

(** X15. The four unit getters never mix the systems of units: on any
    settings they fail together, or they answer [sqft], [acre], [ft],
    [mile], or [sqm], [ha], [m], [km], or they all return [None], which
    they do for units that are neither ["imperial"] nor ["metric"]. *)
Theorem unit_getters_agree settings h :
  (∃ e, get_small_area_unit settings h = Raised e
        ∧ get_large_area_unit settings h = Raised e
        ∧ get_short_distance_unit settings h = Raised e
        ∧ get_long_distance_unit settings h = Raised e)
  ∨ (∃ h' a b c d,
        get_small_area_unit settings h = Done (a, h')
        ∧ get_large_area_unit settings h = Done (b, h')
        ∧ get_short_distance_unit settings h = Done (c, h')
        ∧ get_long_distance_unit settings h = Done (d, h')
        ∧ ((a, b, c, d) = (VStr "sqft", VStr "acre", VStr "ft", VStr "mile")
           ∨ (a, b, c, d) = (VStr "sqm", VStr "ha", VStr "m", VStr "km")
           ∨ (a, b, c, d) = (VNone, VNone, VNone, VNone))).
Proof.
  unfold get_small_area_unit, get_large_area_unit, get_short_distance_unit,
    get_long_distance_unit, pbind.
  destruct (base_units settings h) as [[u h']|e]; [right|left; by exists e].
  eexists h', _, _, _, _. split_and!; [done..|].
  unfold unit_choice.
  destruct (is_str u "imperial"); [by left|].
  destruct (is_str u "metric"); [right; by left|right; by right].
Qed.

(** X16. What [load_settings] returns always has a data dictionary of its
    own: [get_data_dictionary] finds the entry and does not fall back on
    its default. *)
Theorem loaded_settings_have_data_dictionary
    fuel template dd so h lkvs r h' :
  h !! so = Some (ODict lkvs) →
  load_settings fuel template dd so h = Done (r, h') →
  ∃ c kvs' v,
    r = VRef c ∧ h' !! c = Some (ODict kvs')
    ∧ dict_get "data_dictionary" kvs' = Some v
    ∧ get_data_dictionary r h' = Done (v, h' ++ [ODict []]).
Proof.
  intros Hso H.
  destruct (load_settings_keys _ _ _ _ _ _ _ _ Hso H)
    as (c & kvs' & -> & _ & Hc & _ & [v Hv]%dict_keys_get & _).
  exists c, kvs', v. split_and!; [done..|].
  unfold get_data_dictionary.
  rewrite (pbind_eq _ _ _ (VRef (length h')) (h' ++ [ODict []])) by done.
  rewrite (py_get_eq _ _ _ _ kvs') by by apply lookup_app_l_Some.
  by rewrite Hv.
Qed.

Lemma loaded_settings_have_data_dictionary_witness :
  let h := [ ODict [("name"%string, VStr "n")] ] in
  ∃ r h' v,
    load_settings recursion_limit [("unit"%string, TStr "ft")]
      (TDict [("bldg"%string, TInt 1)]) 0 h = Done (r, h')
    ∧ get_data_dictionary r h' = Done (v, h' ++ [ODict []]).
Proof.
  intros h.
  destruct (load_settings recursion_limit [("unit"%string, TStr "ft")]
              (TDict [("bldg"%string, TInt 1)]) 0 h)
    as [[r h']|e] eqn:Hrun; [|by vm_compute in Hrun].
  destruct (loaded_settings_have_data_dictionary recursion_limit
              [("unit"%string, TStr "ft")] (TDict [("bldg"%string, TInt 1)])
              0 h [("name"%string, VStr "n")] r h')
    as (c & kvs' & v & _ & _ & _ & Hget); [reflexivity|exact Hrun|].
  by exists r, h', v.
Defined.

(** ** [get_model_group_ids] *)

Lemma py_eqb_str fuel h k item b :
  py_eqb fuel h (VStr k) item = Ok b → b = bool_decide (item = VStr k).
Proof.
  destruct fuel as [|n]; [done|]. simpl.
  destruct (decide (VStr k = item)) as [<-|Hne].
  - intros [= <-]. by rewrite bool_decide_eq_true_2.
  - rewrite bool_decide_eq_false_2 by done.
    destruct item as [| | | |k'|]; intros [= <-]; try done.
    apply String.eqb_neq. congruence.
Qed.

Lemma py_in_strs fuel h item xs b :
  Forall is_vstr xs → py_in fuel h item xs = Ok b →
  b = bool_decide (item ∈ xs).
Proof.
  induction 1 as [|x xs [k ->] _ IH]; cbn [py_in].
  { intros [= <-]. symmetry. apply bool_decide_eq_false_2.
    by intros ?%elem_of_nil. }
  destruct (py_eqb fuel h (VStr k) item) as [[|]|e] eqn:He; [| |done].
  - apply py_eqb_str in He. symmetry in He. apply bool_decide_eq_true in He as ->.
    intros [= <-]. symmetry. apply bool_decide_eq_true_2. by left.
  - apply py_eqb_str in He. symmetry in He. apply bool_decide_eq_false in He.
    intros Hin. apply IH in Hin as ->.
    apply bool_decide_ext. rewrite elem_of_cons. split; [by right|].
    by intros [?|?].
Qed.

Lemma pfilter_pure {A} (xs : list A) (test : A → Py bool) (f : A → bool)
    h ys h' :
  (∀ x b h1, x ∈ xs → test x h = Done (b, h1) → h1 = h ∧ b = f x) →
  pfilter xs test h = Done (ys, h') → h' = h ∧ ys = List.filter f xs.
Proof.
  revert ys h'. induction xs as [|x xs IH]; intros ys h' Htest H; simpl in H.
  { by apply pret_ok in H as [-> ->]. }
  apply pbind_ok in H as (b & h1 & Hb & H).
  apply Htest in Hb as [-> ->]; [|by left].
  apply pbind_ok in H as (rest & h2 & Hrest & H).
  apply IH in Hrest as [-> ->]; [|intros ? ? ? ?; apply Htest; by right].
  apply pret_ok in H as [-> ->]. split; [done|]. simpl. by destruct (f x).
Qed.

Lemma filter_elem {A} (f : A → bool) (xs : list A) x :
  x ∈ List.filter f xs ↔ x ∈ xs ∧ f x = true.
Proof. by rewrite !list_elem_of_In, List.filter_In. Qed.

Lemma ids_elem ids order v :
  v ∈ ordered_ids ids order ++ unordered_ids ids order ↔ v ∈ ids.
Proof.
  unfold unordered_ids. rewrite elem_of_app, !filter_elem. split.
  - intros [Ho|[? _]]; [|done].
    unfold ordered_ids in Ho. apply filter_elem in Ho as [_ Ho].
    by apply bool_decide_eq_true in Ho.
  - intros Hk. destruct (decide (v ∈ ordered_ids ids order)) as [?|Hno];
      [by left|].
    right. split; [done|]. by rewrite bool_decide_eq_false_2.
Qed.

Lemma ids_NoDup ids order :
  NoDup order → NoDup ids →
  NoDup (ordered_ids ids order ++ unordered_ids ids order).
Proof.
  intros Ho Hk. apply NoDup_app. split_and!.
  - by apply NoDup_ListNoDup, List.NoDup_filter, NoDup_ListNoDup.
  - intros v Hv [_ Hn]%filter_elem.
    apply negb_true_iff, bool_decide_eq_false in Hn. done.
  - by apply NoDup_ListNoDup, List.NoDup_filter, NoDup_ListNoDup.
Qed.

Lemma ids_Permutation ids order :
  NoDup order → NoDup ids →
  ordered_ids ids order ++ unordered_ids ids order ≡ₚ ids.
Proof.
  intros Ho Hk. apply NoDup_Permutation; [by apply ids_NoDup|done|].
  apply ids_elem.
Qed.

Lemma py_iter_ok v h xs h' :
  py_iter v h = Done (xs, h') →
  h' = h
  ∧ ((∃ l kvs, v = VRef l ∧ h !! l = Some (ODict kvs)
               ∧ xs = VStr <$> dict_keys kvs)
     ∨ (∃ l items, v = VRef l ∧ h !! l = Some (OList items) ∧ xs = items)
     ∨ (∃ s, v = VStr s ∧ xs = chars s)).
Proof.
  unfold py_iter. destruct v as [| | | |s|l]; try done.
  - intros [-> ->]%pret_ok. split; [done|]. right. right. by exists s.
  - intros (o & h1 & [-> Hl]%core_ok%read_ok & H)%pbind_ok.
    destruct o as [kvs|items]; apply pret_ok in H as [-> ->];
      (split; [done|]); [left|right; left]; eauto.
Qed.

Lemma py_iter_dict l h kvs :
  h !! l = Some (ODict kvs) →
  py_iter (VRef l) h = Done (VStr <$> dict_keys kvs, h).
Proof. intros Hl. unfold py_iter, pbind, core, read. by rewrite Hl. Qed.

Lemma Forall_vstr_keys (ks : list string) : Forall is_vstr (VStr <$> ks).
Proof. apply Forall_fmap, Forall_true. intros k. by exists k. Qed.

Lemma py_in_list_strs fuel item xs h b h1 :
  Forall is_vstr xs → py_in_list fuel item xs h = Done (b, h1) →
  h1 = h ∧ b = bool_decide (item ∈ xs).
Proof.
  intros Hxs. unfold py_in_list.
  destruct (py_in fuel h item xs) as [b'|e] eqn:Hin; [|done].
  intros [= <- <-]. split; [done|]. by eapply py_in_strs.
Qed.

Lemma lookup_after (h xs : heap) o :
  (h ++ xs ++ [o]) !! (length h + length xs) = Some o.
Proof.
  rewrite lookup_app_r by lia.
  replace (length h + length xs - length h) with (length xs) by lia.
  by rewrite lookup_app_r, Nat.sub_diag by lia.
Qed.

(** A run of [get_model_group_ids] on settings that have model groups:
    the objects it makes, and the list it returns. *)
Lemma get_model_group_ids_run fuel s h kvs m mk g gk r h' :
  h !! s = Some (ODict kvs) → dict_get "modeling" kvs = Some (VRef m) →
  h !! m = Some (ODict mk) → dict_get "model_groups" mk = Some (VRef g) →
  h !! g = Some (ODict gk) →
  get_model_group_ids fuel (VRef s) h = Done (r, h') →
  ∃ order_items,
    let ids := VStr <$> dict_keys gk in
    r = VRef (length h + 4)
    ∧ h' = h ++ [ODict []; ODict []; ODict []; OList []]
             ++ [OList (ordered_ids ids order_items
                        ++ unordered_ids ids order_items)]
    ∧ (∀ i ik o items,
         dict_get "instructions" mk = Some (VRef i) →
         h !! i = Some (ODict ik) →
         dict_get "model_group_order" ik = Some (VRef o) →
         h !! o = Some (OList items) → order_items = items).
Proof.
  intros Hs Hmod Hm Hgr Hg H. unfold get_model_group_ids in H.
  set (h1 := h ++ [ODict []]).
  rewrite (pbind_eq _ _ _ (VRef (length h)) h1) in H by done.
  rewrite (pbind_eq _ _ _ _ _ (py_get_eq s _ _ h1 kvs
             ltac:(by apply lookup_app_l_Some))) in H.
  rewrite Hmod in H. cbn [from_option id] in H.
  set (h2 := h1 ++ [ODict []]).
  rewrite (pbind_eq _ _ _ (VRef (length h1)) h2) in H by done.
  assert (h2 !! m = Some (ODict mk)) as Hm2 by by do 2 apply lookup_app_l_Some.
  rewrite (pbind_eq _ _ _ _ _ (py_get_eq m _ _ h2 mk Hm2)) in H.
  rewrite Hgr in H. cbn [from_option id] in H.
  set (h3 := h2 ++ [ODict []]).
  rewrite (pbind_eq _ _ _ (VRef (length h2)) h3) in H by done.
  assert (h3 !! m = Some (ODict mk)) as Hm3 by by apply lookup_app_l_Some.
  rewrite (pbind_eq _ _ _ _ _ (py_get_eq m _ _ h3 mk Hm3)) in H.
  set (instructions := from_option id (VRef (length h2))
                         (dict_get "instructions" mk)) in H.
  set (h4 := h3 ++ [OList []]).
  rewrite (pbind_eq _ _ _ (VRef (length h3)) h4) in H by done.
  apply pbind_ok in H
    as (order & hx & [-> (i' & ik' & Hi' & Hik' & Horder)]%py_get_ok & H).
  assert (h4 !! g = Some (ODict gk)) as Hg4 by by do 4 apply lookup_app_l_Some.
  rewrite (pbind_eq _ _ _ _ _ (py_iter_dict g h4 gk Hg4)) in H.
  apply pbind_ok in H as (order_items & hx & [-> Hiter]%py_iter_ok & H).
  apply pbind_ok in H as (ord & hx & Hf1 & H).
  apply (pfilter_pure _ _ (λ v, bool_decide (v ∈ VStr <$> dict_keys gk)))
    in Hf1 as [-> ->].
  2:{ intros x b hy _ Hb. eapply py_in_list_strs; [|done].
      apply Forall_vstr_keys. }
  apply pbind_ok in H as (unord & hx & Hf2 & H).
  apply (pfilter_pure _ _
           (λ v, negb (bool_decide
              (v ∈ ordered_ids (VStr <$> dict_keys gk) order_items))))
    in Hf2 as [-> ->].
  2:{ intros x b hy _ Hb.
      apply pbind_ok in Hb as (b' & hz & Hb' & Hb).
      apply pret_ok in Hb as [-> ->].
      eapply py_in_list_strs in Hb' as [-> ->]; [done|].
      apply Forall_forall. intros v [_ Hv]%filter_elem.
      apply bool_decide_eq_true in Hv.
      by apply (proj1 (Forall_forall _ _) (Forall_vstr_keys (dict_keys gk))). }
  apply new_list_ok in H as [-> ->].
  exists order_items. cbn zeta. split_and!.
  - unfold h4, h3, h2, h1. rewrite !length_app. simpl. f_equal. lia.
  - unfold h4, h3, h2, h1. by rewrite <- !app_assoc.
  - intros i ik o items Hi Hik Ho Hitems.
    unfold instructions in Hi'. rewrite Hi in Hi'. simpl in Hi'.
    injection Hi' as <-.
    assert (h4 !! i = Some (ODict ik)) as Hi4
      by by do 4 apply lookup_app_l_Some.
    rewrite Hi4 in Hik'. injection Hik' as <-.
    rewrite Ho in Horder. simpl in Horder. subst order.
    assert (h4 !! o = Some (OList items)) as Ho4
      by by do 4 apply lookup_app_l_Some.
    destruct Hiter as [(l & d & [= <-] & Hl & _)
                      |[(l & xs & [= <-] & Hl & ->)|(? & ? & _)]];
      [congruence| |done].
    rewrite Ho4 in Hl. by injection Hl as <-.
Qed.

Lemma py_eqb_str_eq fuel h k item :
  0 < fuel → py_eqb fuel h (VStr k) item = Ok (bool_decide (item = VStr k)).
Proof.
  destruct fuel as [|n]; [lia|]. intros _. simpl.
  destruct (decide (VStr k = item)) as [<-|Hne].
  - by rewrite bool_decide_eq_true_2.
  - rewrite bool_decide_eq_false_2 by done.
    destruct item as [| | | |k'|]; try done;
      f_equal; apply String.eqb_neq; congruence.
Qed.

Lemma py_in_strs_eq fuel h item xs :
  0 < fuel → Forall is_vstr xs →
  py_in fuel h item xs = Ok (bool_decide (item ∈ xs)).
Proof.
  intros Hf. induction 1 as [|x xs [k ->] _ IH]; cbn [py_in].
  { done. }
  rewrite py_eqb_str_eq by done.
  destruct (decide (item = VStr k)) as [->|Hne].
  - rewrite bool_decide_eq_true_2 by done. f_equal. symmetry.
    apply bool_decide_eq_true_2. by left.
  - rewrite bool_decide_eq_false_2 by done. rewrite IH. f_equal.
    apply bool_decide_ext. rewrite elem_of_cons. split; [by right|].
    by intros [?|?].
Qed.

Lemma pfilter_eq {A} (xs : list A) (test : A → Py bool) (f : A → bool) h :
  (∀ x, x ∈ xs → test x h = Done (f x, h)) →
  pfilter xs test h = Done (List.filter f xs, h).
Proof.
  induction xs as [|x xs IH]; intros Htest; simpl; [done|].
  rewrite (pbind_eq _ _ _ _ _ (Htest x ltac:(by left))).
  rewrite (pbind_eq _ _ _ _ _ (IH (λ y Hy, Htest y ltac:(by right)))).
  by destruct (f x).
Qed.

Lemma py_in_list_strs_eq fuel item xs h :
  0 < fuel → Forall is_vstr xs →
  py_in_list fuel item xs h = Done (bool_decide (item ∈ xs), h).
Proof.
  intros Hf Hxs. unfold py_in_list. by rewrite py_in_strs_eq.
Qed.

(** The lookups of [get_model_group_ids] on settings that have model
    groups: the objects they make, and what the comprehensions then go
    through. *)
Lemma get_model_group_ids_forward fuel s h kvs m mk g gk order :
  h !! s = Some (ODict kvs) → dict_get "modeling" kvs = Some (VRef m) →
  h !! m = Some (ODict mk) → dict_get "model_groups" mk = Some (VRef g) →
  h !! g = Some (ODict gk) →
  order_is h mk order →
  let h4 := h ++ [ODict []; ODict []; ODict []; OList []] in
  let order_v := from_option id (VRef (length h + 3)) order in
  get_model_group_ids fuel (VRef s) h
  = (let+ model_group_ids := py_iter (VRef g) in
     let+ order_items := py_iter order_v in
     let+ ordered_ids :=
       pfilter order_items (λ key, py_in_list fuel key model_group_ids) in
     let+ unordered_ids :=
       pfilter model_group_ids
         (λ key, let+ b := py_in_list fuel key ordered_ids in pret (negb b)) in
     new_list (ordered_ids ++ unordered_ids)) h4.
Proof.
  intros Hs Hmod Hm Hgr Hg Hord h4 order_v. unfold get_model_group_ids.
  set (h1 := h ++ [ODict []]).
  rewrite (pbind_eq _ _ _ (VRef (length h)) h1) by done.
  rewrite (pbind_eq _ _ _ _ _ (py_get_eq s _ _ h1 kvs
             ltac:(by apply lookup_app_l_Some))).
  rewrite Hmod. cbn [from_option id].
  set (h2 := h1 ++ [ODict []]).
  rewrite (pbind_eq _ _ _ (VRef (length h1)) h2) by done.
  assert (h2 !! m = Some (ODict mk)) as Hm2 by by do 2 apply lookup_app_l_Some.
  rewrite (pbind_eq _ _ _ _ _ (py_get_eq m _ _ h2 mk Hm2)).
  rewrite Hgr. cbn [from_option id].
  set (h3 := h2 ++ [ODict []]).
  rewrite (pbind_eq _ _ _ (VRef (length h2)) h3) by done.
  assert (h3 !! m = Some (ODict mk)) as Hm3 by by apply lookup_app_l_Some.
  rewrite (pbind_eq _ _ _ _ _ (py_get_eq m _ _ h3 mk Hm3)).
  rewrite (pbind_eq _ _ _ (VRef (length h3)) (h3 ++ [OList []])) by done.
  assert (h3 ++ [OList []] = h4) as ->.
  { unfold h4, h3, h2, h1. by rewrite <- !app_assoc. }
  assert (length h2 = length h + 2) as Hl2
    by (unfold h2, h1; rewrite !length_app; simpl; lia).
  assert (length h3 = length h + 3) as Hl3
    by (unfold h3; rewrite length_app, Hl2; simpl; lia).
  assert (py_get (from_option id (VRef (length h2))
                    (dict_get "instructions" mk))
            "model_group_order" (VRef (length h3)) h4
          = Done (order_v, h4)) as Hget.
  { unfold order_is in Hord. unfold order_v.
    destruct (dict_get "instructions" mk) as [[| | | | |i]|]; try done.
    - destruct Hord as (ik & Hi & ->). cbn [from_option id].
      rewrite (py_get_eq i _ _ h4 ik)
        by (unfold h4; by apply lookup_app_l_Some).
      by rewrite Hl3.
    - subst order. cbn [from_option id].
      rewrite (py_get_eq (length h2) _ _ h4 []).
      + by rewrite Hl3.
      + unfold h4. rewrite Hl2. rewrite lookup_app_r by lia.
        by replace (length h + 2 - length h) with 2 by lia. }
  by rewrite (pbind_eq _ _ _ _ _ Hget).
Qed.

(** X17. For settings with model groups: whenever [get_model_group_ids]
    returns, it returns a new list that holds the keys of
    [modeling.model_groups] and nothing else, and it leaves the settings
    as they are.  It returns when [model_group_order] is missing or is a
    list, a dict or a [str], whatever it holds; when the order is [None]
    or a number, it raises [TypeError]. *)
Theorem model_group_ids_are_the_groups fuel s h kvs m mk g gk :
  h !! s = Some (ODict kvs) → dict_get "modeling" kvs = Some (VRef m) →
  h !! m = Some (ODict mk) → dict_get "model_groups" mk = Some (VRef g) →
  h !! g = Some (ODict gk) →
  (∀ r h', get_model_group_ids fuel (VRef s) h = Done (r, h') →
     ∃ l ids,
       r = VRef l ∧ length h ≤ l ∧ h' !! l = Some (OList ids)
       ∧ (∀ v, v ∈ ids ↔ ∃ k, v = VStr k ∧ k ∈ dict_keys gk)
       ∧ h `prefix_of` h')
  ∧ (∀ order, order_is h mk order → 0 < fuel →
       order = None ∨ (∃ v, order = Some v ∧ iterable h v) →
       ∃ r h', get_model_group_ids fuel (VRef s) h = Done (r, h'))
  ∧ (∀ order v, order_is h mk order → order = Some v → not_iterable v →
       get_model_group_ids fuel (VRef s) h = Raised (Core TypeError)).
Proof.
  intros Hs Hmod Hm Hgr Hg. split_and!.
  - intros r h' H.
    destruct (get_model_group_ids_run _ _ _ _ _ _ _ _ _ _ Hs Hmod Hm Hgr Hg H)
      as (order_items & -> & -> & _).
    eexists _, _. split_and!; [done|lia| | |].
    + apply (lookup_after h [_; _; _; _]).
    + intros v. rewrite ids_elem, list_elem_of_fmap. naive_solver.
    + by apply prefix_app_r.
  - intros order Hord Hfuel Hlist.
    rewrite (get_model_group_ids_forward _ _ _ _ _ _ _ _ _
               Hs Hmod Hm Hgr Hg Hord).
    set (h4 := h ++ [ODict []; ODict []; ODict []; OList []]).
    assert (h4 !! g = Some (ODict gk)) as Hg4
      by (unfold h4; by apply lookup_app_l_Some).
    rewrite (pbind_eq _ _ _ _ _ (py_iter_dict g h4 gk Hg4)).
    assert (∃ order_items,
              py_iter (from_option id (VRef (length h + 3)) order) h4
              = Done (order_items, h4)) as [order_items Hiter].
    { destruct Hlist as [->|(v & -> & Hv)]; cbn [from_option id].
      - exists []. unfold py_iter, pbind, core, read, h4.
        rewrite lookup_app_r by lia.
        by replace (length h + 3 - length h) with 3 by lia.
      - destruct v as [| | | |str|o]; try done; [by eexists|].
        destruct (lookup_lt_is_Some_2 h o Hv) as [ob Ho].
        unfold py_iter, pbind, core, read, h4.
        rewrite (lookup_app_l_Some _ _ _ _ Ho). destruct ob; by eexists. }
    rewrite (pbind_eq _ _ _ _ _ Hiter).
    rewrite (pbind_eq _ _ _ _ _
               (pfilter_eq order_items _
                  (λ v, bool_decide (v ∈ VStr <$> dict_keys gk)) h4
                  (λ x _, py_in_list_strs_eq fuel x _ h4 Hfuel
                            (Forall_vstr_keys (dict_keys gk))))).
    assert (∀ x, x ∈ VStr <$> dict_keys gk →
              (let+ b := py_in_list fuel x
                           (List.filter
                              (λ v, bool_decide (v ∈ VStr <$> dict_keys gk))
                              order_items) in
               pret (negb b)) h4
              = Done (negb (bool_decide
                        (x ∈ List.filter
                               (λ v, bool_decide (v ∈ VStr <$> dict_keys gk))
                               order_items)), h4)) as Hrest.
    { intros x _.
      assert (Forall is_vstr
                (List.filter (λ v, bool_decide (v ∈ VStr <$> dict_keys gk))
                   order_items)) as Hstrs.
      { apply Forall_forall. intros v [_ Hv]%filter_elem.
        apply bool_decide_eq_true in Hv.
        by apply (proj1 (Forall_forall _ _)
                    (Forall_vstr_keys (dict_keys gk))). }
      by rewrite (pbind_eq _ _ _ _ _
                    (py_in_list_strs_eq fuel x _ h4 Hfuel Hstrs)). }
    rewrite (pbind_eq _ _ _ _ _ (pfilter_eq _ _ _ h4 Hrest)).
    by eexists _, _.
  - intros order v Hord -> Hv.
    rewrite (get_model_group_ids_forward _ _ _ _ _ _ _ _ _
               Hs Hmod Hm Hgr Hg Hord).
    set (h4 := h ++ [ODict []; ODict []; ODict []; OList []]).
    assert (h4 !! g = Some (ODict gk)) as Hg4
      by (unfold h4; by apply lookup_app_l_Some).
    rewrite (pbind_eq _ _ _ _ _ (py_iter_dict g h4 gk Hg4)).
    cbn [from_option id]. by destruct v.
Qed.

Lemma model_group_ids_are_the_groups_witness :
  let h := [ OList [VStr "b"; VStr "zz"];
             ODict [("model_group_order"%string, VRef 0)];
             ODict [("a"%string, VInt 1); ("b"%string, VInt 2)];
             ODict [("model_groups"%string, VRef 2);
                    ("instructions"%string, VRef 1)];
             ODict [("modeling"%string, VRef 3)] ] in
  ∃ l ids h',
    get_model_group_ids 5 (VRef 4) h = Done (VRef l, h')
    ∧ h' !! l = Some (OList ids)
    ∧ VStr "a" ∈ ids ∧ VStr "b" ∈ ids ∧ VStr "zz" ∉ ids.
Proof.
  intros h.
  destruct (model_group_ids_are_the_groups 5 4 h
              [("modeling"%string, VRef 3)] 3
              [("model_groups"%string, VRef 2);
               ("instructions"%string, VRef 1)] 2
              [("a"%string, VInt 1); ("b"%string, VInt 2)])
    as (Hkeys & Hreturns & _);
    [reflexivity|reflexivity|reflexivity|reflexivity|reflexivity|].
  destruct (Hreturns (Some (VRef 0))) as (r & h' & Hrun).
  { exists [("model_group_order"%string, VRef 0)]. by split. }
  { lia. }
  { right. exists (VRef 0). split; [done|]. simpl. lia. }
  destruct (Hkeys r h' Hrun) as (l & ids & -> & _ & Hl & Hids & _).
  exists l, ids, h'. split_and!; [done|done| | |].
  - apply Hids. exists "a"%string. split; [done|by left].
  - apply Hids. exists "b"%string. split; [done|by right; left].
  - intros (k & [= <-] & Hk)%Hids. by repeat apply elem_of_cons in Hk as [?|Hk];
      [| |apply elem_of_nil in Hk].
Defined.

(** X18. When the order asked for names no id twice,
    [get_model_group_ids] returns every model group once: the entries of
    the order that are model groups come first, in the order asked for,
    and the other groups follow in the order of the dict. *)
Theorem model_group_ids_ordered fuel s h kvs m mk g gk i ik o items r h' :
  h !! s = Some (ODict kvs) → dict_get "modeling" kvs = Some (VRef m) →
  h !! m = Some (ODict mk) → dict_get "model_groups" mk = Some (VRef g) →
  h !! g = Some (ODict gk) →
  dict_get "instructions" mk = Some (VRef i) → h !! i = Some (ODict ik) →
  dict_get "model_group_order" ik = Some (VRef o) →
  h !! o = Some (OList items) →
  NoDup items → NoDup (dict_keys gk) →
  get_model_group_ids fuel (VRef s) h = Done (r, h') →
  let groups := VStr <$> dict_keys gk in
  ∃ l ids,
    r = VRef l ∧ h' !! l = Some (OList ids)
    ∧ ids = List.filter (λ v, bool_decide (v ∈ groups)) items
            ++ List.filter (λ v, bool_decide (v ∉ items)) groups
    ∧ ids ≡ₚ groups.
Proof.
  intros Hs Hmod Hm Hgr Hg Hi Hik Ho Hitems Hnd Hndk H groups.
  destruct (get_model_group_ids_run _ _ _ _ _ _ _ _ _ _ Hs Hmod Hm Hgr Hg H)
    as (order_items & -> & -> & Hord).
  rewrite (Hord _ _ _ _ Hi Hik Ho Hitems).
  eexists _, _. split_and!; [done| | |].
  - apply (lookup_after h [_; _; _; _]).
  - f_equal. unfold unordered_ids. apply List.filter_ext_in.
    intros v Hv%list_elem_of_In. unfold ordered_ids.
    destruct (decide (v ∈ items)) as [Hin|Hnin].
    + rewrite (bool_decide_eq_false_2 (v ∉ items)) by tauto.
      apply negb_false_iff, bool_decide_eq_true_2, filter_elem.
      split; [done|]. by apply bool_decide_eq_true_2.
    + rewrite (bool_decide_eq_true_2 (v ∉ items)) by done.
      apply negb_true_iff, bool_decide_eq_false_2.
      by intros [? _]%filter_elem.
  - apply ids_Permutation; [done|].
    apply NoDup_fmap_2; [|done]. by intros ? ? [= ->].
Qed.

Lemma model_group_ids_ordered_witness :
  let h := [ OList [VStr "b"; VStr "zz"];
             ODict [("model_group_order"%string, VRef 0)];
             ODict [("a"%string, VInt 1); ("b"%string, VInt 2)];
             ODict [("model_groups"%string, VRef 2);
                    ("instructions"%string, VRef 1)];
             ODict [("modeling"%string, VRef 3)] ] in
  ∃ l h',
    get_model_group_ids 5 (VRef 4) h = Done (VRef l, h')
    ∧ h' !! l = Some (OList [VStr "b"; VStr "a"]).
Proof.
  intros h.
  destruct (get_model_group_ids 5 (VRef 4) h) as [[r h']|e] eqn:Hrun;
    [|by vm_compute in Hrun].
  destruct (model_group_ids_ordered 5 4 h
              [("modeling"%string, VRef 3)] 3
              [("model_groups"%string, VRef 2);
               ("instructions"%string, VRef 1)] 2
              [("a"%string, VInt 1); ("b"%string, VInt 2)] 1
              [("model_group_order"%string, VRef 0)] 0
              [VStr "b"; VStr "zz"] r h')
    as (l & ids & -> & Hl & -> & _);
    [reflexivity|reflexivity|reflexivity|reflexivity|reflexivity
    |reflexivity|reflexivity|reflexivity|reflexivity
    |by apply (bool_decide_unpack _); vm_compute
    |by apply (bool_decide_unpack _); vm_compute|exact Hrun|].
  exists l, h'. split; [done|]. rewrite Hl. by vm_compute.
Defined.

(** ** [get_grouped_fields_from_data_dictionary] *)

Lemma py_subscript_heap c i h v h' :
  py_subscript c i h = Done (v, h') → h' = h.
Proof.
  unfold py_subscript. intros H.
  destruct c as [| | | |s|l]; try done.
  - destruct i; try done;
      match type of H with
      | context [match ?x with Some _ => _ | None => _ end] => destruct x
      end; try done; by apply pret_ok in H as [_ ->].
  - apply pbind_ok in H as (o & h1 & [-> _]%core_ok%read_ok & H).
    destruct o as [kvs|items]; destruct i; try done;
      match type of H with
      | context [match ?x with Some _ => _ | None => _ end] => destruct x
      end; try done; by apply pret_ok in H as [_ ->].
Qed.

(** One round of the loop, for both ways of calling the function: the
    heap gains the default list, and the key is taken or not. *)
Lemma grouped_round dd group types key result h result' h' :
  (let+ entry := py_subscript dd key in
   let+ l := new_list [] in
   let+ groups := py_get entry "groups" l in
   let+ found := core (py_contains groups group) in
   if found then
     match types with
     | None => pret (result ++ [key])
     | Some ts =>
         let+ type := py_get entry "type" VNone in
         if str_in type ts then pret (result ++ [key]) else pret result
     end
   else pret result) h = Done (result', h') →
  h' = h ++ [OList []]
  ∧ (result' = result ∨ result' = result ++ [key])
  ∧ ∃ entry found,
      py_subscript dd key h = Done (entry, h)
      ∧ (∃ groups, py_get entry "groups" (VRef (length h)) h' = Done (groups, h')
                   ∧ py_contains groups group h' = Ok (found, h'))
      ∧ match types with
        | None => result' = if found then result ++ [key] else result
        | Some ts =>
            ∃ type, py_get entry "type" VNone h' = Done (type, h')
                    ∧ result' = if found && str_in type ts
                                then result ++ [key] else result
        end.
Proof.
  intros H.
  apply pbind_ok in H as (entry & hx & Hentry & H).
  pose proof (py_subscript_heap _ _ _ _ _ Hentry) as ->.
  apply pbind_ok in H as (l & hx & [-> ->]%new_list_ok & H).
  apply pbind_ok in H as (groups & hx & Hgroups & H).
  pose proof (py_get_ok _ _ _ _ _ _ Hgroups) as (-> & le & ek & -> & Hle & _).
  apply pbind_ok in H as (found & hx & Hfound%core_ok & H).
  pose proof (py_contains_ok _ _ _ _ _ Hfound) as ->.
  destruct found.
  - destruct types as [ts|].
    + apply pbind_ok in H as (type & hx & Htype & H).
      pose proof (py_get_ok _ _ _ _ _ _ Htype) as (-> & _).
      destruct (str_in type ts) eqn:Hin; apply pret_ok in H as [-> ->].
      * split_and!; [done|by right|].
        exists (VRef le), true. split_and!; [done|eauto|].
        exists type. by rewrite Hin.
      * split_and!; [done|by left|].
        exists (VRef le), true. split_and!; [done|eauto|].
        exists type. by rewrite Hin.
    + apply pret_ok in H as [-> ->]. split_and!; [done|by right|].
      exists (VRef le), true. split_and!; [done|eauto|done].
  - apply pret_ok in H as [-> ->]. split_and!; [done|by left|].
    exists (VRef le), false. split_and!; [done|eauto|].
    destruct types as [ts|]; [|done].
    exists (from_option id VNone (dict_get "type" ek)).
    split; [|done]. by apply py_get_eq.
Qed.

(** X19. [get_grouped_fields_from_data_dictionary] returns a new list of
    keys of the data dictionary, in the order of the dictionary and none
    twice; the dictionary is left as it is. *)
Theorem grouped_fields_are_keys dd group types h ddk r h' :
  h !! dd = Some (ODict ddk) →
  get_grouped_fields_from_data_dictionary (VRef dd) group types h
  = Done (r, h') →
  ∃ l items,
    r = VRef l ∧ length h ≤ l ∧ h' !! l = Some (OList items)
    ∧ sublist items (VStr <$> dict_keys ddk)
    ∧ h `prefix_of` h'.
Proof.
  intros Hdd H. unfold get_grouped_fields_from_data_dictionary in H.
  rewrite (pbind_eq _ _ _ _ _ (py_iter_dict dd h ddk Hdd)) in H.
  apply pbind_ok in H as (result & h1 & Hloop & H).
  apply new_list_ok in H as [-> ->].
  eapply (pfold_inv (λ rem acc hc,
    h `prefix_of` hc
    ∧ ∃ seen, VStr <$> dict_keys ddk = seen ++ rem ∧ sublist acc seen))
    in Hloop as (Hp & seen & Hseen & Hsub).
  - rewrite app_nil_r in Hseen. subst seen.
    eexists _, _. split_and!; [done| |by rewrite lookup_app_r, Nat.sub_diag
                               |done|by apply prefix_app_r].
    by apply prefix_length.
  - intros key rem acc hc acc' hc' (Hpc & seen & Hseen & Hsub) Hbody.
    apply grouped_round in Hbody as (-> & Hacc & _).
    split; [by apply prefix_app_r|].
    exists (seen ++ [key]). split; [by rewrite <- app_assoc|].
    destruct Hacc as [-> | ->].
    + by apply sublist_inserts_r.
    + by apply sublist_app.
  - split; [done|]. by exists [].
Qed.

Lemma grouped_fields_are_keys_witness :
  let h := [ OList [VStr "main"]; ODict [("groups"%string, VRef 0)];
             ODict [("type"%string, VStr "num")];
             ODict [("area"%string, VRef 1); ("name"%string, VRef 2)] ] in
  ∃ l items h',
    get_grouped_fields_from_data_dictionary (VRef 3) "main" None h
    = Done (VRef l, h')
    ∧ h' !! l = Some (OList items)
    ∧ sublist items [VStr "area"; VStr "name"].
Proof.
  intros h.
  destruct (get_grouped_fields_from_data_dictionary (VRef 3) "main" None h)
    as [[r h']|e] eqn:Hrun; [|by vm_compute in Hrun].
  destruct (grouped_fields_are_keys 3 "main" None h
              [("area"%string, VRef 1); ("name"%string, VRef 2)] r h')
    as (l & items & -> & _ & Hl & Hsub & _); [reflexivity|exact Hrun|].
  by exists l, items, h'.
Defined.

Lemma grouped_loop_narrow dd group ts keys acc0 acc1 h res0 h0 :
  sublist acc1 acc0 →
  pfold keys
    (λ key result,
       let+ entry := py_subscript dd key in
       let+ l := new_list [] in
       let+ groups := py_get entry "groups" l in
       let+ found := core (py_contains groups group) in
       if found then pret (result ++ [key]) else pret result) acc0 h
  = Done (res0, h0) →
  ∃ res1,
    pfold keys
      (λ key result,
         let+ entry := py_subscript dd key in
         let+ l := new_list [] in
         let+ groups := py_get entry "groups" l in
         let+ found := core (py_contains groups group) in
         if found then
           let+ type := py_get entry "type" VNone in
           if str_in type ts then pret (result ++ [key]) else pret result
         else pret result) acc1 h
    = Done (res1, h0)
    ∧ sublist res1 res0.
Proof.
  revert acc0 acc1 h. induction keys as [|key keys IH];
    intros acc0 acc1 h Hsub H; simpl in H |- *.
  { apply pret_ok in H as [-> ->]. by exists acc1. }
  apply pbind_ok in H as (acc0' & h1 & Hbody & H).
  pose proof (grouped_round dd group None key acc0 h acc0' h1 Hbody)
    as (-> & _ & entry & found & Hentry & (groups & Hgroups & Hfound) & ->).
  pose proof (py_get_ok _ _ _ _ _ _ Hgroups) as (_ & le & ek & -> & Hle & _).
  set (type := from_option id VNone (dict_get "type" ek)).
  set (acc1' := if found && str_in type ts then acc1 ++ [key] else acc1).
  destruct (IH (if found then acc0 ++ [key] else acc0) acc1' (h ++ [OList []]))
    as (res1 & Hres1 & Hsub1); [|exact H|].
  { unfold acc1'. destruct found; simpl; [|done].
    destruct (str_in type ts); [by apply sublist_app|by apply sublist_inserts_r]. }
  exists res1. split; [|done]. rewrite <- Hres1.
  apply pbind_eq.
  rewrite (pbind_eq _ _ _ _ _ Hentry).
  rewrite (pbind_eq _ _ _ (VRef (length h)) (h ++ [OList []])) by done.
  rewrite (pbind_eq _ _ _ _ _ Hgroups).
  rewrite (pbind_eq _ _ _ found (h ++ [OList []]))
    by (unfold core; by rewrite Hfound).
  unfold acc1'. destruct found; [|done]. cbn [andb].
  rewrite (pbind_eq _ _ _ _ _ (py_get_eq le _ _ _ ek Hle)).
  fold type. by destruct (str_in type ts).
Qed.

(** X20. Asking [get_grouped_fields_from_data_dictionary] for types only
    narrows its answer: where the call without types returns, the call
    with types returns too, and lists some of the same keys in the same
    order. *)
Theorem grouped_fields_types_narrow dd group ts h l0 h0 items0 :
  get_grouped_fields_from_data_dictionary dd group None h
  = Done (VRef l0, h0) →
  h0 !! l0 = Some (OList items0) →
  ∃ l1 h1 items1,
    get_grouped_fields_from_data_dictionary dd group (Some ts) h
    = Done (VRef l1, h1)
    ∧ h1 !! l1 = Some (OList items1)
    ∧ sublist items1 items0.
Proof.
  intros H Hl0. unfold get_grouped_fields_from_data_dictionary in *.
  apply pbind_ok in H as (keys & hx & Hkeys & H).
  pose proof (py_iter_ok _ _ _ _ Hkeys) as [-> _].
  apply pbind_ok in H as (res0 & h1 & Hloop & H).
  apply new_list_ok in H as [[= ->] ->].
  rewrite lookup_app_r, Nat.sub_diag in Hl0 by done. injection Hl0 as <-.
  destruct (grouped_loop_narrow dd group ts keys [] [] h res0 h1)
    as (res1 & Hloop1 & Hsub); [done|done|].
  exists (length h1), (h1 ++ [OList res1]), res1.
  rewrite (pbind_eq _ _ _ _ _ Hkeys), (pbind_eq _ _ _ _ _ Hloop1).
  split_and!; [done| |done]. by rewrite lookup_app_r, Nat.sub_diag.
Qed.

Lemma grouped_fields_types_narrow_witness :
  let h := [ OList [VStr "main"];
             ODict [("groups"%string, VRef 0); ("type"%string, VStr "num")];
             ODict [("groups"%string, VRef 0); ("type"%string, VStr "cat")];
             ODict [("area"%string, VRef 1); ("name"%string, VRef 2)] ] in
  ∃ l1 h1 items1,
    get_grouped_fields_from_data_dictionary (VRef 3) "main" (Some ["num"%string]) h
    = Done (VRef l1, h1)
    ∧ h1 !! l1 = Some (OList items1)
    ∧ sublist items1 [VStr "area"; VStr "name"].
Proof.
  intros h.
  destruct (get_grouped_fields_from_data_dictionary (VRef 3) "main" None h)
    as [[[| | | | |l0] h0]|e] eqn:Hrun; try by vm_compute in Hrun.
  apply (grouped_fields_types_narrow (VRef 3) "main" ["num"%string] h l0 h0
           [VStr "area"; VStr "name"] Hrun).
  vm_compute in Hrun. injection Hrun as <- <-. reflexivity.
Defined.

(** ** Settings without variables, settings without flags *)

Lemma fold_each_fixed {A St} (xs : list A) (body : A → St → M St) s h :
  (∀ x, x ∈ xs → body x s h = Ok (s, h)) →
  fold_each xs body s h = Ok (s, h).
Proof.
  induction xs as [|x xs IH]; intros Hall; simpl; [done|].
  rewrite (bind_eq _ _ _ s h) by (apply Hall; by left).
  apply IH. intros y ?. apply Hall. by right.
Qed.

Lemma enumerate_fold_fixed {St} l items (body : nat → value → St → M St)
    s h n i :
  h !! l = Some (OList items) →
  (∀ j item, items !! j = Some item → body j item s h = Ok (s, h)) →
  enumerate_fold l i n body s h = Ok (s, h).
Proof.
  intros Hl Hall. revert i. induction n as [|n IH]; intros i; simpl; [done|].
  rewrite (bind_eq _ _ _ _ _ (read_list_eq _ _ _ Hl)).
  destruct (items !! i) as [item|] eqn:Hi; [|done].
  rewrite (bind_eq _ _ _ s h) by by apply Hall. apply IH.
Qed.

Lemma for_each_fixed {A} (xs : list A) (body : A → M unit) h :
  (∀ x, x ∈ xs → body x h = Ok (tt, h)) →
  for_each xs body h = Ok (tt, h).
Proof.
  induction xs as [|x xs IH]; intros Hall; simpl; [done|].
  rewrite (bind_eq _ _ _ tt h) by (apply Hall; by left).
  apply IH. intros y ?. apply Hall. by right.
Qed.

Lemma enumerate_from_fixed l items (body : nat → value → M unit) h n i :
  h !! l = Some (OList items) →
  (∀ j item, items !! j = Some item → body j item h = Ok (tt, h)) →
  enumerate_from l i n body h = Ok (tt, h).
Proof.
  intros Hl Hall. revert i. induction n as [|n IH]; intros i; simpl; [done|].
  rewrite (bind_eq _ _ _ _ _ (read_list_eq _ _ _ Hl)).
  destruct (items !! i) as [item|] eqn:Hi; [|done].
  rewrite (bind_eq _ _ _ tt h) by by apply Hall. apply IH.
Qed.

Lemma var_free_child h v w : var_free h v → child h v w → var_free h w.
Proof. intros Hv Hc s Hr. apply Hv. by econstructor. Qed.

Lemma do_replace_var_free fuel rk settings node h :
  graded h rk → 0 < fuel →
  (∀ l, node = VRef l → rk l + 2 ≤ fuel ∧ l < length h) →
  var_free h node →
  do_replace_variables fuel settings node h = Ok ((node, 0), h).
Proof.
  intros Hg. revert node.
  induction fuel as [|n IH]; intros node Hpos Hnode Hfree; [lia|].
  simpl. unfold do_replace_body.
  destruct node as [| | | |str|l]; try done.
  { by rewrite (Hfree str (reach_refl _ _)). }
  destruct (Hnode l eq_refl) as [Hrk Hl].
  destruct (lookup_lt_is_Some_2 h l Hl) as [o Ho].
  rewrite (bind_eq _ _ _ o h) by (unfold read; by rewrite Ho).
  assert (∀ w, child h (VRef l) w →
            do_replace_variables n settings w h = Ok ((w, 0), h)) as Hkids.
  { intros w Hw. apply IH; [lia| |by eapply var_free_child].
    intros l' ->. destruct (Hg _ _ Hw). split; [lia|done]. }
  destruct o as [kvs|items].
  - rewrite (bind_eq _ _ _ ([], 0) h).
    2:{ apply fold_each_fixed. intros key [entry Hentry]%dict_keys_get.
        rewrite (bind_eq _ _ _ _ _ (dict_getitem_eq _ _ _ _ _ Ho Hentry)).
        rewrite (bind_eq _ _ _ _ _ (Hkids entry ltac:(by eapply child_dict))).
        done. }
    simpl. done.
  - rewrite (bind_eq _ _ _ ([], 0) h).
    2:{ eapply enumerate_fold_fixed; [done|]. intros j item Hitem.
        rewrite (bind_eq _ _ _ _ _ (Hkids item ltac:(by eapply child_list))).
        done. }
    simpl. done.
Qed.

Lemma reach_app_inv h o v x :
  (∀ a b, a < length h → child h (VRef a) (VRef b) → b < length h) →
  (∀ l, v = VRef l → l < length h) →
  reach (h ++ [o]) v x → reach h v x.
Proof.
  intros Hclosed Hv Hr. induction Hr as [|v w x Hc _ IH]; [constructor|].
  assert (∃ l, v = VRef l ∧ child h (VRef l) w) as (l & -> & Hc').
  { inversion Hc as [l kvs k w' Hl Hw|l items i w' Hl Hw]; subst;
      exists l; (split; [done|]); specialize (Hv l eq_refl);
      rewrite lookup_app_l in Hl by done;
      [by eapply child_dict|by eapply child_list]. }
  econstructor; [done|]. apply IH. intros b ->.
  eapply Hclosed; [|done]. by apply Hv.
Qed.

Lemma replace_variables_var_free fuel rk s h kvs :
  graded h rk → rk s + 2 ≤ fuel → h !! s = Some (ODict kvs) →
  var_free h (VRef s) →
  replace_variables_log fuel s h
  = ([0], Ok (VRef (length h), h ++ [ODict kvs])).
Proof.
  intros Hg Hrk Hs Hfree. unfold replace_variables_log.
  rewrite (bind_eq _ _ _ kvs h) by by apply read_dict_eq.
  unfold alloc. cbn [replace_loop failsafe_cap].
  rewrite decide_True by lia.
  assert (s < length h) as Hlt by by eapply lookup_lt_Some.
  destruct (merge_post_alloc h rk s kvs Hg Hs) as (Hg0 & _).
  rewrite (do_replace_var_free fuel _ (VRef s) (VRef (length h)) _ Hg0).
  - cbn [replace_loop]. by rewrite decide_False by lia.
  - lia.
  - intros ? [= <-]. rewrite decide_True by done. rewrite length_app. simpl.
    lia.
  - intros str Hr. apply Hfree.
    inversion Hr as [|? w ? Hc Hr']; subst.
    assert (child h (VRef s) w) as Hc'.
    { inversion Hc as [l d k w' Hl Hw|l items i w' Hl Hw]; subst;
        rewrite lookup_app_r, Nat.sub_diag in Hl by done; simpl in Hl;
        [|done]. injection Hl as <-. by eapply child_dict. }
    econstructor; [done|]. eapply reach_app_inv; [| |done].
    + intros a b _ Hab. by destruct (Hg _ _ Hab).
    + intros b ->. by destruct (Hg _ _ Hc').
Qed.

(** X21. On settings without variable references, nested to a depth the
    recursion limit allows, [_replace_variables] makes one pass, replaces
    nothing and returns a copy of the top-level dict; no object that was
    there is written. *)
Theorem replace_variables_without_variables fuel rk s h kvs :
  graded h rk → rk s + 2 ≤ fuel → h !! s = Some (ODict kvs) →
  var_free h (VRef s) →
  replace_variables_log fuel s h
  = ([0], Ok (VRef (length h), h ++ [ODict kvs])).
Proof. apply replace_variables_var_free. Qed.

Lemma replace_variables_without_variables_witness :
  let h := [ ODict [("a"%string, VStr "x"); ("b"%string, VInt 5)] ] in
  replace_variables_log recursion_limit 0 h
  = ([0], Ok (VRef 1, h ++ [ODict [("a"%string, VStr "x"); ("b"%string, VInt 5)]])).
Proof.
  intros h.
  apply (replace_variables_without_variables recursion_limit (λ x, x) 0 h
           [("a"%string, VStr "x"); ("b"%string, VInt 5)]).
  - apply gradedb_sound. vm_compute. reflexivity.
  - apply Nat.leb_le. vm_compute. reflexivity.
  - reflexivity.
  - intros str Hr.
    inversion Hr as [|? w ? Hc Hr']; subst.
    inversion Hc as [l d k w' Hl Hw|l items i w' Hl Hw]; subst; simpl in Hl;
      [|done].
    injection Hl as <-. simpl in Hw.
    destruct (String.eqb k "a").
    + injection Hw as <-.
      inversion Hr' as [|? ? ? Hc3]; subst; [done|inversion Hc3].
    + destruct (String.eqb k "b"); [|done]. injection Hw as <-.
      inversion Hr' as [|? ? ? Hc3]; subst; inversion Hc3.
Defined.

Lemma strip_flag_loop_plain l key_ h :
  flagged key_ = false → strip_flag_loop l key_ flags key_ h = Ok (key_, h).
Proof.
  unfold flagged, flags. intros [H1 H2]%orb_false_iff.
  cbn [strip_flag_loop]. by rewrite H1, H2.
Qed.

Section strip_id.
Context (n : nat) (rk : loc → nat) (h : heap) (rec : value → M value).
Hypothesis Hg : graded h rk.
Hypothesis rec_id : ∀ l,
  rk l < n → l < length h → good h (VRef l) → rec (VRef l) h = Ok (VRef l, h).

Lemma strip_child_id l w :
  rk l ≤ n → child h (VRef l) w → good h (VRef l) →
  is_list h w || is_dict h w = true → rec w h = Ok (w, h).
Proof.
  intros Hrk Hc Hgood Hw. destruct w as [| | | | |l']; try done.
  destruct (Hg _ _ Hc). apply rec_id; [lia|done|].
  by apply (proj2 (good_elim _ _ Hgood)).
Qed.

Lemma strip_items_id le items :
  h !! le = Some (OList items) → rk le ≤ n → good h (VRef le) →
  strip_items rec le h = Ok (tt, h).
Proof.
  intros Hle Hrk Hgood. unfold strip_items, enumerate.
  rewrite (bind_eq _ _ _ _ _ (read_list_eq _ _ _ Hle)).
  eapply enumerate_from_fixed; [done|]. intros j item Hitem.
  rewrite (bind_eq _ _ _ (is_list h item) h) by done.
  rewrite (bind_eq _ _ _ (is_dict h item) h) by done.
  destruct (is_list h item || is_dict h item) eqn:Hc; [|done].
  rewrite (bind_eq _ _ _ item h)
    by (eapply strip_child_id; [done|by eapply child_list|done..]).
  rewrite (list_setitem_eq _ _ _ _ _ Hle) by by eapply lookup_lt_Some.
  rewrite (list_insert_id items j item) by done.
  by rewrite list_insert_id.
Qed.

Lemma strip_flags_body_id l :
  rk l ≤ n → l < length h → good h (VRef l) →
  strip_flags_body rec (VRef l) h = Ok (VRef l, h).
Proof.
  intros Hrk Hl Hgood. unfold strip_flags_body.
  rewrite (bind_eq _ _ _ (is_list h (VRef l)) h) by done.
  rewrite (bind_eq _ _ _ (is_dict h (VRef l)) h) by done.
  destruct (lookup_lt_is_Some_2 h l Hl) as [[kvs|items] Ho]; simpl; rewrite Ho.
  2:{ by rewrite (bind_eq _ _ _ _ _ (strip_items_id _ _ Ho Hrk Hgood)). }
  rewrite (bind_eq _ _ _ _ _ (read_dict_eq _ _ _ Ho)).
  rewrite (bind_eq _ _ _ tt h); [done|].
  apply for_each_fixed. intros key_ Hkey. unfold strip_key.
  rewrite (bind_eq _ _ _ _ _ (dict_contains_eq _ key_ _ _ Ho)).
  rewrite (proj2 (dict_has_true _ _)) by by apply dict_keys_get.
  cbn [negb]. destruct (proj1 (dict_keys_get _ _) Hkey) as [entry Hentry].
  rewrite (bind_eq _ _ _ _ _ (dict_getitem_eq _ _ _ _ _ Ho Hentry)).
  rewrite (bind_eq _ _ _ _ _ (strip_flag_loop_plain l key_ h
             (proj1 (good_elim _ _ Hgood) _ _ Ho Hkey))).
  rewrite (bind_eq _ _ _ (is_dict h entry) h) by done.
  assert (dict_setitem l key_ entry h = Ok (tt, h)) as Hset.
  { rewrite (dict_setitem_eq _ _ _ _ _ Ho).
    by rewrite dict_set_same, list_insert_id. }
  assert (child h (VRef l) entry) as Hc by by eapply child_dict.
  destruct (is_dict h entry) eqn:Hd.
  - rewrite (bind_eq _ _ _ entry h).
    2:{ eapply strip_child_id; [done..|]. rewrite Hd. apply orb_true_r. }
    by rewrite (bind_eq _ _ _ _ _ Hset).
  - rewrite (bind_eq _ _ _ (is_list h entry) h) by done.
    destruct (is_list h entry) eqn:Hli; [|done].
    destruct entry as [| | | | |le]; try done.
    simpl in Hli. destruct (h !! le) as [[d|xs]|] eqn:Hle; try done.
    destruct (Hg _ _ Hc).
    rewrite (bind_eq _ _ _ tt h); [done|].
    eapply strip_items_id; [done|lia|].
    by apply (proj2 (good_elim _ _ Hgood)).
Qed.
End strip_id.

Lemma strip_flags_id fuel rk h l :
  graded h rk → rk l < fuel → l < length h → good h (VRef l) →
  strip_flags fuel (VRef l) h = Ok (VRef l, h).
Proof.
  intros Hg. revert l. induction fuel as [|n IH]; intros l Hrk Hl Hgood; [lia|].
  simpl. apply (strip_flags_body_id n rk); [done|done|lia|done..].
Qed.

(** X22. [_strip_flags] is the identity on settings without flags: where
    no dict at or below the argument has a key that begins with [+] or
    [!], it returns its argument and writes nothing. *)
Theorem strip_flags_without_flags fuel rk h l :
  graded h rk → rk l < fuel → l < length h → good h (VRef l) →
  strip_flags fuel (VRef l) h = Ok (VRef l, h).
Proof. apply strip_flags_id. Qed.

Lemma strip_flags_without_flags_witness :
  let h := [ ODict [("a"%string, VStr "x"); ("b"%string, VInt 5)] ] in
  strip_flags recursion_limit (VRef 0) h = Ok (VRef 0, h).
Proof.
  intros h.
  apply (strip_flags_without_flags recursion_limit (λ x, x) h 0).
  - apply gradedb_sound. vm_compute. reflexivity.
  - apply Nat.ltb_lt. vm_compute. reflexivity.
  - simpl. lia.
  - apply good_intro.
    + intros kvs k [= <-] Hk.
      repeat (apply elem_of_cons in Hk as [->|Hk]; [reflexivity|]).
      by apply elem_of_nil in Hk.
    + intros w Hw. apply good_unallocated.
      inversion Hw as [l d k w' Hl Hk|l items i w' Hl Hk]; subst;
        simpl in Hl; [|done]. injection Hl as <-. simpl in Hk.
      destruct (String.eqb k "a"); [by injection Hk as <-|].
      destruct (String.eqb k "b"); [by injection Hk as <-|done].
Defined.

(** X23. What [_merge_settings] returns needs no further stripping: on a
    levelled heap without doubly flagged keys, [_strip_flags] run on the
    merged dict returns it and writes nothing. *)
Theorem merge_result_is_stripped fuel rk h t l tkvs lkvs m h' :
  graded h rk → rk t = rk l → rk t + 2 ≤ fuel →
  h !! t = Some (ODict tkvs) → h !! l = Some (ODict lkvs) →
  no_double_flags h = true →
  merge_settings fuel t l h = Ok (m, h') →
  strip_flags fuel (VRef m) h' = Ok (VRef m, h').
Proof.
  intros Hg Hrk Hfuel Ht Hl Hn%ndf_iff H.
  destruct (merge_settings_post _ _ _ _ _ _ _ _ _ Hg Hrk Hfuel Ht Hl H)
    as (-> & rk' & G' & _ & Rm & Len & _).
  apply merge_settings_good in H as [_ Hgood]; [|done].
  apply (strip_flags_id fuel rk'); [done|lia|lia|done].
Qed.

Lemma merge_result_is_stripped_witness :
  let h := [ ODict [("a"%string, VInt 1); ("+b"%string, VInt 2)];
             ODict [("!a"%string, VInt 3)] ] in
  ∃ m h', merge_settings recursion_limit 0 1 h = Ok (m, h')
          ∧ strip_flags recursion_limit (VRef m) h' = Ok (VRef m, h').
Proof.
  intros h.
  destruct (merge_settings recursion_limit 0 1 h) as [[m h']|e] eqn:Hrun;
    [|by vm_compute in Hrun].
  exists m, h'. split; [done|].
  apply (merge_result_is_stripped recursion_limit (λ _, 0) h 0 1
           [("a"%string, VInt 1); ("+b"%string, VInt 2)]
           [("!a"%string, VInt 3)] m h').
  - apply gradedb_sound. vm_compute. reflexivity.
  - reflexivity.
  - apply Nat.leb_le. vm_compute. reflexivity.
  - reflexivity.
  - reflexivity.
  - vm_compute. reflexivity.
  - exact Hrun.
Defined.

(** ** Dotted paths *)

Lemma split_on_dotted a b :
  str_contains "." a = false →
  split_on "." (a +:+ String "." b) = a :: split_on "." b.
Proof.
  induction a as [|c a IH]; intros Hno.
  - done.
  - cbn [str_contains String.prefix] in Hno.
    change (String c a +:+ String "." b) with (String c (a +:+ String "." b)).
    cbn [split_on]. destruct (Ascii.eqb_spec c ".") as [->|Hne].
    { exfalso. by destruct a. }
    rewrite IH; [done|].
    destruct (ascii_dec "." c) as [<-|_]; [done|]. by destruct a.
Qed.

Lemma split_on_cons c s : ∃ hd tl, split_on c s = hd :: tl.
Proof.
  induction s as [|a s (hd & tl & IH)]; simpl; [by eexists _, _|].
  destruct (Ascii.eqb a c); [by eexists _, _|]. rewrite IH. by eexists _, _.
Qed.

(** X24. Dotted paths compose: when the first segment [a] is a key of the
    dict, looking up [a.b] in the dict is looking up [b] in what [a] is
    bound to; when it is not a key, the lookup finds nothing, whatever
    follows. *)
Theorem lookup_dotted_composes l kvs a b h :
  h !! l = Some (ODict kvs) → str_contains "." a = false →
  lookup_variable_in_settings (VRef l) (a +:+ String "." b) h
  = match dict_get a kvs with
    | Some v => lookup_variable_in_settings v b h
    | None => Ok (VNone, h)
    end.
Proof.
  intros Hl Hno. unfold lookup_variable_in_settings.
  rewrite split_on_dotted by done.
  destruct (split_on_cons "." b) as (hd & tl & Hb). rewrite Hb.
  cbn [lookup_path].
  rewrite (bind_eq _ _ _ (dict_has a kvs) h)
    by (unfold py_contains; by rewrite (bind_eq _ _ _ (ODict kvs) h)
          by (unfold read; by rewrite Hl)).
  unfold dict_has. destruct (dict_get a kvs) as [v|] eqn:Hv; [|done].
  by rewrite (bind_eq _ _ _ v h) by by eapply dict_getitem_eq.
Qed.

Lemma lookup_dotted_composes_witness :
  let h := [ ODict [("c"%string, VInt 7)]; ODict [("a"%string, VRef 0)] ] in
  lookup_variable_in_settings (VRef 1) "a.c" h
  = lookup_variable_in_settings (VRef 0) "c" h.
Proof.
  intros h.
  apply (lookup_dotted_composes 1 [("a"%string, VRef 0)] "a" "c" h);
    reflexivity.
Defined.

(** X25. A path never leads into a list or a string: from a value that
    is no dict the lookup finds nothing or fails with [TypeError], and it
    never returns a value. *)
Theorem lookup_stops_at_non_dicts s var h :
  is_dict h s = false → (∀ l, s = VRef l → l < length h) →
  lookup_variable_in_settings s var h = Ok (VNone, h)
  ∨ lookup_variable_in_settings s var h = Raise TypeError.
Proof.
  intros Hd Hs. unfold lookup_variable_in_settings.
  destruct (split_on_cons "." var) as (first & rest & ->).
  cbn [lookup_path].
  destruct s as [| | | |str|l]; try by right.
  - rewrite (bind_eq _ _ _ (str_contains first str) h) by done.
    destruct (str_contains first str); [right|by left].
    by destruct rest.
  - destruct (lookup_lt_is_Some_2 h l (Hs l eq_refl)) as [o Ho].
    destruct o as [kvs|items]; [simpl in Hd; by rewrite Ho in Hd|].
    assert (py_getitem (VRef l) first h = Raise TypeError) as Hget.
    { unfold py_getitem, dict_getitem, read_dict, bind, read. by rewrite Ho. }
    rewrite (bind_eq _ _ _
               (existsb (λ x, scalar_eqb x (VStr first)) items) h)
      by (unfold py_contains, bind, read; by rewrite Ho).
    destruct (existsb _ items); [right|by left].
    destruct rest; [done|]. unfold bind. by rewrite Hget.
Qed.

Lemma lookup_stops_at_non_dicts_witness :
  let h := [ OList [VStr "b"]; ODict [("a"%string, VRef 0)] ] in
  lookup_variable_in_settings (VRef 0) "b" h = Ok (VNone, h)
  ∨ lookup_variable_in_settings (VRef 0) "b" h = Raise TypeError.
Proof.
  intros h. apply (lookup_stops_at_non_dicts (VRef 0) "b" h).
  - reflexivity.
  - intros l [= <-]. simpl. lia.
Defined.

(** ** [_process_settings] returns *)

Lemma shrunk_reach h h' v x : shrunk h h' → reach h' v x → reach h v x.
Proof.
  intros Hs. induction 1 as [|v w x Hc _ IH]; [constructor|].
  econstructor; [|done].
  inversion Hc; subst; eapply shrunk_child; eauto.
Qed.

Lemma unique_keys_alloc h kvs l :
  unique_keys h → h !! l = Some (ODict kvs) → unique_keys (h ++ [ODict kvs]).
Proof.
  intros Hu Hl x d [Hx|[_ Hx]]%lookup_app_Some; [by eapply Hu|].
  apply list_lookup_singleton_Some in Hx as [_ [= <-]]. by eapply Hu.
Qed.

(** X26. On settings without variable references in which every dict
    binds a key once, nested to a depth the recursion limit allows,
    [_process_settings] raises nothing: it returns a new dict that holds
    the bindings of its argument that are no comments, unchanged. *)
Theorem process_settings_returns fuel rk l h kvs :
  graded h rk → unique_keys h → rk l + 2 ≤ fuel →
  h !! l = Some (ODict kvs) → var_free h (VRef l) →
  ∃ h', process_settings fuel (VRef l) h = Done (VRef (S (length h)), h')
        ∧ h' !! S (length h) = Some (ODict (without_comments kvs)).
Proof.
  intros Hg Hu Hfuel Hl Hfree. unfold process_settings.
  rewrite (pbind_eq _ _ _ _ _ (py_copy_dict _ _ _ Hl)).
  assert (l < length h) as Hlt by by eapply lookup_lt_Some.
  destruct (merge_post_alloc h rk l kvs Hg Hl) as (Hg1 & _).
  set (rk1 := λ x, if decide (x = length h) then rk l else rk x) in *.
  set (h1 := h ++ [ODict kvs]) in *.
  assert (rk1 (length h) = rk l) as Hrc by (unfold rk1; by rewrite decide_True).
  assert (h1 !! length h = Some (ODict kvs)) as Hc1
    by (unfold h1; by rewrite lookup_app_r, Nat.sub_diag).
  destruct (remove_comments_total_levelled fuel rk1 (length h) h1 kvs)
    as [h2 Hrem]; [done|by eapply unique_keys_alloc|lia|done|].
  rewrite (pbind_eq _ _ _ _ _ Hrem).
  apply remove_comments_post in Hrem. pose proof Hrem as (_ & Hs & _).
  assert (h2 !! length h = Some (ODict (without_comments kvs))) as Hc2
    by (eapply remove_post_dict; [done|constructor|done]).
  assert (length h2 = S (length h)) as Hlen.
  { rewrite (sh_len _ _ Hs). unfold h1. rewrite length_app. simpl. lia. }
  rewrite (replace_variables_any_dict _ _ _ _ Hc2).
  unfold core, replace_variables.
  rewrite (replace_variables_var_free fuel rk1 (length h) h2
             (without_comments kvs)); [| by eapply shrunk_graded|lia|done|].
  - simpl. rewrite Hlen. eexists. split; [done|].
    by rewrite lookup_app_r, Hlen, Nat.sub_diag by lia.
  - intros str Hr%(shrunk_reach h1); [|done]. apply Hfree.
    inversion Hr as [|? w ? Hc Hr']; subst.
    assert (child h (VRef l) w) as Hc'.
    { inversion Hc as [x d k w' Hx Hw|x items i w' Hx Hw]; subst;
        rewrite Hc1 in Hx; [|done]. injection Hx as <-.
      by eapply child_dict. }
    econstructor; [done|]. eapply reach_app_inv; [| |done].
    + intros a b _ Hab. by destruct (Hg _ _ Hab).
    + intros b ->. by destruct (Hg _ _ Hc').
Qed.

Lemma process_settings_returns_witness :
  let h := [ ODict [("__note"%string, VStr "x"); ("a"%string, VStr "y");
                    ("b"%string, VInt 5)] ] in
  ∃ h', process_settings recursion_limit (VRef 0) h = Done (VRef 2, h')
        ∧ h' !! 2 = Some (ODict [("a"%string, VStr "y"); ("b"%string, VInt 5)]).
Proof.
  intros h.
  apply (process_settings_returns recursion_limit (λ x, x) 0 h
           [("__note"%string, VStr "x"); ("a"%string, VStr "y");
            ("b"%string, VInt 5)]).
  - apply gradedb_sound. vm_compute. reflexivity.
  - apply unique_keysb_sound. vm_compute. reflexivity.
  - apply Nat.leb_le. vm_compute. reflexivity.
  - reflexivity.
  - intros str Hr.
    inversion Hr as [|? w ? Hc Hr']; subst.
    inversion Hc as [l d k w' Hl Hw|l items i w' Hl Hw]; subst; simpl in Hl;
      [|done].
    injection Hl as <-. simpl in Hw.
    destruct (String.eqb k "__note").
    { injection Hw as <-.
      inversion Hr' as [|? ? ? Hc3]; subst; [done|inversion Hc3]. }
    destruct (String.eqb k "a").
    { injection Hw as <-.
      inversion Hr' as [|? ? ? Hc3]; subst; [done|inversion Hc3]. }
    destruct (String.eqb k "b"); [|done]. injection Hw as <-.
    inversion Hr' as [|? ? ? Hc3]; subst; inversion Hc3.
Defined.

(** ** Plain names *)

Lemma startswith_cons a t c :
  startswith (String a t) (String c EmptyString) = Ascii.eqb a c.
Proof.
  destruct (Ascii.eqb_spec a c) as [->|Hne].
  - apply startswith_char. eauto.
  - destruct (startswith (String a t) (String c EmptyString)) eqn:E; [|done].
    apply startswith_char in E as [t' [= -> _]]. done.
Qed.

Lemma flagged_cons a t : flagged (String a t) = is_flag a.
Proof. unfold flagged, is_flag. by rewrite !startswith_cons. Qed.

Lemma plain_name_unflagged k : flagged k = false → plain_name k = k.
Proof. destruct k as [|a t]; [done|]. rewrite flagged_cons. simpl. by intros ->. Qed.

Lemma plain_name_flagged k :
  flagged k = true → plain_name k = plain_name (tail1 k).
Proof. destruct k as [|a t]; [done|]. rewrite flagged_cons. simpl. by intros ->. Qed.

Lemma plain_name_plain k : flagged (plain_name k) = false.
Proof.
  induction k as [|a t IH]; [done|]. simpl.
  destruct (is_flag a) eqn:E; [done|]. by rewrite flagged_cons.
Qed.

Lemma plain_name_tail k :
  flagged k = true → doubly_flagged k = false → plain_name k = tail1 k.
Proof.
  intros Hf Hd. rewrite plain_name_flagged by done.
  apply plain_name_unflagged. by apply tail_not_double.
Qed.

(** ** Stripping the keys of a dict *)

Lemma dict_get_app k d1 d2 :
  dict_get k (d1 ++ d2)
  = match dict_get k d1 with Some v => Some v | None => dict_get k d2 end.
Proof.
  induction d1 as [|[k' v'] d1 IH]; simpl; [done|].
  by destruct (String.eqb k k').
Qed.

Lemma dict_get_None k d : k ∉ dict_keys d → dict_get k d = None.
Proof.
  intros Hk. destruct (dict_get k d) as [v|] eqn:E; [|done].
  destruct Hk. apply dict_keys_get. eauto.
Qed.

Lemma dict_get_cons k k' v d :
  dict_get k ((k', v) :: d)
  = if decide (k = k') then Some v else dict_get k d.
Proof.
  simpl. destruct (String.eqb_spec k k') as [->|Hne].
  - by rewrite decide_True.
  - by rewrite decide_False.
Qed.

Lemma dict_set_NoDup k v d :
  NoDup (dict_keys d) → NoDup (dict_keys (dict_set k v d)).
Proof.
  unfold dict_keys. induction d as [|[k' v'] d IH]; simpl.
  { intros _. apply NoDup_singleton. }
  intros [Hk' Hnd]%NoDup_cons.
  destruct (String.eqb_spec k k') as [->|Hne]; simpl.
  - by apply NoDup_cons.
  - apply NoDup_cons. split; [|by apply IH].
    intros [->|Hin]%dict_keys_set; done.
Qed.

Lemma dict_del_NoDup k d :
  NoDup (dict_keys d) → NoDup (dict_keys (dict_del k d)).
Proof.
  unfold dict_keys. induction d as [|[k' v'] d IH]; simpl; [done|].
  intros [Hk' Hnd]%NoDup_cons.
  destruct (String.eqb_spec k k') as [->|Hne]; simpl; [by apply IH|].
  apply NoDup_cons. split; [|by apply IH].
  intros Hin%dict_keys_del. done.
Qed.

Lemma strip_key_pure_NoDup key_ d :
  NoDup (dict_keys d) → NoDup (dict_keys (strip_key_pure key_ d)).
Proof.
  intros Hd. unfold strip_key_pure.
  destruct (dict_get key_ d); [|done].
  destruct (flagged key_); auto using dict_set_NoDup, dict_del_NoDup.
Qed.

Lemma strip_dict_NoDup kvs :
  NoDup (dict_keys kvs) → NoDup (dict_keys (strip_dict kvs)).
Proof.
  unfold strip_dict. generalize (dict_keys kvs) at 2. intros keys.
  revert kvs. induction keys as [|key_ keys IH]; intros kvs Hd; [done|].
  unfold strip_keys_pure. simpl. by apply IH, strip_key_pure_NoDup.
Qed.

Lemma keys_strippable_inv keys :
  keys_strippable keys = true →
  (∀ k, k ∈ keys → doubly_flagged k = false)
  ∧ NoDup (plain_name <$> keys).
Proof.
  unfold keys_strippable.
  intros [Hd Hn%bool_decide_eq_true]%andb_true_iff. split; [|done].
  intros k Hk. rewrite forallb_forall in Hd.
  apply negb_true_iff, Hd. by apply list_elem_of_In.
Qed.

Lemma keys_strippable_NoDup keys :
  keys_strippable keys = true → NoDup keys.
Proof.
  intros [_ Hn]%keys_strippable_inv. by apply NoDup_fmap_1 in Hn.
Qed.

Lemma rename_dict_keys kvs :
  dict_keys (rename_dict kvs) = plain_name <$> dict_keys kvs.
Proof.
  unfold dict_keys, rename_dict. rewrite <- !list_fmap_compose. done.
Qed.

Lemma rename_dict_app d1 d2 :
  rename_dict (d1 ++ d2) = rename_dict d1 ++ rename_dict d2.
Proof. apply fmap_app. Qed.

Lemma strip_keys_rename suf : ∀ pre d,
  keys_strippable (dict_keys (pre ++ suf)) = true →
  (∀ k', dict_get k' d = dict_get k' (rename_dict pre ++ suf)) →
  ∀ k', dict_get k' (strip_keys_pure (dict_keys suf) d)
        = dict_get k' (rename_dict (pre ++ suf)).
Proof.
  induction suf as [|[key_ v] suf IH]; intros pre d Hok Hd k'.
  { by rewrite Hd, !app_nil_r. }
  unfold strip_keys_pure. simpl.
  change (fold_left _ ?ks ?d0) with (strip_keys_pure ks d0).
  replace (pre ++ (key_, v) :: suf) with ((pre ++ [(key_, v)]) ++ suf)
    in * by by rewrite <- app_assoc.
  apply IH; [done|]. clear k' IH. intros k'.
  destruct (keys_strippable_inv _ Hok) as [Hdf Hnd].
  assert (dict_keys ((pre ++ [(key_, v)]) ++ suf)
          = dict_keys pre ++ key_ :: dict_keys suf) as Hkeys.
  { unfold dict_keys. by rewrite <- app_assoc, fmap_app. }
  rewrite Hkeys in Hnd, Hdf. rewrite fmap_app, fmap_cons in Hnd.
  apply NoDup_app in Hnd as (_ & Hpre & [Hsuf _]%NoDup_cons).
  assert (doubly_flagged key_ = false) as Hkd.
  { apply Hdf. apply elem_of_app. right. left. }
  assert (plain_name key_ ∉ dict_keys (rename_dict pre)) as F2.
  { rewrite rename_dict_keys. intros Hin. apply (Hpre _ Hin). left. }
  assert (key_ ∉ dict_keys suf) as F3.
  { intros Hin. apply Hsuf. by apply list_elem_of_fmap_2. }
  assert (flagged key_ = true → key_ ∉ dict_keys (rename_dict pre)) as F1.
  { rewrite rename_dict_keys.
    intros Hf (p & Hp & _)%list_elem_of_fmap.
    rewrite Hp, plain_name_plain in Hf. done. }
  assert (dict_get key_ d = Some v) as Hget.
  { rewrite Hd, dict_get_app. simpl.
    destruct (flagged key_) eqn:Hf.
    - rewrite dict_get_None by by apply F1. by rewrite String.eqb_refl.
    - rewrite plain_name_unflagged in F2 by done.
      rewrite dict_get_None by done. by rewrite String.eqb_refl. }
  rewrite strip_key_pure_get, Hget.
  rewrite rename_dict_app. simpl. rewrite <- app_assoc. simpl.
  destruct (flagged key_) eqn:Hf.
  2:{ by rewrite plain_name_unflagged, Hd by done. }
  rewrite plain_name_tail by done.
  rewrite plain_name_tail in F2 by done.
  rewrite dict_get_app, dict_get_cons.
  destruct (decide (k' = tail1 key_)) as [->|Hne1].
  { by rewrite dict_get_None by done. }
  destruct (decide (k' = key_)) as [->|Hne2].
  { rewrite dict_get_None by by apply F1. by apply eq_sym, dict_get_None. }
  rewrite Hd, dict_get_app, dict_get_cons. by rewrite decide_False.
Qed.

(** With keys that can be stripped, the dict loop of [_strip_flags]
    leaves the dict with every key replaced by its plain name. *)
Lemma strip_dict_get kvs k :
  keys_strippable (dict_keys kvs) = true →
  dict_get k (strip_dict kvs) = dict_get k (rename_dict kvs).
Proof. intros Hok. by apply (strip_keys_rename kvs []). Qed.

Lemma strip_dict_keys_plain kvs k :
  keys_strippable (dict_keys kvs) = true →
  k ∈ dict_keys (strip_dict kvs) → flagged k = false.
Proof.
  intros Hok [v Hv]%dict_keys_get. rewrite strip_dict_get in Hv by done.
  apply dict_get_keys in Hv. rewrite rename_dict_keys in Hv.
  apply list_elem_of_fmap in Hv as (p & -> & _). apply plain_name_plain.
Qed.

Lemma strip_key_pure_id key_ d :
  flagged key_ = false → strip_key_pure key_ d = d.
Proof.
  intros Hf. unfold strip_key_pure.
  destruct (dict_get key_ d) as [v|] eqn:E; [|done].
  rewrite Hf. by apply dict_set_same.
Qed.

(** The dict loop does nothing to a dict without flagged keys. *)
Lemma strip_keys_pure_id keys d :
  (∀ k, k ∈ keys → flagged k = false) → strip_keys_pure keys d = d.
Proof.
  induction keys as [|key_ keys IH]; intros Hp; [done|].
  unfold strip_keys_pure. simpl. rewrite strip_key_pure_id by (apply Hp; left).
  apply IH. intros k Hk. apply Hp. by right.
Qed.

Lemma strip_dict_plain kvs :
  (∀ k, k ∈ dict_keys kvs → flagged k = false) → strip_dict kvs = kvs.
Proof. apply strip_keys_pure_id. Qed.

Lemma strip_dict_idem kvs :
  keys_strippable (dict_keys kvs) = true →
  strip_dict (strip_dict kvs) = strip_dict kvs.
Proof. intros Hok. apply strip_dict_plain. intros k. by apply strip_dict_keys_plain. Qed.

Lemma strip_obj_iter n o :
  (∀ kvs, o = ODict kvs → keys_strippable (dict_keys kvs) = true) →
  Nat.iter n strip_obj o = o ∨ Nat.iter n strip_obj o = strip_obj o.
Proof.
  intros Hok. induction n as [|n IH]; [by left|]. right. simpl.
  destruct IH as [-> | ->]; [done|].
  destruct o as [kvs|xs]; [|done]. simpl. f_equal. apply strip_dict_idem; eauto.
Qed.

(** ** What [_strip_flags] does to every object *)

Lemma strips_refl h : strips h h.
Proof. split; [done|]. intros x o Hx. by exists 0. Qed.

Lemma strips_trans h1 h2 h3 : strips h1 h2 → strips h2 h3 → strips h1 h3.
Proof.
  intros [L1 S1] [L2 S2]. split; [congruence|]. intros x o Hx.
  destruct (S1 _ _ Hx) as [n1 H1]. destruct (S2 _ _ H1) as [n2 H2].
  exists (n2 + n1). by rewrite Nat.iter_add.
Qed.

Lemma strips_strips_but l h h' : strips h h' → strips_but l h h'.
Proof. intros [L S]. split; [done|]. intros x o _. apply S. Qed.

Lemma strips_but_trans l h1 h2 h3 :
  strips_but l h1 h2 → strips_but l h2 h3 → strips_but l h1 h3.
Proof.
  intros [L1 S1] [L2 S2]. split; [congruence|]. intros x o Hne Hx.
  destruct (S1 _ _ Hne Hx) as [n1 H1]. destruct (S2 _ _ Hne H1) as [n2 H2].
  exists (n2 + n1). by rewrite Nat.iter_add.
Qed.

Lemma strips_but_write l h o : strips_but l h (<[l := o]> h).
Proof.
  split; [by rewrite length_insert|]. intros x ox Hne Hx. exists 0.
  by rewrite list_lookup_insert_ne.
Qed.

Section strip_strips.
Context (rec : value → M value) (rk : loc → nat).
Hypothesis rec_evolve : ∀ R v h r h',
  closed h R → in_set R v → rec v h = Ok (r, h') → r = v ∧ evolve R h h'.
Hypothesis rec_lists : ∀ v h r h',
  rec v h = Ok (r, h') → r = v ∧ lists_kept h h'.
Hypothesis rec_strips : ∀ v h r h',
  graded h rk → rec v h = Ok (r, h') → strips h h'.

Lemma strip_item_strips xs i item h h' items :
  graded h rk → h !! xs = Some (OList items) → items !! i = Some item →
  strip_item_run rec xs i item h h' → graded h' rk ∧ strips h h'.
Proof.
  intros Hg Hxs Hi Hrun.
  assert (graded h' rk) as Hg'.
  { eapply graded_evolve; [exact Hg|].
    eapply (strip_item_evolve (λ _, True) rec (rec_evolve _));
      [apply closed_true|done..]. }
  split; [done|].
  destruct Hrun as [_ -> | r hb items_b _ Hrec Hb Hlt ->].
  { apply strips_refl. }
  destruct (rec_lists _ _ _ _ Hrec) as [-> Hk].
  rewrite (Hk _ _ Hxs) in Hb. injection Hb as <-.
  rewrite (list_insert_id _ _ _ Hi).
  rewrite list_insert_id by by apply Hk. by eapply rec_strips.
Qed.

Lemma strip_items_strips xs h u h' :
  graded h rk → strip_items rec xs h = Ok (u, h') →
  graded h' rk ∧ strips h h'.
Proof.
  intros Hg H. unfold strip_items, enumerate in H.
  apply bind_ok in H as (items & h1 & [-> Hl]%read_list_ok & H).
  eapply (enumerate_from_inv (λ _ hc, graded hc rk ∧ strips h hc)) in H
    as (_ & ? & _); [done| |split; [done|apply strips_refl]].
  intros i item hc items_c u1 hc' [Hgc Hs] Hlc Hitem Hbody.
  apply strip_item_ok in Hbody.
  destruct (strip_item_strips _ _ _ _ _ _ Hgc Hlc Hitem Hbody) as [? ?].
  split; [done|]. by eapply strips_trans.
Qed.

Lemma strip_entry_strips entry h entry' h' :
  graded h rk → strip_entry_run rec entry h entry' h' →
  graded h' rk ∧ strips h h'.
Proof.
  intros Hg Hrun.
  assert (graded h' rk) as Hg'.
  { eapply graded_evolve; [exact Hg|].
    eapply (strip_entry_evolve (λ _, True) rec (rec_evolve _));
      [apply closed_true|apply in_set_true|done]. }
  split; [done|].
  destruct Hrun as [Hd Hrec | le Hd Hl -> Hitems -> | Hd Hl -> ->].
  - by eapply rec_strips.
  - by eapply strip_items_strips.
  - apply strips_refl.
Qed.

Lemma strip_key_strips l key_ h h' :
  graded h rk → strip_key_run rec l key_ h h' →
  graded h' rk ∧ strips_but l h h'.
Proof.
  intros Hg Hrun.
  assert (graded h' rk) as Hg'.
  { eapply graded_evolve; [exact Hg|].
    eapply (strip_key_evolve (λ _, True) rec (rec_evolve _));
      [apply closed_true|done..]. }
  split; [done|].
  destruct Hrun as [kvs Hk Hnone -> | kvs entry key hr entry' hb kvs_b
                                      Hk Hentry Hloop Hrun Hb ->].
  { apply strips_strips_but, strips_refl. }
  assert (graded hr rk ∧ strips_but l h hr) as [Hgr Hsr].
  { apply strip_flag_loop_ok in Hloop
      as [(_ & _ & ->)|(_ & _ & kvs0 & v0 & Hl0 & Hv0 & ->)].
    { split; [done|apply strips_strips_but, strips_refl]. }
    split; [|apply strips_but_write].
    eapply graded_evolve; [exact Hg|].
    eapply (evolve_write (λ _, True)); [apply evolve_refl|done..|].
    intros w [k Hw]. destruct (decide (key_ = k)) as [<-|Hne1].
    { by rewrite dict_get_del_eq in Hw. }
    rewrite dict_get_del_ne in Hw by done.
    destruct (decide (tail1 key_ = k)) as [<-|Hne2].
    - rewrite dict_get_set_eq in Hw. injection Hw as <-. by exists key_.
    - rewrite dict_get_set_ne in Hw by done. by exists k. }
  destruct (strip_entry_strips _ _ _ _ Hgr Hrun) as [_ Hsb].
  eapply strips_but_trans; [done|].
  eapply strips_but_trans; [by apply strips_strips_but|].
  apply strips_but_write.
Qed.

Lemma strip_flags_body_strips v h r h' :
  graded h rk → strip_flags_body rec v h = Ok (r, h') → strips h h'.
Proof.
  intros Hg H. unfold strip_flags_body in H.
  apply bind_ok in H as (sl & h1 & [-> ->]%isinstance_list_ok & H).
  apply bind_ok in H as (sd & h1 & [-> ->]%isinstance_dict_ok & H).
  destruct v as [| | | | |l];
    try (apply ret_ok in H as [_ ->]; apply strips_refl).
  destruct (is_list h (VRef l)).
  { apply bind_ok in H as (u & h1 & Hitems & H).
    apply ret_ok in H as [_ ->]. by eapply strip_items_strips. }
  destruct (is_dict h (VRef l)).
  2:{ apply ret_ok in H as [_ ->]. apply strips_refl. }
  apply bind_ok in H as (kvs & h1 & [-> Hl]%read_dict_ok & H).
  apply bind_ok in H as (u & h1 & Hloop & H).
  apply ret_ok in H as [_ ->].
  destruct (strip_keys_top rec rec_evolve (λ x, rk x < rk l) l
              (dict_keys kvs) kvs h u h1) as [Hl' _];
    [by apply graded_closed|lia|done| |done|].
  { intros w Hw. by eapply graded_child_below. }
  eapply (for_each_inv (λ _ hc, graded hc rk ∧ strips_but l h hc)) in Hloop
    as [_ [L S]]; [| |split; [done|apply strips_strips_but, strips_refl]].
  - split; [done|]. intros x o Hx. destruct (decide (x = l)) as [->|Hne].
    + rewrite Hl in Hx. injection Hx as <-. by exists 1.
    + by apply S.
  - intros key_ rem hc u1 hc' [Hgc Hs] Hkey. apply strip_key_ok in Hkey.
    destruct (strip_key_strips _ _ _ _ Hgc Hkey) as [? ?].
    split; [done|]. by eapply strips_but_trans.
Qed.
End strip_strips.

Lemma strip_flags_strips fuel rk v h r h' :
  graded h rk → strip_flags fuel v h = Ok (r, h') → strips h h'.
Proof.
  revert v h r h'. induction fuel as [|n IH]; intros v h r h' Hg H; [done|].
  simpl in H. eapply (strip_flags_body_strips (strip_flags n) rk); [| | |done..].
  - intros R v' g r' g'. apply strip_flags_evolve.
  - intros v' g r' g' Hrec. split; [|by eapply strip_flags_lists].
    by eapply (strip_flags_evolve n (λ _, True));
      [apply closed_true|apply in_set_true|].
  - intros v' g r' g'. apply IH.
Qed.

(** On a levelled heap whose keys can be stripped, [_strip_flags] leaves
    every list as it is and every dict below its argument with its keys
    stripped. *)
Lemma heap_strippable_ndf h : heap_strippable h → ndf h.
Proof.
  intros Hs l kvs k Hl Hk.
  by apply (proj1 (keys_strippable_inv _ (Hs _ _ Hl))).
Qed.

Lemma strip_flags_exact fuel rk v h r h' :
  graded h rk → heap_strippable h → strip_flags fuel v h = Ok (r, h') →
  r = v ∧ lists_kept h h'
  ∧ ∀ x kvs, reach h' v (VRef x) → h !! x = Some (ODict kvs) →
             h' !! x = Some (ODict (strip_dict kvs)).
Proof.
  intros Hg Hs H.
  destruct (strip_flags_good _ _ _ _ _ (heap_strippable_ndf _ Hs) H)
    as (-> & _ & Hgood).
  split; [done|]. split; [by eapply strip_flags_lists|].
  intros x kvs Hr Hx.
  destruct (strip_flags_strips _ _ _ _ _ _ Hg H) as [_ St].
  destruct (St _ _ Hx) as [n Hn].
  destruct (strip_obj_iter n (ODict kvs)) as [E|E].
  { intros ? [= <-]. eauto. }
  - rewrite E in Hn. rewrite Hn. do 2 f_equal. symmetry.
    apply strip_dict_plain. intros k Hk.
    eapply good_reach in Hr; [|done].
    by eapply (proj1 (good_elim _ _ Hr)).
  - by rewrite E in Hn.
Qed.

(** ** Reading a dict back *)

Lemma read_tree_dict_aligned n h x kvs t :
  h !! x = Some (ODict kvs) → NoDup (dict_keys kvs) →
  read_tree (S n) h (VRef x) = Some t →
  ∃ kts, t = TDict kts
    ∧ Forall2 (λ kv kt, kv.1 = kt.1 ∧ read_tree n h kv.2 = Some kt.2) kvs kts.
Proof.
  intros Hx Hnd H. simpl in H. rewrite Hx in H.
  destruct (mapM _ (dict_keys kvs)) as [kts|] eqn:E; [|done].
  injection H as <-. exists kts. split; [done|].
  apply mapM_Some_1 in E. unfold dict_keys in E.
  apply Forall2_fmap_l in E.
  assert (∀ sub kts,
            (∀ kv, kv ∈ sub → kv ∈ kvs) →
            Forall2 (λ (kv : string * value) (y : string * tree),
                       dict_get kv.1 kvs
                       ≫= (λ w, read_tree n h w ≫= λ t, Some (kv.1, t))
                       = Some y) sub kts →
            Forall2 (λ kv kt, kv.1 = kt.1 ∧ read_tree n h kv.2 = Some kt.2)
                    sub kts) as Haux.
  { clear E kts. intros sub kts Hsub E.
    induction E as [|[k w] [k' t'] sub' kts' Hkv E IH]; [done|].
    constructor; [|apply IH; intros kv Hkv'; apply Hsub; by right].
    simpl in *. rewrite (dict_get_unique k kvs w) in Hkv;
      [|done|apply Hsub; left].
    simpl in Hkv. destruct (read_tree n h w) as [t0|]; simpl in Hkv; [|done].
    by injection Hkv as <- <-. }
  by apply Haux.
Qed.

Lemma read_tree_dict_some n h x kvs :
  h !! x = Some (ODict kvs) →
  (∀ k w, dict_get k kvs = Some w → is_Some (read_tree n h w)) →
  is_Some (read_tree (S n) h (VRef x)).
Proof.
  intros Hx Hkids. simpl. rewrite Hx.
  assert (is_Some (mapM (λ k, w ← dict_get k kvs;
            t ← read_tree n h w; Some (k, t)) (dict_keys kvs))) as [kts ->];
    [|done].
  apply mapM_is_Some, Forall_forall. intros k Hk. simpl.
  destruct (proj1 (dict_keys_get _ _) Hk) as [w Hw]. rewrite Hw. simpl.
  destruct (Hkids k w Hw) as [t ->]. done.
Qed.

Lemma aligned_keys {A B} (R : A → B → Prop)
    (kvs : list (string * A)) (kts : list (string * B)) :
  Forall2 (λ kv kt, kv.1 = kt.1 ∧ R kv.2 kt.2) kvs kts → kts.*1 = kvs.*1.
Proof.
  induction 1 as [|[k1 a] [k2 b] kvs' kts' [Hk _] _ IH]; [done|].
  rewrite !fmap_cons. simpl in Hk. by f_equal.
Qed.

Lemma aligned_get n h kvs kts k :
  Forall2 (λ kv kt, kv.1 = kt.1 ∧ read_tree n h kv.2 = Some kt.2) kvs kts →
  tree_dict_get k kts = dict_get k kvs ≫= read_tree n h.
Proof.
  induction 1 as [|[k1 w] [k2 t] kvs' kts' [Hk Hr] _ IH]; [done|].
  simpl in *. subst k2. by destruct (String.eqb k k1).
Qed.

Lemma aligned_get_renamed n h kvs kts k :
  Forall2 (λ kv kt, kv.1 = kt.1 ∧ read_tree n h kv.2 = Some kt.2) kvs kts →
  tree_dict_get k ((λ '(k, t), (plain_name k, strip_all_flags t)) <$> kts)
  = strip_all_flags <$> (dict_get k (rename_dict kvs) ≫= read_tree n h).
Proof.
  induction 1 as [|[k1 w] [k2 t] kvs' kts' [Hk Hr] _ IH]; [done|].
  simpl in *. subst k2. destruct (String.eqb k (plain_name k1)); [|done].
  change (Some w ≫= read_tree n h) with (read_tree n h w). by rewrite Hr.
Qed.

Lemma rename_dict_get k kvs w :
  dict_get k (rename_dict kvs) = Some w →
  ∃ k0, (k0, w) ∈ kvs ∧ k = plain_name k0.
Proof.
  intros ((k0 & w0) & [= -> ->] & Hin)%dict_get_elem%list_elem_of_fmap.
  eauto.
Qed.

Lemma tree_eqv_scalar t :
  match t with TList _ | TDict _ => False | _ => True end → tree_eqv t t.
Proof. destruct t; try done; constructor. Qed.

(** What [_strip_flags] leaves reads back as the document it was given
    with all flags stripped. *)
Lemma read_stripped n h h' : ∀ v t,
  heap_strippable h → lists_kept h h' →
  (∀ x kvs, reach h' v (VRef x) → h !! x = Some (ODict kvs) →
            h' !! x = Some (ODict (strip_dict kvs))) →
  read_tree n h v = Some t →
  ∃ m, read_tree n h' v = Some m ∧ tree_eqv m (strip_all_flags t).
Proof.
  induction n as [|n IH]; intros v t Hs Hk Hex Hread; [done|].
  destruct v as [| | | | |x];
    try (injection Hread as <-; eexists; split; [done|]; by constructor).
  destruct (h !! x) as [[kvs|items]|] eqn:Hx;
    [| |simpl in Hread; by rewrite Hx in Hread].
  - (* a dict *)
    assert (keys_strippable (dict_keys kvs) = true) as Hok by eauto.
    assert (h' !! x = Some (ODict (strip_dict kvs))) as Hx'.
    { apply Hex; [apply reach_refl|done]. }
    destruct (read_tree_dict_aligned _ _ _ _ _ Hx
                (keys_strippable_NoDup _ Hok) Hread) as (kts & -> & Hal).
    assert (∀ k w, dict_get k (strip_dict kvs) = Some w →
              ∃ tw m, read_tree n h w = Some tw
                      ∧ read_tree n h' w = Some m
                      ∧ tree_eqv m (strip_all_flags tw)) as Hkids.
    { intros k w Hw.
      assert (child h' (VRef x) w) as Hch by by eapply child_dict.
      rewrite strip_dict_get in Hw by done.
      apply rename_dict_get in Hw as (k0 & Hin & ->).
      apply list_elem_of_lookup in Hin as [i Hi].
      destruct (Forall2_lookup_l _ _ _ _ _ Hal Hi) as ([k1 tw] & _ & _ & Hr).
      simpl in Hr. destruct (IH w tw) as (m & Hm & He); [done|done| |done|].
      { intros y kvs_y Hry. apply Hex. by eapply reach_step. }
      eauto. }
    destruct (read_tree_dict_some n h' x (strip_dict kvs) Hx') as [m Hm].
    { intros k w Hw. destruct (Hkids k w Hw) as (? & ? & _ & -> & _). done. }
    exists m. split; [done|].
    destruct (read_tree_dict_aligned _ _ _ _ _ Hx'
                (strip_dict_NoDup _ (keys_strippable_NoDup _ Hok)) Hm)
      as (mts & -> & Hal').
    simpl. constructor.
    + rewrite (aligned_keys (λ w t, read_tree n h' w = Some t) _ _ Hal').
      apply strip_dict_NoDup, (keys_strippable_NoDup _ Hok).
    + rewrite <- list_fmap_compose.
      destruct (keys_strippable_inv _ Hok) as [_ Hnd].
      unfold dict_keys in Hnd.
      rewrite <- (aligned_keys (λ w t, read_tree n h w = Some t) _ _ Hal)
        in Hnd.
      rewrite <- list_fmap_compose in Hnd.
      erewrite list_fmap_ext; [exact Hnd|]. by intros ? [? ?].
    + intros k. rewrite (aligned_get _ _ _ _ _ Hal').
      rewrite (aligned_get_renamed _ _ _ _ _ Hal).
      rewrite <- strip_dict_get by done.
      destruct (dict_get k (strip_dict kvs)) as [w|] eqn:Hw; simpl;
        [|constructor].
      destruct (Hkids k w Hw) as (tw & m & -> & -> & He). by constructor.
  - (* a list *)
    assert (h' !! x = Some (OList items)) as Hx' by by apply Hk.
    simpl in Hread |- *. rewrite Hx in Hread. rewrite Hx'.
    destruct (mapM (read_tree n h) items) as [ts|] eqn:E; [|done].
    injection Hread as <-. apply mapM_Some_1 in E.
    assert (∃ ms, mapM (read_tree n h') items = Some ms
                  ∧ Forall2 tree_eqv ms (map strip_all_flags ts))
      as (ms & -> & Hms).
    { assert (∀ w, w ∈ items → child h' (VRef x) w) as Hch.
      { intros w [i Hi]%list_elem_of_lookup. by eapply child_list. }
      clear Hx Hx'. induction E as [|w t items' ts' Hw E IHE].
      { exists []. by split. }
      destruct (IH w t) as (m & Hm & He); [done|done| |done|].
      { intros y kvs_y Hry. apply Hex. eapply reach_step; [|done].
        apply Hch. left. }
      destruct IHE as (ms & Hms & Hall).
      { intros w' Hw'. apply Hch. by right. }
      exists (m :: ms). split; [|by constructor].
      apply mapM_Some_2. constructor; [done|]. by apply mapM_Some_1. }
    eexists. split; [done|]. by constructor.
Qed.

(** ** A loaded document reads back as it is *)

Lemma read_tree_prefix n h h' : ∀ v t,
  h `prefix_of` h' → read_tree n h v = Some t → read_tree n h' v = Some t.
Proof.
  induction n as [|n IH]; intros v t Hp H; [done|].
  destruct v as [| | | | |x]; try done. simpl in H |- *.
  destruct (h !! x) as [o|] eqn:Hx; [|done].
  rewrite (prefix_lookup_Some _ _ _ _ Hx Hp).
  destruct o as [kvs|items].
  - destruct (mapM _ (dict_keys kvs)) as [kts|] eqn:E; [|done].
    injection H as <-. apply mapM_Some_1 in E.
    erewrite (mapM_Some_2 _ (dict_keys kvs) kts); [done|].
    eapply Forall2_impl; [done|]. intros k [k' t] Hk. simpl in *.
    destruct (dict_get k kvs) as [w|]; [|done]. simpl in *.
    destruct (read_tree n h w) as [t0|] eqn:Hw; [|done].
    by rewrite (IH _ _ Hp Hw).
  - destruct (mapM _ items) as [ts|] eqn:E; [|done].
    injection H as <-. apply mapM_Some_1 in E.
    erewrite (mapM_Some_2 _ items ts); [done|].
    eapply Forall2_impl; [done|]. intros w t Hw. by apply IH.
Qed.

Lemma read_tree_dict_intro n h x kvs kts :
  h !! x = Some (ODict kvs) → NoDup (dict_keys kvs) →
  Forall2 (λ kv kt, kv.1 = kt.1 ∧ read_tree n h kv.2 = Some kt.2) kvs kts →
  read_tree (S n) h (VRef x) = Some (TDict kts).
Proof.
  intros Hx Hnd Hal. simpl. rewrite Hx.
  erewrite (mapM_Some_2 _ (dict_keys kvs) kts); [done|].
  unfold dict_keys. apply Forall2_fmap_l.
  assert (∀ sub kts,
            (∀ kv, kv ∈ sub → kv ∈ kvs) →
            Forall2 (λ kv kt, kv.1 = kt.1 ∧ read_tree n h kv.2 = Some kt.2)
                    sub kts →
            Forall2 (λ (kv : string * value) (y : string * tree),
                       dict_get kv.1 kvs
                       ≫= (λ w, read_tree n h w ≫= λ t, Some (kv.1, t))
                       = Some y) sub kts) as Haux.
  { clear Hal kts. intros sub kts Hsub Hal.
    induction Hal as [|[k w] [k' t] sub' kts' [Hk Hr] _ IH]; [done|].
    constructor; [|apply IH; intros kv Hkv; apply Hsub; by right].
    simpl in *. subst k'. rewrite (dict_get_unique k kvs w);
      [|done|apply Hsub; left].
    simpl. by rewrite Hr. }
  by apply Haux.
Qed.

Lemma heap_strippable_alloc h o :
  heap_strippable h →
  (∀ kvs, o = ODict kvs → keys_strippable (dict_keys kvs) = true) →
  heap_strippable (h ++ [o]).
Proof.
  intros Hs Ho l kvs [Hl|[_ Hl]]%lookup_app_Some; [by eapply Hs|].
  apply list_lookup_singleton_Some in Hl as [_ ->]. by apply Ho.
Qed.

Lemma strippable_list ts t :
  strippable (TList ts) = true → t ∈ ts → strippable t = true.
Proof.
  simpl. rewrite forallb_forall. intros H Ht. by apply H, list_elem_of_In.
Qed.

Lemma strippable_dict kts :
  strippable (TDict kts) = true →
  keys_strippable kts.*1 = true
  ∧ ∀ k t, (k, t) ∈ kts → strippable t = true.
Proof.
  simpl. intros [Hk H]%andb_true_iff. split; [done|]. intros k t Hin.
  rewrite forallb_forall in H. by apply (H (k, t)), list_elem_of_In.
Qed.

Lemma alloc_tree_reads r t h v h' :
  height t ≤ r → strippable t = true → heap_strippable h →
  alloc_tree t h = Ok (v, h') →
  heap_strippable h' ∧ h `prefix_of` h'
  ∧ ∀ n, r < n → read_tree n h' v = Some t.
Proof.
  assert (∀ n, 0 < n → ∃ n', n = S n') as Hpos.
  { intros [|n'] ?; [lia|eauto]. }
  revert t h v h'. induction r as [|r IH]; intros t h v h' Ht Hst Hs H.
  { destruct t; simpl in Ht; try lia; apply ret_ok in H as [-> ->];
      (split_and!; [done..|]); intros fuel [fuel' ->]%Hpos; done. }
  destruct t as [| | | | |ts|kts];
    try (apply ret_ok in H as [-> ->];
         (split_and!; [done..|]); intros fuel Hfuel;
         destruct (Hpos fuel) as [fuel' ->]; [lia|done]).
  - simpl in Ht. apply le_S_n in Ht. simpl in H.
    apply bind_ok in H as (vs & h1 & Hgo & H).
    apply bind_ok in H as (l & h2 & Ha & H).
    injection Ha as <- <-. apply ret_ok in H as [-> ->].
    assert (∀ t, t ∈ ts → height t ≤ r ∧ strippable t = true) as Hts.
    { intros t Ht'. split; [|by eapply strippable_list].
      eapply list_max_le_elem; [|done]. apply list_elem_of_fmap. eauto. }
    assert (heap_strippable h1 ∧ h `prefix_of` h1
            ∧ ∀ n, r < n → Forall2 (λ v t, read_tree n h1 v = Some t) vs ts)
      as (Hs1 & Hp1 & Hr1).
    { clear Ht Hst. revert h vs h1 Hs Hgo.
      induction ts as [|t ts IHts]; intros h vs h1 Hs Hgo.
      { apply ret_ok in Hgo as [-> ->]. by split_and!. }
      apply bind_ok in Hgo as (v & ha & Hv & Hgo).
      apply bind_ok in Hgo as (vs' & hb & Hvs & Hgo).
      apply ret_ok in Hgo as [-> ->].
      destruct (Hts t) as [Hht Hstt]; [left|].
      destruct (IH _ _ _ _ Hht Hstt Hs Hv) as (Hsa & Hpa & Hra).
      destruct (IHts (λ t' Hin, Hts t' (list_elem_of_further _ _ _ Hin))
                  ha vs' hb Hsa Hvs) as (Hsb & Hpb & Hrb).
      split_and!; [done|by trans ha|]. intros n Hn.
      constructor; [|by apply Hrb].
      eapply read_tree_prefix; [done|]. by apply Hra. }
    split_and!.
    + apply heap_strippable_alloc; [done|]. by intros.
    + trans h1; [done|by apply prefix_app_r].
    + intros n Hn. destruct (Hpos n) as [n' ->]; [lia|]. simpl.
      rewrite lookup_app_r, Nat.sub_diag by done. simpl.
      assert (mapM (read_tree n' (h1 ++ [OList vs])) vs = Some ts) as ->;
        [|done].
      apply mapM_Some_2.
      eapply Forall2_impl; [apply (Hr1 n'); lia|].
      intros w t Hw. apply (read_tree_prefix _ h1); [by apply prefix_app_r|].
      exact Hw.
  - simpl in Ht. apply le_S_n in Ht. simpl in H.
    apply bind_ok in H as (kvs & h1 & Hgo & H).
    apply bind_ok in H as (l & h2 & Ha & H).
    injection Ha as <- <-. apply ret_ok in H as [-> ->].
    destruct (strippable_dict _ Hst) as [Hkeys Hkids].
    assert (∀ k t, (k, t) ∈ kts → height t ≤ r ∧ strippable t = true) as Hts.
    { intros k t Ht'. split; [|by eapply Hkids].
      eapply list_max_le_elem; [|done].
      apply list_elem_of_fmap. by exists (k, t). }
    assert (heap_strippable h1 ∧ h `prefix_of` h1
            ∧ ∀ n, r < n →
                Forall2 (λ kv kt, kv.1 = kt.1
                                  ∧ read_tree n h1 kv.2 = Some kt.2) kvs kts)
      as (Hs1 & Hp1 & Hr1).
    { clear Ht Hst Hkeys Hkids. revert h kvs h1 Hs Hgo.
      induction kts as [|[k t] kts IHts]; intros h kvs h1 Hs Hgo.
      { apply ret_ok in Hgo as [-> ->]. by split_and!. }
      apply bind_ok in Hgo as (v & ha & Hv & Hgo).
      apply bind_ok in Hgo as (vs' & hb & Hvs & Hgo).
      apply ret_ok in Hgo as [-> ->].
      destruct (Hts k t) as [Hht Hstt]; [left|].
      destruct (IH _ _ _ _ Hht Hstt Hs Hv) as (Hsa & Hpa & Hra).
      destruct (IHts (λ k' t' Hin, Hts k' t' (list_elem_of_further _ _ _ Hin))
                  ha vs' hb Hsa Hvs) as (Hsb & Hpb & Hrb).
      split_and!; [done|by trans ha|]. intros n Hn.
      constructor; [|by apply Hrb]. split; [done|]. simpl.
      eapply read_tree_prefix; [done|]. by apply Hra. }
    assert (dict_keys kvs = kts.*1) as Hk.
    { symmetry. apply (aligned_keys (λ w t, read_tree (S r) h1 w = Some t)).
      apply Hr1. lia. }
    split_and!.
    + apply heap_strippable_alloc; [done|]. intros ? [= <-]. by rewrite Hk.
    + trans h1; [done|by apply prefix_app_r].
    + intros n Hn. destruct (Hpos n) as [n' ->]; [lia|].
      apply (read_tree_dict_intro n' _ _ kvs).
      * by rewrite lookup_app_r, Nat.sub_diag.
      * rewrite Hk. by apply keys_strippable_NoDup.
      * eapply Forall2_impl; [apply (Hr1 n'); lia|].
        intros [k w] [k' t] [? Hw]. split; [done|].
        apply (read_tree_prefix _ h1); [by apply prefix_app_r|]. exact Hw.
Qed.

(** What [_strip_flags] returns on a loaded document whose keys can be
    stripped is the document with all flags stripped. *)
Lemma strip_document_strips fuel t m :
  height t < fuel → strippable t = true →
  strip_document_at fuel t = Ok (Some m) →
  tree_eqv m (strip_all_flags t).
Proof.
  intros Hfuel Hst. unfold strip_document_at.
  assert (graded [] (λ _, 0)) as G0.
  { intros x l' (o & Ho & _)%child_obj. by rewrite lookup_nil in Ho. }
  destruct (alloc_tree_graded (height t) t [] (λ _, 0)) as
    (v & h1 & rk1 & Hv & G1 & _); [done..|].
  rewrite (bind_eq _ _ _ _ _ Hv).
  destruct (strip_flags fuel v h1) as [[r h2]|e] eqn:Hstrip; [|done].
  intros [= Hread].
  destruct (alloc_tree_reads (height t) t [] v h1) as (Hs1 & _ & Hr1);
    [done|done| |done|].
  { intros l kvs Hl. by rewrite lookup_nil in Hl. }
  destruct (strip_flags_exact _ _ _ _ _ _ G1 Hs1 Hstrip) as (-> & Hk & Hex).
  destruct (read_stripped fuel h1 h2 v t Hs1 Hk Hex (Hr1 fuel Hfuel))
    as (m' & Hm' & He).
  rewrite Hread in Hm'. by injection Hm' as <-.
Qed.

(** C7 (as amended). Merging the empty local mapping over a template [T]
    returns what [_strip_flags] returns on [T]; when no key of [T] has
    two flag characters and no two keys of one Mapping of [T] are
    spellings of one plain key, that is [T] with all flags stripped from
    every key at every depth. *)
Theorem merge_empty_local_strips_flags fuel tk :
  height (TDict tk) + 2 ≤ fuel →
  ∃ m a b,
    merge_documents_at fuel (TDict tk) (TDict []) = Ok (Some m, a, b)
    ∧ strip_document_at fuel (TDict tk) = Ok (Some m)
    ∧ (strippable (TDict tk) = true →
       tree_eqv m (strip_all_flags (TDict tk))).
Proof.
  intros Hfuel.
  destruct (merge_empty_local_is_strip fuel tk Hfuel)
    as (m & a & b & Hmerge & Hstrip).
  exists m, a, b. split_and!; [done..|]. intros Hst.
  eapply strip_document_strips; [|done..]. lia.
Qed.

Lemma merge_empty_local_strips_flags_witness :
  let T := TDict [("+x"%string, TList [TInt 1; TDict [("!y"%string, TNone)]]);
                  ("z"%string, TStr "a")] in
  ∃ m a b,
    merge_documents_at recursion_limit T (TDict []) = Ok (Some m, a, b)
    ∧ tree_eqv m
        (TDict [("x"%string, TList [TInt 1; TDict [("y"%string, TNone)]]);
                ("z"%string, TStr "a")]).
Proof.
  intros T.
  destruct (merge_empty_local_strips_flags recursion_limit
              [("+x"%string, TList [TInt 1; TDict [("!y"%string, TNone)]]);
               ("z"%string, TStr "a")])
    as (m & a & b & Hmerge & _ & Heqv).
  { apply Nat.leb_le. vm_compute. reflexivity. }
  exists m, a, b. split; [exact Hmerge|]. apply Heqv. vm_compute. reflexivity.
Defined.

(** C7 as stated fails in two ways.  [_strip_flags] takes one flag
    character off a key, so a key with two keeps one.  And when two keys
    of a Mapping are spellings of one plain key, the flagged one wins
    wherever it stands, so an entry of [T] is lost. *)
Lemma merge_empty_local_keeps_a_flag :
  (let T := TDict [("++x"%string, TInt 1)] in
   ∃ m, Merge T (TDict []) = Ok (Some m)
        ∧ m = TDict [("+x"%string, TInt 1)]
        ∧ strip_all_flags T = TDict [("x"%string, TInt 1)]
        ∧ ¬ tree_eqv m (strip_all_flags T))
  ∧ (let T := TDict [("x"%string, TInt 1); ("+x"%string, TInt 2)] in
     ∃ m, Merge T (TDict []) = Ok (Some m)
          ∧ m = TDict [("x"%string, TInt 2)]
          ∧ strip_all_flags T
            = TDict [("x"%string, TInt 1); ("x"%string, TInt 2)]
          ∧ ¬ tree_eqv m (strip_all_flags T))
  ∧ (let T := TDict [("+x"%string, TInt 2); ("x"%string, TInt 1)] in
     ∃ m, Merge T (TDict []) = Ok (Some m)
          ∧ m = TDict [("x"%string, TInt 2)]
          ∧ strip_all_flags T
            = TDict [("x"%string, TInt 2); ("x"%string, TInt 1)]
          ∧ ¬ tree_eqv m (strip_all_flags T)).
Proof.
  split_and!; eexists; (split; [by vm_compute|]);
    (split; [reflexivity|]); (split; [reflexivity|]).
  - intros H. inversion H as [| | | | | |kts kus Hn1 Hn2 Hget]. subst.
    specialize (Hget "x"%string). inversion Hget.
  - intros H. inversion H as [| | | | | |kts kus Hn1 Hn2 Hget]. subst.
    apply NoDup_cons in Hn2 as [Hx _]. apply Hx. left.
  - intros H. inversion H as [| | | | | |kts kus Hn1 Hn2 Hget]. subst.
    apply NoDup_cons in Hn2 as [Hx _]. apply Hx. left.
Qed.

(** ** Comparisons read only what lies below the two values *)

Lemma py_eqb_agree R h h' :
  closed h R → (∀ x, R x → h' !! x = h !! x) →
  ∀ n n' a b r, n ≤ n' → in_set R a → in_set R b →
    py_eqb n h a b = Ok r → py_eqb n' h' a b = Ok r.
Proof.
  intros Hc Hag. induction n as [|n IH]; intros n' a b r Hn Ha Hb H; [done|].
  destruct n' as [|n']; [lia|]. simpl in H |- *.
  case_decide; [done|].
  destruct a as [| | | | |la], b as [| | | | |lb]; try exact H.
  rewrite (Hag la), (Hag lb) by eauto.
  destruct (h !! la) as [[xs|xs]|] eqn:Hla; [| |done];
    (destruct (h !! lb) as [[ys|ys]|] eqn:Hlb; [| |done]); try exact H.
  - case_decide; [|exact H].
    assert (∀ k x, dict_get k xs = Some x → in_set R x) as Hx.
    { intros k x Hk l ->. eapply Hc; [by apply Ha|by eapply child_dict]. }
    assert (∀ k y, dict_get k ys = Some y → in_set R y) as Hy.
    { intros k y Hk l ->. eapply Hc; [by apply Hb|by eapply child_dict]. }
    revert H. generalize (dict_keys xs). intros ks.
    induction ks as [|k ks IHks]; [done|]. simpl.
    destruct (dict_get k xs) as [x|] eqn:Ex; [|done].
    destruct (dict_get k ys) as [y|] eqn:Ey; [|done].
    destruct (py_eqb n h y x) as [[|]|e] eqn:E; [| |done].
    + rewrite (IH n' y x true); eauto with lia.
    + rewrite (IH n' y x false); eauto with lia.
  - case_decide as Hlen; [|exact H]. clear Hlen.
    assert (∀ x, x ∈ xs → in_set R x) as Hx.
    { intros x [i Hi]%list_elem_of_lookup l ->.
      eapply Hc; [by apply Ha|by eapply child_list]. }
    assert (∀ y, y ∈ ys → in_set R y) as Hy.
    { intros y [i Hi]%list_elem_of_lookup l ->.
      eapply Hc; [by apply Hb|by eapply child_list]. }
    clear Hla Hlb. revert ys Hy H.
    induction xs as [|x xs IHxs]; intros ys Hy; [done|].
    destruct ys as [|y ys]; [done|].
    destruct (py_eqb n h x y) as [[|]|e] eqn:E; [| |done].
    + rewrite (IH n' x y true); [|lia|apply Hx; left|apply Hy; left|done].
      apply IHxs.
      * intros x' Hx'. apply Hx. by right.
      * intros y' Hy'. apply Hy. by right.
    + rewrite (IH n' x y false); [done|lia|apply Hx; left|apply Hy; left|done].
Qed.

Lemma py_in_agree R h h' n n' item xs r :
  closed h R → (∀ x, R x → h' !! x = h !! x) → n ≤ n' →
  in_set R item → Forall (in_set R) xs →
  py_in n h item xs = Ok r → py_in n' h' item xs = Ok r.
Proof.
  intros Hc Hag Hn Hitem Hxs. induction Hxs as [|x xs Hx _ IH]; [done|].
  simpl. destruct (py_eqb n h x item) as [[|]|e] eqn:E; [| |done].
  - by rewrite (py_eqb_agree R h h' Hc Hag n n' x item true).
  - rewrite (py_eqb_agree R h h' Hc Hag n n' x item false); done.
Qed.

(** ** The augment loop *)

Lemma value_in_at_run R h rk hx n n' item acc :
  graded h rk → closed h R → (∀ x, R x → hx !! x = h !! x) →
  0 < n → n ≤ n' →
  item_ok R h rk n item → Forall (item_ok R h rk n) acc →
  py_in n hx item acc = Ok (value_in_at n' h item acc).
Proof.
  intros Hg Hc Hag Hpos Hn [Hi Hr] Hacc.
  destruct (py_in_total n h rk item acc) as [b Hb]; [done..| |].
  { intros x l Hx. rewrite Forall_forall in Hacc. by apply (Hacc x Hx). }
  assert (Forall (in_set R) acc) as Hin.
  { eapply Forall_impl; [done|]. by intros ? [? _]. }
  unfold value_in_at.
  rewrite (py_in_agree R h h n n' item acc b); [|done..].
  by apply (py_in_agree R h hx n n item acc b).
Qed.

Lemma append_loop_augment R h rk n n' hc et el xt xl :
  graded h rk → closed h R → (∀ x, R x → hc !! x = h !! x) → ¬ R et →
  S n ≤ n' →
  Forall (item_ok R h rk (S n)) xt → Forall (item_ok R h rk (S n)) xl →
  hc !! et = Some (OList xt) → hc !! el = Some (OList xl) → el ≠ et →
  enumerate el (λ _ item,
    let* found := list_contains (S n) et item in
    if found then ret tt else list_append et item) hc
  = Ok (tt, <[et := OList (augment_at n' h xt xl)]> hc).
Proof.
  intros Hg Hc Hag Hnet Hn Hxt Hxl Het Hel Hne. unfold enumerate.
  rewrite (bind_eq _ _ _ _ _ (read_list_eq _ _ _ Hel)).
  assert (et < length hc) as Hlt by by eapply lookup_lt_Some.
  assert (∀ m i acc, i + m = length xl → Forall (item_ok R h rk (S n)) acc →
    enumerate_from el i m (λ _ item,
      let* found := list_contains (S n) et item in
      if found then ret tt else list_append et item)
      (<[et := OList acc]> hc)
    = Ok (tt, <[et := OList (augment_at n' h acc (drop i xl))]> hc)) as Hloop.
  { induction m as [|m IH]; intros i acc Hi Hacc; cbn [enumerate_from].
    { by rewrite drop_ge by lia. }
    set (hx := <[et := OList acc]> hc).
    assert (hx !! el = Some (OList xl)) as Hel'
      by by (unfold hx; rewrite list_lookup_insert_ne).
    assert (hx !! et = Some (OList acc)) as Het'
      by by (unfold hx; rewrite list_lookup_insert_eq).
    assert (∀ x, R x → hx !! x = h !! x) as Hagx.
    { intros x Hx. unfold hx. rewrite list_lookup_insert_ne; [by apply Hag|].
      by intros <-. }
    rewrite (bind_eq _ _ _ _ _ (read_list_eq _ _ _ Hel')).
    destruct (lookup_lt_is_Some_2 xl i) as [item Hitem]; [lia|].
    rewrite Hitem. rewrite (drop_S _ _ _ Hitem). cbn [augment_at].
    assert (item_ok R h rk (S n) item) as Hok.
    { rewrite Forall_forall in Hxl. eapply Hxl, list_elem_of_lookup_2, Hitem. }
    assert ((let* found := list_contains (S n) et item in
             if found then ret tt else list_append et item) hx
            = Ok (tt, <[et := OList (if value_in_at n' h item acc then acc
                                     else acc ++ [item])]> hc)) as Hbody.
    { rewrite (bind_eq _ _ _ (value_in_at n' h item acc) hx).
      2:{ unfold list_contains.
          rewrite (bind_eq _ _ _ _ _ (read_list_eq _ _ _ Het')).
          by rewrite (value_in_at_run R h rk hx (S n) n' item acc)
            by (done || lia). }
      destruct (value_in_at n' h item acc); [done|].
      rewrite (list_append_eq _ _ _ _ Het').
      unfold hx. by rewrite list_insert_insert_eq. }
    rewrite (bind_eq _ _ _ _ _ Hbody).
    destruct (value_in_at n' h item acc); apply IH; [lia|done|lia|].
    apply Forall_app. split; [done|by apply Forall_singleton]. }
  specialize (Hloop (length xl) 0 xt eq_refl Hxt).
  rewrite list_insert_id in Hloop by done. by rewrite Hloop, drop_0.
Qed.

(** ** The footprint of [_merge_settings] *)

Lemma kinds_kept_refl h : kinds_kept h h.
Proof. intros x o Hx. eauto. Qed.

Lemma kinds_kept_trans h1 h2 h3 :
  kinds_kept h1 h2 → kinds_kept h2 h3 → kinds_kept h1 h3.
Proof.
  intros K1 K2 x o Hx. destruct (K1 _ _ Hx) as (o1 & H1 & E1).
  destruct (K2 _ _ H1) as (o2 & H2 & E2). exists o2. split; [done|congruence].
Qed.

Lemma kinds_kept_length h h' : kinds_kept h h' → length h ≤ length h'.
Proof.
  intros K. destruct (decide (length h ≤ length h')) as [|Hlt]; [done|].
  destruct (lookup_lt_is_Some_2 h (length h')) as [o Ho]; [lia|].
  destruct (K _ _ Ho) as (o' & Ho' & _). apply lookup_lt_Some in Ho'. lia.
Qed.

Lemma kinds_kept_is_dict h h' x :
  kinds_kept h h' → x < length h →
  is_dict h' (VRef x) = is_dict h (VRef x).
Proof.
  intros K Hx. destruct (lookup_lt_is_Some_2 h x Hx) as [o Ho].
  destruct (K _ _ Ho) as (o' & Ho' & E). simpl. rewrite Ho, Ho'.
  by destruct o, o'.
Qed.

Lemma kinds_kept_is_list h h' x :
  kinds_kept h h' → x < length h →
  is_list h' (VRef x) = is_list h (VRef x).
Proof.
  intros K Hx. destruct (lookup_lt_is_Some_2 h x Hx) as [o Ho].
  destruct (K _ _ Ho) as (o' & Ho' & E). simpl. rewrite Ho, Ho'.
  by destruct o, o'.
Qed.

Lemma kinds_kept_write h x o o' :
  h !! x = Some o → is_dict_obj o' = is_dict_obj o →
  kinds_kept h (<[x := o']> h).
Proof.
  intros Hx E y oy Hy. destruct (decide (y = x)) as [->|Hne].
  - exists o'. rewrite list_lookup_insert_eq by by eapply lookup_lt_Some.
    split; [done|congruence].
  - exists oy. by rewrite list_lookup_insert_ne.
Qed.

Lemma kinds_kept_alloc h o : kinds_kept h (h ++ [o]).
Proof. intros x ox Hx. exists ox. split; [by apply lookup_app_l_Some|done]. Qed.

Lemma kinds_kept_evolve R h h' : evolve R h h' → kinds_kept h h'.
Proof.
  intros He x o Hx. destruct (ev_obj _ _ _ He _ _ Hx) as (o' & Hx' & K & _).
  exists o'. split; [done|]. by destruct o, o'.
Qed.

Lemma closed_write h Rf x o' :
  closed h Rf → (Rf x → ∀ l', obj_child o' (VRef l') → Rf l') →
  closed (<[x := o']> h) Rf.
Proof.
  intros Hc Hx y l' Hy (o & Ho & Hch)%child_obj.
  destruct (decide (y = x)) as [->|Hne].
  - destruct (decide (x < length h)) as [Hlt|Hge].
    + rewrite list_lookup_insert_eq in Ho by done. injection Ho as <-. eauto.
    + rewrite list_insert_ge in Ho by lia. eapply Hc; [done|].
      apply child_obj. eauto.
  - rewrite list_lookup_insert_ne in Ho by done. eapply Hc; [done|].
    apply child_obj. eauto.
Qed.

Lemma step_refl P Rf h : closed h Rf → step P Rf h h.
Proof. intros Hc. split; [apply kinds_kept_refl|done|done]. Qed.

Lemma step_trans P Rf h1 h2 h3 :
  step P Rf h1 h2 → step P Rf h2 h3 → step P Rf h1 h3.
Proof.
  intros [K1 F1 _] [K2 F2 C2]. split; [by eapply kinds_kept_trans| |done].
  intros x Hx. by rewrite F2, F1.
Qed.

Lemma step_write P Rf h x o o' :
  closed h Rf → h !! x = Some o → is_dict_obj o' = is_dict_obj o → ¬ P x →
  (Rf x → ∀ l', obj_child o' (VRef l') → Rf l') →
  step P Rf h (<[x := o']> h).
Proof.
  intros Hc Hx E Hp Hch. split.
  - by eapply kinds_kept_write.
  - intros y Hy. rewrite list_lookup_insert_ne; [done|]. by intros ->.
  - by apply closed_write.
Qed.

Lemma step_setitem P Rf h m key v u h' :
  dict_setitem m key v h = Ok (u, h') →
  closed h Rf → ¬ P m → (Rf m → in_set Rf v) → step P Rf h h'.
Proof.
  intros (kvs & Hm & ->)%dict_setitem_ok Hc Hp Hv.
  eapply step_write; [done..|].
  intros Hr l' [k Hk]. destruct (decide (key = k)) as [<-|Hne].
  - rewrite dict_get_set_eq in Hk. simplify_eq. by apply Hv.
  - rewrite dict_get_set_ne in Hk by done. eapply Hc; [done|].
    by eapply child_dict.
Qed.

Lemma step_delitem P Rf h m key u h' :
  dict_delitem m key h = Ok (u, h') →
  closed h Rf → ¬ P m → step P Rf h h'.
Proof.
  intros (kvs & Hm & _ & ->)%dict_delitem_ok Hc Hp.
  eapply step_write; [done..|].
  intros Hr l' [k Hk]. destruct (decide (key = k)) as [<-|Hne].
  - by rewrite dict_get_del_eq in Hk.
  - rewrite dict_get_del_ne in Hk by done. eapply Hc; [done|].
    by eapply child_dict.
Qed.

Lemma closed_fresh h R n :
  closed h R → length h ≤ n → closed h (λ x, R x ∨ n ≤ x).
Proof.
  intros Hc Hn x l' [Hx|Hx] Hch.
  - left. by eapply Hc.
  - apply child_obj in Hch as (o & Ho & _). apply lookup_lt_Some in Ho. lia.
Qed.

Lemma region_post_step P Rf n h h' :
  n ≤ length h → (∀ x, n ≤ x → Rf x) →
  (∀ x, P x → x < length h ∧ ¬ Rf x) →
  region_post Rf h h' → step P Rf h h'.
Proof.
  intros Hn Hfresh Hp (K & F & C). split; [done| |].
  - intros x [? ?]%Hp. by apply F.
  - intros x l' Hx Hch. destruct (C x l') as [?|?]; [by left|done|done|].
    apply Hfresh. lia.
Qed.

Section merge_region.
Context (fuel : nat) (rec : loc → loc → M loc).
Hypothesis rec_region : ∀ R a b h r h',
  closed h R → R a → R b → rec a b h = Ok (r, h') →
  r = length h ∧ region_post R h h'.

Lemma append_loop_step P Rf et el h u h' :
  closed h Rf → ¬ P et → (Rf et → Rf el) →
  enumerate el (λ _ item,
    let* found := list_contains fuel et item in
    if found then ret tt else list_append et item) h = Ok (u, h') →
  step P Rf h h'.
Proof.
  intros Hc Hp Hel H. unfold enumerate in H.
  apply bind_ok in H as (items & h1 & [-> _]%read_list_ok & H).
  eapply (enumerate_from_inv (λ _ hc, step P Rf h hc)) in H
    as (_ & ? & _); [done| |by apply step_refl].
  intros i item hc xs u1 hc' Hs Hxs Hitem Hbody.
  apply bind_ok in Hbody as (found & h2 & [-> _]%list_contains_ok & Hbody).
  destruct found; [by apply ret_ok in Hbody as [_ ->]|].
  apply list_append_ok in Hbody as (its & Hits & ->).
  eapply step_trans; [done|].
  pose proof (step_closed _ _ _ _ Hs) as Hcc.
  eapply step_write; [done..|].
  intros Hr l' [j Hj]. apply lookup_app_Some in Hj as [Hj|[_ Hj]].
  - eapply Hcc; [done|]. by eapply child_list.
  - apply list_lookup_singleton_Some in Hj as [_ ->].
    eapply Hcc; [by apply Hel|]. by eapply child_list.
Qed.

(** One round of the loop of [_merge_settings]: with the dicts that the
    template and the local dict bind inside the closed region, the round
    writes the merged dict, a list that the template binds, and objects
    of the region. *)
Lemma merge_key_region R t l m key_ h u h' :
  closed h R → m < length h →
  (∀ v, child h (VRef t) v ∨ child h (VRef l) v →
        is_dict h v = true → in_set R v) →
  (∀ x y, child h (VRef t) (VRef x) → is_list h (VRef x) = true → R x →
          child h (VRef l) (VRef y) → is_list h (VRef y) = true → R y) →
  (R m → ∀ v, child h (VRef t) v ∨ child h (VRef l) v → in_set R v) →
  merge_key fuel rec t l m key_ h = Ok (u, h') →
  step (λ x, x < length h ∧ ¬ R x ∧ x ≠ m ∧ ¬ child h (VRef t) (VRef x))
       (λ x, R x ∨ length h ≤ x) h h'.
Proof.
  intros Hc Hm Hd Hl HRm H.
  set (P := λ x, x < length h ∧ ¬ R x ∧ x ≠ m ∧ ¬ child h (VRef t) (VRef x)).
  set (Rf := λ x, R x ∨ length h ≤ x).
  assert (closed h Rf) as Hcf by by apply closed_fresh.
  assert (¬ P m) as Hpm by (intros (_ & _ & ? & _); done).
  assert (Rf m → R m) as Hrm by (intros [?|?]; [done|lia]).
  unfold merge_key in H.
  set (key := if startswith key_ "!" then tail1 key_ else key_) in *.
  apply bind_ok in H as (entry_l & h1 & [-> (lk & Hlk & Hel)]%dict_getitem_ok & H).
  assert (child h (VRef l) entry_l) as Hchl by by eapply child_dict.
  assert (Rf m → in_set Rf entry_l) as Hin_l.
  { intros Hr%Hrm x ->. left. by eapply (HRm Hr); [right|]. }
  apply bind_ok in H
    as ([key_exists flag] & h1 & [-> (tk & Htk & Hflag)]%is_key_in_ok & H).
  destruct key_exists; [|by eapply step_setitem].
  apply bind_ok in H as (u1 & h1 & Hset & H).
  assert (step P Rf h h1) as S1.
  { clear H. destruct (startswith key_ "!"); [by eapply step_setitem|].
    apply bind_ok in Hset as (entry_t & h2 & [-> (tk' & Htk' & Het)]%dict_getitem_ok & H).
    assert (child h (VRef t) entry_t) as Hcht by by eapply child_dict.
    assert (Rf m → in_set Rf entry_t) as Hin_t.
    { intros Hr%Hrm x ->. left. by eapply (HRm Hr); [left|]. }
    apply bind_ok in H as (td & h2 & [-> ->]%isinstance_dict_ok & H).
    apply bind_ok in H as (ld & h2 & [-> ->]%isinstance_dict_ok & H).
    apply bind_ok in H as (tl & h2 & [-> ->]%isinstance_list_ok & H).
    apply bind_ok in H as (ll & h2 & [-> ->]%isinstance_list_ok & H).
    destruct entry_t as [| | | | |et]; try by eapply step_setitem.
    destruct entry_l as [| | | | |el]; try by eapply step_setitem.
    destruct (is_dict h (VRef et) && is_dict h (VRef el)) eqn:Hdd.
    { apply andb_true_iff in Hdd as [Hdt Hdl].
      apply bind_ok in H as (r & h2 & Hr & H).
      destruct (rec_region Rf et el h r h2) as [-> Hpost]; [done| | |done|].
      { left. eapply Hd; [by left|done..]. }
      { left. eapply Hd; [by right|done..]. }
      assert (step P Rf h h2) as Sr.
      { eapply (region_post_step P Rf (length h)); [lia| | |done].
        - intros x ?. by right.
        - intros x (? & ? & _). split; [done|]. intros [?|?]; [done|lia]. }
      eapply step_trans; [done|].
      eapply step_setitem; [done|by apply (step_closed _ _ _ _ Sr)|done|].
      intros _ x [= <-]. by right. }
    destruct (is_list h (VRef et) && is_list h (VRef el)) eqn:Hll;
      [|by eapply step_setitem].
    apply andb_true_iff in Hll as [Hlt Hll].
    destruct (negb false && (flag =? "+")%string);
      [|by eapply step_setitem].
    apply bind_ok in H as (u2 & h2 & Hloop & H).
    assert (step P Rf h h2) as Sa.
    { eapply append_loop_step; [done| | |done].
      - intros (_ & _ & _ & Hn). by apply Hn.
      - intros [Hr|Hr]; [left; by eapply (Hl et el)|].
        apply lookup_lt_Some in Htk. assert (et < length h); [|lia].
        simpl in Hlt. destruct (h !! et) eqn:E; [|done].
        by eapply lookup_lt_Some. }
    eapply step_trans; [done|].
    eapply step_setitem; [done|by apply (step_closed _ _ _ _ Sa)|done..]. }
  apply bind_ok in H as (still & h2 & [-> _]%dict_contains_ok & H).
  destruct (negb (flag =? "")%string && still).
  - eapply step_trans; [done|].
    eapply step_delitem; [done|by apply (step_closed _ _ _ _ S1)|done].
  - by apply ret_ok in H as [_ ->].
Qed.

Lemma merge_settings_body_region R t l h m h' :
  closed h R → R t → R l →
  merge_settings_body fuel rec t l h = Ok (m, h') →
  m = length h ∧ region_post R h h'.
Proof.
  intros Hc Ht Hl H. unfold merge_settings_body in H.
  apply bind_ok in H as (tkvs & h1 & [-> Htk]%read_dict_ok & H).
  apply bind_ok in H as (merged & h1 & Halloc & H).
  injection Halloc as <- <-.
  apply bind_ok in H as (lkvs & h1 & [-> Hlk]%read_dict_ok & H).
  apply bind_ok in H as (u & h1 & Hloop & H).
  apply bind_ok in H as (r & h2 & Hstrip & H).
  set (R0 := λ x, R x ∨ length h ≤ x).
  set (h0 := h ++ [ODict tkvs]) in *.
  assert (closed h0 R0) as Hc0.
  { intros x l' Hx (o & Ho & Hch)%child_obj.
    apply lookup_app_Some in Ho as [Ho|[Hge Ho]].
    - destruct Hx as [Hx|Hx]; [|apply lookup_lt_Some in Ho; lia].
      left. eapply Hc; [done|]. apply child_obj. eauto.
    - apply list_lookup_singleton_Some in Ho as [_ <-].
      left. eapply Hc; [exact Ht|]. apply child_obj. eauto. }
  eapply (for_each_inv (λ _ hc,
    kinds_kept h0 hc
    ∧ (∀ x, x < length h → ¬ R x → hc !! x = h !! x)
    ∧ closed hc R0)) in Hloop as (K1 & F1 & C1).
  3:{ split_and!; [apply kinds_kept_refl| |done].
      intros x Hx _. by apply lookup_app_l. }
  2:{ intros key_ rem hc u1 hc' (Kc & Fc & Cc) Hkey.
      pose proof (kinds_kept_length _ _ Kc) as Hlen.
      assert (length h0 = S (length h)) as Hlen0
        by (unfold h0; rewrite length_app; simpl; lia).
      apply (merge_key_region R0) in Hkey as [Kk Fk Ck]; [|done|lia|..].
      - split_and!; [by eapply kinds_kept_trans| |].
        + intros x Hx Hr. rewrite Fk; [by apply Fc|].
          split_and!; [lia| |lia|].
          * intros [?|?]; [done|lia].
          * intros Hch. destruct (Cc t x); [by left|done|done|lia].
        + intros x l' Hx Hch. destruct (Ck x l') as [?|?]; [by left|done|done|].
          right. lia.
      - intros v [Hv|Hv] _ x ->; (eapply Cc; [|done]); by left.
      - intros x y _ _ _ Hy _. eapply Cc; [|done]. by left.
      - intros _ v [Hv|Hv] x ->; (eapply Cc; [|done]); by left. }
  assert (in_set R0 (VRef (length h))) as Hin.
  { intros x [= <-]. by right. }
  destruct (strip_flags_evolve fuel R0 _ _ _ _ C1 Hin Hstrip) as [-> He].
  apply ret_ok in H as [-> ->]. split; [done|]. split_and!.
  - eapply kinds_kept_trans; [apply kinds_kept_alloc|].
    eapply kinds_kept_trans; [done|]. by eapply kinds_kept_evolve.
  - intros x Hx Hr. rewrite (ev_frame _ _ _ He); [by apply F1|].
    intros [?|?]; [done|lia].
  - by eapply evolve_closed.
Qed.
End merge_region.

(** [_merge_settings] works inside any closed region that holds the
    template and the local dict: it writes no other object that was
    there, and what it makes refers to nothing outside. *)
Lemma merge_settings_region fuel R t l h m h' :
  closed h R → R t → R l →
  merge_settings fuel t l h = Ok (m, h') →
  m = length h ∧ region_post R h h'.
Proof.
  revert R t l h m h'. induction fuel as [|n IH]; intros R t l h m h' Hc Ht Hl H;
    [done|].
  exact (merge_settings_body_region n (merge_settings n) IH R t l h m h'
           Hc Ht Hl H).
Qed.

(** One round of the loop of [_merge_settings] at the plain key [k], when
    the template has a list under [+k] and the local dict a list under
    [k], and what lies below their items is as it was in [h]. *)
Lemma merge_key_augment R h rk n n' rec t l m k hc tkvs lkvs mkvs et el xt xl :
  graded h rk → closed h R → (∀ x, R x → hc !! x = h !! x) → ¬ R et →
  S n ≤ n' →
  hc !! t = Some (ODict tkvs) → hc !! l = Some (ODict lkvs) →
  hc !! m = Some (ODict mkvs) →
  hc !! et = Some (OList xt) → hc !! el = Some (OList xl) → el ≠ et →
  Forall (item_ok R h rk (S n)) xt → Forall (item_ok R h rk (S n)) xl →
  flagged k = false →
  dict_get (String "+" k) tkvs = Some (VRef et) →
  dict_get k lkvs = Some (VRef el) →
  ∃ mkvs',
    merge_key (S n) rec t l m k hc
    = Ok (tt, <[m := ODict mkvs']> (<[et := OList (augment_at n' h xt xl)]> hc))
    ∧ dict_get k mkvs' = Some (VRef et)
    ∧ dict_get (String "+" k) mkvs' = None
    ∧ (∀ q, q ≠ k → q ≠ String "+" k → dict_get q mkvs' = dict_get q mkvs).
Proof.
  intros Hg Hc Hag Hnet Hn Ht Hl Hm Het Hel Hne Hxt Hxl Hk Htk Hlk.
  assert (startswith k "!" = false ∧ startswith k "+" = false) as [Hbang Hplus].
  { unfold flagged in Hk. by apply orb_false_iff in Hk as [? ?]. }
  assert (m ≠ et) as Hmet by (intros ->; congruence).
  assert (et < length hc) as Hlt by by eapply lookup_lt_Some.
  unfold merge_key. cbv zeta. rewrite Hbang.
  rewrite (bind_eq _ _ _ _ _ (dict_getitem_eq _ _ _ _ _ Hl Hlk)).
  rewrite (bind_eq _ _ _ _ _ (is_key_in_eq _ k _ _ Ht)).
  assert (is_key_in_flags tkvs k ["+"; "!"; ""]%string = (true, "+"%string))
    as ->.
  { cbn [is_key_in_flags].
    change (String.append "+" k) with (String "+" k).
    unfold dict_has. by rewrite Htk. }
  change (String.append "+" k) with (String "+" k).
  set (h1 := <[et := OList (augment_at n' h xt xl)]> hc).
  assert (h1 !! m = Some (ODict mkvs)) as Hm1
    by by (unfold h1; rewrite list_lookup_insert_ne).
  set (d1 := dict_set k (VRef et) mkvs).
  match goal with
  | |- ∃ _, bind ?mm _ _ = _ ∧ _ =>
      assert (mm hc = Ok (tt, <[m := ODict d1]> h1)) as Hinner
  end.
  { rewrite (bind_eq _ _ _ _ _ (dict_getitem_eq _ _ _ _ _ Ht Htk)).
    rewrite (bind_eq _ _ _ (is_dict hc (VRef et)) hc) by done.
    rewrite (bind_eq _ _ _ (is_dict hc (VRef el)) hc) by done.
    rewrite (bind_eq _ _ _ (is_list hc (VRef et)) hc) by done.
    rewrite (bind_eq _ _ _ (is_list hc (VRef el)) hc) by done.
    assert (is_dict hc (VRef et) = false) as -> by (simpl; by rewrite Het).
    assert (is_list hc (VRef et) = true) as -> by (simpl; by rewrite Het).
    assert (is_list hc (VRef el) = true) as -> by (simpl; by rewrite Hel).
    cbn [andb negb String.eqb Ascii.eqb Bool.eqb].
    rewrite (bind_eq _ _ _ _ _
               (append_loop_augment R h rk n n' hc et el xt xl
                  Hg Hc Hag Hnet Hn Hxt Hxl Het Hel Hne)).
    by apply dict_setitem_eq. }
  rewrite (bind_eq _ _ _ _ _ Hinner).
  assert (m < length h1) as Hmlt by by eapply lookup_lt_Some.
  assert (<[m := ODict d1]> h1 !! m = Some (ODict d1)) as Hm2
    by by rewrite list_lookup_insert_eq.
  rewrite (bind_eq _ _ _ _ _ (dict_contains_eq _ (String "+" k) _ _ Hm2)).
  assert (k ≠ String "+" k) as Hkne.
  { intros Heq. apply (f_equal String.length) in Heq. simpl in Heq. lia. }
  destruct (dict_has (String "+" k) d1) eqn:Hhas; simpl.
  - rewrite (dict_delitem_eq _ _ _ _ Hm2 Hhas), list_insert_insert_eq.
    eexists. split; [done|]. split_and!.
    + rewrite dict_get_del_ne by done. apply dict_get_set_eq.
    + apply dict_get_del_eq.
    + intros q Hq1 Hq2. rewrite dict_get_del_ne by done.
      by apply dict_get_set_ne.
  - exists d1. split; [done|]. split_and!.
    + apply dict_get_set_eq.
    + unfold dict_has in Hhas. by destruct (dict_get (String "+" k) d1).
    + intros q Hq1 Hq2. by apply dict_get_set_ne.
Qed.


(** ** Reachability on a levelled heap *)

Lemma reach_trans h a b c : reach h a b → reach h b c → reach h a c.
Proof.
  induction 1 as [|v w x Hc _ IH]; [done|]. intros Hr.
  eapply reach_step; [done|]. by apply IH.
Qed.

Lemma reach_ref_source h v x : reach h v (VRef x) → ∃ y, v = VRef y.
Proof.
  intros Hr. destruct v as [| | | | |y]; [..|by eexists];
    apply reach_scalar in Hr; done.
Qed.

Lemma reach_rank h rk y x :
  graded h rk → reach h (VRef y) (VRef x) →
  x = y ∨ (rk x < rk y ∧ x < length h).
Proof.
  intros Hg Hr. remember (VRef y) as a eqn:Ea. remember (VRef x) as b eqn:Eb.
  revert y Ea. induction Hr as [v|v w x' Hc Hr IH]; intros y ->.
  { left. congruence. }
  subst x'. destruct (reach_ref_source _ _ _ Hr) as [z ->].
  destruct (Hg y z Hc) as [Hrk Hz]. right.
  destruct (IH eq_refl z eq_refl) as [->|[? ?]]; [split; [lia|done]|].
  split; [lia|done].
Qed.

(** ** The merge loop at an augmented key *)

Lemma merge_loop_augment n n' h rk t l tkvs lkvs k et el titems litems :
  graded h rk → rk t = rk l → rk t + 1 ≤ S n → S n ≤ n' →
  h !! t = Some (ODict tkvs) → h !! l = Some (ODict lkvs) →
  NoDup (dict_keys lkvs) →
  flagged k = false →
  dict_get (String "+" k) tkvs = Some (VRef et) →
  dict_get (String "!" k) tkvs = None →
  (∀ j, dict_get j tkvs = Some (VRef et) → j = String "+" k) →
  (∀ j, dict_get j tkvs ≠ Some (VRef el)) →
  dict_get k lkvs = Some (VRef el) →
  (∀ s, s ∈ [String "!" k; String "+" k; String "!" (String "+" k);
             String "!" (String "!" k)] → dict_get s lkvs = None) →
  h !! et = Some (OList titems) → h !! el = Some (OList litems) →
  (∀ x, below_items h (titems ++ litems) x →
        ¬ below_dict_entries h tkvs lkvs x) →
  ∃ h1 rk1 mkvs,
    for_each (dict_keys lkvs)
      (merge_key (S n) (merge_settings (S n)) t l (length h))
      (h ++ [ODict tkvs]) = Ok (tt, h1)
    ∧ merge_post h rk t h1 rk1
    ∧ h1 !! length h = Some (ODict mkvs)
    ∧ dict_get k mkvs = Some (VRef et)
    ∧ dict_get (String "+" k) mkvs = None
    ∧ dict_get (String "!" k) mkvs = None
    ∧ h1 !! et = Some (OList (augment_at n' h titems litems))
    ∧ (∀ x, below_items h (titems ++ litems) x → h1 !! x = h !! x).
Proof.
  intros Hg Hrk Hfuel Hn' Ht Hl Hnd Hk Htk Htb Haet Hael Hlk Hno Het Hel Hsep.
  set (kp := String "+" k) in *. set (kb := String "!" k) in *.
  assert (rk t = S (rk et) ∧ et < length h) as [Hret Hetlt].
  { apply Hg. by eapply child_dict. }
  assert (rk l = S (rk el) ∧ el < length h) as [Hrel Hellt].
  { apply Hg. by eapply child_dict. }
  assert (el ≠ et) as Hne by (intros ->; by eapply Hael).
  set (B := below_items h (titems ++ litems)).
  set (Ud := below_dict_entries h tkvs lkvs).
  set (V := λ x, Ud x ∨ length h < x).
  assert (t < length h) as Htlt by by eapply lookup_lt_Some.
  assert (l < length h) as Hllt by by eapply lookup_lt_Some.
  assert (∀ item, item ∈ titems ++ litems →
            ∀ y, item = VRef y → y < length h ∧ S (S (rk y)) = rk t) as Hitems.
  { intros item [Hi|Hi]%elem_of_app y ->;
      apply list_elem_of_lookup in Hi as [i Hi].
    - destruct (Hg et y) as [? ?]; [by eapply child_list|]. split; [done|lia].
    - destruct (Hg el y) as [? ?]; [by eapply child_list|]. split; [done|lia]. }
  assert (∀ x, B x → x < length h ∧ S (S (rk x)) ≤ rk t) as HB.
  { intros x (item & Hi & Hr).
    destruct (reach_ref_source _ _ _ Hr) as [y ->].
    destruct (Hitems _ Hi y eq_refl) as [Hy Hry].
    destruct (reach_rank _ _ _ _ Hg Hr) as [->|[? ?]]; [split; [done|lia]|].
    split; [done|lia]. }
  assert (closed h B) as HBc.
  { intros x l' (item & Hi & Hr) Hch. exists item. split; [done|].
    eapply reach_trans; [done|]. eapply reach_step; [done|apply reach_refl]. }
  assert (∀ x, Ud x → x < length h ∧ S (rk x) ≤ rk t
                       ∧ (S (rk x) = rk t → is_dict h (VRef x) = true)) as HU.
  { intros x (j & v & Hv & Hd & Hr).
    destruct (reach_ref_source _ _ _ Hr) as [y ->].
    assert (y < length h ∧ S (rk y) = rk t) as [Hy Hry].
    { destruct Hv as [Hv|Hv].
      - destruct (Hg t y) as [? ?]; [by eapply child_dict|]. split; [done|lia].
      - destruct (Hg l y) as [? ?]; [by eapply child_dict|]. split; [done|lia]. }
    destruct (reach_rank _ _ _ _ Hg Hr) as [->|[? ?]];
      (split_and!; [done|lia|]); [done|lia]. }
  assert (closed h Ud) as HUc.
  { intros x l' (j & v & Hv & Hd & Hr) Hch. exists j, v. split_and!; [done..|].
    eapply reach_trans; [done|]. eapply reach_step; [done|apply reach_refl]. }
  assert (Forall (item_ok B h rk (S n)) titems
          ∧ Forall (item_ok B h rk (S n)) litems) as [Hxt Hxl].
  { split; apply Forall_forall; intros item Hi;
      (assert (item ∈ titems ++ litems) as Hi'
         by (apply elem_of_app; eauto));
      (split; [intros y ->; exists (VRef y); split; [done|apply reach_refl]|]);
      intros y Hy; destruct (Hitems _ Hi' y Hy); split; [done|lia|done|lia]. }
  assert (¬ B et) as HBet by (intros [_ ?]%HB; lia).
  assert (¬ V et) as HVet.
  { intros [(_ & _ & Hd)%HU|?]; [|lia].
    rewrite Hret in Hd. specialize (Hd eq_refl). simpl in Hd.
    by rewrite Het in Hd. }
  set (Inv2 := λ hc : heap,
    (∀ x, B x → hc !! x = h !! x) ∧ closed hc V ∧ kinds_kept h hc).
  edestruct (for_each_total
    (λ rem hc,
       Inv2 hc ∧ (∃ rkc, merge_post h rk t hc rkc) ∧ NoDup rem
       ∧ (∀ j, j ∈ rem → j ∈ dict_keys lkvs)
       ∧ hc !! el = Some (OList litems)
       ∧ ∃ mkvs, hc !! length h = Some (ODict mkvs)
           ∧ dict_get kb mkvs = None
           ∧ ((k ∈ rem ∧ hc !! et = Some (OList titems))
              ∨ ((k ∉ rem)
                 ∧ hc !! et = Some (OList (augment_at n' h titems litems))
                 ∧ dict_get k mkvs = Some (VRef et)
                 ∧ dict_get kp mkvs = None)))
    (merge_key (S n) (merge_settings (S n)) t l (length h)) (dict_keys lkvs))
    as (h1 & Hloop & (HB1 & _ & _) & [rk1 Hp1] & _ & _ & _ & mkvs & Hm1 & Hb1
        & Hphase).
  - intros j rem hc ((HBc1 & HVc & Hkc) & [rkc Hp] & Hnd' & Hrem & Helc & mkvs
                     & Hm & Hb & Hphase).
    apply NoDup_cons in Hnd' as [Hjrem Hnd'].
    destruct (merge_key_total (S n) (merge_settings (S n))
                (λ rk0 h0 t0 l0 tk0 lk0, merge_settings_total (S n) rk0 h0 t0 l0 tk0 lk0)
                h rk t l tkvs lkvs j hc rkc)
      as (hc' & rkc' & Hrun & Hp'); [done..|apply Hrem; left|done|].
    exists hc'. split; [done|].
    pose proof Hp as (_ & _ & _ & _ & _ & Hfr).
    assert (hc !! t = Some (ODict tkvs)) as Htc.
    { rewrite Hfr; [done|by eapply lookup_lt_Some|lia]. }
    assert (hc !! l = Some (ODict lkvs)) as Hlc.
    { rewrite Hfr; [done|by eapply lookup_lt_Some|lia]. }
    assert (Inv2 hc') as Hinv2.
    { pose proof (kinds_kept_length _ _ Hkc) as Hlen.
      assert (length h < length hc) as Hmlt by by eapply lookup_lt_Some.
      assert (∀ v, child hc (VRef t) v ∨ child hc (VRef l) v →
                ∃ j, dict_get j tkvs = Some v ∨ dict_get j lkvs = Some v)
        as Hentry.
      { intros v [(o & Ho & Hch)%child_obj|(o & Ho & Hch)%child_obj];
          [rewrite Htc in Ho|rewrite Hlc in Ho]; injection Ho as <-;
          destruct Hch as [j' Hj']; exists j'; eauto. }
      assert (∀ y, child hc (VRef t) (VRef y) ∨ child hc (VRef l) (VRef y) →
                y < length h ∧ S (rk y) = rk t) as Hlevel.
      { intros y [j' [Hj'|Hj']]%Hentry.
        - destruct (Hg t y) as [? ?]; [by eapply child_dict|].
          split; [done|lia].
        - destruct (Hg l y) as [? ?]; [by eapply child_dict|].
          split; [done|lia]. }
      destruct (merge_key_region (S n) (merge_settings (S n))
                  (merge_settings_region (S n)) V t l (length h) j hc tt hc')
        as [Kk Fk Ck]; [done|done| | | |done|].
      - intros v Hv Hd y ->. destruct (Hlevel y Hv) as [Hy _].
        rewrite (kinds_kept_is_dict _ _ _ Hkc Hy) in Hd.
        destruct (Hentry _ Hv) as [j' Hj']. left.
        exists j', (VRef y). split_and!; [done..|apply reach_refl].
      - intros x y Hx Hlx HVx _ _. exfalso.
        destruct (Hlevel x (or_introl Hx)) as [Hxlt Hrx].
        destruct HVx as [(_ & _ & Hd)%HU|?]; [|lia].
        specialize (Hd Hrx).
        rewrite (kinds_kept_is_list _ _ _ Hkc Hxlt) in Hlx.
        simpl in Hd, Hlx. by destruct (h !! x) as [[|]|].
      - intros [(? & _)%HU|?]; lia.
      - split_and!.
        + intros x Hx. rewrite Fk; [by apply HBc1|].
          destruct (HB x Hx) as [Hxlt Hrx]. split_and!; [lia| |lia|].
          * intros [?|?]; [by eapply Hsep|lia].
          * intros Hch. destruct (Hlevel x (or_introl Hch)). lia.
        + intros x l' Hx Hch.
          destruct (Ck x l') as [?|?]; [by left|done|done|]. right. lia.
        + by eapply kinds_kept_trans. }
    split; [exact Hinv2|].
    split; [eauto|]. split; [done|]. split; [intros ? ?; apply Hrem; by right|].
    destruct (decide (j = k)) as [->|Hjk].
    + destruct Hphase as [[_ Hetc]|[Hin _]]; [|by destruct Hin; left].
      destruct (merge_key_augment B h rk n n' (merge_settings (S n)) t l
                  (length h) k hc tkvs lkvs mkvs et el titems litems)
        as (mkvs' & Hrun' & Hk' & Hp'k & Hother); [done..|].
      rewrite Hrun' in Hrun. injection Hrun as <-.
      assert (length h ≠ et) by lia. assert (length h ≠ el) by lia.
      assert (length h < length hc) as Hmlt by by eapply lookup_lt_Some.
      assert (et < length hc) as Hetc' by by eapply lookup_lt_Some.
      split; [|exists mkvs'; split_and!].
      * by rewrite !list_lookup_insert_ne.
      * apply list_lookup_insert_eq. by rewrite length_insert.
      * rewrite Hother; [done| |by intros [=]].
        intros Heq. apply (f_equal String.length) in Heq. simpl in Heq. lia.
      * right. split_and!; [done| |done|done].
        rewrite list_lookup_insert_ne by done.
        by apply list_lookup_insert_eq.
    + destruct (merge_key_other k lkvs j Hno) as (Hk1 & Hk2 & Hk3);
        [apply Hrem; left|done|].
      destruct (merge_key_frame (S n) h rk t l tkvs lkvs j hc rkc mkvs tt hc')
        as [(mkvs' & Hm' & Hq) Hframe]; [done..|lia|done|done|done|].
      cbv zeta in Hq, Hframe.
      set (key := if startswith j "!" then tail1 j else j) in *.
      assert (hc' !! et = hc !! et) as Hete.
      { apply Hframe; [done|lia|]. intros Heq. apply Haet in Heq.
        unfold kp in Heq. by injection Heq as Heq. }
      assert (hc' !! el = hc !! el) as Hele.
      { apply Hframe; [done|lia|exact (Hael _)]. }
      split; [by rewrite Hele|]. exists mkvs'. split; [done|].
      split.
      { destruct (Hq kb) as [->|[? _]]; [|done..].
        intros Heq. apply Hk3. by rewrite <- Heq. }
      destruct Hphase as [[Hin Hetc]|(Hin & Hetc & Hkm & Hpm)].
      * left. split; [|by rewrite Hete].
        apply elem_of_cons in Hin as [->|?]; done.
      * right. split_and!.
        -- intros ?. apply Hin. by right.
        -- by rewrite Hete.
        -- destruct (Hq k) as [->|[_ ?]]; [|done|congruence].
           intros Heq. apply Hk1. by rewrite <- Heq.
        -- destruct (Hq kp) as [->|[? _]]; [|done..].
           intros Heq. apply Hk2. by rewrite <- Heq.
  - split; cycle 1.
    { split; [eexists; by apply merge_post_alloc|]. split; [done|].
      split; [done|]. split; [by apply lookup_app_l_Some|].
      exists tkvs. split; [by rewrite lookup_app_r, Nat.sub_diag|].
      split; [done|]. left. split; [|by apply lookup_app_l_Some].
      apply dict_keys_get. by eexists. }
    split_and!.
    + intros x [? _]%HB. by apply lookup_app_l.
    + intros x l' Hx (o & Ho & Hch)%child_obj.
      apply lookup_app_Some in Ho as [Ho|[Hge Ho]].
      * destruct Hx as [Hx|Hx]; [|apply lookup_lt_Some in Ho; lia].
        left. eapply HUc; [done|]. apply child_obj. eauto.
      * apply list_lookup_singleton_Some in Ho as [Hx0 _].
        destruct Hx as [[? _]%HU|?]; lia.
    + apply kinds_kept_alloc.
  - destruct Hphase as [[?%elem_of_nil _]|(_ & Het1 & Hk1 & Hkp1)]; [done|].
    by exists h1, rk1, mkvs.
Qed.


Lemma strip_obj_iter_plain n o :
  (∀ kvs k, o = ODict kvs → k ∈ dict_keys kvs → flagged k = false) →
  Nat.iter n strip_obj o = o.
Proof.
  intros Hp. induction n as [|n IH]; [done|]. simpl. rewrite IH.
  destruct o as [kvs|xs]; [|done]. simpl. f_equal.
  apply strip_dict_plain. eauto.
Qed.

(** C1 (as amended). Let the template bind a list under [+k], for a
    plain key [k], and under no other key, and have no key [!k]; let the
    local dict bind another list under [k] and have none of the keys
    [!k], [+k], [!+k], [!!k]; let no dict at or below an item of the two
    lists have a flagged key, and let what lies at or below the items be
    shared with no dict that the template or the local dict binds.  Then
    [_merge_settings] returns, the merged dict binds [k] to the
    template's own list object, and that list now holds the template's
    items followed by the local items that were not yet in the sequence,
    by [==], when their turn came, in local order; the items are as they
    were.  In particular [{"x": [2,3]}] over [{"+x": [1,2]}] gives
    [{"x": [1,2,3]}]. *)
Theorem merge_augments_sequence :
  (∀ fuel h rk t l tkvs lkvs k et el titems litems,
     graded h rk → rk t = rk l → rk t + 2 ≤ fuel →
     h !! t = Some (ODict tkvs) → h !! l = Some (ODict lkvs) →
     NoDup (dict_keys lkvs) →
     flagged k = false →
     dict_get (String "+" k) tkvs = Some (VRef et) →
     dict_get (String "!" k) tkvs = None →
     (∀ j, dict_get j tkvs = Some (VRef et) → j = String "+" k) →
     (∀ j, dict_get j tkvs ≠ Some (VRef el)) →
     dict_get k lkvs = Some (VRef el) →
     (∀ s, s ∈ [String "!" k; String "+" k; String "!" (String "+" k);
                String "!" (String "!" k)] → dict_get s lkvs = None) →
     h !! et = Some (OList titems) → h !! el = Some (OList litems) →
     (∀ item, item ∈ titems ++ litems → good h item) →
     (∀ x, below_items h (titems ++ litems) x →
           ¬ below_dict_entries h tkvs lkvs x) →
     ∃ h' mkvs,
       merge_settings fuel t l h = Ok (length h, h')
       ∧ h' !! length h = Some (ODict mkvs)
       ∧ dict_get k mkvs = Some (VRef et)
       ∧ h' !! et = Some (OList (augment_at fuel h titems litems))
       ∧ (∀ x, below_items h (titems ++ litems) x → h' !! x = h !! x))
  ∧ Merge (TDict [("+x"%string, TList [TInt 1; TInt 2])])
          (TDict [("x"%string, TList [TInt 2; TInt 3])])
    = Ok (Some (TDict [("x"%string, TList [TInt 1; TInt 2; TInt 3])])).
Proof.
  split; [|exact merge_augment_example].
  intros fuel h rk t l tkvs lkvs k et el titems litems
    Hg Hrk Hfuel Ht Hl Hnd Hk Htk Htb Haet Hael Hlk Hno Het Hel Hgood Hsep.
  assert (rk t = S (rk et)) as Hret.
  { apply Hg. by eapply child_dict. }
  destruct fuel as [|[|n]]; [lia..|].
  destruct (merge_loop_augment n (S (S n)) h rk t l tkvs lkvs k et el
              titems litems)
    as (h1 & rk1 & mkvs & Hloop & Hp1 & Hm1 & Hk1 & Hkp1 & Hkb1 & Het1 & HB1);
    [done|done|lia|lia|done..|].
  pose proof Hp1 as (Hg1 & Hagree1 & Hmr1 & Hlen1 & _ & Hfr1).
  destruct (strip_flags_total (S n) rk1 (length h) h1) as [h2 Hstrip];
    [done|lia|].
  exists h2, (strip_keys_pure (dict_keys mkvs) mkvs).
  assert (l < length h) as Hllt by by eapply lookup_lt_Some.
  split_and!.
  - simpl. unfold merge_settings_body.
    rewrite (bind_eq _ _ _ _ _ (read_dict_eq _ _ _ Ht)).
    rewrite (bind_eq _ _ _ (length h) (h ++ [ODict tkvs])) by done.
    rewrite (bind_eq _ _ _ lkvs (h ++ [ODict tkvs]))
      by (apply read_dict_eq; by rewrite lookup_app_l).
    rewrite (bind_eq _ _ _ _ _ Hloop).
    by rewrite (bind_eq _ _ _ _ _ Hstrip).
  - eapply (strip_flags_top (S n) (λ x, rk1 x < rk1 (length h)));
      [by apply graded_closed|lia|done| |done].
    intros w Hw. by eapply graded_child_below.
  - rewrite strip_keys_pure_plain; [done..|].
    intros key_ [v Hv]%dict_keys_get. split; intros ->; congruence.
  - by eapply strip_flags_lists.
  - intros x Hx. rewrite <- (HB1 x Hx).
    destruct (strip_flags_strips _ _ _ _ _ _ Hg1 Hstrip) as [_ St].
    destruct (h1 !! x) as [o|] eqn:Ho.
    2:{ apply lookup_ge_None in Ho. apply lookup_ge_None.
        by rewrite (proj1 (strip_flags_strips _ _ _ _ _ _ Hg1 Hstrip)). }
    destruct (St _ _ Ho) as [m ->]. f_equal. apply strip_obj_iter_plain.
    intros kvs key -> Hkey. rewrite (HB1 x Hx) in Ho.
    destruct Hx as (item & Hi & Hr).
    assert (good h (VRef x)) as Hgx by by eapply good_reach; [apply Hgood|].
    by eapply (proj1 (good_elim _ _ Hgx)).
Qed.

Lemma merge_augments_sequence_witness :
  let h := [ ODict [("a"%string, VInt 1)];
             OList [VFloat (Q2Qc 2); VRef 0];
             ODict [("+x"%string, VRef 1); ("y"%string, VInt 7)];
             ODict [("a"%string, VInt 1)];
             ODict [("b"%string, VNone)];
             OList [VInt 2; VRef 3; VRef 4; VRef 4];
             ODict [("y"%string, VNone); ("x"%string, VRef 5)] ] in
  ∃ h' mkvs,
    merge_settings recursion_limit 2 6 h = Ok (7, h')
    ∧ h' !! 7 = Some (ODict mkvs)
    ∧ dict_get "x" mkvs = Some (VRef 1)
    ∧ h' !! 1 = Some (OList [VFloat (Q2Qc 2); VRef 0; VRef 4])
    ∧ h' !! 0 = Some (ODict [("a"%string, VInt 1)])
    ∧ h' !! 4 = Some (ODict [("b"%string, VNone)]).
Proof.
  intros h.
  destruct (proj1 merge_augments_sequence recursion_limit h
           (λ x, if decide (x = 2 ∨ x = 6) then 2
                 else if decide (x = 1 ∨ x = 5) then 1 else 0) 2 6
           [("+x"%string, VRef 1); ("y"%string, VInt 7)]
           [("y"%string, VNone); ("x"%string, VRef 5)]
           "x"%string 1 5 [VFloat (Q2Qc 2); VRef 0]
           [VInt 2; VRef 3; VRef 4; VRef 4])
    as (h' & mkvs & Hrun & Hm & Hx & Het & Hitems).
  - apply gradedb_sound. vm_compute. reflexivity.
  - reflexivity.
  - apply Nat.leb_le. vm_compute. reflexivity.
  - reflexivity.
  - reflexivity.
  - apply (bool_decide_unpack _). vm_compute. reflexivity.
  - reflexivity.
  - reflexivity.
  - reflexivity.
  - intros j. simpl. repeat case_match; try done.
    by intros _; apply String.eqb_eq.
  - intros j. simpl. by repeat case_match.
  - reflexivity.
  - intros s Hs. repeat (apply elem_of_cons in Hs as [->|Hs]);
      [reflexivity..|by apply elem_of_nil in Hs].
  - reflexivity.
  - reflexivity.
  - intros item Hi.
    assert (∀ x kvs, h !! x = Some (ODict kvs) →
              (∀ k, k ∈ dict_keys kvs → flagged k = false) →
              (∀ k w, dict_get k kvs = Some w → ∀ y, w ≠ VRef y) →
              good h (VRef x)) as Hdict.
    { intros x kvs Hx Hk Hw. apply good_intro.
      - intros kvs' k Hx'. rewrite Hx in Hx'. injection Hx' as <-. apply Hk.
      - intros w (o & Ho & Hch)%child_obj. rewrite Hx in Ho.
        injection Ho as <-. destruct Hch as [k Hch].
        apply good_scalar. by eapply Hw. }
    repeat (apply elem_of_cons in Hi as [->|Hi]);
      [by apply good_scalar
      |apply (Hdict 0 [("a"%string, VInt 1)] eq_refl)
      |by apply good_scalar
      |apply (Hdict 3 [("a"%string, VInt 1)] eq_refl)
      |apply (Hdict 4 [("b"%string, VNone)] eq_refl)
      |apply (Hdict 4 [("b"%string, VNone)] eq_refl)
      |by apply elem_of_nil in Hi];
      try (intros k Hk; repeat (apply elem_of_cons in Hk as [->|Hk]);
             [reflexivity|by apply elem_of_nil in Hk]);
      intros k w Hw y; simpl in Hw; repeat case_match; by simplify_eq.
  - intros x _ (j & v & Hv & Hd & _).
    simpl in Hv. repeat case_match; destruct Hv; simplify_eq; done.
  - exists h', mkvs. split_and!; [exact Hrun|exact Hm|exact Hx| | |].
    + rewrite Het. vm_compute. reflexivity.
    + rewrite (Hitems 0); [reflexivity|].
      exists (VRef 0). split; [by right; left|apply reach_refl].
    + rewrite (Hitems 4); [reflexivity|].
      exists (VRef 4). split; [by do 4 right; left|apply reach_refl].
Defined.

(** C1 as stated fails when the template also has the [!]-flagged
    spelling of the key: the augmented list is bound to ["x"] and then
    overwritten by the value of ["!x"] when the flags are stripped.  It
    fails when the local mapping has a second spelling of the key.  It
    fails when an item holds a flagged key: the flags inside the items
    are stripped after the comparison, so the template's item is changed
    and the local item that was appended is now equal to it. *)
Lemma merge_augment_shadowed :
  Merge (TDict [("+x", TList [TInt 1; TInt 2]); ("!x", TInt 7)])
        (TDict [("x", TList [TInt 2; TInt 3])])
  = Ok (Some (TDict [("x", TInt 7)]))
  ∧ Merge (TDict [("+x", TList [TInt 1; TInt 2])])
          (TDict [("x", TList [TInt 2; TInt 3]); ("!x", TList [TInt 9])])
    = Ok (Some (TDict [("x", TList [TInt 9])]))
  ∧ Merge (TDict [("+x", TList [TDict [("+a", TInt 1)]])])
          (TDict [("x", TList [TDict [("a", TInt 1)]])])
    = Ok (Some (TDict [("x", TList [TDict [("a", TInt 1)];
                                    TDict [("a", TInt 1)]])])).
Proof. split_and!; by vm_compute. Qed.
